(** * The Tencent provider of autok3s: resource-lifecycle orchestration

    A shallow embedding of [pkg/providers/tencent/tencent.go].  The provider
    struct, the node registry and the package-level timeout error are threaded
    as an explicit state; every call to the cloud SDK is appended, together
    with the answer it received, to a trace.  The cloud itself is a
    deterministic function of that trace ([Env]), so that a property proved
    for every [Env] holds for every sequential behaviour of the provider. *)

From Stdlib Require Import String Ascii List ZArith NArith Bool Lia DecimalString.
Import ListNotations.
Local Open Scope string_scope.
Local Open Scope Z_scope.
Local Open Scope list_scope.

(** ** Go library functions used by the provider *)

Module Go.

Definition maxUint64 : Z := 2 ^ 64 - 1.
Definition cutoff : Z := 2 ^ 63.

(** Two's complement wrap-around of [int64] arithmetic. *)
Definition wrap64 (z : Z) : Z := (z + cutoff) mod 2 ^ 64 - cutoff.

Definition digit (c : ascii) : option Z :=
  let n := Z.of_N (N_of_ascii c) in
  if (48 <=? n) && (n <=? 57) then Some (n - 48) else None.

(** The two errors of [strconv]. *)
Inductive NumError := ErrSyntax | ErrRange.

(** The digit loop of [strconv.ParseUint(s, 10, 64)].  It reads the bytes
    from left to right and stops at the first one that is no digit (a syntax
    error, with value 0) or at the first digit that takes the number out of
    range (a range error, with the largest value), whichever comes first. *)
Fixpoint digits (s : string) (n : Z) : Z * option NumError :=
  match s with
  | EmptyString => (n, None)
  | String c s' =>
      match digit c with
      | None => (0, Some ErrSyntax)
      | Some d =>
          if n >=? maxUint64 / 10 + 1 then (maxUint64, Some ErrRange)
          else if 10 * n + d >? maxUint64 then (maxUint64, Some ErrRange)
          else digits s' (10 * n + d)
      end
  end.

Definition parseUint (s : string) : Z * option NumError :=
  match s with
  | EmptyString => (0, Some ErrSyntax)
  | _ => digits s 0
  end.

(** [strconv.ParseUint(s, 10, 64)]: the value and whether an error is
    returned. *)
Definition ParseUint (s : string) : Z * bool :=
  match parseUint s with
  | (n, None) => (n, false)
  | (n, Some _) => (n, true)
  end.

(** [strconv.Atoi] on a 64-bit platform, which is [ParseInt(s, 10, 0)]: one
    sign is taken off, the rest goes through [ParseUint]; a syntax error
    yields 0, and a number out of range, found by [ParseUint] or here,
    yields the nearest bound. *)
Definition Atoi (s : string) : Z * bool :=
  match s with
  | EmptyString => (0, true)
  | String c rest =>
      let neg := Ascii.eqb c "-" in
      let body := if Ascii.eqb c "-" || Ascii.eqb c "+" then rest else s in
      match parseUint body with
      | (_, Some ErrSyntax) => (0, true)
      | (un, _) =>
          if negb neg && (un >=? cutoff) then (cutoff - 1, true)
          else if neg && (un >? cutoff) then (- cutoff, true)
          else (if neg then - un else un, false)
      end
  end.

(** [strings.Split(s, sep)] for a one-byte separator. *)
Fixpoint Split (s : string) (sep : ascii) : list string :=
  match s with
  | EmptyString => [EmptyString]
  | String c s' =>
      if Ascii.eqb c sep then EmptyString :: Split s' sep
      else match Split s' sep with
           | [] => [String c EmptyString]
           | h :: t => String c h :: t
           end
  end.

(** [strings.Contains]. *)
Fixpoint Contains (s substr : string) : bool :=
  if String.prefix substr s then true
  else match s with
       | EmptyString => false
       | String _ s' => Contains s' substr
       end.

Definition upper (c : ascii) : ascii :=
  let n := N_of_ascii c in
  if (97 <=? n)%N && (n <=? 122)%N then ascii_of_N (n - 32) else c.

(** Bytes below [utf8.RuneSelf]. *)
Definition isASCII (c : ascii) : bool := (N_of_ascii c <? 128)%N.

Fixpoint allASCII (s : string) : bool :=
  match s with
  | EmptyString => true
  | String c s' => isASCII c && allASCII s'
  end.

Fixpoint upperBytes (s : string) : string :=
  match s with
  | EmptyString => EmptyString
  | String c s' => String (upper c) (upperBytes s')
  end.

(** The Unicode tables of the standard library are no part of this
    development.  [Tables] stands for the two pieces of code that consult
    them: the rune-by-rune mapping [strings.Map(unicode.ToUpper, s)], and
    the rune loop of [strings.EqualFold], which decodes and folds what is
    left of its two operands. *)
Record Tables := {
  upperRunes : string -> string;
  equalFoldRunes : string -> string -> bool
}.

(** [strings.ToUpper]: a string of ASCII bytes is mapped byte by byte, any
    other string rune by rune. *)
Definition ToUpper (u : Tables) (s : string) : string :=
  if allASCII s then upperBytes s else upperRunes u s.

(** [strings.EqualFold]: as long as both strings show an ASCII byte the
    bytes are compared, equal or as the two cases of one letter; at the first
    position where either byte is not ASCII the rune loop takes over with
    what is left of both; when one string is used up, the other must be. *)
Fixpoint EqualFold (u : Tables) (s t : string) : bool :=
  match s, t with
  | EmptyString, EmptyString => true
  | String a s', String b t' =>
      if isASCII a && isASCII b then
        let sr := N.min (N_of_ascii a) (N_of_ascii b) in
        let tr := N.max (N_of_ascii a) (N_of_ascii b) in
        if (tr =? sr)%N then EqualFold u s' t'
        else if (65 <=? sr)%N && (sr <=? 90)%N && (tr =? sr + 32)%N
             then EqualFold u s' t'
             else false
      else equalFoldRunes u s t
  | _, _ => false
  end.

(** [strconv.Itoa]. *)
Definition Itoa (n : Z) : string := NilZero.string_of_int (Z.to_int n).

End Go.

(** ** Errors *)

(** A Go [error]: either one handed back by the SDK or a collaborator, or one
    built with [fmt.Errorf] from a format string and its operands. *)
Inductive error : Type :=
| SDKError (msg : string)
| Errorf (format : string) (args : list fmtArg)
with fmtArg : Type :=
| VStr (s : string)
| VInt (n : Z)
| VStrs (l : list string)
| VErr (e : option error).

(** The pair [(value, err)] of a fallible SDK call. *)
Definition result (A : Type) : Type := (error + A)%type.

(** ** Data model *)

(** [types.SSH], the fields the provider reads. *)
Record SSH := {
  User : string;
  Port : string;
  Password : string;
  SSHKeyPath : string
}.

(** [types.Node].  [PublicIPAddress] distinguishes the nil slice ([None])
    from an allocated one, since the provider tests it against nil. *)
Record Node := {
  Master : bool;
  RollBack : bool;
  Current : bool;
  InstanceID : string;
  InstanceStatus : string;
  InternalIPAddress : list string;
  PublicIPAddress : option (list string);
  EipAllocationIds : list string;
  NodeSSH : SSH
}.

Definition emptySSH : SSH :=
  {| User := ""; Port := ""; Password := ""; SSHKeyPath := "" |}.

(** SDK payloads. *)
Record Tag := { TagKey : string; TagValue : string }.

Record Filter := { FilterName : string; FilterValues : list string }.

Record Instance := {
  InstanceId : string;
  InstanceState : string;
  InstanceTags : list Tag;
  PrivateIpAddresses : list string;
  PublicIpAddresses : list string
}.

Record Address := { AddressId : string; AddressIp : string }.

Record ResourceTag := {
  ServiceType : string;
  ResourcePrefix : string;
  ResourceId : string
}.

Record Vpc := { VpcId : string }.

Record Subnet := {
  SubnetId : string;
  SubnetVpcId : string;
  SubnetCidrBlock : string
}.

Record SecurityGroupPolicy := {
  Protocol : string;
  PolicyPort : string;
  CidrBlock : string;
  Action : string;
  PolicyDescription : string
}.

Record SecurityGroupPolicySet := {
  Ingress : option (list SecurityGroupPolicy);
  Egress : list SecurityGroupPolicy
}.

Record DescribeInstancesResponse := {
  InstanceSet : list Instance;
  TotalCount : Z
}.

Record RunInstancesRequest := {
  InstanceCount : Z;
  ReqImageId : string;
  ReqInstanceType : string;
  PlacementZone : string;
  ReqSecurityGroupIds : list string;
  ReqSubnetId : string;
  ReqVpcId : string;
  DiskType : string;
  DiskSize : Z;
  LoginPassword : option string;
  LoginKeyIds : option (list string);
  InternetMaxBandwidthOutReq : Z;
  PublicIpAssigned : bool;
  InstanceName : string;
  ReqTags : list Tag
}.

(** [types.Metadata], [tencent.Options] and [types.Status]: the three structs
    embedded in the provider.  Only the fields the provider code below reads
    or writes are kept. *)
Module Metadata.
Record t := {
  Name : string;
  Master : string;
  Worker : string;
  UI : bool;
  Cluster : bool;
  DataStore : string;
  Network : string;
  MasterExtraArgs : string;
  CloudControllerManager : bool;
  Tags : list (string * string)
}.
End Metadata.

Module Options.
Record t := {
  SecretID : string;
  SecretKey : string;
  EndpointURL : string;
  Region : string;
  Zone : string;
  VpcID : string;
  SubnetID : string;
  SecurityGroupIds : string;
  KeyIds : string;
  PublicIPAssignedEIP : bool;
  NetworkRouteTableName : string;
  ImageID : string;
  InstanceType : string;
  SystemDiskSize : string;
  SystemDiskType : string;
  InternetMaxBandwidthOut : string
}.

Definition setCredential (id key : string) (o : t) : t :=
  {| SecretID := id; SecretKey := key; EndpointURL := EndpointURL o;
     Region := Region o; Zone := Zone o; VpcID := VpcID o;
     SubnetID := SubnetID o; SecurityGroupIds := SecurityGroupIds o;
     KeyIds := KeyIds o; PublicIPAssignedEIP := PublicIPAssignedEIP o;
     NetworkRouteTableName := NetworkRouteTableName o; ImageID := ImageID o;
     InstanceType := InstanceType o; SystemDiskSize := SystemDiskSize o;
     SystemDiskType := SystemDiskType o;
     InternetMaxBandwidthOut := InternetMaxBandwidthOut o |}.

Definition setVpcID (x : string) (o : t) : t :=
  {| SecretID := SecretID o; SecretKey := SecretKey o;
     EndpointURL := EndpointURL o;
     Region := Region o; Zone := Zone o; VpcID := x;
     SubnetID := SubnetID o; SecurityGroupIds := SecurityGroupIds o;
     KeyIds := KeyIds o; PublicIPAssignedEIP := PublicIPAssignedEIP o;
     NetworkRouteTableName := NetworkRouteTableName o; ImageID := ImageID o;
     InstanceType := InstanceType o; SystemDiskSize := SystemDiskSize o;
     SystemDiskType := SystemDiskType o;
     InternetMaxBandwidthOut := InternetMaxBandwidthOut o |}.

Definition setSubnetID (x : string) (o : t) : t :=
  {| SecretID := SecretID o; SecretKey := SecretKey o;
     EndpointURL := EndpointURL o;
     Region := Region o; Zone := Zone o; VpcID := VpcID o;
     SubnetID := x; SecurityGroupIds := SecurityGroupIds o;
     KeyIds := KeyIds o; PublicIPAssignedEIP := PublicIPAssignedEIP o;
     NetworkRouteTableName := NetworkRouteTableName o; ImageID := ImageID o;
     InstanceType := InstanceType o; SystemDiskSize := SystemDiskSize o;
     SystemDiskType := SystemDiskType o;
     InternetMaxBandwidthOut := InternetMaxBandwidthOut o |}.
End Options.

Module Status.
Record t := {
  MasterNodes : list Node;
  WorkerNodes : list Node
}.
End Status.

(** The provider struct.  The four SDK clients are nil or not; the node
    registry [m] (a [sync.Map] in the source) is an association list with
    unique keys whose order stands for the unspecified order of [Range]. *)
Record Tencent := {
  meta : Metadata.t;
  opts : Options.t;
  status : Status.t;
  c : bool;
  v : bool;
  t : bool;
  r : bool;
  m : list (string * Node)
}.

(** ** Provider calls and their answers *)

Inductive Event : Type :=
| EvDescribeInstances (filters : list Filter) (limit : Z) (offset : option Z)
    (res : result DescribeInstancesResponse)
| EvDescribeInstancesStatus (ids : list string)
    (res : result (list (string * string)))
| EvRunInstances (req : RunInstancesRequest) (res : result (list string))
| EvTerminateInstances (ids : list string) (res : option error)
| EvAllocateAddresses (count bandwidth : Z) (tags : list Tag)
    (res : result (list string * string))
| EvReleaseAddresses (ids : list string) (res : result string)
| EvDescribeAddresses (addressIds : list string) (filters : list Filter)
    (res : result (option (list Address)))
| EvAssociateAddress (addressID instanceID : string) (res : result string)
| EvDisassociateAddress (addressID : string) (res : result (option string))
| EvDescribeTaskResult (taskID : Z) (res : result string)
| EvDescribeResourcesByTags (filters : list Filter)
    (res : result (list ResourceTag))
| EvDescribeVpcs (filters : list Filter) (res : result (list Vpc))
| EvDescribeSubnets (subnetIds : list string) (filters : list Filter)
    (res : result (option (list Subnet)))
| EvCreateVpc (name cidr : string) (tags : list Tag) (res : result string)
| EvCreateSubnet (vpcId name zone cidr : string) (tags : list Tag)
    (res : result string)
| EvDescribeSecurityGroupPolicies (groupId : string)
    (res : result (option SecurityGroupPolicySet))
| EvCreateSecurityGroupPolicies (groupId : string)
    (ingress egress : list SecurityGroupPolicy) (res : option error)
| EvNewClient (service : string) (res : option error)
| EvUploadKeyPair (node : Node) (publicKey : string) (res : option error)
| EvLocal (op arg : string) (res : option error).

Definition History : Type := list Event.

(** The world outside the provider: constants and helpers declared in
    sibling packages ([MasterInstanceName] and [WorkerInstanceName] are the
    format constants already applied to the cluster name), the cloud's
    answers, and the local collaborators (state files, SSH, prompt).  Every
    answer may depend on everything that happened before. *)
Record Env := {
  (* pkg/types/tencent *)
  Running : string;
  Success : string;
  Failed : string;
  StatusRunning : string;
  StatusPending : string;
  ServiceTypeEIP : string;
  ResourcePrefixEIP : string;
  (* pkg/common *)
  TagClusterPrefix : string;
  MasterInstanceName : string -> string;
  WorkerInstanceName : string -> string;
  BackoffSteps : nat;
  (* pkg/providers/utils *)
  IsExistedNodes : list Node -> string -> nat * bool;
  (* cloud SDK *)
  DescribeInstances :
    History -> list Filter -> Z -> option Z -> result DescribeInstancesResponse;
  DescribeInstancesStatus :
    History -> list string -> result (list (string * string));
  RunInstances : History -> RunInstancesRequest -> result (list string);
  TerminateInstances : History -> list string -> option error;
  AllocateAddresses :
    History -> Z -> Z -> list Tag -> result (list string * string);
  ReleaseAddresses : History -> list string -> result string;
  DescribeAddresses :
    History -> list string -> list Filter -> result (option (list Address));
  AssociateAddress : History -> string -> string -> result string;
  DisassociateAddress : History -> string -> result (option string);
  DescribeTaskResult : History -> Z -> result string;
  DescribeResourcesByTags : History -> list Filter -> result (list ResourceTag);
  DescribeVpcs : History -> list Filter -> result (list Vpc);
  DescribeSubnets :
    History -> list string -> list Filter -> result (option (list Subnet));
  CreateVpc : History -> string -> string -> list Tag -> result string;
  CreateSubnet :
    History -> string -> string -> string -> string -> list Tag -> result string;
  DescribeSecurityGroupPolicies :
    History -> string -> result (option SecurityGroupPolicySet);
  CreateSecurityGroupPolicies :
    History -> string -> list SecurityGroupPolicy -> list SecurityGroupPolicy ->
    option error;
  NewClient : History -> string -> option error;
  (* the standard library *)
  unicode : Go.Tables;
  (* collaborators *)
  viperGetString : string -> string -> string;
  AskForConfirmation : History -> bool;
  SSHUploadKey : History -> Node -> string -> option error;
  Local : History -> string -> string -> option error
}.

(** ** State and control *)

Record World := {
  p : Tencent;
  trace : History;
  ErrWaitTimeout : error
}.

(** A run either returns, or stops in a Go runtime panic, or is still
    looping when the observation budget is spent. *)
Inductive Stop := PanicIndex | OutOfFuel.

Inductive Res (A : Type) : Type :=
| Ok (a : A) (w : World)
| Stuck (why : Stop) (w : World).
Arguments Ok {A} a w.
Arguments Stuck {A} why w.

(** The world a run ends in. *)
Definition worldOf {A} (x : Res A) : World :=
  match x with
  | Ok _ w => w
  | Stuck _ w => w
  end.

Definition M (A : Type) : Type := World -> Res A.

Definition ret {A} (a : A) : M A := fun w => Ok a w.

Definition bind {A B} (x : M A) (f : A -> M B) : M B :=
  fun w => match x w with
           | Ok a w' => f a w'
           | Stuck why w' => Stuck why w'
           end.

Definition panic {A} : M A := fun w => Stuck PanicIndex w.
Definition diverge {A} : M A := fun w => Stuck OutOfFuel w.

Declare Scope go_scope.
Delimit Scope go_scope with go.
Notation "x <- e ;; k" := (bind e (fun x => k))
  (at level 61, e at next level, right associativity) : go_scope.
Notation "' pat <- e ;; k" := (bind e (fun x => match x with pat => k end))
  (at level 61, pat pattern, e at next level, right associativity) : go_scope.
Notation "e ;;; k" := (bind e (fun _ => k))
  (at level 61, right associativity) : go_scope.
Local Open Scope go_scope.

Definition getP : M Tencent := fun w => Ok (p w) w.
Definition getTrace : M History := fun w => Ok (trace w) w.

Definition setP (f : Tencent -> Tencent) : M unit :=
  fun w => Ok tt {| p := f (p w); trace := trace w;
                    ErrWaitTimeout := ErrWaitTimeout w |}.

(** The world after one more call has been logged. *)
Definition logged (w : World) (e : Event) : World :=
  {| p := p w; trace := trace w ++ [e]; ErrWaitTimeout := ErrWaitTimeout w |}.

Definition emit (e : Event) : M unit := fun w => Ok tt (logged w e).

Definition setErrWaitTimeout (e : error) : M unit :=
  fun w => Ok tt {| p := p w; trace := trace w; ErrWaitTimeout := e |}.

Definition getErrWaitTimeout : M error := fun w => Ok (ErrWaitTimeout w) w.

(** One SDK call: ask the environment, log call and answer. *)
Definition call {A} (ask : History -> A) (ev : A -> Event) : M A :=
  h <- getTrace ;;
  let a := ask h in
  emit (ev a) ;;;
  ret a.

Definition withOpts (f : Options.t -> Options.t) (x : Tencent) : Tencent :=
  {| meta := meta x; opts := f (opts x); status := status x;
     c := c x; v := v x; t := t x; r := r x; m := m x |}.

Definition withStatus (f : Status.t -> Status.t) (x : Tencent) : Tencent :=
  {| meta := meta x; opts := opts x; status := f (status x);
     c := c x; v := v x; t := t x; r := r x; m := m x |}.

Definition withM (f : list (string * Node) -> list (string * Node))
  (x : Tencent) : Tencent :=
  {| meta := meta x; opts := opts x; status := status x;
     c := c x; v := v x; t := t x; r := r x; m := f (m x) |}.

Definition ProviderName : string := "tencent".
Definition defaultRegion : string := "ap-guangzhou".
Definition defaultZone : string := "ap-guangzhou-3".
Definition vpcName : string := "autok3s-tencent-vpc".
Definition subnetName : string := "autok3s-tencent-subnet".
Definition vpcCidrBlock : string := "192.168.0.0/16".
Definition subnetCidrBlock : string := "192.168.3.0/24".
Definition ipRange : string := "0.0.0.0/0".
Definition instanceChargeType : string := "POSTPAID_BY_HOUR".
Definition internetChargeType : string := "TRAFFIC_POSTPAID_BY_HOUR".
Definition secretID : string := "secret-id".
Definition secretKey : string := "secret-key".

Definition withClients (c' v' t' r' : bool) (x : Tencent) : Tencent :=
  {| meta := meta x; opts := opts x; status := status x;
     c := c'; v := v'; t := t'; r := r'; m := m x |}.

(** ** The node registry *)

(** [p.m.Load(key)], [p.m.Store(key, value)].  Storing under a key already
    present replaces the value where it stands. *)
Fixpoint Load (key : string) (reg : list (string * Node)) : option Node :=
  match reg with
  | [] => None
  | (k, n) :: rest => if String.eqb k key then Some n else Load key rest
  end.

Fixpoint Store (key : string) (value : Node) (reg : list (string * Node))
  : list (string * Node) :=
  match reg with
  | [] => [(key, value)]
  | (k, n) :: rest =>
      if String.eqb k key then (k, value) :: rest
      else (k, n) :: Store key value rest
  end.

(** [p.m.Range(f)] visits the entries in the order of the list.  Every
    callback in the provider stores at most under the key being visited, so
    the loops below run over the entries as they stood when [Range] began,
    carrying the variables the closure captures as explicit arguments. *)

(** ** [k8s.io/apimachinery/pkg/util/wait] *)

(** [wait.ExponentialBackoff]: the condition is tried at most [steps] times;
    an error or a true answer ends the wait, and a spent budget returns the
    package-level [wait.ErrWaitTimeout] as it stands at that moment. *)
Fixpoint ExponentialBackoff (steps : nat) (condition : M (bool * option error))
  : M (option error) :=
  match steps with
  | O => e <- getErrWaitTimeout ;; ret (Some e)
  | S steps' =>
      '(ok, err) <- condition ;;
      match err with
      | Some e => ret (Some e)
      | None => if ok then ret None else ExponentialBackoff steps' condition
      end
  end.

(** ** Thin wrappers over the SDK *)

Definition clusterFilters (env : Env) (pp : Tencent) : list Filter :=
  [ {| FilterName := "tag:autok3s"; FilterValues := ["true"] |};
    {| FilterName := "tag:cluster";
       FilterValues := [(TagClusterPrefix env ++ Metadata.Name (meta pp))%string] |} ].

Definition generateClientSDK (env : Env) : M (option error) :=
  pp <- getP ;;
  let o := opts pp in
  let id := if String.eqb (Options.SecretID o) ""
            then viperGetString env ProviderName secretID
            else Options.SecretID o in
  let key := if String.eqb (Options.SecretKey o) ""
             then viperGetString env ProviderName secretKey
             else Options.SecretKey o in
  setP (withOpts (Options.setCredential id key)) ;;;
  e1 <- call (fun h => NewClient env h "cvm") (EvNewClient "cvm") ;;
  match e1 with
  | Some err => ret (Some err)
  | None =>
      setP (fun x => withClients true (v x) (t x) (r x) x) ;;;
      e2 <- call (fun h => NewClient env h "vpc") (EvNewClient "vpc") ;;
      match e2 with
      | Some err => ret (Some err)
      | None =>
          setP (fun x => withClients (c x) true (t x) (r x) x) ;;;
          e3 <- call (fun h => NewClient env h "tag") (EvNewClient "tag") ;;
          match e3 with
          | Some err => ret (Some err)
          | None =>
              setP (fun x => withClients (c x) (v x) true (r x) x) ;;;
              e4 <- call (fun h => NewClient env h "tke") (EvNewClient "tke") ;;
              match e4 with
              | Some err => ret (Some err)
              | None =>
                  setP (fun x => withClients (c x) (v x) (t x) true x) ;;;
                  ret None
              end
          end
      end
  end.

(** The paging loop of [describeInstances].  [fuel] bounds the number of
    pages observed: the source loops for as long as the cloud keeps
    reporting a total beyond the offset. *)
Fixpoint describeInstancesFrom (fuel : nat) (env : Env) (filters : list Filter)
  (offset : option Z) (index : Z) (instanceList : list Instance)
  : M (result (list Instance)) :=
  match fuel with
  | O => diverge
  | S fuel' =>
      let limit := 20 in
      response <- call (fun h => DescribeInstances env h filters limit offset)
                       (EvDescribeInstances filters limit offset) ;;
      match response with
      | inl err => ret (inl err)
      | inr resp =>
          match InstanceSet resp with
          | [] => ret (inr instanceList)
          | _ =>
              let total := TotalCount resp in
              let instanceList := instanceList ++ InstanceSet resp in
              let offset' := Go.wrap64 (Go.wrap64 (limit * index) + limit) in
              let index' := Go.wrap64 (index + 1) in
              if offset' >=? total then ret (inr instanceList)
              else describeInstancesFrom fuel' env filters (Some offset')
                     index' instanceList
          end
      end
  end.

Definition describeInstances (fuel : nat) (env : Env)
  : M (result (list Instance)) :=
  pp <- getP ;;
  describeInstancesFrom fuel env (clusterFilters env pp) None 0 [].

Definition terminateInstances (env : Env) (instanceIds : list string)
  : M (option error) :=
  err <- call (fun h => TerminateInstances env h instanceIds)
              (EvTerminateInstances instanceIds) ;;
  match err with
  | Some e =>
      ret (Some (Errorf "[%s] calling deleteInstance error, msg: %v"
                   [VStr ProviderName; VErr (Some e)]))
  | None => ret None
  end.

(** A task identifier arrives as a decimal string. *)
Definition convertTaskID (taskId : string) : Z * option error :=
  let '(taskID, bad) := Go.ParseUint taskId in
  if bad
  then (0, Some (Errorf "[%s] error when convert taskID: %s"
                   [VStr ProviderName; VStr taskId]))
  else (taskID, None).

Definition allocateAddresses (env : Env) (num : Z)
  : M (list string * Z * option error) :=
  pp <- getP ;;
  let bandwidth := fst (Go.Atoi (Options.InternetMaxBandwidthOut (opts pp))) in
  let tags := [ {| TagKey := "autok3s"; TagValue := "true" |};
                {| TagKey := "cluster";
                   TagValue := (TagClusterPrefix env ++ Metadata.Name (meta pp))%string |} ] in
  response <- call (fun h => AllocateAddresses env h num bandwidth tags)
                   (EvAllocateAddresses num bandwidth tags) ;;
  match response with
  | inl e =>
      ret ([], 0, Some (Errorf "[%s] calling allocateAddresses error, msg: %v"
                          [VStr ProviderName; VErr (Some e)]))
  | inr (addressSet, taskId) =>
      match convertTaskID taskId with
      | (_, Some e) => ret ([], 0, Some e)
      | (taskID, None) => ret (addressSet, taskID, None)
      end
  end.

Definition releaseAddresses (env : Env) (addressIds : list string)
  : M (Z * option error) :=
  response <- call (fun h => ReleaseAddresses env h addressIds)
                   (EvReleaseAddresses addressIds) ;;
  match response with
  | inl e =>
      ret (0, Some (Errorf "[%s] calling releaseAddresses error, msg: %v"
                      [VStr ProviderName; VErr (Some e)]))
  | inr taskId => ret (convertTaskID taskId)
  end.

Definition describeAddresses (env : Env) (addressIds instanceIds : list string)
  : M (option (list Address) * option error) :=
  let '(ids, filters) :=
    match instanceIds with
    | [] => (addressIds, [])
    | _ =>
        ([], {| FilterName := "instance-id"; FilterValues := instanceIds |} ::
             match addressIds with
             | [] => []
             | _ => [ {| FilterName := "address-id"; FilterValues := addressIds |} ]
             end)
    end in
  response <- call (fun h => DescribeAddresses env h ids filters)
                   (EvDescribeAddresses ids filters) ;;
  match response with
  | inl e =>
      ret (None, Some (Errorf "[%s] calling describeAddresses error, msg: %v"
                         [VStr ProviderName; VErr (Some e)]))
  | inr addressSet => ret (addressSet, None)
  end.

Definition associateAddress (env : Env) (addressID instanceID : string)
  : M (Z * option error) :=
  response <- call (fun h => AssociateAddress env h addressID instanceID)
                   (EvAssociateAddress addressID instanceID) ;;
  match response with
  | inl e =>
      ret (0, Some (Errorf "[%s] calling associateAddress error, msg: %v"
                      [VStr ProviderName; VErr (Some e)]))
  | inr taskId => ret (convertTaskID taskId)
  end.

Definition disassociateAddress (env : Env) (addressID : string)
  : M (Z * option error) :=
  response <- call (fun h => DisassociateAddress env h addressID)
                   (EvDisassociateAddress addressID) ;;
  match response with
  | inl e =>
      ret (0, Some (Errorf "[%s] calling associateAddress error, msg: %v"
                      [VStr ProviderName; VErr (Some e)]))
  | inr None => ret (0, None)
  | inr (Some taskId) => ret (convertTaskID taskId)
  end.

(** The condition polled by [describeVpcTaskResult]. *)
Definition taskResultCondition (env : Env) (taskID : Z)
  : M (bool * option error) :=
  response <- call (fun h => DescribeTaskResult env h taskID)
                   (EvDescribeTaskResult taskID) ;;
  match response with
  | inl _ => ret (false, None)
  | inr result =>
      let s := Go.ToUpper (unicode env) result in
      if String.eqb s (Running env) then ret (false, None)
      else if String.eqb s (Success env) then ret (true, None)
      else if String.eqb s (Failed env)
      then ret (true, Some (Errorf "[%s] task failed %d"
                              [VStr ProviderName; VInt taskID]))
      else ret (true, None)
  end.

Definition describeVpcTaskResult (env : Env) (taskID : Z) : M (option error) :=
  pp <- getP ;;
  setErrWaitTimeout
    (Errorf "[%s] calling describeVpcTaskResult error. region: %s, zone: %s, taskId: %d"
       [VStr ProviderName; VStr (Options.Region (opts pp));
        VStr (Options.Zone (opts pp)); VInt taskID]) ;;;
  ExponentialBackoff (BackoffSteps env) (taskResultCondition env taskID).

Definition describeResourcesByTags (env : Env)
  : M (list ResourceTag * option error) :=
  pp <- getP ;;
  let filters := [ {| FilterName := "autok3s"; FilterValues := ["true"] |};
                   {| FilterName := "cluster";
                      FilterValues := [(TagClusterPrefix env ++ Metadata.Name (meta pp))%string] |} ] in
  response <- call (fun h => DescribeResourcesByTags env h filters)
                   (EvDescribeResourcesByTags filters) ;;
  match response with
  | inl e => ret ([], Some e)
  | inr rows => ret (rows, None)
  end.

Definition IsClusterExist (fuel : nat) (env : Env)
  : M (bool * list string * option error) :=
  pp <- getP ;;
  e <- (if c pp then ret None else generateClientSDK env) ;;
  match e with
  | Some err => ret (false, [], Some err)
  | None =>
      res <- describeInstances fuel env ;;
      match res with
      | inl err => ret (false, [], Some err)
      | inr instanceList =>
          match instanceList with
          | [] => ret (false, [], None)
          | _ => ret (true, map InstanceId instanceList, None)
          end
      end
  end.

(** ** Delete *)

Definition isTaggedEIP (env : Env) (resource : ResourceTag) : bool :=
  Go.EqualFold (unicode env) (ServiceTypeEIP env) (ServiceType resource) &&
  Go.EqualFold (unicode env) (ResourcePrefixEIP env) (ResourcePrefix resource).

(** The first loop of [deleteCluster]: one disassociate call per tagged
    address.  A failed call is logged; the address is kept for release either
    way, and only a non-zero task identifier is kept for waiting. *)
Fixpoint disassociateTagged (env : Env) (taggedResource : list ResourceTag)
  (eipIds : list string) (taskIds : list Z) : M (list string * list Z) :=
  match taggedResource with
  | [] => ret (eipIds, taskIds)
  | resource :: rest =>
      if isTaggedEIP env resource && negb (String.eqb (ResourceId resource) "")
      then
        let eipID := ResourceId resource in
        '(taskID, _) <- disassociateAddress env eipID ;;
        disassociateTagged env rest (eipIds ++ [eipID])
          (if taskID =? 0 then taskIds else taskIds ++ [taskID])
      else disassociateTagged env rest eipIds taskIds
  end.

(** [for _, taskID := range taskIds]: each task is waited for in turn and a
    failed wait is only logged. *)
Fixpoint waitTasks (env : Env) (taskIds : list Z) : M unit :=
  match taskIds with
  | [] => ret tt
  | taskID :: rest =>
      _ <- describeVpcTaskResult env taskID ;;
      waitTasks env rest
  end.

Definition local (env : Env) (op arg : string) : M (option error) :=
  call (fun h => Local env h op arg) (EvLocal op arg).

(** The tail of [deleteCluster], after the instances have been dealt with. *)
Definition deleteLocalState (env : Env) (f : bool) : M (option error) :=
  pp <- getP ;;
  let name := Metadata.Name (meta pp) in
  err <- local env "cluster.OverwriteCfg" name ;;
  match err, f with
  | Some e, false =>
      ret (Some (Errorf "[%s] synchronizing .cfg file error, msg: %v"
                   [VStr ProviderName; VErr (Some e)]))
  | _, _ =>
      err <- local env "cluster.DeleteState" name ;;
      match err, f with
      | Some e, false =>
          ret (Some (Errorf "[%s] synchronizing .state file error, msg: %v"
                       [VStr ProviderName; VErr (Some e)]))
      | _, _ =>
          err <- local env "os.RemoveAll" name ;;
          match err, f with
          | Some e, false =>
              ret (Some (Errorf "[%s] remove cluster store folder (%s) error, msg: %v"
                           [VStr ProviderName; VStr name; VErr (Some e)]))
          | _, _ =>
              _ <- local env "os.Remove" name ;;
              ret None
          end
      end
  end.

Definition deleteCluster (fuel : nat) (env : Env) (f : bool) : M (option error) :=
  pp <- getP ;;
  '(exist', ids, err) <- IsClusterExist fuel env ;;
  match err with
  | Some e => ret (Some e)
  | None =>
      if negb exist' then
        if negb f
        then ret (Some (Errorf "[%s] calling preflight error: cluster name `%s` do not exist"
                          [VStr ProviderName; VStr (Metadata.Name (meta pp))]))
        else ret None
      else
        (* from here on [err] is the error of the tagged-resource query *)
        '(taggedResource, err) <- describeResourcesByTags env ;;
        eipIds <- match taggedResource with
                  | [] => ret []
                  | _ =>
                      '(eipIds, taskIds) <- disassociateTagged env taggedResource [] [] ;;
                      waitTasks env taskIds ;;;
                      ret eipIds
                  end ;;
        match eipIds with
        | [] => ret tt
        | _ =>
            '(taskID, _) <- releaseAddresses env eipIds ;;
            _ <- describeVpcTaskResult env taskID ;;
            ret tt
        end ;;;
        terminated <- match err, ids with
                      | None, _ :: _ => terminateInstances env ids
                      | _, _ => ret None
                      end ;;
        match terminated with
        | Some e =>
            ret (Some (Errorf "[%s] calling deleteInstance error, msg: %v"
                         [VStr ProviderName; VErr (Some e)]))
        | None =>
            match err, f with
            | Some e, false =>
                ret (Some (Errorf "[%s] calling deleteCluster error, msg: %v"
                             [VStr ProviderName; VErr (Some e)]))
            | _, _ => deleteLocalState env f
            end
        end
  end.

Definition DeleteK3sCluster (fuel : nat) (env : Env) (f : bool) : M (option error) :=
  pp <- getP ;;
  let name := Metadata.Name (meta pp) in
  isConfirmed <- (if negb f
                  then h <- getTrace ;; ret (AskForConfirmation env h)
                  else ret true) ;;
  if isConfirmed then
    err <- local env "common.GetLogFile" name ;;
    match err with
    | Some e => ret (Some e)
    | None =>
        res <- (err <- generateClientSDK env ;;
                match err with
                | Some e => ret (Some e)
                | None => deleteCluster fuel env f
                end) ;;
        (* deferred: close the log, remove log and state files *)
        _ <- local env "logFile.Close" name ;;
        _ <- local env "os.Remove" name ;;
        _ <- local env "os.Remove" (name ++ "_Running")%string ;;
        _ <- local env "os.Remove" (name ++ "_Failed")%string ;;
        ret res
    end
  else ret None.

(** ** Rollback *)

(** The address loop of [Rollback]: every address is kept for release, a
    task identifier only when the disassociate call succeeded. *)
Fixpoint disassociateAll (env : Env) (eips : list Address)
  (eipIds : list string) (taskIds : list Z) : M (list string * list Z) :=
  match eips with
  | [] => ret (eipIds, taskIds)
  | eip :: rest =>
      '(taskID, err) <- disassociateAddress env (AddressId eip) ;;
      disassociateAll env rest (eipIds ++ [AddressId eip])
        (match err with
         | Some _ => taskIds
         | None => taskIds ++ [taskID]
         end)
  end.

Definition rollbackIds (reg : list (string * Node)) : list string :=
  map fst (filter (fun kv => RollBack (snd kv)) reg).

Definition Rollback (env : Env) : M (option error) :=
  pp <- getP ;;
  let name := Metadata.Name (meta pp) in
  err <- local env "common.GetLogFile" name ;;
  match err with
  | Some e => ret (Some e)
  | None =>
      let ids := rollbackIds (m pp) in
      res <- match ids with
             | [] => ret None
             | _ =>
                 (if Options.PublicIPAssignedEIP (opts pp) then
                    '(eips, _) <- describeAddresses env [] ids ;;
                    '(eipIds, taskIds) <-
                      disassociateAll env (match eips with
                                           | Some l => l
                                           | None => []
                                           end) [] [] ;;
                    waitTasks env taskIds ;;;
                    '(taskID, _) <- releaseAddresses env eipIds ;;
                    _ <- describeVpcTaskResult env taskID ;;
                    ret tt
                  else ret tt) ;;;
                 setErrWaitTimeout
                   (Errorf ("[%s] calling rollback error, please remove the cloud provider instances manually. region: %s, " ++
                            "instanceName: %s, msg: the maximum number of attempts reached")%string
                      [VStr ProviderName; VStr (Options.Region (opts pp)); VStrs ids]) ;;;
                 ExponentialBackoff 5
                   (err <- terminateInstances env ids ;;
                    match err with
                    | Some _ => ret (false, None)
                    | None => ret (true, None)
                    end)
             end ;;
      match res with
      | Some e => ret (Some e)
      | None =>
          err <- local env "os.RemoveAll" name ;;
          match err with
          | Some e =>
              ret (Some (Errorf "[%s] remove cluster store folder (%s) error, msg: %v"
                           [VStr ProviderName; VStr name; VErr (Some e)]))
          | None => local env "logFile.Close" name
          end
      end
  end.

(** ** Launching instances *)

Definition launchedNode (env : Env) (master : bool) (id : string) : Node :=
  {| Master := master; RollBack := true; Current := false; InstanceID := id;
     InstanceStatus := StatusPending env; InternalIPAddress := [];
     PublicIPAddress := None; EipAllocationIds := []; NodeSSH := emptySSH |}.

Definition runInstancesRequest (env : Env) (pp : Tencent) (num : Z)
  (master : bool) (password : string) : RunInstancesRequest :=
  let o := opts pp in
  let name := Metadata.Name (meta pp) in
  {| InstanceCount := num;
     ReqImageId := Options.ImageID o;
     ReqInstanceType := Options.InstanceType o;
     PlacementZone := Options.Zone o;
     ReqSecurityGroupIds := Go.Split (Options.SecurityGroupIds o) ",";
     ReqSubnetId := Options.SubnetID o;
     ReqVpcId := Options.VpcID o;
     DiskType := Options.SystemDiskType o;
     DiskSize := fst (Go.Atoi (Options.SystemDiskSize o));
     LoginPassword := if String.eqb password "" then None else Some password;
     LoginKeyIds := if String.eqb (Options.KeyIds o) "" then None
                    else Some [Options.KeyIds o];
     InternetMaxBandwidthOutReq := fst (Go.Atoi (Options.InternetMaxBandwidthOut o));
     PublicIpAssigned := negb (Options.PublicIPAssignedEIP o);
     InstanceName := if master then MasterInstanceName env name
                     else WorkerInstanceName env name;
     ReqTags :=
       [ {| TagKey := "autok3s"; TagValue := "true" |};
         {| TagKey := "cluster"; TagValue := (TagClusterPrefix env ++ name)%string |} ]
       ++ map (fun kv => {| TagKey := fst kv; TagValue := snd kv |})
              (Metadata.Tags (meta pp))
       ++ [ {| TagKey := if master then "master" else "worker";
               TagValue := "true" |} ] |}.

Definition storeLaunched (env : Env) (master : bool) (ids : list string)
  (reg : list (string * Node)) : list (string * Node) :=
  fold_left (fun acc id => Store id (launchedNode env master id) acc) ids reg.

Definition runInstances (env : Env) (num : Z) (master : bool) (password : string)
  : M (option error) :=
  pp <- getP ;;
  let request := runInstancesRequest env pp num master password in
  response <- call (fun h => RunInstances env h request) (EvRunInstances request) ;;
  let failure err :=
    Errorf ("[%s] calling runInstances error. region: %s, zone: %s, " ++
            "instanceName: %s, msg: [%v]")%string
      [VStr ProviderName; VStr (Options.Region (opts pp));
       VStr (Options.Zone (opts pp)); VStr (InstanceName request); VErr err] in
  match response with
  | inl err => ret (Some (failure (Some err)))
  | inr instanceIdSet =>
      if negb (Z.of_nat (length instanceIdSet) =? num)
      then ret (Some (failure None))
      else
        setP (withM (storeLaunched env master instanceIdSet)) ;;;
        ret None
  end.

(** ** Floating addresses *)

Definition withAddress (a : Address) (n : Node) : Node :=
  {| Master := Master n; RollBack := RollBack n; Current := Current n;
     InstanceID := InstanceID n; InstanceStatus := InstanceStatus n;
     InternalIPAddress := InternalIPAddress n;
     PublicIPAddress := Some (match PublicIPAddress n with
                              | Some l => l
                              | None => []
                              end ++ [AddressIp a]);
     EipAllocationIds := EipAllocationIds n ++ [AddressId a];
     NodeSSH := NodeSSH n |}.

Definition isNil {A} (s : option (list A)) : bool :=
  match s with
  | None => true
  | Some _ => false
  end.

(** The [Range] callback of [allocateEIPForInstance], run over the registry
    entries in iteration order.  [eipAddresses] and [eipIds] are the two
    variables the closure captures.  Indexing an exhausted [eipAddresses]
    panics; a failed association answers false, which ends the iteration
    before the node is stored. *)
Fixpoint associateNodes (env : Env) (master : bool)
  (entries : list (string * Node)) (eipAddresses : list Address)
  (eipIds : list Z) : M (list Z) :=
  match entries with
  | [] => ret eipIds
  | (_, n) :: rest =>
      if Bool.eqb (Master n) master && isNil (PublicIPAddress n) then
        match eipAddresses with
        | [] => panic
        | a :: tail =>
            let n' := withAddress a n in
            '(taskID, err) <- associateAddress env (AddressId a) (InstanceID n') ;;
            match err with
            | Some _ => ret eipIds
            | None =>
                setP (withM (Store (InstanceID n') n')) ;;;
                associateNodes env master rest tail (eipIds ++ [taskID])
            end
        end
      else associateNodes env master rest eipAddresses eipIds
  end.

Definition allocateEIPForInstance (env : Env) (num : Z) (master : bool)
  : M (list Z * option error) :=
  '(eips, taskID, err) <- allocateAddresses env num ;;
  match err with
  | Some e => ret ([], Some e)
  | None =>
      err <- describeVpcTaskResult env taskID ;;
      match err with
      | Some e => ret ([], Some e)
      | None =>
          '(eipAddresses, err) <- describeAddresses env eips [] ;;
          match err with
          | Some e => ret ([], Some e)
          | None =>
              match eipAddresses with
              | None => ret ([], None)
              | Some addresses =>
                  pp <- getP ;;
                  eipIds <- associateNodes env master (m pp) addresses [] ;;
                  ret (eipIds, None)
              end
          end
      end
  end.

(** ** Discovery: merging described instances into the registry *)

Definition isMasterTagged (env : Env) (tags : list Tag) : bool :=
  existsb (fun tg => Go.EqualFold (unicode env) (TagKey tg) "master" &&
                     Go.EqualFold (unicode env) (TagValue tg) "true") tags.

Definition uploadKeyPair (env : Env) (node : Node) (publicKey : string)
  : M (option error) :=
  call (fun h => SSHUploadKey env h node publicKey) (EvUploadKeyPair node publicKey).

Definition withSSH (s : SSH) (n : Node) : Node :=
  {| Master := Master n; RollBack := RollBack n; Current := Current n;
     InstanceID := InstanceID n; InstanceStatus := InstanceStatus n;
     InternalIPAddress := InternalIPAddress n;
     PublicIPAddress := PublicIPAddress n;
     EipAllocationIds := EipAllocationIds n; NodeSSH := s |}.

Definition withInstanceStatus (st : string) (n : Node) : Node :=
  {| Master := Master n; RollBack := RollBack n; Current := Current n;
     InstanceID := InstanceID n; InstanceStatus := st;
     InternalIPAddress := InternalIPAddress n;
     PublicIPAddress := PublicIPAddress n;
     EipAllocationIds := EipAllocationIds n; NodeSSH := NodeSSH n |}.

(** The update of a node already in the registry (lines 1048-1054). *)
Definition touched (status : Instance) (eip : list string) (ssh : SSH)
  (n : Node) : Node :=
  {| Master := Master n; RollBack := RollBack n; Current := true;
     InstanceID := InstanceID n; InstanceStatus := InstanceStatus n;
     InternalIPAddress := PrivateIpAddresses status;
     PublicIPAddress := Some (PublicIpAddresses status);
     EipAllocationIds := eip; NodeSSH := ssh |}.

(** The node stored for an instance the registry did not know. *)
Definition discoveredNode (env : Env) (status : Instance) (eip : list string)
  : Node :=
  {| Master := isMasterTagged env (InstanceTags status); RollBack := false;
     Current := false; InstanceID := InstanceId status;
     InstanceStatus := StatusRunning env;
     InternalIPAddress := PrivateIpAddresses status;
     PublicIPAddress := Some (PublicIpAddresses status);
     EipAllocationIds := eip; NodeSSH := emptySSH |}.

Definition clearPassword (s : SSH) : SSH :=
  {| User := User s; Port := Port s; Password := ""; SSHKeyPath := SSHKeyPath s |}.

Definition addressIdsOf (eipInfos : option (list Address)) : list string :=
  match eipInfos with
  | Some l => map AddressId l
  | None => []
  end.

(** The loop of [assembleInstanceStatus]; [Some err] is the early return. *)
Fixpoint assembleEach (env : Env) (ssh : SSH) (upload : bool)
  (publicKey : string) (instanceList : list Instance) : M (option error) :=
  match instanceList with
  | [] => ret None
  | status :: rest =>
      pp <- getP ;;
      queried <- (if Options.PublicIPAssignedEIP (opts pp) then
                    '(eipInfos, err) <- describeAddresses env [] [InstanceId status] ;;
                    match err with
                    | Some e => ret (inl e)
                    | None => ret (inr (addressIdsOf eipInfos))
                    end
                  else ret (inr [])) ;;
      match queried with
      | inl e => ret (Some e)
      | inr eip =>
          pp <- getP ;;
          match Load (InstanceId status) (m pp) with
          | Some n =>
              let n' := touched status eip ssh n in
              if upload then
                err <- uploadKeyPair env n' publicKey ;;
                match err with
                | Some e => ret (Some e)
                | None =>
                    setP (withM (Store (InstanceId status)
                                   (withSSH (clearPassword ssh) n'))) ;;;
                    assembleEach env ssh upload publicKey rest
                end
              else
                setP (withM (Store (InstanceId status) n')) ;;;
                assembleEach env ssh upload publicKey rest
          | None =>
              setP (withM (Store (InstanceId status)
                             (discoveredNode env status eip))) ;;;
              assembleEach env ssh upload publicKey rest
          end
      end
  end.

Definition needsSSH (s : SSH) : bool :=
  String.eqb (User s) "" || String.eqb (Port s) "" ||
  (String.eqb (Password s) "" && String.eqb (SSHKeyPath s) "").

Fixpoint setNth {A} (i : nat) (x : A) (l : list A) : list A :=
  match l, i with
  | [], _ => []
  | _ :: tl, O => x :: tl
  | hd :: tl, S i' => hd :: setNth i' x tl
  end.

(** One step of the [Range] in [syncNodeStatusWithInstance]. *)
Definition syncNode (env : Env) (ssh : option SSH) (n : Node) (st : Status.t)
  : Status.t :=
  let nodes := if Master n then Status.MasterNodes st else Status.WorkerNodes st in
  let '(index, b) := IsExistedNodes env nodes (InstanceID n) in
  let nodes' :=
    if negb b then nodes ++ [n]
    else match nth_error nodes index with
         | None => nodes
         | Some node =>
             let node := match ssh with
                         | Some s => if needsSSH (NodeSSH node)
                                     then withSSH s node else node
                         | None => node
                         end in
             setNth index (withInstanceStatus (InstanceStatus n) node) nodes
         end in
  if Master n
  then {| Status.MasterNodes := nodes'; Status.WorkerNodes := Status.WorkerNodes st |}
  else {| Status.MasterNodes := Status.MasterNodes st; Status.WorkerNodes := nodes' |}.

Definition syncNodeStatusWithInstance (env : Env) (ssh : option SSH) : M unit :=
  pp <- getP ;;
  setP (withStatus (fun st =>
          fold_left (fun acc kv => syncNode env ssh (snd kv) acc) (m pp) st)).

(** [types.Cluster], as far as the provider fills it in. *)
Record Cluster := {
  ClusterMetadata : Metadata.t;
  ClusterOptions : Options.t;
  ClusterStatus : Status.t
}.

Definition assembleInstanceStatus (fuel : nat) (env : Env) (ssh : SSH)
  (upload : bool) (publicKey : string) : M (result Cluster) :=
  pp <- getP ;;
  res <- describeInstances fuel env ;;
  match res with
  | inl err =>
      ret (inl (Errorf "[%s] failed to list instance for cluster %s, region: %s, zone: %s: %v"
                  [VStr ProviderName; VStr (Metadata.Name (meta pp));
                   VStr (Options.Region (opts pp)); VStr (Options.Zone (opts pp));
                   VErr (Some err)]))
  | inr instanceList =>
      err <- assembleEach env ssh upload publicKey instanceList ;;
      match err with
      | Some e => ret (inl e)
      | None =>
          syncNodeStatusWithInstance env (Some ssh) ;;;
          pp <- getP ;;
          ret (inr {| ClusterMetadata := meta pp; ClusterOptions := opts pp;
                      ClusterStatus := status pp |})
      end
  end.

(** The node [syncClusterInstance] stores for every described instance. *)
Definition syncedNode (env : Env) (instance : Instance) (eip : list string) (ssh : SSH)
  : Node :=
  {| Master := isMasterTagged env (InstanceTags instance); RollBack := false;
     Current := false; InstanceID := InstanceId instance;
     InstanceStatus := InstanceState instance;
     InternalIPAddress := PrivateIpAddresses instance;
     PublicIPAddress := Some (PublicIpAddresses instance);
     EipAllocationIds := eip; NodeSSH := ssh |}.

Fixpoint syncEach (env : Env) (ssh : SSH) (instanceList : list Instance)
  : M unit :=
  match instanceList with
  | [] => ret tt
  | instance :: rest =>
      pp <- getP ;;
      queried <- (if Options.PublicIPAssignedEIP (opts pp) then
                    '(eipInfos, err) <- describeAddresses env [] [InstanceId instance] ;;
                    match err with
                    | Some _ => ret None
                    | None => ret (Some (addressIdsOf eipInfos))
                    end
                  else ret (Some [])) ;;
      match queried with
      | None => syncEach env ssh rest
      | Some eip =>
          setP (withM (Store (InstanceId instance) (syncedNode env instance eip ssh))) ;;;
          syncEach env ssh rest
      end
  end.

Definition syncClusterInstance (fuel : nat) (env : Env) (ssh : SSH)
  : M (result (list Instance)) :=
  pp <- getP ;;
  res <- describeInstances fuel env ;;
  match res with
  | inl err =>
      ret (inl (Errorf "[%s] failed to list instance for cluster %s, region: %s, zone: %s: %v"
                  [VStr ProviderName; VStr (Metadata.Name (meta pp));
                   VStr (Options.Region (opts pp)); VStr (Options.Zone (opts pp));
                   VErr (Some err)]))
  | inr instanceList =>
      syncEach env ssh instanceList ;;;
      syncNodeStatusWithInstance env (Some ssh) ;;;
      ret (inr instanceList)
  end.

(** ** Waiting for instances *)

(** The loop over the described statuses inside the condition of
    [getInstanceStatus]: the first instance off target ends the attempt. *)
Fixpoint markStatus (aimStatus : string) (set : list (string * string))
  (reg : list (string * Node)) : bool * list (string * Node) :=
  match set with
  | [] => (true, reg)
  | (instanceID, state) :: rest =>
      if String.eqb state aimStatus then
        markStatus aimStatus rest
          (match Load instanceID reg with
           | Some n => Store instanceID (withInstanceStatus aimStatus n) reg
           | None => reg
           end)
      else (false, reg)
  end.

Definition getInstanceStatus (env : Env) (aimStatus : string) : M (option error) :=
  pp <- getP ;;
  let ids := map fst (m pp) in
  match ids with
  | [] => ret None
  | _ =>
      setErrWaitTimeout
        (Errorf "[%s] calling getInstanceStatus error. region: %s, zone: %s, instanceName: %s, message: not `%s` status"
           [VStr ProviderName; VStr (Options.Region (opts pp));
            VStr (Options.Zone (opts pp)); VStrs ids; VStr aimStatus]) ;;;
      ExponentialBackoff (BackoffSteps env)
        (response <- call (fun h => DescribeInstancesStatus env h ids)
                          (EvDescribeInstancesStatus ids) ;;
         match response with
         | inl _ => ret (false, None)
         | inr [] => ret (false, None)
         | inr set =>
             pp <- getP ;;
             let '(done, reg) := markStatus aimStatus set (m pp) in
             setP (withM (fun _ => reg)) ;;;
             ret (done, None)
         end)
  end.

(** ** Preflight *)

Definition CreateCheck (fuel : nat) (env : Env) (ssh : SSH) : M (option error) :=
  pp <- getP ;;
  let md := meta pp in
  let o := opts pp in
  if negb (String.eqb (Options.KeyIds o) "") && String.eqb (SSHKeyPath ssh) "" then
    ret (Some (Errorf "[%s] calling preflight error: --ssh-key-path must set with --key-pair %s"
                 [VStr ProviderName; VStr (Options.KeyIds o)]))
  else
    let '(masterNum, bad) := Go.Atoi (Metadata.Master md) in
    if (masterNum <? 1) || bad then
      ret (Some (Errorf "[%s] calling preflight error: `--master` number must >= 1"
                   [VStr ProviderName]))
    else if (masterNum >? 1) && negb (Metadata.Cluster md) &&
            String.eqb (Metadata.DataStore md) "" then
      ret (Some (Errorf "[%s] calling preflight error: need to set `--cluster` or `--datastore` when `--master` number > 1"
                   [VStr ProviderName]))
    else if Go.Contains (Metadata.MasterExtraArgs md) "--datastore-endpoint" &&
            negb (String.eqb (Metadata.DataStore md) "") then
      ret (Some (Errorf "[%s] calling preflight error: `--masterExtraArgs='--datastore-endpoint'` is duplicated with `--datastore`"
                   [VStr ProviderName]))
    else
      '(exist', _, err) <- IsClusterExist fuel env ;;
      match err with
      | Some e => ret (Some e)
      | None =>
          pp <- getP ;;
          let md := meta pp in
          let o := opts pp in
          if exist' then
            ret (Some (Errorf "[%s] calling preflight error: cluster `%s` at region %s is already exist"
                         [VStr ProviderName;
                          VStr (hd "" (Go.Split (Metadata.Name md) "."));
                          VStr (Options.Region o)]))
          else if negb (String.eqb (Options.Region o) defaultRegion) &&
                  String.eqb (Options.Zone o) defaultZone &&
                  String.eqb (Options.VpcID o) "" then
            ret (Some (Errorf "[%s] calling preflight error: must set `--zone` in specified region %s to create default vpc or set exist `--vpc xxx --subnet xxx` in specified region"
                         [VStr ProviderName; VStr (Options.Region o)]))
          else if Metadata.CloudControllerManager md &&
                  String.eqb (Options.NetworkRouteTableName o) "" then
            ret (Some (Errorf "[%s] calling preflight error: must set `--router` if enabled tencent cloud manager"
                         [VStr ProviderName]))
          else ret None
      end.

(** ** Network *)

Definition ownershipTags : list Tag := [ {| TagKey := "autok3s"; TagValue := "true" |} ].

Definition vpcFilters : list Filter :=
  [ {| FilterName := "vpc-name"; FilterValues := [vpcName] |};
    {| FilterName := "tag:autok3s"; FilterValues := ["true"] |} ].

Definition subnetFilters : list Filter :=
  [ {| FilterName := "subnet-name"; FilterValues := [subnetName] |};
    {| FilterName := "tag:autok3s"; FilterValues := ["true"] |} ].

Definition generateDefaultVPC (env : Env) : M (option error) :=
  pp <- getP ;;
  response <- call (fun h => CreateVpc env h vpcName vpcCidrBlock ownershipTags)
                   (EvCreateVpc vpcName vpcCidrBlock ownershipTags) ;;
  match response with
  | inl e =>
      ret (Some (Errorf "[%s] fail to create default vpc %s in region %s: %v"
                   [VStr ProviderName; VStr vpcName;
                    VStr (Options.Region (opts pp)); VErr (Some e)]))
  | inr vpcId =>
      setP (withOpts (Options.setVpcID vpcId)) ;;;
      ret None
  end.

Definition generateDefaultSubnet (env : Env) : M (option error) :=
  pp <- getP ;;
  let o := opts pp in
  response <- call (fun h => CreateSubnet env h (Options.VpcID o) subnetName
                                (Options.Zone o) subnetCidrBlock ownershipTags)
                   (EvCreateSubnet (Options.VpcID o) subnetName (Options.Zone o)
                      subnetCidrBlock ownershipTags) ;;
  match response with
  | inl e =>
      ret (Some (Errorf "[%s] fail to create default subnet for vpc %s in region %s, zone %s: %v"
                   [VStr ProviderName; VStr (Options.VpcID o);
                    VStr (Options.Region o); VStr (Options.Zone o); VErr (Some e)]))
  | inr subnetId =>
      setP (withOpts (Options.setSubnetID subnetId)) ;;;
      ret None
  end.

Definition configNetwork (env : Env) : M (option error) :=
  response <- call (fun h => DescribeVpcs env h vpcFilters) (EvDescribeVpcs vpcFilters) ;;
  match response with
  | inl err => ret (Some err)
  | inr (defaultVPC :: _) =>
      setP (withOpts (Options.setVpcID (VpcId defaultVPC))) ;;;
      resp <- call (fun h => DescribeSubnets env h [] subnetFilters)
                   (EvDescribeSubnets [] subnetFilters) ;;
      match resp with
      | inl err => ret (Some err)
      | inr (Some (subnet :: _)) =>
          setP (withOpts (Options.setSubnetID (SubnetId subnet))) ;;;
          ret None
      | inr _ => generateDefaultSubnet env
      end
  | inr [] =>
      err <- generateDefaultVPC env ;;
      match err with
      | Some e => ret (Some e)
      | None => generateDefaultSubnet env
      end
  end.

(** ** Security group rules *)

Definition getSubnetCidr (env : Env) : M (string * option error) :=
  pp <- getP ;;
  let ids := [Options.SubnetID (opts pp)] in
  response <- call (fun h => DescribeSubnets env h ids []) (EvDescribeSubnets ids []) ;;
  match response with
  | inl err => ret ("", Some err)
  | inr (Some (subnet :: _)) => ret (SubnetCidrBlock subnet, None)
  | inr (Some []) => panic
  | inr None => ret ("", None)
  end.

(** The eight flags computed from the rules already in the group. *)
Record Has := {
  hasSSHPort : bool;
  hasAPIServerPort : bool;
  hasKubeletPort : bool;
  hasVXlanPort : bool;
  hasUIPort : bool;
  hasEgress : bool;
  hasEtcdServerPort : bool;
  hasEtcdPeerPort : bool
}.

Definition hasNothing : Has :=
  {| hasSSHPort := false; hasAPIServerPort := false; hasKubeletPort := false;
     hasVXlanPort := false; hasUIPort := false; hasEgress := false;
     hasEtcdServerPort := false; hasEtcdPeerPort := false |}.

(** The [switch fromPort] of the inner loop. *)
Definition notePort (cidr : string) (rule : SecurityGroupPolicy) (h : Has)
  (port : string) : Has :=
  let fromPort := fst (Go.Atoi port) in
  let scoped := String.eqb (CidrBlock rule) cidr || String.eqb (CidrBlock rule) ipRange in
  {| hasSSHPort := hasSSHPort h || (fromPort =? 22);
     hasAPIServerPort := hasAPIServerPort h || (fromPort =? 6443);
     hasKubeletPort := hasKubeletPort h || (fromPort =? 10250);
     hasVXlanPort := hasVXlanPort h || (fromPort =? 8472);
     hasUIPort := hasUIPort h || (fromPort =? 8999);
     hasEgress := hasEgress h;
     hasEtcdServerPort := hasEtcdServerPort h || ((fromPort =? 2379) && scoped);
     hasEtcdPeerPort := hasEtcdPeerPort h || ((fromPort =? 2380) && scoped) |}.

Definition noteRule (cidr : string) (h : Has) (rule : SecurityGroupPolicy) : Has :=
  fold_left (notePort cidr rule) (Go.Split (PolicyPort rule) ",") h.

Definition withEgress (b : bool) (h : Has) : Has :=
  {| hasSSHPort := hasSSHPort h; hasAPIServerPort := hasAPIServerPort h;
     hasKubeletPort := hasKubeletPort h; hasVXlanPort := hasVXlanPort h;
     hasUIPort := hasUIPort h; hasEgress := b;
     hasEtcdServerPort := hasEtcdServerPort h;
     hasEtcdPeerPort := hasEtcdPeerPort h |}.

(** Lines 1591-1634: the egress rules are only looked at when the answer
    carries an ingress list. *)
Definition inspect (cidr : string) (response : option SecurityGroupPolicySet) : Has :=
  match response with
  | Some set =>
      match Ingress set with
      | Some rules =>
          let h := fold_left (noteRule cidr) rules hasNothing in
          match Egress set with
          | [] => h
          | _ => withEgress true h
          end
      | None => hasNothing
      end
  | None => hasNothing
  end.

Definition accept (protocol port cidr description : string) : SecurityGroupPolicy :=
  {| Protocol := protocol; PolicyPort := port; CidrBlock := cidr;
     Action := "ACCEPT"; PolicyDescription := description |}.

(** Lines 1636-1706: the ingress rules to create. *)
Definition missingIngress (network : string) (ui : bool) (cidr : string) (h : Has)
  : list SecurityGroupPolicy :=
  (if negb (hasSSHPort h)
   then [accept "TCP" "22" ipRange "accept for ssh(generated by autok3s)"] else [])
  ++ (if (String.eqb network "" || String.eqb network "vxlan") && negb (hasVXlanPort h)
      then [accept "UDP" "8472" ipRange "accept for k3s vxlan(generated by autok3s)"] else [])
  ++ (if negb (hasAPIServerPort h)
      then [accept "TCP" "6443" ipRange "accept for kube api-server(generated by autok3s)"] else [])
  ++ (if negb (hasKubeletPort h)
      then [accept "TCP" "10250" ipRange "accept for kubelet(generated by autok3s)"] else [])
  ++ (if negb (hasEtcdServerPort h) || negb (hasEtcdPeerPort h)
      then [accept "TCP" "2379" cidr "accept for etcd(generated by autok3s)";
            accept "TCP" "2380" cidr "accept for etcd(generated by autok3s)"] else [])
  ++ (if ui && negb (hasUIPort h)
      then [accept "TCP" "8999" ipRange "accept for dashboard(generated by autok3s)"] else []).

Definition allowAllEgress : SecurityGroupPolicy :=
  accept "ALL" "all" ipRange "allow all egress(generated by autok3s)".

Definition configDefaultSecurityPermission (env : Env) : M (option error) :=
  pp <- getP ;;
  let groupId := Options.SecurityGroupIds (opts pp) in
  response <- call (fun h => DescribeSecurityGroupPolicies env h groupId)
                   (EvDescribeSecurityGroupPolicies groupId) ;;
  match response with
  | inl err => ret (Some err)
  | inr policySet =>
      '(cidr, err) <- (if negb (String.eqb (Options.SubnetID (opts pp)) "")
                       then getSubnetCidr env
                       else ret (subnetCidrBlock, None)) ;;
      match err with
      | Some e => ret (Some e)
      | None =>
          let has := inspect cidr policySet in
          let perms := missingIngress (Metadata.Network (meta pp))
                         (Metadata.UI (meta pp)) cidr has in
          err <- match perms with
                 | [] => ret None
                 | _ => call (fun h => CreateSecurityGroupPolicies env h groupId perms [])
                             (EvCreateSecurityGroupPolicies groupId perms [])
                 end ;;
          match err with
          | Some e => ret (Some e)
          | None =>
              if negb (hasEgress has) then
                call (fun h => CreateSecurityGroupPolicies env h groupId [] [allowAllEgress])
                     (EvCreateSecurityGroupPolicies groupId [] [allowAllEgress])
              else ret None
          end
      end
  end.


(** ** Join preflight *)

(** The inner loop of [joinCheck]: [for _, e := range ids], left at the
    first identifier equal to the worker's. *)
Fixpoint isDiscovered (ids : list string) (instanceID : string) : bool :=
  match ids with
  | [] => false
  | e :: rest =>
      if String.eqb e instanceID then true else isDiscovered rest instanceID
  end.

(** The outer loop: the workers of the state file that discovery still
    knows, in their order. *)
Fixpoint validWorkers (ids : list string) (nodes : list Node) : list Node :=
  match nodes with
  | [] => []
  | w :: rest =>
      if isDiscovered ids (InstanceID w)
      then w :: validWorkers ids rest
      else validWorkers ids rest
  end.

Definition joinCheck (fuel : nat) (env : Env) : M (option error) :=
  pp <- getP ;;
  let md := meta pp in
  if String.eqb (Metadata.Master md) "0" && String.eqb (Metadata.Worker md) "0" then
    ret (Some (Errorf "[%s] calling preflight error: `--master` or `--worker` number must >= 1"
                 [VStr ProviderName]))
  else if Go.Contains (Metadata.MasterExtraArgs md) "--datastore-endpoint" &&
          negb (String.eqb (Metadata.DataStore md) "") then
    ret (Some (Errorf "[%s] calling preflight error: `--masterExtraArgs='--datastore-endpoint'` is duplicated with `--datastore`"
                 [VStr ProviderName]))
  else
    '(exist', ids, err) <- IsClusterExist fuel env ;;
    match err with
    | Some e => ret (Some e)
    | None =>
        pp <- getP ;;
        if negb exist' then
          ret (Some (Errorf "[%s] calling preflight error: cluster name `%s` do not exist"
                       [VStr ProviderName; VStr (Metadata.Name (meta pp))]))
        else
          setP (withStatus (fun st =>
                  {| Status.MasterNodes := Status.MasterNodes st;
                     Status.WorkerNodes := validWorkers ids (Status.WorkerNodes st) |})) ;;;
          ret None
    end.

(** ** Cluster information *)

(** [types.ClusterInfo], as far as [GetCluster] fills it in. *)
Record ClusterInfo := {
  InfoName : string;
  InfoRegion : string;
  InfoZone : string;
  InfoProvider : string;
  InfoStatus : string;
  InfoVersion : string;
  InfoMaster : string;
  InfoWorker : string
}.

(** The Kubernetes side of [GetCluster], from [pkg/cluster] and
    [pkg/types]: whether a client can be built for the cluster's kubeconfig,
    and what that client reports. *)
Record Kube := {
  GetClusterConfig : History -> string -> string -> option error;
  GetClusterStatus : History -> string;
  GetClusterVersion : History -> string;
  ClusterStatusUnknown : string;
  ClusterStatusRunning : string
}.

(** The tag test of [GetCluster]: plain equality on key and value. *)
Definition isMasterExact (tags : list Tag) : bool :=
  existsb (fun tg => String.eqb (TagKey tg) "master" &&
                     String.eqb (TagValue tg) "true") tags.

(** The counting loop of [GetCluster]. *)
Fixpoint countRoles (instanceList : list Instance) (masterCount workerCount : Z)
  : Z * Z :=
  match instanceList with
  | [] => (masterCount, workerCount)
  | ins :: rest =>
      if isMasterExact (InstanceTags ins)
      then countRoles rest (Go.wrap64 (masterCount + 1)) workerCount
      else countRoles rest masterCount (Go.wrap64 (workerCount + 1))
  end.

Definition GetCluster (fuel : nat) (env : Env) (kube : Kube) (kubecfg : string)
  : M ClusterInfo :=
  pp <- getP ;;
  let info status version master worker :=
    {| InfoName := Metadata.Name (meta pp);
       InfoRegion := Options.Region (opts pp);
       InfoZone := Options.Zone (opts pp);
       InfoProvider := ProviderName;
       InfoStatus := status; InfoVersion := version;
       InfoMaster := master; InfoWorker := worker |} in
  h <- getTrace ;;
  match GetClusterConfig kube h (Metadata.Name (meta pp)) kubecfg with
  | Some _ =>
      ret (info (ClusterStatusUnknown kube) (ClusterStatusUnknown kube) "" "")
  | None =>
      let status := GetClusterStatus kube h in
      let version := if String.eqb status (ClusterStatusRunning kube)
                     then GetClusterVersion kube h
                     else ClusterStatusUnknown kube in
      e <- (if c pp then ret None else generateClientSDK env) ;;
      match e with
      | Some _ => ret (info status version "0" "0")
      | None =>
          res <- describeInstances fuel env ;;
          match res with
          | inl _ => ret (info status version "0" "0")
          | inr instanceList =>
              let '(masterCount, workerCount) := countRoles instanceList 0 0 in
              ret (info status version (Go.Itoa masterCount) (Go.Itoa workerCount))
          end
      end
  end.

(** ** Security groups *)

Definition defaultSecurityGroupName : string := "autok3s".

(** The two calls the provider makes about security groups themselves, as
    opposed to their rules.  They are kept in a log of their own, beside the
    trace; [before] is the trace as it stood when the call was made, so that
    the two logs can be read as one sequence. *)
Inductive GroupCall : Type :=
| EvDescribeSecurityGroups (before : History) (filters : list Filter)
    (res : result (list string))
| EvCreateSecurityGroup (before : History) (name description : string)
    (tags : list Tag) (res : result string).

(** What creating instances needs beyond [Env]: the answers of those two
    calls (the identifiers of the groups found, the identifier of the group
    created), and two helpers of [pkg/providers/utils].  [CreateKeyPair] is
    handed the SSH settings by reference and hands them back. *)
Record Creator := {
  cloud : Env;
  DescribeSecurityGroups :
    History -> list GroupCall -> list Filter -> result (list string);
  CreateSecurityGroup :
    History -> list GroupCall -> string -> string -> list Tag -> result string;
  CreateKeyPair : History -> SSH -> string -> string -> string -> result (string * SSH);
  RandomPassword : History -> string
}.

Definition groupFilters : list Filter :=
  [ {| FilterName := "tag:autok3s"; FilterValues := ["true"] |};
    {| FilterName := "security-group-name"; FilterValues := [defaultSecurityGroupName] |} ].

Definition setSecurityGroupIds (x : string) (o : Options.t) : Options.t :=
  {| Options.SecretID := Options.SecretID o; Options.SecretKey := Options.SecretKey o;
     Options.EndpointURL := Options.EndpointURL o;
     Options.Region := Options.Region o; Options.Zone := Options.Zone o;
     Options.VpcID := Options.VpcID o; Options.SubnetID := Options.SubnetID o;
     Options.SecurityGroupIds := x; Options.KeyIds := Options.KeyIds o;
     Options.PublicIPAssignedEIP := Options.PublicIPAssignedEIP o;
     Options.NetworkRouteTableName := Options.NetworkRouteTableName o;
     Options.ImageID := Options.ImageID o;
     Options.InstanceType := Options.InstanceType o;
     Options.SystemDiskSize := Options.SystemDiskSize o;
     Options.SystemDiskType := Options.SystemDiskType o;
     Options.InternetMaxBandwidthOut := Options.InternetMaxBandwidthOut o |}.

Definition generateDefaultSecurityGroup (env : Creator) (calls : list GroupCall)
  : M (option error * list GroupCall) :=
  h <- getTrace ;;
  let response := CreateSecurityGroup env h calls defaultSecurityGroupName
                    "generated by autok3s" ownershipTags in
  let calls := calls ++ [EvCreateSecurityGroup h defaultSecurityGroupName
                           "generated by autok3s" ownershipTags response] in
  match response with
  | inl err => ret (Some err, calls)
  | inr groupId =>
      setP (withOpts (setSecurityGroupIds groupId)) ;;;
      ret (None, calls)
  end.

Definition configSecurityGroup (env : Creator) (calls : list GroupCall)
  : M (option error * list GroupCall) :=
  h <- getTrace ;;
  let response := DescribeSecurityGroups env h calls groupFilters in
  let calls := calls ++ [EvDescribeSecurityGroups h groupFilters response] in
  match response with
  | inl err => ret (Some err, calls)
  | inr set =>
      let securityGroupID := match set with
                             | groupId :: _ => groupId
                             | [] => ""
                             end in
      match set with
      | _ :: _ => setP (withOpts (setSecurityGroupIds securityGroupID))
      | [] => ret tt
      end ;;;
      '(err, calls) <- (if String.eqb securityGroupID "" then
                          '(err, calls) <- generateDefaultSecurityGroup env calls ;;
                          match err with
                          | Some e =>
                              ret (Some (Errorf "[%s] fail to create default security group %s: %v"
                                           [VStr ProviderName;
                                            VStr defaultSecurityGroupName;
                                            VErr (Some e)]), calls)
                          | None => ret (None, calls)
                          end
                        else ret (None, calls)) ;;
      match err with
      | Some e => ret (Some e, calls)
      | None =>
          err <- configDefaultSecurityPermission (cloud env) ;;
          ret (err, calls)
      end
  end.

(** ** Generating the instances *)

Definition k3sMirror : string := "INSTALL_K3S_MIRROR=cn".
Definition dockerMirror : string := "".

(** The cluster [generateInstance] returns, with the two mirror settings it
    fills in. *)
Record Generated := {
  GeneratedCluster : Cluster;
  Mirror : string;
  DockerMirror : string
}.

Definition withPassword (password : string) (s : SSH) : SSH :=
  {| User := User s; Port := Port s; Password := password; SSHKeyPath := SSHKeyPath s |}.

Definition withMasterExtraArgs (args : string) (md : Metadata.t) : Metadata.t :=
  {| Metadata.Name := Metadata.Name md; Metadata.Master := Metadata.Master md;
     Metadata.Worker := Metadata.Worker md; Metadata.UI := Metadata.UI md;
     Metadata.Cluster := Metadata.Cluster md; Metadata.DataStore := Metadata.DataStore md;
     Metadata.Network := Metadata.Network md; Metadata.MasterExtraArgs := args;
     Metadata.CloudControllerManager := Metadata.CloudControllerManager md;
     Metadata.Tags := Metadata.Tags md |}.

(** [for _, taskID := range eipTaskIds], left at the first failed wait. *)
Fixpoint waitEach (env : Env) (taskIds : list Z) : M (option error) :=
  match taskIds with
  | [] => ret None
  | taskID :: rest =>
      err <- describeVpcTaskResult env taskID ;;
      match err with
      | Some e => ret (Some e)
      | None => waitEach env rest
      end
  end.

(** The second half of [generateInstance], from the launches on.  [ssh] is
    the caller's SSH settings as they stand, password included. *)
Definition launchAndAssemble (fuel : nat) (env : Env) (ssh : SSH)
  (needUploadKeyPair : bool) (pk : string) (masterNum workerNum : Z)
  : M (result Generated) :=
  err <- (if masterNum >? 0 then runInstances env masterNum true (Password ssh)
          else ret None) ;;
  match err with
  | Some e => ret (inl e)
  | None =>
  err <- (if workerNum >? 0 then runInstances env workerNum false (Password ssh)
          else ret None) ;;
  match err with
  | Some e => ret (inl e)
  | None =>
  err <- getInstanceStatus env (StatusRunning env) ;;
  match err with
  | Some e => ret (inl e)
  | None =>
  pp <- getP ;;
  '(masterTasks, err) <- (if (masterNum >? 0) && Options.PublicIPAssignedEIP (opts pp)
                          then allocateEIPForInstance env masterNum true
                          else ret ([], None)) ;;
  match err with
  | Some e => ret (inl e)
  | None =>
  pp <- getP ;;
  '(workerTasks, err) <- (if (workerNum >? 0) && Options.PublicIPAssignedEIP (opts pp)
                          then allocateEIPForInstance env workerNum false
                          else ret ([], None)) ;;
  match err with
  | Some e => ret (inl e)
  | None =>
  pp <- getP ;;
  err <- (if Options.PublicIPAssignedEIP (opts pp)
          then waitEach env (masterTasks ++ workerTasks)
          else ret None) ;;
  match err with
  | Some e => ret (inl e)
  | None =>
  res <- assembleInstanceStatus fuel env ssh needUploadKeyPair pk ;;
  match res with
  | inl e => ret (inl e)
  | inr c =>
      let md := ClusterMetadata c in
      let md := if Metadata.CloudControllerManager md
                then withMasterExtraArgs
                       (Metadata.MasterExtraArgs md ++
                        " --disable-cloud-controller --no-deploy servicelb,traefik") md
                else md in
      ret (inr {| GeneratedCluster :=
                    {| ClusterMetadata := md; ClusterOptions := ClusterOptions c;
                       ClusterStatus := ClusterStatus c |};
                  Mirror := k3sMirror; DockerMirror := dockerMirror |})
  end end end end end end end.

(** [generateInstance].  The SSH settings and the log of group calls are
    handed back beside the result, as the caller's pointer sees them. *)
Definition generateInstance (fuel : nat) (env : Creator) (fn : M (option error))
  (ssh : SSH) (calls : list GroupCall)
  : M (result Generated * SSH * list GroupCall) :=
  err <- generateClientSDK (cloud env) ;;
  match err with
  | Some e => ret (inl e, ssh, calls)
  | None =>
  err <- fn ;;
  match err with
  | Some e => ret (inl e, ssh, calls)
  | None =>
  pp <- getP ;;
  h <- getTrace ;;
  match CreateKeyPair env h ssh ProviderName (Metadata.Name (meta pp))
          (Options.KeyIds (opts pp)) with
  | inl e =>
      ret (inl (Errorf "[%s] Failed to create key pair: %v"
                  [VStr ProviderName; VErr (Some e)]), ssh, calls)
  | inr (pk, ssh) =>
  let masterNum := fst (Go.Atoi (Metadata.Master (meta pp))) in
  let workerNum := fst (Go.Atoi (Metadata.Worker (meta pp))) in
  err <- (if String.eqb (Options.VpcID (opts pp)) ""
          then configNetwork (cloud env) else ret None) ;;
  match err with
  | Some e => ret (inl e, ssh, calls)
  | None =>
  pp <- getP ;;
  '(err, calls) <- (if String.eqb (Options.SecurityGroupIds (opts pp)) ""
                    then configSecurityGroup env calls else ret (None, calls)) ;;
  match err with
  | Some e => ret (inl e, ssh, calls)
  | None =>
  pp <- getP ;;
  h <- getTrace ;;
  let needUploadKeyPair :=
    String.eqb (Password ssh) "" && String.eqb (Options.KeyIds (opts pp)) "" in
  let ssh := if needUploadKeyPair then withPassword (RandomPassword env h) ssh else ssh in
  res <- launchAndAssemble fuel (cloud env) ssh needUploadKeyPair pk masterNum workerNum ;;
  ret (res, ssh, calls)
  end end end end end.

(** ** Scripted environments *)

(** Concrete environments for running the provider: the sibling packages'
    constants at the values the provider is built with, and a cloud that
    answers as scripted and refuses every call the script leaves out. *)
Module Scripted.

Inductive Answer : Type :=
| OnDescribeInstances
    (f : History -> list Filter -> Z -> option Z -> result DescribeInstancesResponse)
| OnRunInstances (f : History -> RunInstancesRequest -> result (list string))
| OnTerminateInstances (f : History -> list string -> option error)
| OnAllocateAddresses
    (f : History -> Z -> Z -> list Tag -> result (list string * string))
| OnReleaseAddresses (f : History -> list string -> result string)
| OnDescribeAddresses
    (f : History -> list string -> list Filter -> result (option (list Address)))
| OnAssociateAddress (f : History -> string -> string -> result string)
| OnDisassociateAddress (f : History -> string -> result (option string))
| OnDescribeTaskResult (f : History -> Z -> result string)
| OnDescribeResourcesByTags (f : History -> list Filter -> result (list ResourceTag))
| OnDescribeVpcs (f : History -> list Filter -> result (list Vpc))
| OnDescribeSubnets
    (f : History -> list string -> list Filter -> result (option (list Subnet)))
| OnCreateVpc (f : History -> string -> string -> list Tag -> result string)
| OnCreateSubnet
    (f : History -> string -> string -> string -> string -> list Tag -> result string)
| OnDescribeSecurityGroupPolicies
    (f : History -> string -> result (option SecurityGroupPolicySet))
| OnUnicode (u : Go.Tables).

Definition refused {A} : result A := inl (SDKError "unscripted").

(** Stand-in tables for the examples that keep to ASCII text, where the
    tables are never consulted ([ToUpper_ascii], [EqualFold_ascii]); an
    example that leaves ASCII scripts its own with [OnUnicode]. *)
Definition asciiOnly : Go.Tables :=
  {| Go.upperRunes := fun s => s; Go.equalFoldRunes := String.eqb |}.

Lemma ToUpper_ascii u u' s :
  Go.allASCII s = true -> Go.ToUpper u s = Go.ToUpper u' s.
Proof. unfold Go.ToUpper. now intros ->. Qed.

Lemma EqualFold_ascii u u' : forall s t,
  Go.allASCII s = true -> Go.allASCII t = true ->
  Go.EqualFold u s t = Go.EqualFold u' s t.
Proof.
  induction s as [|a s IH]; intros [|b t] Hs Ht; try reflexivity.
  cbn [Go.allASCII] in Hs, Ht.
  apply andb_true_iff in Hs as [Ha Hs]. apply andb_true_iff in Ht as [Hb Ht].
  cbn [Go.EqualFold]. rewrite Ha, Hb. cbn [andb]. cbv zeta.
  rewrite (IH t Hs Ht). reflexivity.
Qed.

(** The first scripted answer of the wanted kind, or the default. *)
Fixpoint pick {F} (sel : Answer -> option F) (default : F) (script : list Answer) : F :=
  match script with
  | [] => default
  | a :: rest =>
      match sel a with
      | Some f => f
      | None => pick sel default rest
      end
  end.

Fixpoint indexOf (nodes : list Node) (instance : string) (i : nat) : nat * bool :=
  match nodes with
  | [] => (O, false)
  | n :: rest =>
      if String.eqb (InstanceID n) instance then (i, true)
      else indexOf rest instance (S i)
  end.

Definition env (script : list Answer) : Env :=
  {| Running := "RUNNING";
     Success := "SUCCESS";
     Failed := "FAILED";
     StatusRunning := "RUNNING";
     StatusPending := "PENDING";
     ServiceTypeEIP := "cvm";
     ResourcePrefixEIP := "eip";
     TagClusterPrefix := "autok3s-";
     MasterInstanceName := fun name => ("autok3s." ++ name ++ ".master")%string;
     WorkerInstanceName := fun name => ("autok3s." ++ name ++ ".worker")%string;
     BackoffSteps := 5;
     IsExistedNodes := fun nodes instance => indexOf nodes instance O;
     DescribeInstances :=
       pick (fun a => match a with OnDescribeInstances f => Some f | _ => None end)
            (fun _ _ _ _ => refused) script;
     DescribeInstancesStatus := fun _ _ => refused;
     RunInstances :=
       pick (fun a => match a with OnRunInstances f => Some f | _ => None end)
            (fun _ _ => refused) script;
     TerminateInstances :=
       pick (fun a => match a with OnTerminateInstances f => Some f | _ => None end)
            (fun _ _ => None) script;
     AllocateAddresses :=
       pick (fun a => match a with OnAllocateAddresses f => Some f | _ => None end)
            (fun _ _ _ _ => refused) script;
     ReleaseAddresses :=
       pick (fun a => match a with OnReleaseAddresses f => Some f | _ => None end)
            (fun _ _ => refused) script;
     DescribeAddresses :=
       pick (fun a => match a with OnDescribeAddresses f => Some f | _ => None end)
            (fun _ _ _ => refused) script;
     AssociateAddress :=
       pick (fun a => match a with OnAssociateAddress f => Some f | _ => None end)
            (fun _ _ _ => refused) script;
     DisassociateAddress :=
       pick (fun a => match a with OnDisassociateAddress f => Some f | _ => None end)
            (fun _ _ => refused) script;
     DescribeTaskResult :=
       pick (fun a => match a with OnDescribeTaskResult f => Some f | _ => None end)
            (fun _ _ => refused) script;
     DescribeResourcesByTags :=
       pick (fun a => match a with OnDescribeResourcesByTags f => Some f | _ => None end)
            (fun _ _ => refused) script;
     DescribeVpcs :=
       pick (fun a => match a with OnDescribeVpcs f => Some f | _ => None end)
            (fun _ _ => refused) script;
     DescribeSubnets :=
       pick (fun a => match a with OnDescribeSubnets f => Some f | _ => None end)
            (fun _ _ _ => refused) script;
     CreateVpc :=
       pick (fun a => match a with OnCreateVpc f => Some f | _ => None end)
            (fun _ _ _ _ => refused) script;
     CreateSubnet :=
       pick (fun a => match a with OnCreateSubnet f => Some f | _ => None end)
            (fun _ _ _ _ _ _ => refused) script;
     DescribeSecurityGroupPolicies :=
       pick (fun a => match a with
                      | OnDescribeSecurityGroupPolicies f => Some f
                      | _ => None
                      end)
            (fun _ _ => refused) script;
     CreateSecurityGroupPolicies := fun _ _ _ _ => None;
     NewClient := fun _ _ => None;
     unicode :=
       pick (fun a => match a with OnUnicode u => Some u | _ => None end)
            asciiOnly script;
     viperGetString := fun _ _ => "";
     AskForConfirmation := fun _ => true;
     SSHUploadKey := fun _ _ _ => None;
     Local := fun _ _ _ => None |}.

(** The provider as [NewProvider] builds it, named [name], with the
    command line's master count and the other settings at their defaults. *)
Definition provider (name masters : string) : Tencent :=
  {| meta := {| Metadata.Name := name; Metadata.Master := masters;
                Metadata.Worker := "0"; Metadata.UI := false;
                Metadata.Cluster := false; Metadata.DataStore := "";
                Metadata.Network := ""; Metadata.MasterExtraArgs := "";
                Metadata.CloudControllerManager := false;
                Metadata.Tags := [] |};
     opts := {| Options.SecretID := "id"; Options.SecretKey := "key";
                Options.EndpointURL := ""; Options.Region := defaultRegion;
                Options.Zone := defaultZone; Options.VpcID := "";
                Options.SubnetID := ""; Options.SecurityGroupIds := "";
                Options.KeyIds := ""; Options.PublicIPAssignedEIP := false;
                Options.NetworkRouteTableName := "";
                Options.ImageID := "img-pi0ii46r";
                Options.InstanceType := "SA1.MEDIUM4";
                Options.SystemDiskSize := "50";
                Options.SystemDiskType := "CLOUD_SSD";
                Options.InternetMaxBandwidthOut := "5" |};
     status := {| Status.MasterNodes := []; Status.WorkerNodes := [] |};
     c := false; v := false; t := false; r := false;
     m := [] |}.

(** The same provider with a key pair, a subnet, a security group and the
    floating-address policy chosen on the command line. *)
Definition configured (keyIds subnet group : string) (eip : bool) (pp : Tencent)
  : Tencent :=
  withOpts (fun o =>
    {| Options.SecretID := Options.SecretID o;
       Options.SecretKey := Options.SecretKey o;
       Options.EndpointURL := Options.EndpointURL o;
       Options.Region := Options.Region o; Options.Zone := Options.Zone o;
       Options.VpcID := Options.VpcID o; Options.SubnetID := subnet;
       Options.SecurityGroupIds := group; Options.KeyIds := keyIds;
       Options.PublicIPAssignedEIP := eip;
       Options.NetworkRouteTableName := Options.NetworkRouteTableName o;
       Options.ImageID := Options.ImageID o;
       Options.InstanceType := Options.InstanceType o;
       Options.SystemDiskSize := Options.SystemDiskSize o;
       Options.SystemDiskType := Options.SystemDiskType o;
       Options.InternetMaxBandwidthOut := Options.InternetMaxBandwidthOut o |}) pp.

Definition world (pp : Tencent) : World :=
  {| p := pp; trace := [];
     ErrWaitTimeout := SDKError "timed out waiting for the condition" |}.

End Scripted.
(** * Properties *)

(** ** The registry *)

Lemma Load_Store_same key value reg : Load key (Store key value reg) = Some value.
Proof.
  induction reg as [|[k n] rest IH]; simpl.
  - now rewrite String.eqb_refl.
  - destruct (String.eqb k key) eqn:E; simpl; rewrite E; auto.
Qed.

Lemma Load_Store_other key key' value reg :
  key' <> key -> Load key' (Store key value reg) = Load key' reg.
Proof.
  intros Hne. induction reg as [|[k n] rest IH]; simpl.
  - destruct (String.eqb_spec key key'); congruence.
  - destruct (String.eqb_spec k key) as [->|Hk]; simpl.
    + destruct (String.eqb_spec key key'); congruence.
    + now rewrite IH.
Qed.

Lemma storeLaunched_Load env master ids : forall reg id,
  In id ids -> Load id (storeLaunched env master ids reg) = Some (launchedNode env master id).
Proof.
  unfold storeLaunched.
  induction ids as [|x xs IH] using rev_ind; intros reg id Hin; [easy|].
  rewrite fold_left_app. simpl.
  destruct (String.eqb_spec x id) as [->|Hne].
  - apply Load_Store_same.
  - rewrite Load_Store_other by congruence.
    apply IH. apply in_app_or in Hin. destruct Hin as [H|[H|[]]]; congruence.
Qed.

(** ** Launch batches *)

(** C3.  A launch batch either stores every returned instance, each as a
    Pending node eligible for rollback, or stores nothing at all: the former
    happens exactly when the provider call succeeds and returns as many
    identifiers as were requested; every other answer is reported as an
    error and leaves the registry as it was. *)
Theorem runInstances_all_or_nothing env num master password w :
  match RunInstances env (trace w) (runInstancesRequest env (p w) num master password) with
  | inr ids =>
      if Z.of_nat (length ids) =? num
      then exists w',
             runInstances env num master password w = Ok None w' /\
             m (p w') = storeLaunched env master ids (m (p w)) /\
             Forall (fun id => exists n,
                       Load id (m (p w')) = Some n /\
                       InstanceID n = id /\
                       Master n = master /\
                       InstanceStatus n = StatusPending env /\
                       RollBack n = true) ids
      else exists e w',
             runInstances env num master password w = Ok (Some e) w' /\
             m (p w') = m (p w)
  | inl _ =>
      exists e w',
        runInstances env num master password w = Ok (Some e) w' /\
        m (p w') = m (p w)
  end.
Proof.
  unfold runInstances, bind, call, getP, getTrace, emit, ret, setP. simpl.
  destruct (RunInstances env (trace w) _) as [e|ids] eqn:E.
  - eexists _, _. split; reflexivity.
  - destruct (Z.of_nat (length ids) =? num) eqn:Hlen; simpl.
    + eexists. split; [reflexivity|]. split; [reflexivity|]. simpl.
      apply Forall_forall. intros id Hin.
      exists (launchedNode env master id). split.
      * now apply storeLaunched_Load.
      * repeat split.
    + eexists _, _. split; reflexivity.
Qed.

(** ** Relating the worlds before and after a run *)

(** [Steps R f]: wherever [f] starts, it ends (returning or stuck) in a
    world related to the start by [R]. *)
Definition Steps (R : World -> World -> Prop) {A} (f : M A) : Prop :=
  forall w, R w (worldOf (f w)).

Section Steps.

Variable R : World -> World -> Prop.
Hypothesis R_refl : forall w, R w w.
Hypothesis R_trans : forall w1 w2 w3, R w1 w2 -> R w2 w3 -> R w1 w3.

Lemma Steps_ret {A} (a : A) : Steps R (ret a).
Proof. intro w; apply R_refl. Qed.

Lemma Steps_panic {A} : Steps R (@panic A).
Proof. intro w; apply R_refl. Qed.

Lemma Steps_diverge {A} : Steps R (@diverge A).
Proof. intro w; apply R_refl. Qed.

Lemma Steps_getP : Steps R getP.
Proof. intro w; apply R_refl. Qed.

Lemma Steps_getTrace : Steps R getTrace.
Proof. intro w; apply R_refl. Qed.

Lemma Steps_getErrWaitTimeout : Steps R getErrWaitTimeout.
Proof. intro w; apply R_refl. Qed.

Lemma Steps_bind {A B} (f : M A) (g : A -> M B) :
  Steps R f -> (forall a, Steps R (g a)) -> Steps R (bind f g).
Proof.
  intros Hf Hg w. unfold bind. specialize (Hf w).
  destruct (f w) as [a w1|why w1]; simpl in *; [|assumption].
  eapply R_trans; [eassumption|apply Hg].
Qed.

Lemma Steps_call {A} (ask : History -> A) (ev : A -> Event) :
  (forall a, Steps R (emit (ev a))) -> Steps R (call ask ev).
Proof.
  intros H. unfold call. apply Steps_bind; [apply Steps_getTrace|].
  intros h. apply Steps_bind; [apply H|]. intros _. apply Steps_ret.
Qed.

Lemma Steps_ExponentialBackoff steps condition :
  Steps R condition -> Steps R (ExponentialBackoff steps condition).
Proof.
  intros Hc. induction steps as [|n IH]; simpl.
  - apply Steps_bind; [apply Steps_getErrWaitTimeout|intro; apply Steps_ret].
  - apply Steps_bind; [assumption|]. intros [ok [e|]]; [apply Steps_ret|].
    destruct ok; [apply Steps_ret|assumption].
Qed.

End Steps.

(** Breaks a run into its statements, given the proofs that [R] is a
    preorder.  The leaves that change the world ([setP], [emit],
    [setErrWaitTimeout]) are left to [leaf]. *)
Ltac steps_with refl trans leaf :=
  repeat first
    [ apply (Steps_ret _ refl)
    | apply (Steps_panic _ refl)
    | apply (Steps_diverge _ refl)
    | apply (Steps_getP _ refl)
    | apply (Steps_getTrace _ refl)
    | apply (Steps_getErrWaitTimeout _ refl)
    | apply (Steps_ExponentialBackoff _ refl trans)
    | apply (Steps_call _ refl trans); intro
    | apply (Steps_bind _ trans); [|intro]
    | progress leaf
    | progress cbv beta zeta
    | match goal with
      | |- Steps _ (match ?x with _ => _ end) => destruct x
      | |- Steps _ (if ?b then _ else _) => destruct b
      | |- Steps _ (let '(_, _) := ?x in _) => destruct x
      end ].

(** *** Runs that only append events of one kind *)

Definition grows (P : Event -> Prop) (w w' : World) : Prop :=
  exists evs, trace w' = trace w ++ evs /\ Forall P evs.

Lemma grows_refl P w : grows P w w.
Proof. exists []. split; [now rewrite app_nil_r|constructor]. Qed.

Lemma grows_trans P w1 w2 w3 : grows P w1 w2 -> grows P w2 w3 -> grows P w1 w3.
Proof.
  intros [e1 [H1 F1]] [e2 [H2 F2]]. exists (e1 ++ e2). split.
  - now rewrite H2, H1, app_assoc.
  - apply Forall_app; auto.
Qed.

Lemma grows_weaken (P Q : Event -> Prop) w w' :
  (forall e, P e -> Q e) -> grows P w w' -> grows Q w w'.
Proof.
  intros H [evs [Ht F]]. exists evs. split; [assumption|].
  eapply Forall_impl; eauto.
Qed.

Lemma emit_grows (P : Event -> Prop) e : P e -> Steps (grows P) (emit e).
Proof. intros H w. exists [e]. simpl. auto. Qed.

Lemma setP_grows P f : Steps (grows P) (setP f).
Proof. intro w. exists []. simpl. split; [now rewrite app_nil_r|constructor]. Qed.

Lemma setErrWaitTimeout_grows P e : Steps (grows P) (setErrWaitTimeout e).
Proof. intro w. exists []. simpl. split; [now rewrite app_nil_r|constructor]. Qed.

Ltac emits :=
  match goal with
  | |- Steps (grows ?P) _ =>
      steps_with (grows_refl P) (grows_trans P)
        ltac:(first [ apply setP_grows
                    | apply setErrWaitTimeout_grows
                    | apply emit_grows; simpl; solve [auto] ])
  end.

(** ** Waiting for one task *)

(** The world in which [describeVpcTaskResult] makes its next poll, and the
    world after the answer of that poll has been logged. *)
Definition armed (taskID : Z) (w : World) : World :=
  {| p := p w; trace := trace w;
     ErrWaitTimeout :=
       Errorf "[%s] calling describeVpcTaskResult error. region: %s, zone: %s, taskId: %d"
         [VStr ProviderName; VStr (Options.Region (opts (p w)));
          VStr (Options.Zone (opts (p w))); VInt taskID] |}.

Definition polled (env : Env) (taskID : Z) (w : World) : World :=
  {| p := p w;
     trace := trace w ++ [EvDescribeTaskResult taskID (DescribeTaskResult env (trace w) taskID)];
     ErrWaitTimeout := ErrWaitTimeout w |}.

Inductive Verdict := NotYetDone | Done | TerminalFailure (e : error).

(** What one answer of the task service means to the waiter. *)
Definition verdict (env : Env) (taskID : Z) (w : World) : Verdict :=
  match taskResultCondition env taskID w with
  | Ok (_, Some e) _ => TerminalFailure e
  | Ok (true, None) _ => Done
  | _ => NotYetDone
  end.

Lemma taskResultCondition_world env taskID w :
  exists b, taskResultCondition env taskID w = Ok b (polled env taskID w).
Proof.
  unfold taskResultCondition, bind, call, getTrace, emit, ret, polled. simpl.
  destruct (DescribeTaskResult env (trace w) taskID) as [e|res]; [eauto|].
  repeat match goal with |- context [if ?b then _ else _] => destruct b end; eauto.
Qed.

Lemma taskResultCondition_answer env taskID w :
  taskResultCondition env taskID w =
  Ok (match DescribeTaskResult env (trace w) taskID with
      | inl _ => (false, None)
      | inr res =>
          if String.eqb (Go.ToUpper (unicode env) res) (Running env) then (false, None)
          else if String.eqb (Go.ToUpper (unicode env) res) (Success env) then (true, None)
          else if String.eqb (Go.ToUpper (unicode env) res) (Failed env)
          then (true, Some (Errorf "[%s] task failed %d" [VStr ProviderName; VInt taskID]))
          else (true, None)
      end) (polled env taskID w).
Proof.
  unfold taskResultCondition, bind, call, getTrace, emit, ret, polled. simpl.
  destruct (DescribeTaskResult env (trace w) taskID) as [e|res]; [reflexivity|].
  repeat match goal with |- context [if ?b then _ else _] => destruct b end;
    reflexivity.
Qed.

Lemma ExponentialBackoff_step steps condition w :
  ExponentialBackoff (S steps) condition w =
  match condition w with
  | Ok (_, Some e) w' => Ok (Some e) w'
  | Ok (true, None) w' => Ok None w'
  | Ok (false, None) w' => ExponentialBackoff steps condition w'
  | Stuck why w' => Stuck why w'
  end.
Proof.
  simpl. unfold bind, ret.
  destruct (condition w) as [[[|] [e|]] w'|why w']; reflexivity.
Qed.

Section TaskWaiter.

Variable env : Env.
Hypothesis Running_Success : Running env <> Success env.
Hypothesis Running_Failed : Running env <> Failed env.
Hypothesis Success_Failed : Success env <> Failed env.

Lemma verdict_of_answer taskID w :
  verdict env taskID w =
  match DescribeTaskResult env (trace w) taskID with
  | inl _ => NotYetDone
  | inr res =>
      if String.eqb (Go.ToUpper (unicode env) res) (Running env) then NotYetDone
      else if String.eqb (Go.ToUpper (unicode env) res) (Success env) then Done
      else if String.eqb (Go.ToUpper (unicode env) res) (Failed env)
      then TerminalFailure (Errorf "[%s] task failed %d" [VStr ProviderName; VInt taskID])
      else Done
  end.
Proof.
  unfold verdict, taskResultCondition, bind, call, getTrace, emit, ret. simpl.
  destruct (DescribeTaskResult env (trace w) taskID) as [e|res]; [reflexivity|].
  repeat match goal with |- context [if ?b then _ else _] => destruct b end;
    reflexivity.
Qed.

(** C6.  One poll of the single-task waiter.  The answer is compared
    after [strings.ToUpper].  An answer that reads Running then, or an SDK
    error, leaves the task not yet done, and the waiter goes on with one
    attempt fewer; Success ends the wait without error; Failed ends it with
    an error naming the task; any other answer ends it without error. *)
Theorem describeVpcTaskResult_tristate taskID w steps :
  BackoffSteps env = S steps ->
  let w1 := polled env taskID (armed taskID w) in
  let again := ExponentialBackoff steps (taskResultCondition env taskID) w1 in
  (forall e, DescribeTaskResult env (trace w) taskID = inl e ->
     verdict env taskID (armed taskID w) = NotYetDone /\
     describeVpcTaskResult env taskID w = again) /\
  (forall res, DescribeTaskResult env (trace w) taskID = inr res ->
     (Go.ToUpper (unicode env) res = Running env ->
        verdict env taskID (armed taskID w) = NotYetDone /\
        describeVpcTaskResult env taskID w = again) /\
     (Go.ToUpper (unicode env) res = Success env ->
        verdict env taskID (armed taskID w) = Done /\
        describeVpcTaskResult env taskID w = Ok None w1) /\
     (Go.ToUpper (unicode env) res = Failed env ->
        verdict env taskID (armed taskID w) =
          TerminalFailure (Errorf "[%s] task failed %d" [VStr ProviderName; VInt taskID]) /\
        describeVpcTaskResult env taskID w =
          Ok (Some (Errorf "[%s] task failed %d" [VStr ProviderName; VInt taskID])) w1) /\
     (Go.ToUpper (unicode env) res <> Running env -> Go.ToUpper (unicode env) res <> Success env ->
      Go.ToUpper (unicode env) res <> Failed env ->
        verdict env taskID (armed taskID w) = Done /\
        describeVpcTaskResult env taskID w = Ok None w1)).
Proof.
  intros Hsteps w1 again.
  assert (Hrun : describeVpcTaskResult env taskID w =
                 ExponentialBackoff (S steps) (taskResultCondition env taskID)
                   (armed taskID w)).
  { unfold describeVpcTaskResult, bind, getP, setErrWaitTimeout. simpl.
    now rewrite Hsteps. }
  rewrite Hrun, ExponentialBackoff_step, verdict_of_answer,
    taskResultCondition_answer.
  subst again w1. cbn [armed trace].
  split.
  - intros e He. rewrite He. auto.
  - intros res Hres. rewrite Hres.
    repeat split; intros.
    all: try match goal with
           | H : Go.ToUpper _ _ = _ |- _ => rewrite H
           end;
         rewrite ?String.eqb_refl;
         repeat match goal with
           | |- context [String.eqb ?a ?b] =>
               destruct (String.eqb_spec a b); try congruence
           end; auto.
Qed.

End TaskWaiter.

(** The waiter on the scripted cloud, one run per answer: a task that is
    Running on the first poll and has failed on the second. *)
Definition flakyTask : Env :=
  Scripted.env
    [Scripted.OnDescribeTaskResult
       (fun h _ => match h with
                   | [] => inr "Running"
                   | _ => inr "FAILED"
                   end)].

Lemma describeVpcTaskResult_tristate_witness :
  let w := Scripted.world (Scripted.provider "demo" "1") in
  verdict flakyTask 7 (armed 7 w) = NotYetDone /\
  describeVpcTaskResult flakyTask 7 w =
  ExponentialBackoff 4 (taskResultCondition flakyTask 7) (polled flakyTask 7 (armed 7 w)).
Proof.
  intro w.
  refine (proj1 (proj2 (describeVpcTaskResult_tristate flakyTask _ _ _ 7 w 4 eq_refl)
                   "Running" eq_refl) eq_refl).
  all: discriminate.
Defined.

(** An answer outside ASCII goes through the tables of the library.  With
    tables that know the dotless i, whose capital is I, the answer below is
    one more Running, and the waiter polls again. *)
Definition dotlessRunning : string :=
  "runn" ++ String (ascii_of_nat 196) (String (ascii_of_nat 177) "ng").

Definition dotlessTables : Go.Tables :=
  {| Go.upperRunes := fun s => if String.eqb s dotlessRunning then "RUNNING" else s;
     Go.equalFoldRunes := String.eqb |}.

Definition dotlessTask : Env :=
  Scripted.env
    [ Scripted.OnDescribeTaskResult (fun _ _ => inr dotlessRunning);
      Scripted.OnUnicode dotlessTables ].

Example dotless_answer_polls_again :
  let w := Scripted.world (Scripted.provider "demo" "1") in
  verdict dotlessTask 7 (armed 7 w) = NotYetDone /\
  exists e w',
    describeVpcTaskResult dotlessTask 7 w = Ok (Some e) w' /\
    length (trace w') = 5%nat.
Proof. intro w. split; [reflexivity|]. eexists _, _. vm_compute. split; reflexivity. Qed.

(** ** Preflight *)

(** The calls discovery makes: client construction and instance listing. *)
Definition readOnly (e : Event) : Prop :=
  match e with
  | EvNewClient _ _ | EvDescribeInstances _ _ _ _ => True
  | _ => False
  end.

Lemma generateClientSDK_readOnly env : Steps (grows readOnly) (generateClientSDK env).
Proof. unfold generateClientSDK. emits. Qed.

Lemma describeInstancesFrom_readOnly env filters fuel : forall offset index acc,
  Steps (grows readOnly) (describeInstancesFrom fuel env filters offset index acc).
Proof.
  induction fuel as [|fuel IH]; intros; simpl; emits. apply IH.
Qed.

Lemma IsClusterExist_readOnly fuel env : Steps (grows readOnly) (IsClusterExist fuel env).
Proof.
  emits. apply describeInstancesFrom_readOnly.
Qed.

(** Discovery touches the credentials and the clients of the provider and
    nothing else. *)
Definition keeps (w w' : World) : Prop :=
  meta (p w') = meta (p w) /\ m (p w') = m (p w) /\ status (p w') = status (p w) /\
  Options.setCredential "" "" (opts (p w')) = Options.setCredential "" "" (opts (p w)).

Lemma keeps_refl w : keeps w w.
Proof. repeat split. Qed.

Lemma keeps_trans w1 w2 w3 : keeps w1 w2 -> keeps w2 w3 -> keeps w1 w3.
Proof. unfold keeps. intuition congruence. Qed.

Ltac keeping :=
  steps_with keeps_refl keeps_trans
    ltac:(idtac;
          match goal with
          | |- Steps keeps (setP _) => intro; repeat split
          | |- Steps keeps (emit _) => intro; repeat split
          | |- Steps keeps (setErrWaitTimeout _) => intro; repeat split
          end).

Lemma describeInstancesFrom_keeps env filters fuel : forall offset index acc,
  Steps keeps (describeInstancesFrom fuel env filters offset index acc).
Proof.
  induction fuel as [|fuel IH]; intros; simpl; keeping. apply IH.
Qed.

Lemma IsClusterExist_keeps fuel env : Steps keeps (IsClusterExist fuel env).
Proof. keeping. apply describeInstancesFrom_keeps. Qed.

(** The checks of [CreateCheck], in the order they are made. *)
Definition keyWithoutPath (pp : Tencent) (ssh : SSH) : bool :=
  negb (String.eqb (Options.KeyIds (opts pp)) "") && String.eqb (SSHKeyPath ssh) "".

Definition badMasterCount (pp : Tencent) : bool :=
  let '(masterNum, bad) := Go.Atoi (Metadata.Master (meta pp)) in
  (masterNum <? 1) || bad.

Definition unclustered (pp : Tencent) : bool :=
  (fst (Go.Atoi (Metadata.Master (meta pp))) >? 1) &&
  negb (Metadata.Cluster (meta pp)) && String.eqb (Metadata.DataStore (meta pp)) "".

Definition datastoreTwice (pp : Tencent) : bool :=
  Go.Contains (Metadata.MasterExtraArgs (meta pp)) "--datastore-endpoint" &&
  negb (String.eqb (Metadata.DataStore (meta pp)) "").

Definition zoneUnset (pp : Tencent) : bool :=
  negb (String.eqb (Options.Region (opts pp)) defaultRegion) &&
  String.eqb (Options.Zone (opts pp)) defaultZone &&
  String.eqb (Options.VpcID (opts pp)) "".

Definition routerUnset (pp : Tencent) : bool :=
  Metadata.CloudControllerManager (meta pp) &&
  String.eqb (Options.NetworkRouteTableName (opts pp)) "".

Lemma keeps_zoneUnset w w' : keeps w w' -> zoneUnset (p w') = zoneUnset (p w).
Proof.
  intros (_ & _ & _ & H). unfold zoneUnset.
  apply (f_equal Options.Region) in H as HR.
  apply (f_equal Options.Zone) in H as HZ.
  apply (f_equal Options.VpcID) in H as HV. simpl in *. congruence.
Qed.

Lemma keeps_routerUnset w w' : keeps w w' -> routerUnset (p w') = routerUnset (p w).
Proof.
  intros (Hm & _ & _ & H). unfold routerUnset.
  apply (f_equal Options.NetworkRouteTableName) in H. simpl in *. congruence.
Qed.

(** C8.  [CreateCheck] makes read-only calls only, and returns an error
    exactly in these cases: a key pair is named without a key path, the
    master count is below one or unreadable, several masters are asked for
    without clustering or datastore, the datastore endpoint is given twice;
    or else discovery itself fails, or finds the cluster; or else the region
    is not the default one while zone and network are, or the cloud
    controller manager is on without a route table.  When discovery does not
    return, neither does the check. *)
Theorem CreateCheck_rejects fuel env ssh w :
  grows readOnly w (worldOf (CreateCheck fuel env ssh w)) /\
  if keyWithoutPath (p w) ssh || badMasterCount (p w) || unclustered (p w) ||
     datastoreTwice (p w)
  then exists e, CreateCheck fuel env ssh w = Ok (Some e) w
  else match IsClusterExist fuel env w with
       | Stuck why w' => CreateCheck fuel env ssh w = Stuck why w'
       | Ok (_, _, Some e) w' => CreateCheck fuel env ssh w = Ok (Some e) w'
       | Ok (true, _, None) w' => exists e, CreateCheck fuel env ssh w = Ok (Some e) w'
       | Ok (false, _, None) w' =>
           if zoneUnset (p w) || routerUnset (p w)
           then exists e, CreateCheck fuel env ssh w = Ok (Some e) w'
           else CreateCheck fuel env ssh w = Ok None w'
       end.
Proof.
  split.
  { assert (H : Steps (grows readOnly) (CreateCheck fuel env ssh)).
    { emits. apply describeInstancesFrom_readOnly. }
    apply H. }
  assert (Hrun : CreateCheck fuel env ssh w =
    if keyWithoutPath (p w) ssh
    then Ok (Some (Errorf "[%s] calling preflight error: --ssh-key-path must set with --key-pair %s"
                     [VStr ProviderName; VStr (Options.KeyIds (opts (p w)))])) w
    else if badMasterCount (p w)
    then Ok (Some (Errorf "[%s] calling preflight error: `--master` number must >= 1"
                     [VStr ProviderName])) w
    else if unclustered (p w)
    then Ok (Some (Errorf "[%s] calling preflight error: need to set `--cluster` or `--datastore` when `--master` number > 1"
                     [VStr ProviderName])) w
    else if datastoreTwice (p w)
    then Ok (Some (Errorf "[%s] calling preflight error: `--masterExtraArgs='--datastore-endpoint'` is duplicated with `--datastore`"
                     [VStr ProviderName])) w
    else match IsClusterExist fuel env w with
         | Stuck why w' => Stuck why w'
         | Ok (_, _, Some e) w' => Ok (Some e) w'
         | Ok (true, _, None) w' =>
             Ok (Some (Errorf "[%s] calling preflight error: cluster `%s` at region %s is already exist"
                         [VStr ProviderName;
                          VStr (hd "" (Go.Split (Metadata.Name (meta (p w'))) "."));
                          VStr (Options.Region (opts (p w')))])) w'
         | Ok (false, _, None) w' =>
             if zoneUnset (p w')
             then Ok (Some (Errorf "[%s] calling preflight error: must set `--zone` in specified region %s to create default vpc or set exist `--vpc xxx --subnet xxx` in specified region"
                              [VStr ProviderName; VStr (Options.Region (opts (p w')))])) w'
             else if routerUnset (p w')
             then Ok (Some (Errorf "[%s] calling preflight error: must set `--router` if enabled tencent cloud manager"
                              [VStr ProviderName])) w'
             else Ok None w'
         end).
  { unfold CreateCheck, keyWithoutPath, badMasterCount, unclustered, datastoreTwice,
      zoneUnset, routerUnset, bind, getP, ret.
    cbv beta zeta.
    destruct (negb (String.eqb (Options.KeyIds (opts (p w))) "") &&
              String.eqb (SSHKeyPath ssh) ""); [reflexivity|].
    destruct (Go.Atoi (Metadata.Master (meta (p w)))) as [masterNum bad]. simpl.
    destruct ((masterNum <? 1) || bad); [reflexivity|].
    destruct ((masterNum >? 1) && negb (Metadata.Cluster (meta (p w))) &&
              String.eqb (Metadata.DataStore (meta (p w))) ""); [reflexivity|].
    destruct (Go.Contains (Metadata.MasterExtraArgs (meta (p w))) "--datastore-endpoint" &&
              negb (String.eqb (Metadata.DataStore (meta (p w))) "")); [reflexivity|].
    destruct (IsClusterExist fuel env w) as [[[found ids] [e|]] w'|why w'];
      [destruct found; reflexivity| |reflexivity].
    destruct found; [reflexivity|].
    destruct (negb (String.eqb (Options.Region (opts (p w'))) defaultRegion) &&
              String.eqb (Options.Zone (opts (p w'))) defaultZone &&
              String.eqb (Options.VpcID (opts (p w'))) ""); [reflexivity|].
    destruct (Metadata.CloudControllerManager (meta (p w')) &&
              String.eqb (Options.NetworkRouteTableName (opts (p w'))) ""); reflexivity. }
  rewrite Hrun. clear Hrun.
  destruct (keyWithoutPath (p w) ssh); simpl; [eauto|].
  destruct (badMasterCount (p w)); simpl; [eauto|].
  destruct (unclustered (p w)); simpl; [eauto|].
  destruct (datastoreTwice (p w)); simpl; [eauto|].
  pose proof (IsClusterExist_keeps fuel env w) as Hk.
  destruct (IsClusterExist fuel env w) as [[[found ids] [e|]] w'|why w']; simpl in *;
    [destruct found; reflexivity| |reflexivity].
  destruct found; [eauto|].
  rewrite (keeps_zoneUnset _ _ Hk), (keeps_routerUnset _ _ Hk).
  destruct (zoneUnset (p w)); simpl; [eauto|].
  destruct (routerUnset (p w)); simpl; eauto.
Qed.

(** The six grounds for rejection the specification lists, and the claim
    that they are the only ones. *)
Definition listedGround (fuel : nat) (env : Env) (w : World) : Prop :=
  badMasterCount (p w) = true \/ unclustered (p w) = true \/
  datastoreTwice (p w) = true \/
  (exists ids w', IsClusterExist fuel env w = Ok (true, ids, None) w') \/
  zoneUnset (p w) = true \/ routerUnset (p w) = true.

Definition rejects (fuel : nat) (env : Env) (ssh : SSH) (w : World) : Prop :=
  exists e w', CreateCheck fuel env ssh w = Ok (Some e) w'.

(** A cluster that does not exist yet, one master, default region: none of
    the listed grounds holds, but naming a key pair without a key path is
    rejected all the same. *)
Definition emptyCloud : Env :=
  Scripted.env
    [Scripted.OnDescribeInstances
       (fun _ _ _ _ => inr {| InstanceSet := []; TotalCount := 0 |})].

Lemma CreateCheck_rejects_key_without_path :
  ~ (forall fuel env ssh w, rejects fuel env ssh w <-> listedGround fuel env w).
Proof.
  intros H.
  pose (w := Scripted.world
               (Scripted.configured "skey-1" "" "" false (Scripted.provider "demo" "1"))).
  destruct (H 1%nat emptyCloud emptySSH w) as [Hto _].
  assert (Hr : rejects 1 emptyCloud emptySSH w).
  { eexists _, _. vm_compute. reflexivity. }
  destruct (Hto Hr) as [G|[G|[G|[G|[G|G]]]]]; try (vm_compute in G; discriminate).
  destruct G as (ids & w' & G). vm_compute in G. discriminate.
Qed.

(** ** Security group rules *)

(** The port numbers a rule names, and whether a rule set opens a port. *)
Definition portsOf (rule : SecurityGroupPolicy) : list Z :=
  map (fun s => fst (Go.Atoi s)) (Go.Split (PolicyPort rule) ",").

Definition scopedTo (cidr : string) (rule : SecurityGroupPolicy) : bool :=
  String.eqb (CidrBlock rule) cidr || String.eqb (CidrBlock rule) ipRange.

Definition opens (port : Z) (rules : list SecurityGroupPolicy) : bool :=
  existsb (fun rule => existsb (Z.eqb port) (portsOf rule)) rules.

Definition opensScoped (cidr : string) (port : Z) (rules : list SecurityGroupPolicy)
  : bool :=
  existsb (fun rule => existsb (Z.eqb port) (portsOf rule) && scopedTo cidr rule) rules.

(** The flags after a scan, in terms of what the scanned rules open. *)
Definition seen (cidr : string) (rules : list SecurityGroupPolicy) (h : Has) : Has :=
  {| hasSSHPort := hasSSHPort h || opens 22 rules;
     hasAPIServerPort := hasAPIServerPort h || opens 6443 rules;
     hasKubeletPort := hasKubeletPort h || opens 10250 rules;
     hasVXlanPort := hasVXlanPort h || opens 8472 rules;
     hasUIPort := hasUIPort h || opens 8999 rules;
     hasEgress := hasEgress h;
     hasEtcdServerPort := hasEtcdServerPort h || opensScoped cidr 2379 rules;
     hasEtcdPeerPort := hasEtcdPeerPort h || opensScoped cidr 2380 rules |}.

Lemma Has_eq (a b : Has) :
  hasSSHPort a = hasSSHPort b -> hasAPIServerPort a = hasAPIServerPort b ->
  hasKubeletPort a = hasKubeletPort b -> hasVXlanPort a = hasVXlanPort b ->
  hasUIPort a = hasUIPort b -> hasEgress a = hasEgress b ->
  hasEtcdServerPort a = hasEtcdServerPort b -> hasEtcdPeerPort a = hasEtcdPeerPort b ->
  a = b.
Proof. destruct a, b; simpl; intros; subst; reflexivity. Qed.

Lemma notePorts_seen cidr rule : forall ports h,
  let found q := existsb (Z.eqb q) (map (fun s => fst (Go.Atoi s)) ports) in
  fold_left (notePort cidr rule) ports h =
  {| hasSSHPort := hasSSHPort h || found 22;
     hasAPIServerPort := hasAPIServerPort h || found 6443;
     hasKubeletPort := hasKubeletPort h || found 10250;
     hasVXlanPort := hasVXlanPort h || found 8472;
     hasUIPort := hasUIPort h || found 8999;
     hasEgress := hasEgress h;
     hasEtcdServerPort := hasEtcdServerPort h || (found 2379 && scopedTo cidr rule);
     hasEtcdPeerPort := hasEtcdPeerPort h || (found 2380 && scopedTo cidr rule) |}.
Proof.
  induction ports as [|s ports IH]; intros h found.
  - subst found. simpl. rewrite !orb_false_r. now destruct h.
  - cbn [fold_left]. rewrite IH. subst found. unfold notePort.
    fold (scopedTo cidr rule).
    cbn [map existsb hasSSHPort hasAPIServerPort hasKubeletPort hasVXlanPort
         hasUIPort hasEgress hasEtcdServerPort hasEtcdPeerPort].
    apply Has_eq;
      cbn [hasSSHPort hasAPIServerPort hasKubeletPort hasVXlanPort
           hasUIPort hasEgress hasEtcdServerPort hasEtcdPeerPort];
      rewrite <- ?orb_assoc, ?andb_orb_distrib_l,
        ?(Z.eqb_sym (fst (Go.Atoi s))); reflexivity.
Qed.

Lemma noteRules_seen cidr : forall rules h,
  fold_left (noteRule cidr) rules h = seen cidr rules h.
Proof.
  induction rules as [|rule rules IH]; intros h.
  - unfold seen; simpl. rewrite !orb_false_r. now destruct h.
  - simpl fold_left. rewrite IH. unfold noteRule. rewrite notePorts_seen.
    unfold seen, opens, opensScoped, portsOf. simpl.
    apply Has_eq; simpl; rewrite <- ?orb_assoc; reflexivity.
Qed.

(** The rules [configDefaultSecurityPermission] asks for, read off the
    rules in place: each of 22, 8472, 6443, 10250 and 8999 is asked for
    unless some rule already names that port (8472 only under the default
    overlay, 8999 only with the UI); 2379 and 2380 come as a pair, asked for
    unless both are named by rules scoped to the subnet or to any source. *)
Definition delta (network : string) (ui : bool) (cidr : string)
  (rules : list SecurityGroupPolicy) : list SecurityGroupPolicy :=
  (if opens 22 rules then []
   else [accept "TCP" "22" ipRange "accept for ssh(generated by autok3s)"])
  ++ (if (String.eqb network "" || String.eqb network "vxlan") && negb (opens 8472 rules)
      then [accept "UDP" "8472" ipRange "accept for k3s vxlan(generated by autok3s)"]
      else [])
  ++ (if opens 6443 rules then []
      else [accept "TCP" "6443" ipRange "accept for kube api-server(generated by autok3s)"])
  ++ (if opens 10250 rules then []
      else [accept "TCP" "10250" ipRange "accept for kubelet(generated by autok3s)"])
  ++ (if opensScoped cidr 2379 rules && opensScoped cidr 2380 rules then []
      else [accept "TCP" "2379" cidr "accept for etcd(generated by autok3s)";
            accept "TCP" "2380" cidr "accept for etcd(generated by autok3s)"])
  ++ (if ui && negb (opens 8999 rules)
      then [accept "TCP" "8999" ipRange "accept for dashboard(generated by autok3s)"]
      else []).

Definition ingressOf (set : option SecurityGroupPolicySet) : list SecurityGroupPolicy :=
  match set with
  | Some s => match Ingress s with
              | Some rules => rules
              | None => []
              end
  | None => []
  end.

Lemma missingIngress_seen network ui cidr rules :
  missingIngress network ui cidr (seen cidr rules hasNothing) =
  delta network ui cidr rules /\
  forall b, missingIngress network ui cidr (withEgress b (seen cidr rules hasNothing)) =
            delta network ui cidr rules.
Proof.
  unfold missingIngress, delta, seen, withEgress. simpl.
  destruct (opens 22 _), (opens 8472 _), (opens 6443 _), (opens 10250 _),
    (opens 8999 _), (opensScoped cidr 2379 _), (opensScoped cidr 2380 _);
    split; reflexivity.
Qed.

Lemma missingIngress_delta network ui cidr set :
  missingIngress network ui cidr (inspect cidr set) = delta network ui cidr (ingressOf set).
Proof.
  unfold inspect, ingressOf.
  destruct set as [s|]; [|apply (missingIngress_seen network ui cidr [])].
  destruct (Ingress s) as [rules|];
    [|apply (missingIngress_seen network ui cidr [])].
  rewrite noteRules_seen.
  destruct (Egress s); apply missingIngress_seen.
Qed.

(** Whether the answer of the cloud shows an egress rule in place.  The
    egress list counts only in an answer that carries an ingress list. *)
Definition egressInPlace (set : option SecurityGroupPolicySet) : bool :=
  match set with
  | Some {| Ingress := Some _; Egress := _ :: _ |} => true
  | _ => false
  end.

Lemma hasEgress_inspect cidr set : hasEgress (inspect cidr set) = egressInPlace set.
Proof.
  unfold egressInPlace, inspect.
  destruct set as [[[rules|] egress]|]; cbn [Ingress Egress]; [|reflexivity|reflexivity].
  rewrite !noteRules_seen. destruct egress; reflexivity.
Qed.

(** The calls reconciliation may make: it has no way to delete or change a
    rule. *)
Definition ruleCall (e : Event) : Prop :=
  match e with
  | EvDescribeSecurityGroupPolicies _ _ | EvDescribeSubnets _ _ _
  | EvCreateSecurityGroupPolicies _ _ _ _ => True
  | _ => False
  end.

(** The create-rule calls among some events: group, ingress, egress. *)
Definition createCalls (evs : list Event)
  : list (string * list SecurityGroupPolicy * list SecurityGroupPolicy) :=
  flat_map (fun e => match e with
                     | EvCreateSecurityGroupPolicies g i eg _ => [(g, i, eg)]
                     | _ => []
                     end) evs.

(** The calls a successful reconciliation is to make: one batch with every
    missing ingress rule if any is missing, then one call with the allow-all
    egress rule if no egress rule was seen. *)
Definition expectedCalls (groupId : string) (perms : list SecurityGroupPolicy)
  (egress : bool) : list (string * list SecurityGroupPolicy * list SecurityGroupPolicy) :=
  match perms with
  | [] => []
  | _ => [(groupId, perms, [])]
  end ++ (if egress then [] else [(groupId, [], [allowAllEgress])]).

(** The address block read off the answer of the subnet query. *)
Definition cidrFrom (answer : result (option (list Subnet))) : option string :=
  match answer with
  | inr (Some (subnet :: _)) => Some (SubnetCidrBlock subnet)
  | inr None => Some ""
  | _ => None
  end.

Ltac trace_norm := repeat rewrite <- app_assoc; cbn [app].

Lemma call_logged {A} (ask : History -> A) (ev : A -> Event) w :
  call ask ev w = Ok (ask (trace w)) (logged w (ev (ask (trace w)))).
Proof. reflexivity. Qed.

(** The last two steps of reconciliation: the ingress batch, then the
    egress call. *)
Definition applyDelta (env : Env) (groupId : string)
  (perms : list SecurityGroupPolicy) (egress : bool) : M (option error) :=
  err <- match perms with
         | [] => ret None
         | _ => call (fun h => CreateSecurityGroupPolicies env h groupId perms [])
                     (EvCreateSecurityGroupPolicies groupId perms [])
         end ;;
  match err with
  | Some e => ret (Some e)
  | None =>
      if negb egress then
        call (fun h => CreateSecurityGroupPolicies env h groupId [] [allowAllEgress])
             (EvCreateSecurityGroupPolicies groupId [] [allowAllEgress])
      else ret None
  end.

Ltac calls_done :=
  cbn; trace_norm;
  split; [reflexivity|]; split; [repeat constructor|];
  intros; try discriminate; try reflexivity.

Lemma applyDelta_calls env groupId perms egress w :
  exists evs,
    trace (worldOf (applyDelta env groupId perms egress w)) = trace w ++ evs /\
    Forall ruleCall evs /\
    forall w', applyDelta env groupId perms egress w = Ok None w' ->
               createCalls evs = expectedCalls groupId perms egress.
Proof.
  unfold applyDelta, expectedCalls, bind.
  destruct perms as [|perm perms'].
  - cbn [ret]. destruct egress; cbn [negb].
    + exists []. cbn. rewrite app_nil_r. auto.
    + rewrite call_logged. eexists [_]. calls_done.
  - rewrite call_logged.
    destruct (CreateSecurityGroupPolicies env (trace w) groupId (perm :: perms') []) as [e|].
    + eexists [_]. calls_done.
    + destruct egress; cbn [negb].
      * eexists [_]. calls_done.
      * rewrite call_logged. eexists [_; _]. calls_done.
Qed.

Lemma getSubnetCidr_answer env w :
  let ids := [Options.SubnetID (opts (p w))] in
  let answer := DescribeSubnets env (trace w) ids [] in
  let w1 := logged w (EvDescribeSubnets ids [] answer) in
  getSubnetCidr env w =
  match answer with
  | inl err => Ok (""%string, Some err) w1
  | inr (Some (subnet :: _)) => Ok (SubnetCidrBlock subnet, None) w1
  | inr (Some []) => Stuck PanicIndex w1
  | inr None => Ok (""%string, None) w1
  end.
Proof.
  unfold getSubnetCidr, bind, getP. cbv zeta. rewrite call_logged.
  destruct (DescribeSubnets env (trace w) _ []) as [err|[[|sn sns]|]]; reflexivity.
Qed.

Lemma configDefaultSecurityPermission_run env w :
  let groupId := Options.SecurityGroupIds (opts (p w)) in
  let answer := DescribeSecurityGroupPolicies env (trace w) groupId in
  let w1 := logged w (EvDescribeSecurityGroupPolicies groupId answer) in
  configDefaultSecurityPermission env w =
  match answer with
  | inl err => Ok (Some err) w1
  | inr set =>
      match (if negb (String.eqb (Options.SubnetID (opts (p w))) "")
             then getSubnetCidr env w1
             else Ok (subnetCidrBlock, None) w1) with
      | Ok (_, Some e) w2 => Ok (Some e) w2
      | Ok (cidr, None) w2 =>
          applyDelta env groupId
            (missingIngress (Metadata.Network (meta (p w))) (Metadata.UI (meta (p w)))
               cidr (inspect cidr set))
            (hasEgress (inspect cidr set)) w2
      | Stuck why w2 => Stuck why w2
      end
  end.
Proof.
  unfold configDefaultSecurityPermission, applyDelta.
  unfold bind at 1. unfold getP. unfold bind at 1. rewrite call_logged. cbv zeta.
  destruct (DescribeSecurityGroupPolicies env (trace w) _) as [err|set]; [reflexivity|].
  unfold bind at 1.
  destruct (negb (String.eqb (Options.SubnetID (opts (p w))) "")).
  - destruct (getSubnetCidr env _) as [[cidr [e|]] w2|why w2]; reflexivity.
  - reflexivity.
Qed.

Lemma configDefaultSecurityPermission_calls env w :
  let run := configDefaultSecurityPermission env w in
  let groupId := Options.SecurityGroupIds (opts (p w)) in
  let subnet := Options.SubnetID (opts (p w)) in
  exists evs,
    trace (worldOf run) = trace w ++ evs /\ Forall ruleCall evs /\
    forall w', run = Ok None w' ->
      exists set cidr,
        DescribeSecurityGroupPolicies env (trace w) groupId = inr set /\
        (if String.eqb subnet "" then cidr = subnetCidrBlock
         else exists a, In (EvDescribeSubnets [subnet] [] a) evs /\ cidrFrom a = Some cidr) /\
        createCalls evs =
          expectedCalls groupId
            (delta (Metadata.Network (meta (p w))) (Metadata.UI (meta (p w))) cidr
               (ingressOf set))
            (egressInPlace set).
Proof.
  intros run groupId subnet. subst run.
  rewrite configDefaultSecurityPermission_run. cbv zeta. fold groupId. fold subnet.
  destruct (DescribeSecurityGroupPolicies env (trace w) groupId) as [err|set] eqn:Hd.
  { eexists [_]. calls_done. }
  set (w1 := logged w _).
  destruct (String.eqb subnet "") eqn:Hs; cbn [negb].
  - destruct (applyDelta_calls env groupId
                (missingIngress (Metadata.Network (meta (p w))) (Metadata.UI (meta (p w)))
                   subnetCidrBlock (inspect subnetCidrBlock set))
                (hasEgress (inspect subnetCidrBlock set)) w1) as (evs & Ht & Hf & Hc).
    exists (EvDescribeSecurityGroupPolicies groupId (inr set) :: evs).
    split; [rewrite Ht; subst w1; cbn; now trace_norm|].
    split; [constructor; [exact I|assumption]|].
    intros w' Hrun. exists set, subnetCidrBlock. split; [reflexivity|].
    split; [reflexivity|].
    rewrite <- missingIngress_delta, <- (hasEgress_inspect subnetCidrBlock).
    cbn [createCalls flat_map app]. eapply Hc; eassumption.
  - rewrite getSubnetCidr_answer. cbv zeta.
    change (Options.SubnetID (opts (p w1))) with subnet.
    set (answer := DescribeSubnets env (trace w1) [subnet] []).
    set (w2 := logged w1 _).
    assert (Hgo : forall cidr, cidrFrom answer = Some cidr ->
      exists evs,
        trace (worldOf (applyDelta env groupId
                 (missingIngress (Metadata.Network (meta (p w))) (Metadata.UI (meta (p w)))
                    cidr (inspect cidr set))
                 (hasEgress (inspect cidr set)) w2)) = trace w ++ evs /\
        Forall ruleCall evs /\
        forall w', applyDelta env groupId
                     (missingIngress (Metadata.Network (meta (p w)))
                        (Metadata.UI (meta (p w))) cidr (inspect cidr set))
                     (hasEgress (inspect cidr set)) w2 = Ok None w' ->
          exists set' cidr',
            @inr error _ set = inr set' /\
            (exists a, In (EvDescribeSubnets [subnet] [] a) evs /\ cidrFrom a = Some cidr') /\
            createCalls evs =
              expectedCalls groupId
                (delta (Metadata.Network (meta (p w))) (Metadata.UI (meta (p w))) cidr'
                   (ingressOf set'))
                (egressInPlace set')).
    { intros cidr Hcidr.
      destruct (applyDelta_calls env groupId
                  (missingIngress (Metadata.Network (meta (p w))) (Metadata.UI (meta (p w)))
                     cidr (inspect cidr set))
                  (hasEgress (inspect cidr set)) w2) as (evs & Ht & Hf & Hc).
      exists (EvDescribeSecurityGroupPolicies groupId (inr set) ::
              EvDescribeSubnets [subnet] [] answer :: evs).
      split; [rewrite Ht; subst w2 w1; cbn; now trace_norm|].
      split; [repeat constructor; assumption|].
      intros w' Hrun. exists set, cidr. split; [reflexivity|].
      split; [exists answer; split; [right; left; reflexivity|assumption]|].
      rewrite <- missingIngress_delta, <- (hasEgress_inspect cidr).
      cbn [createCalls flat_map app]. eapply Hc; eassumption. }
    destruct answer as [err|[[|sn sns]|]] eqn:Ha.
    + eexists [_; _]. subst w2 w1. calls_done.
    + eexists [_; _]. subst w2 w1. calls_done.
    + apply (Hgo (SubnetCidrBlock sn) eq_refl).
    + apply (Hgo ""%string eq_refl).
Qed.

Lemma delta_skips network ui cidr rules port perm :
  In port [22; 6443; 10250; 8472; 8999] -> opens port rules = true ->
  In perm (delta network ui cidr rules) -> fst (Go.Atoi (PolicyPort perm)) <> port.
Proof.
  intros Hport Hopen Hin. unfold delta in Hin.
  repeat (apply in_app_or in Hin; destruct Hin as [Hin|Hin]).
  all: repeat match type of Hin with
         | In _ (if ?b then _ else _) => destruct b eqn:?
         end.
  all: simpl in Hin, Hport; intuition (subst; simpl; try congruence; try discriminate).
  all: vm_compute; try discriminate.
  all: rewrite ?andb_true_iff, ?negb_true_iff in *; intuition congruence.
Qed.

(** C1 (as amended).  Reconciliation only describes and creates rules.  A
    run that succeeds makes exactly these create calls: one batch holding
    [delta] of the ingress rules in place, if that is not empty, and one call
    with the allow-all egress rule, unless the answer of the cloud shows an
    egress rule in place.  [delta] never names a port among 22, 6443, 10250,
    8472, 8999 that a rule in place already names; on a group without rules
    it is the full baseline, and the egress call follows; on a group whose
    rules open every required port and which has an egress rule, no create
    call is made at all. *)
Theorem reconcile_creates_delta :
  (forall env w,
     let run := configDefaultSecurityPermission env w in
     let groupId := Options.SecurityGroupIds (opts (p w)) in
     let subnet := Options.SubnetID (opts (p w)) in
     exists evs,
       trace (worldOf run) = trace w ++ evs /\ Forall ruleCall evs /\
       forall w', run = Ok None w' ->
         exists set cidr,
           DescribeSecurityGroupPolicies env (trace w) groupId = inr set /\
           (if String.eqb subnet "" then cidr = subnetCidrBlock
            else exists a, In (EvDescribeSubnets [subnet] [] a) evs /\
                           cidrFrom a = Some cidr) /\
           createCalls evs =
             expectedCalls groupId
               (delta (Metadata.Network (meta (p w))) (Metadata.UI (meta (p w))) cidr
                  (ingressOf set))
               (egressInPlace set)) /\
  (forall network ui cidr set,
     missingIngress network ui cidr (inspect cidr set) =
     delta network ui cidr (ingressOf set)) /\
  (forall network ui cidr rules port perm,
     In port [22; 6443; 10250; 8472; 8999] -> opens port rules = true ->
     In perm (delta network ui cidr rules) -> fst (Go.Atoi (PolicyPort perm)) <> port) /\
  (forall network ui cidr groupId egress,
     let set := Some {| Ingress := Some []; Egress := egress |} in
     delta network ui cidr (ingressOf set) =
     [accept "TCP" "22" ipRange "accept for ssh(generated by autok3s)"]
     ++ (if String.eqb network "" || String.eqb network "vxlan"
         then [accept "UDP" "8472" ipRange "accept for k3s vxlan(generated by autok3s)"]
         else [])
     ++ [accept "TCP" "6443" ipRange "accept for kube api-server(generated by autok3s)";
         accept "TCP" "10250" ipRange "accept for kubelet(generated by autok3s)";
         accept "TCP" "2379" cidr "accept for etcd(generated by autok3s)";
         accept "TCP" "2380" cidr "accept for etcd(generated by autok3s)"]
     ++ (if ui
         then [accept "TCP" "8999" ipRange "accept for dashboard(generated by autok3s)"]
         else []) /\
     (egress = [] ->
      expectedCalls groupId (delta network ui cidr (ingressOf set)) (egressInPlace set) =
      [(groupId, delta network ui cidr (ingressOf set), []);
       (groupId, [], [allowAllEgress])])) /\
  (forall network ui cidr rules egress groupId,
     let set := Some {| Ingress := Some rules; Egress := egress |} in
     opens 22 rules = true -> opens 6443 rules = true -> opens 10250 rules = true ->
     (String.eqb network "" || String.eqb network "vxlan" = true -> opens 8472 rules = true) ->
     (ui = true -> opens 8999 rules = true) ->
     opensScoped cidr 2379 rules = true -> opensScoped cidr 2380 rules = true ->
     egress <> [] ->
     delta network ui cidr (ingressOf set) = [] /\
     expectedCalls groupId (delta network ui cidr (ingressOf set)) (egressInPlace set) = []).
Proof.
  split; [exact configDefaultSecurityPermission_calls|].
  split; [exact missingIngress_delta|].
  split; [exact delta_skips|].
  split.
  - intros network ui cidr groupId egress set.
    assert (Hd : delta network ui cidr (ingressOf set) =
                 [accept "TCP" "22" ipRange "accept for ssh(generated by autok3s)"]
                 ++ (if String.eqb network "" || String.eqb network "vxlan"
                     then [accept "UDP" "8472" ipRange
                             "accept for k3s vxlan(generated by autok3s)"]
                     else [])
                 ++ [accept "TCP" "6443" ipRange
                       "accept for kube api-server(generated by autok3s)";
                     accept "TCP" "10250" ipRange "accept for kubelet(generated by autok3s)";
                     accept "TCP" "2379" cidr "accept for etcd(generated by autok3s)";
                     accept "TCP" "2380" cidr "accept for etcd(generated by autok3s)"]
                 ++ (if ui
                     then [accept "TCP" "8999" ipRange
                             "accept for dashboard(generated by autok3s)"]
                     else [])).
    { subst set. unfold delta. simpl. destruct (_ || _), ui; reflexivity. }
    split; [exact Hd|]. intros ->. rewrite Hd. reflexivity.
  - intros network ui cidr rules egress groupId set
      H22 H6443 H10250 H8472 H8999 H2379 H2380 Hegress.
    assert (Hd : delta network ui cidr (ingressOf set) = []).
    { subst set. cbn [ingressOf Ingress].
      unfold delta. rewrite H22, H6443, H10250, H2379, H2380. simpl.
      destruct (String.eqb network "" || String.eqb network "vxlan");
        [rewrite H8472 by reflexivity|]; simpl;
        (destruct ui; [rewrite H8999 by reflexivity|]); reflexivity. }
    split; [exact Hd|]. rewrite Hd. subst set.
    destruct egress as [|rule egress]; [now contradiction Hegress|]. reflexivity.
Qed.

(** A fresh group on the scripted cloud: one ingress batch with the six
    baseline rules of the default overlay, then the egress rule. *)
Definition freshGroup : Env :=
  Scripted.env
    [Scripted.OnDescribeSecurityGroupPolicies
       (fun _ _ => inr (Some {| Ingress := Some []; Egress := [] |}))].

(** A group that has it all: one rule for the five open ports, one for the
    two datastore ports from any source, and an egress rule. *)
Definition completeRules : SecurityGroupPolicySet :=
  {| Ingress := Some [ accept "TCP" "22,6443,10250,8472,8999" ipRange "in place";
                       accept "TCP" "2379,2380" ipRange "in place" ];
     Egress := [ allowAllEgress ] |}.

Definition completeGroup : Env :=
  Scripted.env
    [Scripted.OnDescribeSecurityGroupPolicies (fun _ _ => inr (Some completeRules))].

Lemma reconcile_creates_delta_witness :
  let w := Scripted.world
             (Scripted.configured "" "" "sg-1" false (Scripted.provider "demo" "1")) in
  (exists evs,
     trace (worldOf (configDefaultSecurityPermission freshGroup w)) = trace w ++ evs /\
     createCalls evs =
       [("sg-1"%string, delta "" false subnetCidrBlock [], []);
        ("sg-1"%string, [], [allowAllEgress])]) /\
  (exists evs,
     trace (worldOf (configDefaultSecurityPermission completeGroup w)) = trace w ++ evs /\
     createCalls evs = []).
Proof.
  intro w. split.
  - destruct (proj1 reconcile_creates_delta freshGroup w) as (evs & Ht & _ & Hc).
    exists evs. split; [exact Ht|].
    destruct (Hc (worldOf (configDefaultSecurityPermission freshGroup w)) eq_refl)
      as (set & cidr & Hset & Hcidr & Hcalls).
    vm_compute in Hset. injection Hset as <-. simpl in Hcidr. subst cidr.
    exact Hcalls.
  - destruct (proj1 reconcile_creates_delta completeGroup w) as (evs & Ht & _ & Hc).
    exists evs. split; [exact Ht|].
    destruct (Hc (worldOf (configDefaultSecurityPermission completeGroup w)) eq_refl)
      as (set & cidr & Hset & Hcidr & Hcalls).
    vm_compute in Hset. injection Hset as <-. simpl in Hcidr. subst cidr.
    rewrite Hcalls.
    apply (proj2 (proj2 (proj2 (proj2 reconcile_creates_delta)))
             "" false subnetCidrBlock
             [ accept "TCP" "22,6443,10250,8472,8999" ipRange "in place";
               accept "TCP" "2379,2380" ipRange "in place" ]
             [ allowAllEgress ] "sg-1"%string);
      try reflexivity; try discriminate.
Defined.

(** The claim as first stated: no required port that is already present,
    2379 and 2380 counting as present under a rule scoped to the subnet or
    to any source, is asked for again. *)
Definition presentAsClaimed (cidr : string) (port : Z)
  (rules : list SecurityGroupPolicy) : bool :=
  if (port =? 2379) || (port =? 2380) then opensScoped cidr port rules
  else opens port rules.

Definition neverRecreated : Prop :=
  forall network ui cidr set port perm,
    In port [22; 6443; 10250; 8472; 8999; 2379; 2380] ->
    presentAsClaimed cidr port (ingressOf set) = true ->
    In perm (missingIngress network ui cidr (inspect cidr set)) ->
    fst (Go.Atoi (PolicyPort perm)) <> port.

(** A group that opens 2379 to any source but not 2380 gets both rules. *)
Lemma etcd_port_recreated : ~ neverRecreated.
Proof.
  intros H.
  refine (H "" false subnetCidrBlock
            (Some {| Ingress := Some [accept "TCP" "2379" ipRange "etcd"]; Egress := [] |})
            2379 (accept "TCP" "2379" subnetCidrBlock "accept for etcd(generated by autok3s)")
            _ _ _ _).
  - simpl. tauto.
  - reflexivity.
  - vm_compute. tauto.
  - reflexivity.
Qed.

(** ** Pairing floating addresses with nodes *)

(** A node [allocateEIPForInstance] picks: the wanted role, no public
    address yet. *)
Definition eligible (master : bool) (n : Node) : bool :=
  Bool.eqb (Master n) master && isNil (PublicIPAddress n).

(** First come, first served: the eligible nodes in registry order, each
    with the next address. *)
Fixpoint pairing (master : bool) (entries : list (string * Node))
  (addrs : list Address) : list (Node * Address) :=
  match entries with
  | [] => []
  | (_, n) :: rest =>
      if eligible master n then
        match addrs with
        | [] => []
        | a :: tail => (n, a) :: pairing master rest tail
        end
      else pairing master rest addrs
  end.


(** The association an event stands for, if it is one. *)
Definition assocOf (e : Event) : option (string * string) :=
  match e with
  | EvAssociateAddress a i _ => Some (a, i)
  | _ => None
  end.



Definition eligibleNodes (master : bool) (reg : list (string * Node)) : list Node :=
  filter (eligible master) (map snd reg).


Lemma pairing_length master : forall entries addrs,
  (length (pairing master entries addrs) <= length (eligibleNodes master entries))%nat.
Proof.
  unfold eligibleNodes.
  induction entries as [|[k n] rest IH]; intros addrs; simpl; [lia|].
  destruct (eligible master n); simpl; [|apply IH].
  destruct addrs; simpl; [lia|]. specialize (IH addrs). lia.
Qed.









(** What comes before the associations leaves the provider alone and makes
    no association call. *)
Definition prelude (w w' : World) : Prop :=
  p w' = p w /\ grows (fun e => assocOf e = None) w w'.

Lemma prelude_refl w : prelude w w.
Proof. split; [reflexivity|apply grows_refl]. Qed.

Lemma prelude_trans w1 w2 w3 : prelude w1 w2 -> prelude w2 w3 -> prelude w1 w3.
Proof.
  intros [P1 G1] [P2 G2]. split; [congruence|eapply grows_trans; eassumption].
Qed.

Ltac preluding :=
  steps_with prelude_refl prelude_trans
    ltac:(idtac;
          match goal with
          | |- Steps prelude (emit _) =>
              intro; split; [reflexivity|apply emit_grows; reflexivity]
          | |- Steps prelude (setErrWaitTimeout _) =>
              intro; split; [reflexivity|apply setErrWaitTimeout_grows]
          end).



Lemma describeAddresses_by_id env eips w :
  let answer := DescribeAddresses env (trace w) eips [] in
  describeAddresses env eips [] w =
  Ok match answer with
     | inl e => (None, Some (Errorf "[%s] calling describeAddresses error, msg: %v"
                               [VStr ProviderName; VErr (Some e)]))
     | inr addressSet => (addressSet, None)
     end (logged w (EvDescribeAddresses eips [] answer)).
Proof.
  unfold describeAddresses, bind. cbv zeta. rewrite call_logged.
  destruct (DescribeAddresses env (trace w) eips []); reflexivity.
Qed.













(** ** A failed association *)

(** An association fails when the SDK reports an error or hands back a task
    identifier that is not a number. *)
Definition associationFailed (res : result string) : bool :=
  match res with
  | inl _ => true
  | inr taskId => snd (Go.ParseUint taskId)
  end.


Lemma associateAddress_outcome env a i w :
  let res := AssociateAddress env (trace w) a i in
  exists taskID err,
    associateAddress env a i w = Ok (taskID, err) (logged w (EvAssociateAddress a i res)) /\
    (err = None <-> associationFailed res = false).
Proof.
  unfold associateAddress, bind. cbv zeta. rewrite call_logged.
  destruct (AssociateAddress env (trace w) a i) as [e|taskId]; unfold ret.
  - eexists _, _. split; [reflexivity|]. simpl. split; discriminate.
  - unfold convertTaskID. simpl.
    destruct (Go.ParseUint taskId) as [n bad]. simpl.
    destruct bad; eexists _, _; (split; [reflexivity|]); split; congruence.
Qed.











(** ** Network *)

Lemma generateDefaultSubnet_run env w :
  let o := opts (p w) in
  let answer := CreateSubnet env (trace w) (Options.VpcID o) subnetName (Options.Zone o)
                  subnetCidrBlock ownershipTags in
  let w1 := logged w (EvCreateSubnet (Options.VpcID o) subnetName (Options.Zone o)
                        subnetCidrBlock ownershipTags answer) in
  generateDefaultSubnet env w =
  match answer with
  | inl e =>
      Ok (Some (Errorf "[%s] fail to create default subnet for vpc %s in region %s, zone %s: %v"
                  [VStr ProviderName; VStr (Options.VpcID o);
                   VStr (Options.Region o); VStr (Options.Zone o); VErr (Some e)])) w1
  | inr subnetId =>
      Ok None {| p := withOpts (Options.setSubnetID subnetId) (p w1);
                 trace := trace w1; ErrWaitTimeout := ErrWaitTimeout w1 |}
  end.
Proof.
  unfold generateDefaultSubnet, bind, getP. cbv zeta. rewrite call_logged.
  destruct (CreateSubnet env (trace w) _ _ _ _ _); reflexivity.
Qed.

Lemma generateDefaultVPC_run env w :
  let answer := CreateVpc env (trace w) vpcName vpcCidrBlock ownershipTags in
  let w1 := logged w (EvCreateVpc vpcName vpcCidrBlock ownershipTags answer) in
  generateDefaultVPC env w =
  match answer with
  | inl e =>
      Ok (Some (Errorf "[%s] fail to create default vpc %s in region %s: %v"
                  [VStr ProviderName; VStr vpcName;
                   VStr (Options.Region (opts (p w))); VErr (Some e)])) w1
  | inr vpcId =>
      Ok None {| p := withOpts (Options.setVpcID vpcId) (p w1);
                 trace := trace w1; ErrWaitTimeout := ErrWaitTimeout w1 |}
  end.
Proof.
  unfold generateDefaultVPC, bind, getP. cbv zeta. rewrite call_logged.
  destruct (CreateVpc env (trace w) _ _ _); reflexivity.
Qed.

(** The world after [configNetwork] has found a network and adopted it. *)
Definition adopted (vpcId : string) (w : World) : World :=
  {| p := withOpts (Options.setVpcID vpcId) (p w); trace := trace w;
     ErrWaitTimeout := ErrWaitTimeout w |}.

Definition settled (subnetId : string) (w : World) : World :=
  {| p := withOpts (Options.setSubnetID subnetId) (p w); trace := trace w;
     ErrWaitTimeout := ErrWaitTimeout w |}.

Lemma configNetwork_run env w :
  let found := DescribeVpcs env (trace w) vpcFilters in
  let w1 := logged w (EvDescribeVpcs vpcFilters found) in
  configNetwork env w =
  match found with
  | inl err => Ok (Some err) w1
  | inr (defaultVPC :: _) =>
      let w2 := adopted (VpcId defaultVPC) w1 in
      let subnets := DescribeSubnets env (trace w2) [] subnetFilters in
      let w3 := logged w2 (EvDescribeSubnets [] subnetFilters subnets) in
      match subnets with
      | inl err => Ok (Some err) w3
      | inr (Some (subnet :: _)) => Ok None (settled (SubnetId subnet) w3)
      | inr _ => generateDefaultSubnet env w3
      end
  | inr [] =>
      match generateDefaultVPC env w1 with
      | Ok (Some e) w2 => Ok (Some e) w2
      | Ok None w2 => generateDefaultSubnet env w2
      | Stuck why w2 => Stuck why w2
      end
  end.
Proof.
  unfold configNetwork. unfold bind at 1. rewrite call_logged. cbv zeta.
  destruct (DescribeVpcs env (trace w) vpcFilters) as [err|[|vpc rest]]; [reflexivity| |].
  - unfold bind. destruct (generateDefaultVPC env _) as [[e|] w2|why w2]; reflexivity.
  - unfold bind at 1. unfold setP at 1. unfold bind at 1. rewrite call_logged.
    fold (adopted (VpcId vpc) (logged w (EvDescribeVpcs vpcFilters (inr (vpc :: rest))))).
    destruct (DescribeSubnets env _ [] subnetFilters) as [err|[[|sn sns]|]];
      reflexivity.
Qed.

(** What the two lookups of [configNetwork] find after a history. *)
Definition lookupVpc (env : Env) (h : History) : option string :=
  match DescribeVpcs env h vpcFilters with
  | inr (vpc :: _) => Some (VpcId vpc)
  | _ => None
  end.

Definition lookupSubnet (env : Env) (h : History) : option string :=
  match DescribeSubnets env h [] subnetFilters with
  | inr (Some (subnet :: _)) => Some (SubnetId subnet)
  | _ => None
  end.

Definition isLookup (e : Event) : Prop :=
  match e with
  | EvDescribeVpcs _ _ | EvDescribeSubnets _ _ _ => True
  | _ => False
  end.

Definition isCreate (e : Event) : Prop :=
  match e with
  | EvCreateVpc _ _ _ _ | EvCreateSubnet _ _ _ _ _ _ => True
  | _ => False
  end.

(** A cloud that remembers: looking something up changes nothing; a default
    network created where none was found, and a default subnet created in
    the network found where no subnet was, are the ones found from then on;
    creating the one does not change what is found of the other; and no
    default subnet is found where no default network is. *)
Record Consistent (env : Env) : Prop := {
  vpc_stable : forall h e, isLookup e -> lookupVpc env (h ++ [e]) = lookupVpc env h;
  subnet_stable : forall h e,
    isLookup e -> lookupSubnet env (h ++ [e]) = lookupSubnet env h;
  vpc_created : forall h v,
    lookupVpc env h = None ->
    lookupVpc env (h ++ [EvCreateVpc vpcName vpcCidrBlock ownershipTags (inr v)]) = Some v;
  subnet_created : forall h vpcId zone s,
    lookupVpc env h = Some vpcId -> lookupSubnet env h = None ->
    lookupSubnet env
      (h ++ [EvCreateSubnet vpcId subnetName zone subnetCidrBlock ownershipTags (inr s)])
    = Some s;
  vpc_kept : forall h vpcId zone s,
    lookupVpc env
      (h ++ [EvCreateSubnet vpcId subnetName zone subnetCidrBlock ownershipTags (inr s)])
    = lookupVpc env h;
  subnet_kept : forall h v,
    lookupSubnet env (h ++ [EvCreateVpc vpcName vpcCidrBlock ownershipTags (inr v)])
    = lookupSubnet env h;
  no_orphan : forall h, lookupVpc env h = None -> lookupSubnet env h = None
}.

Lemma lookupVpc_Some env h v :
  lookupVpc env h = Some v ->
  exists vpc rest, DescribeVpcs env h vpcFilters = inr (vpc :: rest) /\ VpcId vpc = v.
Proof.
  unfold lookupVpc. destruct (DescribeVpcs env h vpcFilters) as [e|[|vpc rest]];
    try discriminate. intros H. injection H as <-. eauto.
Qed.

Lemma lookupSubnet_Some env h s :
  lookupSubnet env h = Some s ->
  exists subnet rest,
    DescribeSubnets env h [] subnetFilters = inr (Some (subnet :: rest)) /\
    SubnetId subnet = s.
Proof.
  unfold lookupSubnet.
  destruct (DescribeSubnets env h [] subnetFilters) as [e|[[|sn rest]|]];
    try discriminate. intros H. injection H as <-. eauto.
Qed.

(** A second run that finds network [v] and subnet [s] adopts both and
    creates nothing. *)
Lemma configNetwork_finds env w v s :
  lookupVpc env (trace w) = Some v ->
  (forall a, lookupSubnet env (trace w ++ [EvDescribeVpcs vpcFilters a]) = Some s) ->
  exists w' found subnets,
    configNetwork env w = Ok None w' /\
    Options.VpcID (opts (p w')) = v /\ Options.SubnetID (opts (p w')) = s /\
    trace w' = trace w ++ [EvDescribeVpcs vpcFilters found;
                           EvDescribeSubnets [] subnetFilters subnets].
Proof.
  intros Hv Hs. rewrite configNetwork_run. cbv zeta.
  apply lookupVpc_Some in Hv as (vpc & rest & Hv & <-). rewrite Hv.
  specialize (Hs (inr (vpc :: rest))).
  apply lookupSubnet_Some in Hs as (sn & sns & Hs & <-).
  cbn [adopted logged trace]. rewrite Hs.
  eexists _, _, _. split; [reflexivity|]. cbn. trace_norm. repeat split.
Qed.

Ltac tidy :=
  cbn [adopted settled p trace logged withOpts opts Options.VpcID Options.SubnetID
       Options.setVpcID Options.setSubnetID].

Lemma configNetwork_idempotent env w w1 :
  Consistent env ->
  configNetwork env w = Ok None w1 ->
  exists w2 found subnets,
    configNetwork env w1 = Ok None w2 /\
    Options.VpcID (opts (p w2)) = Options.VpcID (opts (p w1)) /\
    Options.SubnetID (opts (p w2)) = Options.SubnetID (opts (p w1)) /\
    trace w2 = trace w1 ++ [EvDescribeVpcs vpcFilters found;
                            EvDescribeSubnets [] subnetFilters subnets].
Proof.
  intros C. rewrite configNetwork_run. cbv zeta.
  assert (Hcreate : forall w0 : World,
    lookupVpc env (trace w0) = Some (Options.VpcID (opts (p w0))) ->
    lookupSubnet env (trace w0) = None ->
    generateDefaultSubnet env w0 = Ok None w1 ->
    exists w2 found subnets,
      configNetwork env w1 = Ok None w2 /\
      Options.VpcID (opts (p w2)) = Options.VpcID (opts (p w1)) /\
      Options.SubnetID (opts (p w2)) = Options.SubnetID (opts (p w1)) /\
      trace w2 = trace w1 ++ [EvDescribeVpcs vpcFilters found;
                              EvDescribeSubnets [] subnetFilters subnets]).
  { intros w0 Hv0 Hs0. rewrite generateDefaultSubnet_run. cbv zeta.
    destruct (CreateSubnet env (trace w0) _ _ _ _ _) as [e|s]; [discriminate|].
    intros H. injection H as <-. tidy.
    apply configNetwork_finds.
    - tidy. now rewrite (vpc_kept _ C).
    - intros a. tidy. rewrite (subnet_stable _ C) by exact I.
      now apply (subnet_created _ C). }
  destruct (DescribeVpcs env (trace w) vpcFilters) as [err|[|vpc rest]] eqn:Hv;
    [discriminate| |].
  - (* no network: both are created *)
    assert (Hv0 : lookupVpc env (trace w) = None) by (unfold lookupVpc; now rewrite Hv).
    rewrite generateDefaultVPC_run. cbv zeta.
    destruct (CreateVpc env _ vpcName vpcCidrBlock ownershipTags) as [e|v];
      [discriminate|].
    apply Hcreate; tidy.
    + apply (vpc_created _ C). now rewrite (vpc_stable _ C) by exact I.
    + rewrite (subnet_kept _ C), (subnet_stable _ C) by exact I.
      now apply (no_orphan _ C).
  - (* the network is there *)
    assert (Hv0 : lookupVpc env (trace w) = Some (VpcId vpc))
      by (unfold lookupVpc; now rewrite Hv).
    tidy.
    destruct (DescribeSubnets env _ [] subnetFilters) as [err|found] eqn:Hs;
      [discriminate|].
    assert (Hfound : lookupSubnet env (trace w ++ [EvDescribeVpcs vpcFilters (inr (vpc :: rest))]) =
                     match found with
                     | Some (sn :: _) => Some (SubnetId sn)
                     | _ => None
                     end)
      by (unfold lookupSubnet; now rewrite Hs).
    destruct found as [[|sn sns]|].
    + apply Hcreate; tidy.
      * now rewrite !(vpc_stable _ C) by exact I.
      * now rewrite (subnet_stable _ C) by exact I.
    + intros H. injection H as <-. tidy.
      apply configNetwork_finds.
      * tidy. now rewrite !(vpc_stable _ C) by exact I.
      * intros a. tidy. now do 2 rewrite (subnet_stable _ C) by exact I.
    + apply Hcreate; tidy.
      * now rewrite !(vpc_stable _ C) by exact I.
      * now rewrite (subnet_stable _ C) by exact I.
Qed.

Lemma configNetwork_reuses env w vpc rest :
  DescribeVpcs env (trace w) vpcFilters = inr (vpc :: rest) ->
  let w' := worldOf (configNetwork env w) in
  Options.VpcID (opts (p w')) = VpcId vpc /\
  exists subnets tail,
    trace w' = trace w ++ EvDescribeVpcs vpcFilters (inr (vpc :: rest)) ::
                          EvDescribeSubnets [] subnetFilters subnets :: tail /\
    match subnets with
    | inl _ => tail = []
    | inr (Some (subnet :: _)) =>
        tail = [] /\ Options.SubnetID (opts (p w')) = SubnetId subnet
    | inr _ =>
        exists res,
          tail = [EvCreateSubnet (VpcId vpc) subnetName (Options.Zone (opts (p w)))
                    subnetCidrBlock ownershipTags res]
    end.
Proof.
  intros Hv. rewrite configNetwork_run. cbv zeta. rewrite Hv.
  destruct (DescribeSubnets env _ [] subnetFilters) as [err|found] eqn:Hs.
  - cbn. split; [reflexivity|]. eexists _, _. trace_norm. split; reflexivity.
  - assert (Hcreate : forall found',
      let w3 := logged (adopted (VpcId vpc)
                          (logged w (EvDescribeVpcs vpcFilters (inr (vpc :: rest)))))
                  (EvDescribeSubnets [] subnetFilters found') in
      Options.VpcID (opts (p (worldOf (generateDefaultSubnet env w3)))) = VpcId vpc /\
      exists res,
        trace (worldOf (generateDefaultSubnet env w3)) =
        trace w ++ EvDescribeVpcs vpcFilters (inr (vpc :: rest)) ::
                   EvDescribeSubnets [] subnetFilters found' ::
                   [EvCreateSubnet (VpcId vpc) subnetName (Options.Zone (opts (p w)))
                      subnetCidrBlock ownershipTags res]).
    { intros found' w3. subst w3. rewrite generateDefaultSubnet_run. cbv zeta. tidy.
      destruct (CreateSubnet env _ _ _ _ _ _); cbn; (split; [reflexivity|]);
        eexists; trace_norm; reflexivity. }
    destruct found as [[|sn sns]|].
    + destruct (Hcreate (inr (Some []))) as (HV & res & Ht).
      split; [exact HV|]. eexists _, _. split; [exact Ht|]. exists res. reflexivity.
    + cbn. split; [reflexivity|]. eexists _, _. trace_norm. repeat split.
    + destruct (Hcreate (inr None)) as (HV & res & Ht).
      split; [exact HV|]. eexists _, _. split; [exact Ht|]. exists res. reflexivity.
Qed.

(** C7 (as amended).  When the lookup by name and ownership tag finds a
    default network, [configNetwork] adopts the first one found and creates
    no network; it then looks the default subnet up by name and ownership
    tag, and creates one, in the adopted network, only if that lookup finds
    none.  On a cloud that remembers, a run that succeeded is followed by a
    run that makes the two lookups only and ends with the same network and
    subnet. *)
Theorem configNetwork_reuses_and_repeats :
  (forall env w vpc rest,
     DescribeVpcs env (trace w) vpcFilters = inr (vpc :: rest) ->
     let w' := worldOf (configNetwork env w) in
     Options.VpcID (opts (p w')) = VpcId vpc /\
     exists subnets tail,
       trace w' = trace w ++ EvDescribeVpcs vpcFilters (inr (vpc :: rest)) ::
                             EvDescribeSubnets [] subnetFilters subnets :: tail /\
       match subnets with
       | inl _ => tail = []
       | inr (Some (subnet :: _)) =>
           tail = [] /\ Options.SubnetID (opts (p w')) = SubnetId subnet
       | inr _ =>
           exists res,
             tail = [EvCreateSubnet (VpcId vpc) subnetName (Options.Zone (opts (p w)))
                       subnetCidrBlock ownershipTags res]
       end) /\
  (forall env w w1,
     Consistent env ->
     configNetwork env w = Ok None w1 ->
     exists w2 found subnets,
       configNetwork env w1 = Ok None w2 /\
       Options.VpcID (opts (p w2)) = Options.VpcID (opts (p w1)) /\
       Options.SubnetID (opts (p w2)) = Options.SubnetID (opts (p w1)) /\
       trace w2 = trace w1 ++ [EvDescribeVpcs vpcFilters found;
                               EvDescribeSubnets [] subnetFilters subnets]).
Proof.
  split; [exact configNetwork_reuses|exact configNetwork_idempotent].
Qed.

(** A cloud that remembers the first default network created and the first
    default subnet created once a network was there. *)
Definition remember (st : option string * option string) (e : Event)
  : option string * option string :=
  match e, st with
  | EvCreateVpc _ _ _ (inr v), (None, s) => (Some v, s)
  | EvCreateSubnet _ _ _ _ _ (inr s), (Some v, None) => (Some v, Some s)
  | _, _ => st
  end.

Definition memory (h : History) : option string * option string :=
  fold_left remember h (None, None).

Definition rememberingCloud : Env :=
  Scripted.env
    [ Scripted.OnDescribeVpcs
        (fun h _ => inr match fst (memory h) with
                        | Some v => [ {| VpcId := v |} ]
                        | None => []
                        end);
      Scripted.OnDescribeSubnets
        (fun h _ _ => inr (Some match memory h with
                                | (Some v, Some s) =>
                                    [ {| SubnetId := s; SubnetVpcId := v;
                                         SubnetCidrBlock := subnetCidrBlock |} ]
                                | _ => []
                                end));
      Scripted.OnCreateVpc (fun _ _ _ _ => inr "vpc-1"%string);
      Scripted.OnCreateSubnet (fun _ _ _ _ _ _ => inr "subnet-1"%string) ].

Lemma memory_snoc h e : memory (h ++ [e]) = remember (memory h) e.
Proof. unfold memory. now rewrite fold_left_app. Qed.

Lemma memory_no_orphan h : fst (memory h) = None -> snd (memory h) = None.
Proof.
  induction h as [|e h IH] using rev_ind; [reflexivity|].
  rewrite memory_snoc. destruct (memory h) as [[v|] [s|]]; simpl in *;
    try (specialize (IH eq_refl); discriminate);
    destruct e; simpl; try discriminate; try reflexivity;
    match goal with res : result string |- _ => destruct res end;
    simpl; try discriminate; reflexivity.
Qed.

Lemma rememberingCloud_lookupVpc h : lookupVpc rememberingCloud h = fst (memory h).
Proof. unfold lookupVpc. simpl. now destruct (fst (memory h)). Qed.

Lemma rememberingCloud_lookupSubnet h :
  lookupSubnet rememberingCloud h =
  match memory h with
  | (Some _, Some s) => Some s
  | _ => None
  end.
Proof. unfold lookupSubnet. simpl. now destruct (memory h) as [[v|] [s|]]. Qed.

Lemma rememberingCloud_consistent : Consistent rememberingCloud.
Proof.
  split; intros;
    rewrite ?rememberingCloud_lookupVpc, ?rememberingCloud_lookupSubnet in *;
    rewrite ?memory_snoc.
  - destruct e; try contradiction; reflexivity.
  - destruct e; try contradiction; reflexivity.
  - destruct (memory h) as [[x|] s]; simpl in *; [discriminate|reflexivity].
  - destruct (memory h) as [[x|] [y|]]; simpl in *; try discriminate; reflexivity.
  - destruct (memory h) as [[x|] [y|]]; reflexivity.
  - pose proof (memory_no_orphan h) as Ho.
    destruct (memory h) as [[x|] [y|]]; simpl in *; try reflexivity.
    specialize (Ho eq_refl). discriminate.
  - pose proof (memory_no_orphan h) as Ho.
    destruct (memory h) as [[x|] [y|]]; simpl in *; try reflexivity; discriminate.
Qed.

Lemma configNetwork_reuses_and_repeats_witness :
  let w := Scripted.world (Scripted.provider "demo" "1") in
  let w1 := worldOf (configNetwork rememberingCloud w) in
  Options.VpcID (opts (p w1)) = "vpc-1"%string /\
  Options.SubnetID (opts (p w1)) = "subnet-1"%string /\
  exists w2 found subnets,
    configNetwork rememberingCloud w1 = Ok None w2 /\
    Options.VpcID (opts (p w2)) = Options.VpcID (opts (p w1)) /\
    Options.SubnetID (opts (p w2)) = Options.SubnetID (opts (p w1)) /\
    trace w2 = trace w1 ++ [EvDescribeVpcs vpcFilters found;
                            EvDescribeSubnets [] subnetFilters subnets].
Proof.
  intros w w1. split; [reflexivity|]. split; [reflexivity|].
  apply (proj2 configNetwork_reuses_and_repeats rememberingCloud w w1
           rememberingCloud_consistent).
  vm_compute. reflexivity.
Defined.

(** The claim as first stated has the subnet lookup scoped to the network
    found: some filter of the request would have to name that network. *)
Definition scopedToNetwork (vpcId : string) (filters : list Filter) : Prop :=
  exists f, In f filters /\ FilterName f = "vpc-id"%string /\ FilterValues f = [vpcId].

Definition subnetLookupScoped : Prop :=
  forall env w vpc rest ids filters res,
    DescribeVpcs env (trace w) vpcFilters = inr (vpc :: rest) ->
    In (EvDescribeSubnets ids filters res) (trace (worldOf (configNetwork env w))) ->
    In (EvDescribeSubnets ids filters res) (trace w) \/
    scopedToNetwork (VpcId vpc) filters.

(** Two default networks and one default subnet, which lies in the second:
    a cloud that honours a network filter would report no subnet for the
    first network, but none is sent, so the stray subnet is adopted. *)
Definition strayCloud : Env :=
  Scripted.env
    [ Scripted.OnDescribeVpcs
        (fun _ _ => inr [ {| VpcId := "vpc-a" |}; {| VpcId := "vpc-b" |} ]);
      Scripted.OnDescribeSubnets
        (fun _ _ filters =>
           inr (Some (if existsb (fun f => String.eqb (FilterName f) "vpc-id" &&
                                           negb (existsb (String.eqb "vpc-b") (FilterValues f)))
                           filters
                      then []
                      else [ {| SubnetId := "subnet-b"; SubnetVpcId := "vpc-b";
                                SubnetCidrBlock := subnetCidrBlock |} ]))) ].

Lemma subnet_lookup_not_scoped : ~ subnetLookupScoped.
Proof.
  intros H.
  destruct (H strayCloud (Scripted.world (Scripted.provider "demo" "1"))
              {| VpcId := "vpc-a" |} [ {| VpcId := "vpc-b" |} ] [] subnetFilters
              (inr (Some [ {| SubnetId := "subnet-b"; SubnetVpcId := "vpc-b";
                              SubnetCidrBlock := subnetCidrBlock |} ])))
    as [[]|(f & Hin & Hname & _)].
  - reflexivity.
  - vm_compute. tauto.
  - destruct Hin as [<-|[<-|[]]]; discriminate.
Qed.

Example stray_subnet_adopted :
  let w' := worldOf (configNetwork strayCloud
                       (Scripted.world (Scripted.provider "demo" "1"))) in
  Options.VpcID (opts (p w')) = "vpc-a"%string /\
  Options.SubnetID (opts (p w')) = "subnet-b"%string.
Proof. split; reflexivity. Qed.

(** ** Who may be rolled back *)

(** The instances launched by the launch batches among some events: the
    identifiers of every batch that came back complete. *)
Definition launched (evs : list Event) : list string :=
  flat_map (fun e => match e with
                     | EvRunInstances req (inr ids) =>
                         if Z.of_nat (length ids) =? InstanceCount req then ids else []
                     | _ => []
                     end) evs.

(** Since [base], every registry entry is keyed by its own instance
    identifier, and one flagged for rollback was launched since. *)
Definition soundEntry (evs : list Event) (kv : string * Node) : Prop :=
  InstanceID (snd kv) = fst kv /\
  (RollBack (snd kv) = true -> In (fst kv) (launched evs)).

Definition rollbackSound (base : History) (w : World) : Prop :=
  exists evs, trace w = base ++ evs /\ Forall (soundEntry evs) (m (p w)).

Lemma launched_app evs evs' : launched (evs ++ evs') = launched evs ++ launched evs'.
Proof. unfold launched. apply flat_map_app. Qed.

Lemma soundEntry_more evs evs' kv : soundEntry evs kv -> soundEntry (evs ++ evs') kv.
Proof.
  intros [Hid Hrb]. split; [exact Hid|]. intros H. rewrite launched_app.
  apply in_or_app. left. auto.
Qed.

Lemma Forall_Store (P : string * Node -> Prop) k n : forall reg,
  Forall P reg -> P (k, n) -> Forall P (Store k n reg).
Proof.
  induction reg as [|[k' n'] rest IH]; intros Hall Hkn; simpl.
  - constructor; auto.
  - inversion Hall as [|? ? Hhd Htl]; subst.
    destruct (String.eqb_spec k' k) as [->|_]; constructor; auto.
Qed.

Lemma Load_Some_In k n : forall reg, Load k reg = Some n -> In (k, n) reg.
Proof.
  induction reg as [|[k' n'] rest IH]; simpl; [discriminate|].
  destruct (String.eqb_spec k' k) as [->|_].
  - intros H. injection H as ->. now left.
  - intros H. right. auto.
Qed.

(** Runs that leave the registry alone. *)
Definition calm (w w' : World) : Prop :=
  m (p w') = m (p w) /\ exists evs, trace w' = trace w ++ evs.

Lemma calm_refl w : calm w w.
Proof. split; [reflexivity|]. exists []. now rewrite app_nil_r. Qed.

Lemma calm_trans w1 w2 w3 : calm w1 w2 -> calm w2 w3 -> calm w1 w3.
Proof.
  intros [M1 [e1 T1]] [M2 [e2 T2]]. split; [congruence|].
  exists (e1 ++ e2). now rewrite T2, T1, app_assoc.
Qed.

Ltac calming :=
  steps_with calm_refl calm_trans
    ltac:(idtac;
          match goal with
          | |- Steps calm (emit _) => intro; split; [reflexivity|eexists [_]; reflexivity]
          | |- Steps calm (setErrWaitTimeout _) => intro; apply calm_refl
          | |- Steps calm (setP (withOpts _)) => intro; apply calm_refl
          | |- Steps calm (setP (withStatus _)) => intro; apply calm_refl
          | |- Steps calm (setP (fun x => withClients _ _ _ _ x)) => intro; apply calm_refl
          end).

Lemma calm_sound base w w' : calm w w' -> rollbackSound base w -> rollbackSound base w'.
Proof.
  intros [Hm [evs' Ht]] (evs & Hbase & Hall).
  exists (evs ++ evs'). split; [now rewrite Ht, Hbase, app_assoc|].
  rewrite Hm. eapply Forall_impl; [|exact Hall]. intros kv. apply soundEntry_more.
Qed.

Lemma describeInstancesFrom_calm env filters fuel : forall offset index acc,
  Steps calm (describeInstancesFrom fuel env filters offset index acc).
Proof. induction fuel as [|fuel IH]; intros; simpl; calming. apply IH. Qed.

Lemma describeInstances_calm fuel env : Steps calm (describeInstances fuel env).
Proof. calming. apply describeInstancesFrom_calm. Qed.

Lemma describeAddresses_calm env a i : Steps calm (describeAddresses env a i).
Proof. unfold describeAddresses. destruct i; calming. Qed.

Lemma syncNodeStatusWithInstance_calm env ssh :
  Steps calm (syncNodeStatusWithInstance env ssh).
Proof. calming. Qed.

Lemma uploadKeyPair_calm env n key : Steps calm (uploadKeyPair env n key).
Proof. calming. Qed.

Lemma allocateAddresses_calm env num : Steps calm (allocateAddresses env num).
Proof. calming. Qed.

Lemma describeVpcTaskResult_calm env taskID : Steps calm (describeVpcTaskResult env taskID).
Proof. calming. Qed.

Lemma associateAddress_calm env a i : Steps calm (associateAddress env a i).
Proof. calming. Qed.

Definition keepsSound (base : History) (w w' : World) : Prop :=
  rollbackSound base w -> rollbackSound base w'.

Lemma keepsSound_refl base w : keepsSound base w w.
Proof. now intro. Qed.

Lemma keepsSound_trans base w1 w2 w3 :
  keepsSound base w1 w2 -> keepsSound base w2 w3 -> keepsSound base w1 w3.
Proof. unfold keepsSound. auto. Qed.

Lemma calm_keepsSound base {A} (f : M A) : Steps calm f -> Steps (keepsSound base) f.
Proof. intros H w Hs. eapply calm_sound; eauto. Qed.

(** The world with one registry entry stored. *)
Definition stored (k : string) (n : Node) (w : World) : World :=
  {| p := withM (Store k n) (p w); trace := trace w; ErrWaitTimeout := ErrWaitTimeout w |}.

Lemma sound_stored_loaded base w k n n' :
  rollbackSound base w -> Load k (m (p w)) = Some n ->
  InstanceID n' = InstanceID n -> RollBack n' = RollBack n ->
  rollbackSound base (stored k n' w).
Proof.
  intros (evs & Ht & Hall) Hload Hid Hrb. exists evs. split; [exact Ht|].
  simpl. apply Forall_Store; [exact Hall|].
  apply Load_Some_In in Hload.
  destruct (proj1 (Forall_forall _ _) Hall _ Hload) as [Hk Hl]. simpl in *.
  split; simpl; [congruence|]. intros H. apply Hl. congruence.
Qed.

Lemma sound_stored_fresh base w k n' :
  rollbackSound base w -> InstanceID n' = k -> RollBack n' = false ->
  rollbackSound base (stored k n' w).
Proof.
  intros (evs & Ht & Hall) Hid Hrb. exists evs. split; [exact Ht|].
  simpl. apply Forall_Store; [exact Hall|]. split; simpl; [congruence|].
  intros H. congruence.
Qed.

Lemma sound_logged base w e : rollbackSound base w -> rollbackSound base (logged w e).
Proof.
  apply calm_sound. split; [reflexivity|]. exists [e]. reflexivity.
Qed.

(** *** Launching *)

Lemma storeLaunched_sound env master evs ids0 : forall ids reg,
  (forall id, In id ids -> In id ids0) ->
  (forall id, In id ids0 -> In id (launched evs)) ->
  Forall (soundEntry evs) reg ->
  Forall (soundEntry evs) (storeLaunched env master ids reg).
Proof.
  unfold storeLaunched.
  induction ids as [|id ids IH]; intros reg Hsub Hl Hall; simpl; [exact Hall|].
  apply IH; [intros; apply Hsub; now right|exact Hl|].
  apply Forall_Store; [exact Hall|]. split; [reflexivity|].
  intros _. simpl. apply Hl, Hsub. now left.
Qed.

Lemma runInstances_keepsSound base env num master password :
  Steps (keepsSound base) (runInstances env num master password).
Proof.
  intros w (evs & Ht & Hall).
  unfold runInstances. unfold bind at 1, getP at 1. unfold bind at 1.
  rewrite call_logged.
  set (req := runInstancesRequest env (p w) num master password).
  destruct (RunInstances env (trace w) req) as [e|ids] eqn:Hr.
  - apply sound_logged. exists evs. auto.
  - destruct (Z.of_nat (length ids) =? num) eqn:Hn; cbn [negb].
    + unfold bind, setP, ret. cbn [worldOf].
      exists (evs ++ [EvRunInstances req (inr ids)]).
      split; [cbn; now rewrite Ht, app_assoc|].
      cbn [p logged withM m].
      apply (storeLaunched_sound env master _ ids); [auto| |].
      * intros id Hin. rewrite launched_app. apply in_or_app. right.
        simpl. subst req. cbn [InstanceCount runInstancesRequest].
        rewrite Hn, app_nil_r. exact Hin.
      * eapply Forall_impl; [|exact Hall]. intros kv. apply soundEntry_more.
    + apply sound_logged. exists evs. auto.
Qed.

(** *** Discovery *)

(** Discovery raises no flag: a node flagged for rollback afterwards was in
    the registry, flagged, before. *)
Definition raisesNoFlag (w w' : World) : Prop :=
  forall k n, Load k (m (p w')) = Some n -> RollBack n = true ->
              exists n0, Load k (m (p w)) = Some n0 /\ RollBack n0 = true.

Section Discovery.

(** Any property of worlds that survives calm runs, the update of a
    loaded node that keeps its identifier and flag, and the storing of an
    unflagged node under its own identifier, survives discovery. *)
Variable Inv : World -> Prop.
Hypothesis Inv_calm : forall w w', calm w w' -> Inv w -> Inv w'.
Hypothesis Inv_loaded : forall w k n n',
  Inv w -> Load k (m (p w)) = Some n ->
  InstanceID n' = InstanceID n -> RollBack n' = RollBack n -> Inv (stored k n' w).
Hypothesis Inv_fresh : forall w k n',
  Inv w -> InstanceID n' = k -> RollBack n' = false -> Inv (stored k n' w).

Lemma Inv_logged w e : Inv w -> Inv (logged w e).
Proof. apply Inv_calm. split; [reflexivity|]. exists [e]. reflexivity. Qed.

Lemma assembleEach_inv env ssh upload publicKey : forall instanceList w,
  Inv w -> Inv (worldOf (assembleEach env ssh upload publicKey instanceList w)).
Proof.
  induction instanceList as [|status rest IH]; intros w Hs; [exact Hs|].
  cbn [assembleEach]. unfold bind at 1, getP at 1.
  assert (Hgo : forall eip w1, Inv w1 ->
    Inv (worldOf (
      (pp <- getP ;;
       match Load (InstanceId status) (m pp) with
       | Some n =>
           let n' := touched status eip ssh n in
           if upload then
             err <- uploadKeyPair env n' publicKey ;;
             match err with
             | Some e => ret (Some e)
             | None =>
                 setP (withM (Store (InstanceId status)
                                (withSSH (clearPassword ssh) n'))) ;;;
                 assembleEach env ssh upload publicKey rest
             end
           else
             setP (withM (Store (InstanceId status) n')) ;;;
             assembleEach env ssh upload publicKey rest
       | None =>
           setP (withM (Store (InstanceId status)
                          (discoveredNode env status eip))) ;;;
           assembleEach env ssh upload publicKey rest
       end) w1))).
  { intros eip w1 Hs1. unfold bind at 1, getP at 1.
    destruct (Load (InstanceId status) (m (p w1))) as [n|] eqn:Hload.
    - cbv zeta. destruct upload.
      + unfold bind at 1, uploadKeyPair. rewrite call_logged.
        destruct (SSHUploadKey env (trace w1) _ publicKey) as [e|].
        * now apply Inv_logged.
        * unfold bind, setP. apply IH.
          apply (Inv_loaded (logged w1 _) _ n);
            [now apply Inv_logged|exact Hload|reflexivity|reflexivity].
      + unfold bind, setP. apply IH.
        now apply (Inv_loaded w1 _ n).
    - unfold bind, setP. apply IH.
      now apply (Inv_fresh w1). }
  destruct (Options.PublicIPAssignedEIP (opts (p w))).
  - unfold bind at 1. unfold bind at 1.
    pose proof (describeAddresses_calm env [] [InstanceId status] w) as Hc.
    destruct (describeAddresses env [] [InstanceId status] w)
      as [[eipInfos err] w1|why w1];
      cbn [worldOf] in Hc; [|eapply Inv_calm; eauto].
    pose proof (Inv_calm _ _ Hc Hs) as Hs1.
    destruct err as [e|]; [exact Hs1|]. apply Hgo. exact Hs1.
  - unfold bind at 1. apply Hgo. exact Hs.
Qed.

Lemma syncEach_inv env ssh : forall instanceList w,
  Inv w -> Inv (worldOf (syncEach env ssh instanceList w)).
Proof.
  induction instanceList as [|instance rest IH]; intros w Hs; [exact Hs|].
  cbn [syncEach]. unfold bind at 1, getP at 1.
  destruct (Options.PublicIPAssignedEIP (opts (p w))).
  - unfold bind at 1. unfold bind at 1.
    pose proof (describeAddresses_calm env [] [InstanceId instance] w) as Hc.
    destruct (describeAddresses env [] [InstanceId instance] w)
      as [[eipInfos err] w1|why w1];
      cbn [worldOf] in Hc; [|eapply Inv_calm; eauto].
    pose proof (Inv_calm _ _ Hc Hs) as Hs1.
    destruct err as [e|]; unfold ret; [now apply IH|].
    unfold bind, setP. apply IH. now apply (Inv_fresh w1).
  - unfold bind, setP, ret. apply IH. now apply (Inv_fresh w).
Qed.

Definition keepsInv (w w' : World) : Prop := Inv w -> Inv w'.

Lemma keepsInv_refl w : keepsInv w w.
Proof. now intro. Qed.

Lemma keepsInv_trans w1 w2 w3 : keepsInv w1 w2 -> keepsInv w2 w3 -> keepsInv w1 w3.
Proof. unfold keepsInv. auto. Qed.

Lemma calm_keepsInv {A} (f : M A) : Steps calm f -> Steps keepsInv f.
Proof. intros H w Hs. eapply Inv_calm; eauto. Qed.

Lemma assembleInstanceStatus_inv fuel env ssh upload publicKey :
  Steps keepsInv (assembleInstanceStatus fuel env ssh upload publicKey).
Proof.
  steps_with keepsInv_refl keepsInv_trans
    ltac:(idtac;
          match goal with
          | |- Steps keepsInv (setP (withStatus _)) => apply calm_keepsInv; calming
          end).
  - apply calm_keepsInv, describeInstancesFrom_calm.
  - intros w Hw. now apply assembleEach_inv.
Qed.

Lemma syncClusterInstance_inv fuel env ssh :
  Steps keepsInv (syncClusterInstance fuel env ssh).
Proof.
  steps_with keepsInv_refl keepsInv_trans
    ltac:(idtac;
          match goal with
          | |- Steps keepsInv (setP (withStatus _)) => apply calm_keepsInv; calming
          end).
  - apply calm_keepsInv, describeInstancesFrom_calm.
  - intros w Hw. now apply syncEach_inv.
Qed.

End Discovery.

Lemma assembleInstanceStatus_keepsSound base fuel env ssh upload publicKey :
  Steps (keepsSound base) (assembleInstanceStatus fuel env ssh upload publicKey).
Proof.
  apply (assembleInstanceStatus_inv (rollbackSound base)).
  - intros w w'. apply calm_sound.
  - intros w k n n'. apply sound_stored_loaded.
  - intros w k n'. apply sound_stored_fresh.
Qed.

Lemma syncClusterInstance_keepsSound base fuel env ssh :
  Steps (keepsSound base) (syncClusterInstance fuel env ssh).
Proof.
  apply (syncClusterInstance_inv (rollbackSound base)).
  - intros w w'. apply calm_sound.
  - intros w k n'. apply sound_stored_fresh.
Qed.

Lemma raisesNoFlag_refl w : raisesNoFlag w w.
Proof. intros k n H1 H2. eauto. Qed.

Lemma raisesNoFlag_calm w0 w w' : calm w w' -> raisesNoFlag w0 w -> raisesNoFlag w0 w'.
Proof. intros [Hm _] H k n. rewrite Hm. apply H. Qed.

Lemma raisesNoFlag_loaded w0 w k n n' :
  raisesNoFlag w0 w -> Load k (m (p w)) = Some n ->
  InstanceID n' = InstanceID n -> RollBack n' = RollBack n ->
  raisesNoFlag w0 (stored k n' w).
Proof.
  intros H Hload _ Hrb k' n1. simpl.
  destruct (String.eqb_spec k k') as [<-|Hne].
  - rewrite Load_Store_same. intros E. injection E as <-. intros Ht.
    apply (H k n Hload). congruence.
  - rewrite Load_Store_other by congruence. apply H.
Qed.

Lemma raisesNoFlag_fresh w0 w k n' :
  raisesNoFlag w0 w -> InstanceID n' = k -> RollBack n' = false ->
  raisesNoFlag w0 (stored k n' w).
Proof.
  intros H _ Hrb k' n1. simpl.
  destruct (String.eqb_spec k k') as [<-|Hne].
  - rewrite Load_Store_same. intros E. injection E as <-. congruence.
  - rewrite Load_Store_other by congruence. apply H.
Qed.

Lemma assembleInstanceStatus_raisesNoFlag fuel env ssh upload publicKey w :
  raisesNoFlag w (worldOf (assembleInstanceStatus fuel env ssh upload publicKey w)).
Proof.
  apply (assembleInstanceStatus_inv (raisesNoFlag w)).
  - apply raisesNoFlag_calm.
  - apply raisesNoFlag_loaded.
  - apply raisesNoFlag_fresh.
  - apply raisesNoFlag_refl.
Qed.

Lemma syncClusterInstance_raisesNoFlag fuel env ssh w :
  raisesNoFlag w (worldOf (syncClusterInstance fuel env ssh w)).
Proof.
  apply (syncClusterInstance_inv (raisesNoFlag w)).
  - apply raisesNoFlag_calm.
  - apply raisesNoFlag_fresh.
  - apply raisesNoFlag_refl.
Qed.

(** *** Status polling and address pairing *)

Lemma markStatus_sound evs aimStatus : forall set reg,
  Forall (soundEntry evs) reg ->
  Forall (soundEntry evs) (snd (markStatus aimStatus set reg)).
Proof.
  induction set as [|[instanceID state] rest IH]; intros reg Hall; simpl; [exact Hall|].
  destruct (String.eqb state aimStatus); [|exact Hall].
  apply IH. destruct (Load instanceID reg) as [n|] eqn:Hload; [|exact Hall].
  apply Forall_Store; [exact Hall|].
  apply Load_Some_In in Hload.
  destruct (proj1 (Forall_forall _ _) Hall _ Hload) as [Hk Hl]. now split.
Qed.

Lemma getInstanceStatus_keepsSound base env aimStatus :
  Steps (keepsSound base) (getInstanceStatus env aimStatus).
Proof.
  intros w Hs. unfold getInstanceStatus. unfold bind at 1, getP at 1.
  destruct (map fst (m (p w))); [exact Hs|].
  unfold bind at 1, setErrWaitTimeout at 1.
  match goal with
  | |- rollbackSound base (worldOf (ExponentialBackoff ?n ?c ?w0)) =>
      assert (Hc : Steps (keepsSound base) c);
      [|apply (Steps_ExponentialBackoff _ (keepsSound_refl base)
                 (keepsSound_trans base) n c Hc w0); exact Hs]
  end.
  clear w Hs. intros w Hs. unfold bind at 1. rewrite call_logged.
  apply (sound_logged base w (EvDescribeInstancesStatus (s :: l)
           (DescribeInstancesStatus env (trace w) (s :: l)))) in Hs.
  destruct (DescribeInstancesStatus env (trace w) (s :: l)) as [e|[|st sts]];
    try exact Hs.
  unfold bind at 1, getP at 1.
  set (w1 := logged w _) in *.
  pose proof (fun evs => markStatus_sound evs aimStatus (st :: sts) (m (p w1))) as Hm.
  destruct (markStatus aimStatus (st :: sts) (m (p w1))) as [done reg].
  destruct Hs as (evs & Ht & Hall). exists evs. split; [exact Ht|].
  apply (Hm evs Hall).
Qed.

Lemma associateNodes_keepsSound base env master : forall entries addrs ids w evs,
  trace w = base ++ evs -> Forall (soundEntry evs) (m (p w)) ->
  Forall (soundEntry evs) entries ->
  rollbackSound base (worldOf (associateNodes env master entries addrs ids w)).
Proof.
  induction entries as [|[k n] rest IH]; intros addrs ids w evs Ht Hall Hent.
  - exists evs. auto.
  - inversion Hent as [|? ? [Hk Hl] Hrest]; subst. simpl in Hk, Hl.
    cbn [associateNodes].
    destruct (Bool.eqb (Master n) master && isNil (PublicIPAddress n));
      [|eapply IH; eauto].
    destruct addrs as [|a tail]; [exists evs; auto|].
    unfold bind at 1.
    destruct (associateAddress_outcome env (AddressId a) (InstanceID (withAddress a n)) w)
      as (taskID & err & Ha & _).
    rewrite Ha.
    set (ev := EvAssociateAddress _ _ _).
    assert (Hmore : forall kv, soundEntry evs kv -> soundEntry (evs ++ [ev]) kv)
      by (intros kv; apply soundEntry_more).
    destruct err as [e|].
    + exists (evs ++ [ev]). split; [cbn; now rewrite Ht, app_assoc|].
      eapply Forall_impl; [exact Hmore|exact Hall].
    + unfold bind, setP. eapply (IH _ _ _ (evs ++ [ev])).
      * cbn. now rewrite Ht, app_assoc.
      * cbn [p logged withM m]. apply Forall_Store.
        -- eapply Forall_impl; [exact Hmore|exact Hall].
        -- apply Hmore. split; simpl; [reflexivity|]. intros H.
           rewrite Hk. auto.
      * eapply Forall_impl; [exact Hmore|exact Hrest].
Qed.

Lemma allocateEIPForInstance_keepsSound base env num master :
  Steps (keepsSound base) (allocateEIPForInstance env num master).
Proof.
  intros w Hs. unfold allocateEIPForInstance. unfold bind at 1.
  pose proof (allocateAddresses_calm env num w) as H1.
  destruct (allocateAddresses env num w) as [[[eips taskID] [e|]] w1|why w1];
    cbn [worldOf] in *; try (eapply calm_sound; eauto; fail).
  pose proof (calm_sound base _ _ H1 Hs) as Hs1.
  unfold bind at 1.
  pose proof (describeVpcTaskResult_calm env taskID w1) as H2.
  destruct (describeVpcTaskResult env taskID w1) as [[e|] w2|why w2];
    cbn [worldOf] in *; try (eapply calm_sound; eauto; fail).
  pose proof (calm_sound base _ _ H2 Hs1) as Hs2.
  unfold bind at 1. rewrite describeAddresses_by_id. cbv zeta.
  set (w3 := logged w2 _).
  pose proof (sound_logged base w2 (EvDescribeAddresses eips []
                (DescribeAddresses env (trace w2) eips [])) Hs2) as Hs3.
  fold w3 in Hs3.
  destruct (DescribeAddresses env (trace w2) eips []) as [e|[addrs|]]; try exact Hs3.
  unfold bind at 1, getP at 1. unfold bind.
  destruct Hs3 as (evs & Ht & Hall).
  pose proof (associateNodes_keepsSound base env master (m (p w3)) addrs [] w3 evs
                Ht Hall Hall) as Hloop.
  destruct (associateNodes env master (m (p w3)) addrs [] w3); exact Hloop.
Qed.

(** *** Everything that writes the registry *)

(** The steps of Create, Join and the other commands that store into the
    registry, in any order and number. *)
Inductive Op : Type :=
| OpRun (num : Z) (master : bool) (password : string)
| OpWait (aimStatus : string)
| OpAllocate (num : Z) (master : bool)
| OpAssemble (ssh : SSH) (upload : bool) (publicKey : string)
| OpSync (ssh : SSH).

Definition perform (fuel : nat) (env : Env) (op : Op) : M unit :=
  match op with
  | OpRun num master password => _ <- runInstances env num master password ;; ret tt
  | OpWait aimStatus => _ <- getInstanceStatus env aimStatus ;; ret tt
  | OpAllocate num master => _ <- allocateEIPForInstance env num master ;; ret tt
  | OpAssemble ssh upload publicKey =>
      _ <- assembleInstanceStatus fuel env ssh upload publicKey ;; ret tt
  | OpSync ssh => _ <- syncClusterInstance fuel env ssh ;; ret tt
  end.

Fixpoint performAll (fuel : nat) (env : Env) (ops : list Op) : M unit :=
  match ops with
  | [] => ret tt
  | op :: rest => perform fuel env op ;;; performAll fuel env rest
  end.

Lemma perform_keepsSound base fuel env op : Steps (keepsSound base) (perform fuel env op).
Proof.
  destruct op; unfold perform;
    (apply (Steps_bind _ (keepsSound_trans base));
     [|intro; apply (Steps_ret _ (keepsSound_refl base))]).
  - apply runInstances_keepsSound.
  - apply getInstanceStatus_keepsSound.
  - apply allocateEIPForInstance_keepsSound.
  - apply assembleInstanceStatus_keepsSound.
  - apply syncClusterInstance_keepsSound.
Qed.

Lemma performAll_keepsSound base fuel env ops :
  Steps (keepsSound base) (performAll fuel env ops).
Proof.
  induction ops as [|op rest IH]; simpl.
  - apply (Steps_ret _ (keepsSound_refl base)).
  - apply (Steps_bind _ (keepsSound_trans base));
      [apply perform_keepsSound|intro; exact IH].
Qed.

(** *** Rollback *)

(** Every terminate call names exactly [ids]. *)
Definition terminatesOnly (ids : list string) (e : Event) : Prop :=
  match e with
  | EvTerminateInstances ids' _ => ids' = ids
  | _ => True
  end.

Lemma disassociateAll_terminatesOnly env ids : forall eips eipIds taskIds,
  Steps (grows (terminatesOnly ids)) (disassociateAll env eips eipIds taskIds).
Proof. induction eips as [|eip rest IH]; intros; simpl; emits. apply IH. Qed.

Lemma waitTasks_terminatesOnly env ids : forall taskIds,
  Steps (grows (terminatesOnly ids)) (waitTasks env taskIds).
Proof. induction taskIds as [|t rest IH]; simpl; emits. apply IH. Qed.

Lemma Rollback_terminatesOnly env w :
  grows (terminatesOnly (rollbackIds (m (p w)))) w (worldOf (Rollback env w)).
Proof.
  unfold Rollback. unfold bind at 1, getP at 1. cbv beta zeta.
  generalize (p w) as pp. intros pp.
  revert w.
  match goal with
  | |- forall w, grows ?P w (worldOf (@?f w)) => change (Steps (grows P) f)
  end.
  unfold describeAddresses.
  destruct (rollbackIds (m pp)) as [|id ids] eqn:Hids.
  - emits.
  - emits.
    + apply disassociateAll_terminatesOnly.
    + apply waitTasks_terminatesOnly.
Qed.

Lemma Rollback_spares base env w evs0 evs ids res id :
  trace w = base ++ evs0 -> Forall (soundEntry evs0) (m (p w)) ->
  trace (worldOf (Rollback env w)) = trace w ++ evs ->
  In (EvTerminateInstances ids res) evs -> In id ids ->
  In id (launched evs0).
Proof.
  intros _ Hall Ht Hin Hid.
  destruct (Rollback_terminatesOnly env w) as (evs' & Ht' & Hf).
  rewrite Ht' in Ht. apply app_inv_head in Ht. subst evs'.
  pose proof (proj1 (Forall_forall _ _) Hf _ Hin) as Hids. simpl in Hids. subst ids.
  unfold rollbackIds in Hid. apply in_map_iff in Hid as ([k n] & <- & Hkn).
  apply filter_In in Hkn as [Hkn Hrb]. simpl in *.
  destruct (proj1 (Forall_forall _ _) Hall _ Hkn) as [_ Hl]. auto.
Qed.

(** C9.  Assembling the status and syncing the cluster raise no rollback
    flag: a node flagged afterwards was in the registry and flagged before,
    so a node they add is not flagged.  Starting from an empty registry,
    after any sequence of launches, status waits, address allocations,
    assemblies and syncs, every flagged registry entry is an instance that
    a complete launch batch of this same run returned; and rollback
    terminates flagged entries only, hence only such instances. *)
Theorem rollback_only_what_was_launched :
  (forall fuel env ssh upload publicKey w,
     raisesNoFlag w (worldOf (assembleInstanceStatus fuel env ssh upload publicKey w))) /\
  (forall fuel env ssh w,
     raisesNoFlag w (worldOf (syncClusterInstance fuel env ssh w))) /\
  (forall fuel env ops w,
     m (p w) = [] ->
     rollbackSound (trace w) (worldOf (performAll fuel env ops w))) /\
  (forall base env w evs0 evs ids res id,
     trace w = base ++ evs0 -> Forall (soundEntry evs0) (m (p w)) ->
     trace (worldOf (Rollback env w)) = trace w ++ evs ->
     In (EvTerminateInstances ids res) evs -> In id ids ->
     In id (launched evs0)).
Proof.
  split; [exact assembleInstanceStatus_raisesNoFlag|].
  split; [exact syncClusterInstance_raisesNoFlag|].
  split; [|exact Rollback_spares].
  intros fuel env ops w Hm.
  apply (performAll_keepsSound (trace w) fuel env ops w).
  exists []. split; [now rewrite app_nil_r|]. rewrite Hm. constructor.
Qed.

(** One master is launched while an older instance of the cluster is still
    around: both end up in the registry, and only the new one is flagged. *)
Definition mixedCloud : Env :=
  Scripted.env
    [ Scripted.OnRunInstances (fun _ _ => inr ["ins-new"%string]);
      Scripted.OnDescribeInstances
        (fun _ _ _ _ =>
           inr {| InstanceSet :=
                    [ {| InstanceId := "ins-old"; InstanceState := "RUNNING";
                         InstanceTags := [ {| TagKey := "worker"; TagValue := "true" |} ];
                         PrivateIpAddresses := ["10.0.0.2"%string];
                         PublicIpAddresses := [] |};
                      {| InstanceId := "ins-new"; InstanceState := "RUNNING";
                         InstanceTags := [ {| TagKey := "master"; TagValue := "true" |} ];
                         PrivateIpAddresses := ["10.0.0.3"%string];
                         PublicIpAddresses := [] |} ];
                  TotalCount := 2 |}) ].

Lemma rollback_only_what_was_launched_witness :
  let w := Scripted.world (Scripted.provider "demo" "1") in
  let w' := worldOf (performAll 2 mixedCloud
                       [OpRun 1 true "secret"; OpAssemble emptySSH false ""] w) in
  map fst (m (p w')) = ["ins-new"; "ins-old"]%string /\
  rollbackIds (m (p w')) = ["ins-new"%string] /\
  rollbackSound [] w'.
Proof.
  intros w w'. split; [reflexivity|]. split; [reflexivity|].
  apply (proj1 (proj2 (proj2 rollback_only_what_was_launched)) 2%nat mixedCloud
           [OpRun 1 true "secret"; OpAssemble emptySSH false ""] w eq_refl).
Defined.

(** ** Releasing floating addresses *)

Definition isRelease (e : Event) : bool :=
  match e with
  | EvReleaseAddresses _ _ => true
  | _ => false
  end.

Definition isDisassociate (e : Event) : bool :=
  match e with
  | EvDisassociateAddress _ _ => true
  | _ => false
  end.

Definition isPollOf (taskID : Z) (e : Event) : bool :=
  match e with
  | EvDescribeTaskResult t _ => t =? taskID
  | _ => false
  end.

(** The task a disassociate call has started, if its answer names one. *)
Definition taskOf (res : result (option string)) : option Z :=
  match res with
  | inr (Some taskId) =>
      match Go.ParseUint taskId with
      | (t, false) => Some t
      | _ => None
      end
  | _ => None
  end.

(** The waiter is through with a task: one of its polls was answered with
    something other than Running, or it was polled as often as the backoff
    allows. *)
Definition waitedFor (env : Env) (taskID : Z) (evs : list Event) : Prop :=
  (exists res, In (EvDescribeTaskResult taskID (inr res)) evs /\
               Go.ToUpper (unicode env) res <> Running env) \/
  (BackoffSteps env <= length (filter (isPollOf taskID) evs))%nat.

(** Wherever a release call stands among the events, no disassociate call
    follows it; every address of the batch was sent a disassociate call
    before it; and the waiter was through with every task those calls had
    started. *)
Definition releaseAfterWaits (env : Env) (evs : list Event) : Prop :=
  forall pre ids res post,
    evs = pre ++ EvReleaseAddresses ids res :: post ->
    Forall (fun e => isDisassociate e = false) post /\
    (forall a, In a ids -> exists r, In (EvDisassociateAddress a r) pre) /\
    (forall a r t, In (EvDisassociateAddress a r) pre -> taskOf r = Some t -> t <> 0 ->
                   waitedFor env t pre).

(** Every address that was sent a disassociate call, whatever the answer,
    is named by a release call. *)
Definition releasesAll (evs : list Event) : Prop :=
  forall a r, In (EvDisassociateAddress a r) evs ->
    exists pre ids res post,
      evs = pre ++ EvReleaseAddresses ids res :: post /\ In a ids.

Lemma waitedFor_more env t pre evs post :
  waitedFor env t evs -> waitedFor env t (pre ++ evs ++ post).
Proof.
  intros [(res & Hin & Hne)|Hn].
  - left. exists res. split; [|exact Hne]. apply in_or_app. right. apply in_or_app. now left.
  - right. rewrite !filter_app, !length_app. lia.
Qed.

Lemma split_unique : forall (X pre : list Event) x y Y post,
  Forall (fun e => isRelease e = false) X -> isRelease y = true ->
  Forall (fun e => isRelease e = false) Y ->
  X ++ x :: Y = pre ++ y :: post -> isRelease x = true ->
  pre = X /\ y = x /\ post = Y.
Proof.
  induction X as [|e X IH]; intros pre x y Y post HX Hy HY Heq Hx; simpl in *.
  - destruct pre as [|e' pre]; simpl in *.
    + injection Heq as <- <-. auto.
    + injection Heq as <- Heq. subst Y.
      apply Forall_app in HY as [_ HY]. inversion HY as [|? ? Hy' _]. congruence.
  - inversion HX as [|? ? He HX']; subst.
    destruct pre as [|e' pre]; simpl in *.
    + injection Heq as -> _. congruence.
    + injection Heq as <- Heq.
      destruct (IH _ _ _ _ _ HX' Hy HY Heq Hx) as (-> & -> & ->). auto.
Qed.

Lemma releaseAfterWaits_absent env evs :
  Forall (fun e => isRelease e = false) evs -> releaseAfterWaits env evs.
Proof.
  intros H pre ids res post ->. apply Forall_app in H as [_ H].
  inversion H as [|? ? Hr _]. discriminate.
Qed.

Lemma releaseAfterWaits_once env X ids res Y :
  Forall (fun e => isRelease e = false) X ->
  Forall (fun e => isRelease e = false /\ isDisassociate e = false) Y ->
  (forall a, In a ids -> exists r, In (EvDisassociateAddress a r) X) ->
  (forall a r t, In (EvDisassociateAddress a r) X -> taskOf r = Some t -> t <> 0 ->
                 waitedFor env t X) ->
  releaseAfterWaits env (X ++ EvReleaseAddresses ids res :: Y).
Proof.
  intros HX HY Hids Hw pre ids' res' post Heq.
  apply split_unique in Heq as (-> & Hy & ->); auto.
  - injection Hy as -> ->. split; [|split; assumption].
    eapply Forall_impl; [|exact HY]. now intros e [_ H].
  - eapply Forall_impl; [|exact HY]. now intros e [H _].
Qed.

(** *** The waiter always returns *)

Lemma backoff_polls env taskID : forall steps w,
  exists res w' evs,
    ExponentialBackoff steps (taskResultCondition env taskID) w = Ok res w' /\
    trace w' = trace w ++ evs /\ p w' = p w /\
    Forall (fun e => isPollOf taskID e = true) evs /\
    ((exists r, In (EvDescribeTaskResult taskID (inr r)) evs /\
                Go.ToUpper (unicode env) r <> Running env) \/
     length evs = steps).
Proof.
  induction steps as [|n IH]; intros w.
  - exists (Some (ErrWaitTimeout w)), w, []. rewrite app_nil_r.
    repeat split; auto.
  - rewrite ExponentialBackoff_step, taskResultCondition_answer.
    set (ev := EvDescribeTaskResult taskID (DescribeTaskResult env (trace w) taskID)).
    assert (Hpoll : isPollOf taskID ev = true) by (simpl; apply Z.eqb_refl).
    assert (Hcont : exists res w' evs,
              ExponentialBackoff n (taskResultCondition env taskID)
                (polled env taskID w) = Ok res w' /\
              trace w' = trace w ++ evs /\ p w' = p w /\
              Forall (fun e => isPollOf taskID e = true) evs /\
              ((exists r, In (EvDescribeTaskResult taskID (inr r)) evs /\
                          Go.ToUpper (unicode env) r <> Running env) \/
               length evs = S n)).
    { destruct (IH (polled env taskID w)) as (res & w' & evs & Hrun & Ht & Hp & Hf & Hs).
      exists res, w', (ev :: evs). split; [exact Hrun|].
      split; [rewrite Ht; cbn; now trace_norm|]. split; [exact Hp|].
      split; [constructor; assumption|].
      destruct Hs as [(r & Hin & Hne)|Hlen]; [left|right; simpl; congruence].
      exists r. split; [now right|exact Hne]. }
    assert (Hstop : forall (res : option error) r,
              DescribeTaskResult env (trace w) taskID = inr r ->
              Go.ToUpper (unicode env) r <> Running env ->
              exists res' w' evs,
                Ok res (polled env taskID w) = Ok res' w' /\
                trace w' = trace w ++ evs /\ p w' = p w /\
                Forall (fun e => isPollOf taskID e = true) evs /\
                ((exists r, In (EvDescribeTaskResult taskID (inr r)) evs /\
                            Go.ToUpper (unicode env) r <> Running env) \/
                 length evs = S n)).
    { intros res r Hr Hne. exists res, (polled env taskID w), [ev].
      repeat split; auto. left. exists r. split; [|exact Hne].
      left. subst ev. now rewrite Hr. }
    destruct (DescribeTaskResult env (trace w) taskID) as [e|r] eqn:Hr; [exact Hcont|].
    destruct (String.eqb_spec (Go.ToUpper (unicode env) r) (Running env)) as [_|Hne];
      [exact Hcont|].
    destruct (String.eqb (Go.ToUpper (unicode env) r) (Success env));
      [now apply (Hstop None r)|].
    destruct (String.eqb (Go.ToUpper (unicode env) r) (Failed env)); now eapply Hstop.
Qed.

Lemma describeVpcTaskResult_returns env taskID w :
  exists res w' evs,
    describeVpcTaskResult env taskID w = Ok res w' /\
    trace w' = trace w ++ evs /\ p w' = p w /\
    Forall (fun e => isPollOf taskID e = true) evs /\ waitedFor env taskID evs.
Proof.
  unfold describeVpcTaskResult, bind, getP, setErrWaitTimeout.
  destruct (backoff_polls env taskID (BackoffSteps env) (armed taskID w))
    as (res & w' & evs & Hrun & Ht & Hp & Hf & Hs).
  exists res, w', evs. split; [exact Hrun|]. split; [exact Ht|]. split; [exact Hp|].
  split; [exact Hf|].
  destruct Hs as [Hs|Hlen]; [now left|right].
  assert (Hall : filter (isPollOf taskID) evs = evs).
  { clear -Hf. induction Hf as [|e l He _ IH]; simpl; [reflexivity|]. now rewrite He, IH. }
  rewrite Hall. lia.
Qed.

Lemma pollOf_other t e :
  isPollOf t e = true -> isRelease e = false /\ isDisassociate e = false.
Proof. destruct e; simpl; try discriminate; auto. Qed.

Lemma waitTasks_returns env : forall taskIds w,
  exists w' evs,
    waitTasks env taskIds w = Ok tt w' /\
    trace w' = trace w ++ evs /\ p w' = p w /\
    Forall (fun e => isRelease e = false /\ isDisassociate e = false) evs /\
    forall t, In t taskIds -> waitedFor env t evs.
Proof.
  induction taskIds as [|t rest IH]; intros w.
  - exists w, []. rewrite app_nil_r. repeat split; auto. intros t [].
  - cbn [waitTasks]. unfold bind.
    destruct (describeVpcTaskResult_returns env t w)
      as (res & w1 & evs1 & Hrun & Ht1 & Hp1 & Hf1 & Hw1).
    rewrite Hrun.
    destruct (IH w1) as (w2 & evs2 & Hrun2 & Ht2 & Hp2 & Hf2 & Hw2).
    exists w2, (evs1 ++ evs2). split; [exact Hrun2|].
    split; [now rewrite Ht2, Ht1, app_assoc|]. split; [congruence|].
    split.
    + apply Forall_app. split; [|exact Hf2].
      eapply Forall_impl; [|exact Hf1]. intros e. apply pollOf_other.
    + intros t' [<-|Hin].
      * apply (waitedFor_more env t [] evs1 evs2). exact Hw1.
      * rewrite <- (app_nil_r (evs1 ++ evs2)), <- app_assoc.
        apply (waitedFor_more env t' evs1 evs2 []). auto.
Qed.

(** *** The disassociate loops *)

Lemma disassociateAddress_outcome env a w :
  let answer := DisassociateAddress env (trace w) a in
  exists taskID err,
    disassociateAddress env a w =
      Ok (taskID, err) (logged w (EvDisassociateAddress a answer)) /\
    forall t, taskOf answer = Some t -> taskID = t /\ err = None.
Proof.
  unfold disassociateAddress, bind. cbv zeta. rewrite call_logged.
  destruct (DisassociateAddress env (trace w) a) as [e|[taskId|]]; unfold ret.
  - eexists _, _. split; [reflexivity|]. discriminate.
  - unfold convertTaskID, taskOf. destruct (Go.ParseUint taskId) as [t bad].
    destruct bad; eexists _, _; (split; [reflexivity|]); [discriminate|].
    intros t' H. injection H as <-. auto.
  - eexists _, _. split; [reflexivity|]. discriminate.
Qed.

Definition disassociated (env : Env) (eipIds eipIds' : list string)
  (taskIds taskIds' : list Z) (evs : list Event) : Prop :=
  Forall (fun e => isRelease e = false) evs /\
  (forall a, In a eipIds' -> In a eipIds \/ exists r, In (EvDisassociateAddress a r) evs) /\
  (forall a r t, In (EvDisassociateAddress a r) evs -> taskOf r = Some t -> t <> 0 ->
                 In t taskIds') /\
  (forall t, In t taskIds -> In t taskIds') /\
  (forall a, In a eipIds -> In a eipIds') /\
  (forall a r, In (EvDisassociateAddress a r) evs -> In a eipIds').

Lemma disassociated_step env a r eipIds eipIds' taskIds taskIds0 taskIds' evs :
  (forall t, taskOf r = Some t -> t <> 0 -> In t taskIds0) ->
  (forall t, In t taskIds -> In t taskIds0) ->
  disassociated env (eipIds ++ [a]) eipIds' taskIds0 taskIds' evs ->
  disassociated env eipIds eipIds' taskIds taskIds' (EvDisassociateAddress a r :: evs).
Proof.
  intros Hnew Hold (Hf & Hids & Htasks & Hkeep & Hgrow & Hall).
  split; [constructor; [reflexivity|exact Hf]|]. split; [|split; [|split; [|split]]].
  - intros a' Hin. destruct (Hids a' Hin) as [H|(r' & H)].
    + apply in_app_or in H as [H|[<-|[]]]; [now left|].
      right. exists r. now left.
    + right. exists r'. now right.
  - intros a' r' t [H|H] Ht Hne.
    + injection H as <- <-. apply Hkeep. now apply Hnew.
    + eapply Htasks; eauto.
  - intros t Hin. auto.
  - intros a' Hin. apply Hgrow. apply in_or_app. now left.
  - intros a' r' [H|H].
    + injection H as <- <-. apply Hgrow. apply in_or_app. right. now left.
    + eapply Hall; eauto.
Qed.

Lemma disassociateTagged_returns env : forall taggedResource eipIds taskIds w,
  exists eipIds' taskIds' w' evs,
    disassociateTagged env taggedResource eipIds taskIds w = Ok (eipIds', taskIds') w' /\
    trace w' = trace w ++ evs /\ p w' = p w /\
    disassociated env eipIds eipIds' taskIds taskIds' evs.
Proof.
  induction taggedResource as [|resource rest IH]; intros eipIds taskIds w.
  - exists eipIds, taskIds, w, []. rewrite app_nil_r.
    repeat split; auto; try (intros ? ? ? []); try (intros ? ? []).
  - cbn [disassociateTagged].
    destruct (isTaggedEIP env resource && negb (String.eqb (ResourceId resource) ""));
      [|apply IH].
    cbv zeta. unfold bind.
    destruct (disassociateAddress_outcome env (ResourceId resource) w)
      as (taskID & err & Hrun & Htask).
    rewrite Hrun.
    set (taskIds0 := if taskID =? 0 then taskIds else taskIds ++ [taskID]).
    destruct (IH (eipIds ++ [ResourceId resource]) taskIds0
                (logged w (EvDisassociateAddress (ResourceId resource)
                             (DisassociateAddress env (trace w) (ResourceId resource)))))
      as (eipIds' & taskIds' & w' & evs & Hrun' & Ht & Hp & Hd).
    eexists eipIds', taskIds', w', (_ :: evs). split; [exact Hrun'|].
    split; [rewrite Ht; cbn; now trace_norm|]. split; [exact Hp|].
    eapply disassociated_step; [| |exact Hd].
    + intros t Ht' Hne. destruct (Htask t Ht') as [-> _]. subst taskIds0.
      destruct (Z.eqb_spec t 0); [contradiction|]. apply in_or_app. right. now left.
    + intros t Hin. subst taskIds0. destruct (taskID =? 0); [exact Hin|].
      apply in_or_app. now left.
Qed.

Lemma disassociateAll_returns env : forall eips eipIds taskIds w,
  exists eipIds' taskIds' w' evs,
    disassociateAll env eips eipIds taskIds w = Ok (eipIds', taskIds') w' /\
    trace w' = trace w ++ evs /\ p w' = p w /\
    disassociated env eipIds eipIds' taskIds taskIds' evs.
Proof.
  induction eips as [|eip rest IH]; intros eipIds taskIds w.
  - exists eipIds, taskIds, w, []. rewrite app_nil_r.
    repeat split; auto; try (intros ? ? ? []); try (intros ? ? []).
  - cbn [disassociateAll]. unfold bind.
    destruct (disassociateAddress_outcome env (AddressId eip) w)
      as (taskID & err & Hrun & Htask).
    rewrite Hrun.
    set (taskIds0 := match err with
                     | Some _ => taskIds
                     | None => taskIds ++ [taskID]
                     end).
    destruct (IH (eipIds ++ [AddressId eip]) taskIds0
                (logged w (EvDisassociateAddress (AddressId eip)
                             (DisassociateAddress env (trace w) (AddressId eip)))))
      as (eipIds' & taskIds' & w' & evs & Hrun' & Ht & Hp & Hd).
    eexists eipIds', taskIds', w', (_ :: evs). split; [exact Hrun'|].
    split; [rewrite Ht; cbn; now trace_norm|]. split; [exact Hp|].
    eapply disassociated_step; [| |exact Hd].
    + intros t Ht' Hne. destruct (Htask t Ht') as [-> ->]. subst taskIds0.
      apply in_or_app. right. now left.
    + intros t Hin. subst taskIds0. destruct err; [exact Hin|].
      apply in_or_app. now left.
Qed.

(** *** Delete and rollback *)

Definition aside (e : Event) : Prop := isRelease e = false /\ isDisassociate e = false.

Lemma addressPhase env A D W Y eipIds taskIds res :
  Forall aside A -> disassociated env [] eipIds [] taskIds D ->
  Forall aside W -> (forall t, In t taskIds -> waitedFor env t W) ->
  Forall aside Y ->
  releaseAfterWaits env (A ++ D ++ W ++ EvReleaseAddresses eipIds res :: Y).
Proof.
  intros HA (HD & Hids & Htasks & _) HW Hwait HY.
  rewrite !app_assoc. rewrite <- (app_assoc A D W).
  apply releaseAfterWaits_once.
  - rewrite !Forall_app. repeat split; auto.
    + eapply Forall_impl; [|exact HA]. now intros e [H _].
    + eapply Forall_impl; [|exact HW]. now intros e [H _].
  - exact HY.
  - intros a Hin. destruct (Hids a Hin) as [[]|(r & H)].
    exists r. apply in_or_app. right. apply in_or_app. now left.
  - intros a r t Hin Ht Hne.
    apply in_app_or in Hin as [Hin|Hin].
    + destruct (proj1 (Forall_forall _ _) HA _ Hin) as [_ H]. discriminate.
    + apply in_app_or in Hin as [Hin|Hin].
      * rewrite app_assoc. rewrite <- (app_nil_r ((A ++ D) ++ W)), <- app_assoc.
        apply (waitedFor_more env t (A ++ D) W []). eauto.
      * destruct (proj1 (Forall_forall _ _) HW _ Hin) as [_ H]. discriminate.
Qed.

Lemma aside_absent env evs : Forall aside evs -> releaseAfterWaits env evs.
Proof.
  intros H. apply releaseAfterWaits_absent.
  eapply Forall_impl; [|exact H]. now intros e [H' _].
Qed.

Lemma readOnly_aside e : readOnly e -> aside e.
Proof. destruct e; simpl; try contradiction; split; reflexivity. Qed.

Lemma pollOf_aside t e : isPollOf t e = true -> aside e.
Proof. apply pollOf_other. Qed.

Lemma deleteLocalState_aside env f : Steps (grows aside) (deleteLocalState env f).
Proof.
  unfold deleteLocalState, local.
  steps_with (grows_refl aside) (grows_trans aside)
    ltac:(first [ apply setP_grows
                | apply emit_grows; split; reflexivity ]).
Qed.

Lemma terminateInstances_aside env ids : Steps (grows aside) (terminateInstances env ids).
Proof.
  steps_with (grows_refl aside) (grows_trans aside)
    ltac:(first [ apply setP_grows
                | apply emit_grows; split; reflexivity ]).
Qed.

(** The end of [deleteCluster]: terminate, then clean up locally. *)
Definition deleteTail (env : Env) (f : bool) (err : option error) (ids : list string)
  : M (option error) :=
  terminated <- match err, ids with
                | None, _ :: _ => terminateInstances env ids
                | _, _ => ret None
                end ;;
  match terminated with
  | Some e =>
      ret (Some (Errorf "[%s] calling deleteInstance error, msg: %v"
                   [VStr ProviderName; VErr (Some e)]))
  | None =>
      match err, f with
      | Some e, false =>
          ret (Some (Errorf "[%s] calling deleteCluster error, msg: %v"
                       [VStr ProviderName; VErr (Some e)]))
      | _, _ => deleteLocalState env f
      end
  end.

(** The address phase of [deleteCluster]. *)
Definition deleteAddresses (env : Env) (taggedResource : list ResourceTag) : M unit :=
  eipIds <- match taggedResource with
            | [] => ret []
            | _ =>
                '(eipIds, taskIds) <- disassociateTagged env taggedResource [] [] ;;
                waitTasks env taskIds ;;;
                ret eipIds
            end ;;
  match eipIds with
  | [] => ret tt
  | _ =>
      '(taskID, _) <- releaseAddresses env eipIds ;;
      _ <- describeVpcTaskResult env taskID ;;
      ret tt
  end.

Lemma deleteCluster_phases fuel env f w :
  deleteCluster fuel env f w =
  (pp <- getP ;;
   '(exist', ids, err) <- IsClusterExist fuel env ;;
   match err with
   | Some e => ret (Some e)
   | None =>
       if negb exist' then
         if negb f
         then ret (Some (Errorf "[%s] calling preflight error: cluster name `%s` do not exist"
                           [VStr ProviderName; VStr (Metadata.Name (meta pp))]))
         else ret None
       else
         '(taggedResource, err) <- describeResourcesByTags env ;;
         deleteAddresses env taggedResource ;;;
         deleteTail env f err ids
   end) w.
Proof.
  unfold deleteCluster, deleteAddresses, deleteTail, bind, getP.
  destruct (IsClusterExist fuel env w) as [[[found ids] [e|]] w1|why w1]; try reflexivity.
  destruct found; cbn [negb]; try reflexivity.
  destruct (describeResourcesByTags env w1) as [[rows err] w2|why w2]; try reflexivity.
  destruct rows as [|row rows]; try reflexivity.
  destruct (disassociateTagged env (row :: rows) [] [] w2) as [[eipIds taskIds] w3|why w3];
    try reflexivity.
  destruct (waitTasks env taskIds w3) as [[] w4|why w4]; reflexivity.
Qed.

Lemma deleteTail_aside env f err ids : Steps (grows aside) (deleteTail env f err ids).
Proof.
  unfold deleteTail.
  steps_with (grows_refl aside) (grows_trans aside)
    ltac:(first [ apply setP_grows
                | apply emit_grows; split; reflexivity ]).
Qed.

Lemma releaseAddresses_run env ids w :
  exists taskID err,
    releaseAddresses env ids w =
    Ok (taskID, err) (logged w (EvReleaseAddresses ids (ReleaseAddresses env (trace w) ids))).
Proof.
  unfold releaseAddresses, bind. rewrite call_logged.
  destruct (ReleaseAddresses env (trace w) ids) as [e|taskId]; unfold ret; eauto.
  destruct (convertTaskID taskId) as [taskID err]. eauto.
Qed.

(** The address phase: either no disassociate and no release call at all,
    or one release call that comes after the disassociate calls and the
    waits. *)
Definition releaseShape (env : Env) (evs : list Event) : Prop :=
  Forall aside evs \/
  exists D W Y eipIds taskIds res,
    evs = D ++ W ++ EvReleaseAddresses eipIds res :: Y /\
    disassociated env [] eipIds [] taskIds D /\
    Forall aside W /\ (forall t, In t taskIds -> waitedFor env t W) /\
    Forall aside Y.

Lemma releaseShape_framed env A evs Y :
  Forall aside A -> releaseShape env evs -> Forall aside Y ->
  releaseAfterWaits env (A ++ evs ++ Y).
Proof.
  intros HA [Hno|(D & W & Y0 & eipIds & taskIds & res & -> & HD & HW & Hwait & HY0)] HY.
  - apply aside_absent. rewrite !Forall_app. repeat split; auto.
  - replace (A ++ (D ++ W ++ EvReleaseAddresses eipIds res :: Y0) ++ Y)
      with (A ++ D ++ W ++ EvReleaseAddresses eipIds res :: (Y0 ++ Y))
      by (now rewrite <- !app_assoc).
    eapply addressPhase; eauto. apply Forall_app; auto.
Qed.

Lemma aside_releasesAll evs : Forall aside evs -> releasesAll evs.
Proof.
  intros H a r Hin. destruct (proj1 (Forall_forall _ _) H _ Hin) as [_ Hd]. discriminate.
Qed.

Lemma releaseShape_all env A evs Y :
  Forall aside A -> releaseShape env evs -> Forall aside Y ->
  releasesAll (A ++ evs ++ Y).
Proof.
  intros HA [Hno|(D & W & Y0 & eipIds & taskIds & res & -> & HD & HW & _ & HY0)] HY.
  - apply aside_releasesAll. rewrite !Forall_app. auto.
  - intros a r Hin.
    assert (HinD : In (EvDisassociateAddress a r) D).
    { assert (Hnot : forall l, Forall aside l -> ~ In (EvDisassociateAddress a r) l).
      { intros l Hl H. destruct (proj1 (Forall_forall _ _) Hl _ H) as [_ Hd]. discriminate. }
      apply in_app_or in Hin as [Hin|Hin]; [now apply Hnot in Hin|].
      apply in_app_or in Hin as [Hin|Hin]; [|now apply Hnot in Hin].
      apply in_app_or in Hin as [Hin|Hin]; [exact Hin|].
      apply in_app_or in Hin as [Hin|[Hin|Hin]];
        [now apply Hnot in Hin|discriminate Hin|now apply Hnot in Hin]. }
    destruct HD as (_ & _ & _ & _ & _ & Hall).
    exists (A ++ D ++ W), eipIds, res, (Y0 ++ Y).
    split; [now rewrite <- !app_assoc|]. eapply Hall; eassumption.
Qed.

Lemma release_after env eipIds taskIds D W w w0 :
  trace w = trace w0 ++ D ++ W ->
  disassociated env [] eipIds [] taskIds D ->
  Forall aside W -> (forall t, In t taskIds -> waitedFor env t W) ->
  exists w' evs,
    match eipIds with
    | [] => ret tt
    | _ =>
        '(taskID, _) <- releaseAddresses env eipIds ;;
        _ <- describeVpcTaskResult env taskID ;;
        ret tt
    end w = Ok tt w' /\
    trace w' = trace w0 ++ evs /\ p w' = p w /\ releaseShape env evs.
Proof.
  intros Ht HD HW Hwait.
  destruct eipIds as [|a ids].
  - exists w, (D ++ W). split; [reflexivity|]. split; [exact Ht|].
    split; [reflexivity|]. left.
    apply Forall_app. split; [|exact HW].
    destruct HD as (Hrel & _ & _ & _ & _ & Hall).
    apply Forall_forall. intros e He. split; [exact (proj1 (Forall_forall _ _) Hrel e He)|].
    destruct e; try reflexivity. destruct (Hall _ _ He).
  - unfold bind at 1.
    destruct (releaseAddresses_run env (a :: ids) w) as (taskID & err & Hrun).
    rewrite Hrun. unfold bind.
    destruct (describeVpcTaskResult_returns env taskID
                (logged w (EvReleaseAddresses (a :: ids)
                             (ReleaseAddresses env (trace w) (a :: ids)))))
      as (res & w' & W2 & Hrun2 & Ht2 & Hp2 & Hf2 & _).
    rewrite Hrun2.
    exists w', (D ++ W ++ EvReleaseAddresses (a :: ids)
                              (ReleaseAddresses env (trace w) (a :: ids)) :: W2).
    split; [reflexivity|].
    split; [rewrite Ht2; cbn; rewrite Ht; now rewrite <- !app_assoc|].
    split; [exact Hp2|]. right.
    exists D, W, W2, (a :: ids), taskIds, (ReleaseAddresses env (trace w) (a :: ids)).
    repeat split; auto; try apply HD.
    eapply Forall_impl; [|exact Hf2]. intros e. apply pollOf_aside.
Qed.

Lemma deleteAddresses_returns env taggedResource w :
  exists w' evs,
    deleteAddresses env taggedResource w = Ok tt w' /\
    trace w' = trace w ++ evs /\ p w' = p w /\ releaseShape env evs.
Proof.
  unfold deleteAddresses. unfold bind at 1.
  destruct taggedResource as [|resource rest].
  - destruct (release_after env [] [] [] [] w w) as (w' & evs & Hrun & Ht & Hp & Hs).
    + now rewrite app_nil_r.
    + repeat split; auto; try (intros ? ? ? []); intros ? ? [].
    + constructor.
    + intros t [].
    + exists w', evs. auto.
  - unfold bind at 1.
    destruct (disassociateTagged_returns env (resource :: rest) [] [] w)
      as (eipIds & taskIds & w1 & D & Hrun1 & Ht1 & Hp1 & HD).
    rewrite Hrun1. unfold bind at 1.
    destruct (waitTasks_returns env taskIds w1) as (w2 & W & Hrun2 & Ht2 & Hp2 & HW & Hwait).
    rewrite Hrun2. unfold ret at 1.
    destruct (release_after env eipIds taskIds D W w2 w) as (w' & evs & Hrun & Ht & Hp & Hs);
      auto.
    + now rewrite Ht2, Ht1, app_assoc.
    + exists w', evs. repeat split; auto. congruence.
Qed.

Lemma describeResourcesByTags_run env w :
  exists rows err ev,
    describeResourcesByTags env w = Ok (rows, err) (logged w ev) /\ aside ev /\
    (err = None <-> exists rows',
        ev = EvDescribeResourcesByTags
               [ {| FilterName := "autok3s"; FilterValues := ["true"] |};
                 {| FilterName := "cluster";
                    FilterValues := [(TagClusterPrefix env ++ Metadata.Name (meta (p w)))%string] |} ]
               (inr rows')).
Proof.
  unfold describeResourcesByTags, bind, getP. cbv zeta. rewrite call_logged.
  destruct (DescribeResourcesByTags env (trace w) _) as [e|rows]; unfold ret;
    eexists _, _, _; (split; [reflexivity|]); (split; [split; reflexivity|]).
  - split; [discriminate|]. intros (rows' & H). discriminate.
  - split; eauto.
Qed.

Lemma deleteCluster_release_order fuel env f w :
  exists evs,
    trace (worldOf (deleteCluster fuel env f w)) = trace w ++ evs /\
    releaseAfterWaits env evs /\ releasesAll evs.
Proof.
  rewrite deleteCluster_phases. unfold bind at 1, getP at 1. unfold bind at 1.
  destruct (IsClusterExist_readOnly fuel env w) as (A & HtA & HA).
  apply (Forall_impl aside readOnly_aside) in HA.
  destruct (IsClusterExist fuel env w) as [[[found ids] [e|]] w1|why w1];
    cbn [worldOf] in *;
    try (exists A; split; [exact HtA|split; [now apply aside_absent
                                           |now apply aside_releasesAll]]).
  destruct found; cbn [negb];
    [|destruct f; exists A;
      (split; [exact HtA|split; [now apply aside_absent|now apply aside_releasesAll]])].
  unfold bind at 1.
  destruct (describeResourcesByTags_run env w1) as (rows & err & ev & Hrun & Hev & _).
  rewrite Hrun. unfold bind at 1.
  destruct (deleteAddresses_returns env rows (logged w1 ev))
    as (w2 & evs & Hrun2 & Ht2 & Hp2 & Hshape).
  rewrite Hrun2.
  destruct (deleteTail_aside env f err ids w2) as (Y & HtY & HY).
  exists ((A ++ [ev]) ++ evs ++ Y). split.
  - rewrite HtY, Ht2. cbn. rewrite HtA. now rewrite <- !app_assoc.
  - assert (HA' : Forall aside (A ++ [ev])) by (apply Forall_app; split; auto).
    split; [now apply releaseShape_framed|now apply (releaseShape_all env)].
Qed.

(** The address phase of [Rollback] and what follows it. *)
Definition rollbackAddresses (env : Env) (ids : list string) : M unit :=
  '(eips, _) <- describeAddresses env [] ids ;;
  '(eipIds, taskIds) <-
    disassociateAll env (match eips with
                         | Some l => l
                         | None => []
                         end) [] [] ;;
  waitTasks env taskIds ;;;
  '(taskID, _) <- releaseAddresses env eipIds ;;
  _ <- describeVpcTaskResult env taskID ;;
  ret tt.

Definition rollbackEnd (env : Env) (name : string) (res : option error) : M (option error) :=
  match res with
  | Some e => ret (Some e)
  | None =>
      err <- local env "os.RemoveAll" name ;;
      match err with
      | Some e =>
          ret (Some (Errorf "[%s] remove cluster store folder (%s) error, msg: %v"
                       [VStr ProviderName; VStr name; VErr (Some e)]))
      | None => local env "logFile.Close" name
      end
  end.

Definition rollbackTail (env : Env) (pp : Tencent) (ids : list string) : M (option error) :=
  res <- (setErrWaitTimeout
            (Errorf ("[%s] calling rollback error, please remove the cloud provider instances manually. region: %s, " ++
                     "instanceName: %s, msg: the maximum number of attempts reached")%string
               [VStr ProviderName; VStr (Options.Region (opts pp)); VStrs ids]) ;;;
          ExponentialBackoff 5
            (err <- terminateInstances env ids ;;
             match err with
             | Some _ => ret (false, None)
             | None => ret (true, None)
             end)) ;;
  rollbackEnd env (Metadata.Name (meta pp)) res.

Lemma Rollback_phases env w :
  Rollback env w =
  (pp <- getP ;;
   err <- local env "common.GetLogFile" (Metadata.Name (meta pp)) ;;
   match err with
   | Some e => ret (Some e)
   | None =>
       match rollbackIds (m pp) with
       | [] => rollbackEnd env (Metadata.Name (meta pp)) None
       | ids =>
           (if Options.PublicIPAssignedEIP (opts pp)
            then rollbackAddresses env ids
            else ret tt) ;;;
           rollbackTail env pp ids
       end
   end) w.
Proof.
  unfold Rollback, rollbackAddresses, rollbackTail, rollbackEnd, bind, getP.
  cbv zeta.
  destruct (local env "common.GetLogFile" (Metadata.Name (meta (p w))) w)
    as [[e|] w1|why w1]; try reflexivity.
  destruct (rollbackIds (m (p w))) as [|id ids]; try reflexivity.
  destruct (Options.PublicIPAssignedEIP (opts (p w))); try reflexivity.
  destruct (describeAddresses env [] (id :: ids) w1) as [[eips err] w2|why w2];
    try reflexivity.
  destruct (disassociateAll env _ [] [] w2) as [[eipIds taskIds] w3|why w3];
    try reflexivity.
  destruct (waitTasks env taskIds w3) as [[] w4|why w4]; try reflexivity.
  destruct (releaseAddresses env eipIds w4) as [[taskID err'] w5|why w5]; try reflexivity.
  destruct (describeVpcTaskResult env taskID w5) as [res w6|why w6]; reflexivity.
Qed.















(** ** Forced delete and the tagged-resource query *)

Definition isTerminate (e : Event) : bool :=
  match e with
  | EvTerminateInstances _ _ => true
  | _ => false
  end.

Definition spared (e : Event) : Prop := isTerminate e = false.

Lemma readOnly_spared e : readOnly e -> spared e.
Proof. destruct e; simpl; try contradiction; reflexivity. Qed.

Lemma deleteLocalState_spared env f : Steps (grows spared) (deleteLocalState env f).
Proof.
  unfold deleteLocalState, local.
  steps_with (grows_refl spared) (grows_trans spared)
    ltac:(first [ apply setP_grows
                | apply emit_grows; reflexivity ]).
Qed.

(** With the error of the tag query in hand, the tail of [deleteCluster]
    goes past the terminate call. *)
Lemma deleteTail_spared env f e ids : Steps (grows spared) (deleteTail env f (Some e) ids).
Proof.
  unfold deleteTail. cbn [bind].
  apply (Steps_bind _ (grows_trans spared)).
  - apply (Steps_ret _ (grows_refl spared)).
  - intros [e'|].
    + apply (Steps_ret _ (grows_refl spared)).
    + destruct f; [apply deleteLocalState_spared|apply (Steps_ret _ (grows_refl spared))].
Qed.

(** C2.  What the code does when the tag query fails: whatever instances
    discovery has found, a forced delete sends no terminate call. *)
Theorem forced_delete_skips_termination fuel env w :
  (forall h filters, exists e, DescribeResourcesByTags env h filters = inl e) ->
  exists evs,
    trace (worldOf (deleteCluster fuel env true w)) = trace w ++ evs /\
    Forall (fun e => isTerminate e = false) evs.
Proof.
  intros Hdown.
  rewrite deleteCluster_phases. unfold bind at 1, getP at 1. unfold bind at 1.
  destruct (IsClusterExist_readOnly fuel env w) as (A & HtA & HA).
  apply (Forall_impl spared readOnly_spared) in HA.
  destruct (IsClusterExist fuel env w) as [[[found ids] [e|]] w1|why w1];
    cbn [worldOf] in *; try (exists A; split; [exact HtA|exact HA]).
  destruct found; cbn [negb]; [|exists A; split; [exact HtA|exact HA]].
  unfold bind at 1.
  unfold describeResourcesByTags, bind at 1, getP. cbv zeta.
  unfold bind at 1. rewrite call_logged.
  match goal with
  | |- context [DescribeResourcesByTags env ?h ?fs] =>
      destruct (Hdown h fs) as (e & ->)
  end.
  unfold ret at 1. cbv beta iota. unfold bind at 1, deleteAddresses.
  unfold bind at 1, ret at 1. cbv beta iota. unfold ret at 1. cbv beta iota.
  match goal with
  | |- context [deleteTail env true (Some e) ids ?w2] =>
      destruct (deleteTail_spared env true e ids w2) as (Y & HtY & HY);
      exists (A ++ [EvDescribeResourcesByTags
                      [ {| FilterName := "autok3s"; FilterValues := ["true"] |};
                        {| FilterName := "cluster";
                           FilterValues := [(TagClusterPrefix env ++
                                             Metadata.Name (meta (p w1)))%string] |} ]
                      (inl e)] ++ Y)
  end.
  split.
  - rewrite HtY. cbn. rewrite HtA. now rewrite <- !app_assoc.
  - rewrite !Forall_app. repeat split; auto.
Qed.

(** A cloud with one tagged instance whose tag service is down. *)
Definition tagServiceDown : Env :=
  Scripted.env
    [ Scripted.OnDescribeInstances
        (fun _ _ _ _ =>
           inr {| InstanceSet := [ {| InstanceId := "ins-1"; InstanceState := "RUNNING";
                                      InstanceTags := []; PrivateIpAddresses := [];
                                      PublicIpAddresses := [] |} ];
                  TotalCount := 1 |}) ].

(** The forced delete of cluster demo discovers instance ins-1, reports
    success, removes the local state and leaves the instance running. *)
Lemma forced_delete_skips_termination_witness :
  let w := Scripted.world (Scripted.provider "demo" "1") in
  (exists w1, IsClusterExist 1 tagServiceDown w = Ok (true, ["ins-1"%string], None) w1) /\
  (exists w', DeleteK3sCluster 1 tagServiceDown true w = Ok None w' /\
              In (EvLocal "cluster.DeleteState" "demo" None) (trace w') /\
              Forall (fun e => isTerminate e = false) (trace w')) /\
  exists evs,
    trace (worldOf (deleteCluster 1 tagServiceDown true w)) = trace w ++ evs /\
    Forall (fun e => isTerminate e = false) evs.
Proof.
  intros w. split.
  { exists (worldOf (IsClusterExist 1 tagServiceDown w)). vm_compute. reflexivity. }
  split.
  - exists (worldOf (DeleteK3sCluster 1 tagServiceDown true w)). split.
    + vm_compute. reflexivity.
    + split; [vm_compute; tauto|vm_compute; repeat constructor].
  - apply (forced_delete_skips_termination 1 tagServiceDown w).
    intros h filters. eexists. reflexivity.
Defined.

(** The other early steps are tolerated as claimed: once the tag query has
    answered, the instances discovery found are sent a terminate call
    whatever became of the disassociate, wait and release steps. *)
Lemma delete_terminates_after_address_failures fuel env f w w1 w2 id ids rows :
  IsClusterExist fuel env w = Ok (true, id :: ids, None) w1 ->
  describeResourcesByTags env w1 = Ok (rows, None) w2 ->
  exists res, In (EvTerminateInstances (id :: ids) res)
                 (trace (worldOf (deleteCluster fuel env f w))).
Proof.
  intros Hfound Hrun.
  rewrite deleteCluster_phases. unfold bind at 1, getP at 1. unfold bind at 1.
  rewrite Hfound. cbv beta iota. cbn [negb].
  unfold bind at 1. rewrite Hrun. cbv beta iota.
  unfold bind at 1.
  destruct (deleteAddresses_returns env rows w2) as (w3 & evs & Hrun2 & _ & _ & _).
  rewrite Hrun2. cbv beta iota.
  unfold deleteTail. unfold bind at 1. unfold terminateInstances, bind at 1.
  rewrite call_logged. cbv beta iota.
  set (res := TerminateInstances env (trace w3) (id :: ids)).
  set (w4 := logged w3 (EvTerminateInstances (id :: ids) res)).
  exists res.
  assert (Hin : In (EvTerminateInstances (id :: ids) res) (trace w4))
    by (cbn; apply in_or_app; right; now left).
  destruct res as [e|]; unfold ret at 1; cbv beta iota; [exact Hin|].
  assert (Hgrow : forall g, grows aside w4 (worldOf (deleteLocalState env g w4)))
    by (intro g; apply deleteLocalState_aside).
  destruct f; [destruct (Hgrow true) as (Y & -> & _)|destruct (Hgrow false) as (Y & -> & _)];
    apply in_or_app; now left.
Qed.

(** * Further properties *)

(** ** The pages of discovery *)

(** The instances carried by the answered pages among [evs], in call order. *)
Definition pagesOf (evs : list Event) : list Instance :=
  flat_map (fun e => match e with
                     | EvDescribeInstances _ _ _ (inr resp) => InstanceSet resp
                     | _ => []
                     end) evs.

(** A page request with the given filters and the page size of the code. *)
Definition isPageOf (filters : list Filter) (e : Event) : Prop :=
  match e with
  | EvDescribeInstances fs limit _ _ => fs = filters /\ limit = 20
  | _ => False
  end.

Lemma pagesOf_app evs evs' : pagesOf (evs ++ evs') = pagesOf evs ++ pagesOf evs'.
Proof. unfold pagesOf. now rewrite flat_map_app. Qed.

Lemma describeInstancesFrom_pages env filters :
  forall fuel offset index acc w res w',
    describeInstancesFrom fuel env filters offset index acc w = Ok res w' ->
    exists evs,
      trace w' = trace w ++ evs /\ p w' = p w /\ evs <> [] /\
      Forall (isPageOf filters) evs /\
      match res with
      | inr l => l = acc ++ pagesOf evs
      | inl e => exists off pre, evs = pre ++ [EvDescribeInstances filters 20 off (inl e)]
      end.
Proof.
  induction fuel as [|fuel IH]; intros offset index acc w res w' Hrun;
    [discriminate Hrun|].
  cbn [describeInstancesFrom] in Hrun. cbv zeta in Hrun.
  unfold bind at 1 in Hrun. rewrite call_logged in Hrun.
  set (ans := DescribeInstances env (trace w) filters 20 offset) in *.
  set (ev := EvDescribeInstances filters 20 offset ans) in *.
  assert (Hev : isPageOf filters ev) by (split; reflexivity).
  destruct ans as [e|resp] eqn:Hans.
  - injection Hrun as <- <-. exists [ev]. repeat split; auto; try discriminate.
    exists offset, []. reflexivity.
  - destruct (InstanceSet resp) as [|ins rest] eqn:Hset.
    + injection Hrun as <- <-. exists [ev]. repeat split; auto; try discriminate.
      unfold pagesOf, ev. cbn. rewrite Hset. now rewrite !app_nil_r.
    + destruct (Go.wrap64 (Go.wrap64 (20 * index) + 20) >=? TotalCount resp).
      * injection Hrun as <- <-. exists [ev]. repeat split; auto; try discriminate.
        unfold pagesOf, ev. cbn. rewrite Hset. now rewrite app_nil_r.
      * apply IH in Hrun as (evs & Ht & Hp & _ & Hf & Hres).
        exists (ev :: evs). split; [rewrite Ht; cbn; now rewrite <- app_assoc|].
        split; [exact Hp|]. split; [discriminate|]. split; [constructor; auto|].
        destruct res as [e|l].
        -- destruct Hres as (off & pre & ->). exists off, (ev :: pre). reflexivity.
        -- rewrite Hres. change (ev :: evs) with ([ev] ++ evs). rewrite pagesOf_app.
           unfold pagesOf at 2, ev. cbn. rewrite Hset, app_nil_r.
           now rewrite <- app_assoc.
Qed.

(** X1.  Whenever discovery returns, it has made one request or more, each
    with page size 20 and the ownership and cluster tag filters, and nothing
    else.  What it returns is the instances of the answered pages, in the
    order of the calls, or the error of the page that failed; the instances
    of the pages before a failed one are dropped. *)
Theorem describeInstances_concatenates_pages fuel env w res w' :
  describeInstances fuel env w = Ok res w' ->
  exists evs,
    trace w' = trace w ++ evs /\ p w' = p w /\ evs <> [] /\
    Forall (isPageOf (clusterFilters env (p w))) evs /\
    match res with
    | inr l => l = pagesOf evs
    | inl e => exists off pre,
        evs = pre ++ [EvDescribeInstances (clusterFilters env (p w)) 20 off (inl e)]
    end.
Proof.
  unfold describeInstances, bind, getP. intros Hrun.
  apply describeInstancesFrom_pages in Hrun. exact Hrun.
Qed.

Definition instanceNamed (id : string) : Instance :=
  {| InstanceId := id; InstanceState := "RUNNING"; InstanceTags := [];
     PrivateIpAddresses := []; PublicIpAddresses := [] |}.

(** A cloud that reports 25 instances and hands out one per page. *)
Definition twoPages : Env :=
  Scripted.env
    [ Scripted.OnDescribeInstances
        (fun _ _ _ offset =>
           match offset with
           | None => inr {| InstanceSet := [instanceNamed "ins-1"]; TotalCount := 25 |}
           | Some _ => inr {| InstanceSet := [instanceNamed "ins-2"]; TotalCount := 25 |}
           end) ].

Definition twoPagesStart : World := Scripted.world (Scripted.provider "demo" "1").

Definition twoPagesEnd : World :=
  worldOf (describeInstances 2 twoPages twoPagesStart).

Lemma describeInstances_twoPages :
  describeInstances 2 twoPages twoPagesStart =
  Ok (inr [instanceNamed "ins-1"; instanceNamed "ins-2"]) twoPagesEnd.
Proof. vm_compute. reflexivity. Qed.

Lemma describeInstances_concatenates_pages_witness :
  exists evs,
    trace twoPagesEnd = trace twoPagesStart ++ evs /\
    p twoPagesEnd = p twoPagesStart /\ evs <> [] /\
    Forall (isPageOf (clusterFilters twoPages (p twoPagesStart))) evs /\
    [instanceNamed "ins-1"; instanceNamed "ins-2"] = pagesOf evs.
Proof.
  exact (describeInstances_concatenates_pages 2 twoPages twoPagesStart
           (inr [instanceNamed "ins-1"; instanceNamed "ins-2"]) twoPagesEnd
           describeInstances_twoPages).
Defined.

(** ** Waiting for the instances *)


(** The registry [reg'] has the keys of [reg], in the same order, and every
    node is the one of [reg] or that node with its status set to [aim]. *)
Definition statusOnly (aim : string) (reg reg' : list (string * Node)) : Prop :=
  Forall2 (fun kv kv' => fst kv' = fst kv /\
                         (snd kv' = snd kv \/
                          snd kv' = withInstanceStatus aim (snd kv))) reg reg'.

Lemma withInstanceStatus_twice aim n :
  withInstanceStatus aim (withInstanceStatus aim n) = withInstanceStatus aim n.
Proof. reflexivity. Qed.

Lemma statusOnly_refl aim reg : statusOnly aim reg reg.
Proof. induction reg; constructor; auto. Qed.

Lemma statusOnly_trans aim reg1 reg2 reg3 :
  statusOnly aim reg1 reg2 -> statusOnly aim reg2 reg3 -> statusOnly aim reg1 reg3.
Proof.
  intros H12. revert reg3. induction H12 as [|kv1 kv2 r1 r2 [Hk H] _ IH]; intros reg3 H23.
  - inversion H23. constructor.
  - inversion H23 as [|? kv3 ? r3 [Hk' H'] Hrest]; subst. constructor; [|now apply IH].
    split; [congruence|].
    destruct H as [H|H], H' as [H'|H']; rewrite H', H; auto.
Qed.

Lemma statusOnly_Store aim key n : forall reg,
  Load key reg = Some n ->
  statusOnly aim reg (Store key (withInstanceStatus aim n) reg).
Proof.
  induction reg as [|[k x] rest IH]; intros Hload; [discriminate|].
  cbn [Load Store] in *. destruct (String.eqb k key).
  - injection Hload as ->. constructor; [simpl; auto|apply statusOnly_refl].
  - constructor; [simpl; auto|now apply IH].
Qed.

Lemma statusOnly_keys aim reg reg' :
  statusOnly aim reg reg' -> map fst reg' = map fst reg.
Proof. induction 1 as [|? ? ? ? [Hk _] _ IH]; simpl; congruence. Qed.

Lemma statusOnly_Load aim key reg reg' n' :
  statusOnly aim reg reg' -> Load key reg' = Some n' ->
  exists n, Load key reg = Some n /\ (n' = n \/ n' = withInstanceStatus aim n).
Proof.
  induction 1 as [|[k x] [k' x'] r r' [Hk H] _ IH]; intros Hload; [discriminate|].
  simpl in Hk. subst k'. cbn [Load] in *. destruct (String.eqb k key).
  - injection Hload as <-. exists x. auto.
  - auto.
Qed.

Lemma statusOnly_Load_fwd aim key reg reg' n :
  statusOnly aim reg reg' -> Load key reg = Some n ->
  exists n', Load key reg' = Some n' /\ (n' = n \/ n' = withInstanceStatus aim n).
Proof.
  induction 1 as [|[k x] [k' x'] r r' [Hk H] _ IH]; intros Hload; [discriminate|].
  simpl in Hk. subst k'. cbn [Load] in *. destruct (String.eqb k key).
  - injection Hload as <-. exists x'. auto.
  - auto.
Qed.

Lemma markStatus_statusOnly aim : forall set reg,
  statusOnly aim reg (snd (markStatus aim set reg)).
Proof.
  induction set as [|[instanceID state] rest IH]; intros reg; simpl;
    [apply statusOnly_refl|].
  destruct (String.eqb state aim); [|apply statusOnly_refl].
  eapply statusOnly_trans; [|apply IH].
  destruct (Load instanceID reg) as [n|] eqn:Hload;
    [now apply statusOnly_Store|apply statusOnly_refl].
Qed.

Lemma Load_Store_status aim key n reg :
  Load key reg = Some n ->
  Load key (Store key (withInstanceStatus aim n) reg) = Some (withInstanceStatus aim n).
Proof.
  induction reg as [|[k x] rest IH]; intros Hload; [discriminate|].
  cbn [Load Store] in *. destruct (String.eqb k key) eqn:Hk; cbn [Load]; rewrite Hk; auto.
Qed.

(** A pass of the marking loop that reaches the end has seen the aimed
    status only, and every listed instance the registry knows has it. *)
Lemma markStatus_done aim : forall set reg,
  fst (markStatus aim set reg) = true ->
  Forall (fun x => snd x = aim) set /\
  forall id st n', In (id, st) set ->
    Load id (snd (markStatus aim set reg)) = Some n' -> InstanceStatus n' = aim.
Proof.
  induction set as [|[instanceID state] rest IH]; intros reg Hdone; simpl in *.
  - split; [constructor|]. intros ? ? ? [].
  - destruct (String.eqb_spec state aim) as [->|]; [|discriminate].
    destruct (IH _ Hdone) as [Hall Hin]. split; [constructor; auto|].
    intros id st n' [Heq|Hrest] Hload; [|eauto].
    injection Heq as <- <-.
    destruct (statusOnly_Load aim instanceID _ _ n' (markStatus_statusOnly aim rest _) Hload)
      as (n0 & Hload0 & Hn').
    assert (Haim : InstanceStatus n0 = aim).
    { destruct (Load instanceID reg) as [n|] eqn:Hreg.
      - rewrite (Load_Store_status aim _ _ _ Hreg) in Hload0. now injection Hload0 as <-.
      - rewrite Hreg in Hload0. discriminate. }
    destruct Hn' as [->| ->]; [exact Haim|reflexivity].
Qed.

Definition isStatusPoll (ids : list string) (e : Event) : Prop :=
  match e with
  | EvDescribeInstancesStatus ids' _ => ids' = ids
  | _ => False
  end.

(** The condition polled by [getInstanceStatus]. *)
Definition statusCondition (env : Env) (aimStatus : string) (ids : list string)
  : M (bool * option error) :=
  response <- call (fun h => DescribeInstancesStatus env h ids)
                   (EvDescribeInstancesStatus ids) ;;
  match response with
  | inl _ => ret (false, None)
  | inr [] => ret (false, None)
  | inr set =>
      pp <- getP ;;
      let '(done, reg) := markStatus aimStatus set (m pp) in
      setP (withM (fun _ => reg)) ;;;
      ret (done, None)
  end.

(** What a wait leaves behind: the provider's settings, clients and status
    lists as they were, the timeout error as it was, and a registry that
    differs in node statuses only. *)
Definition waited (aim : string) (ids : list string) (n : nat) (w w' : World)
  (evs : list Event) : Prop :=
  trace w' = trace w ++ evs /\ Forall (isStatusPoll ids) evs /\
  (length evs <= n)%nat /\
  statusOnly aim (m (p w)) (m (p w')) /\
  meta (p w') = meta (p w) /\ opts (p w') = opts (p w) /\
  status (p w') = status (p w) /\ ErrWaitTimeout w' = ErrWaitTimeout w.

Ltac conjs := unfold waited; repeat match goal with |- _ /\ _ => split end.

Lemma statusCondition_run env aim ids w :
  exists done w',
    statusCondition env aim ids w = Ok (done, None) w' /\
    waited aim ids 1 w w'
      [EvDescribeInstancesStatus ids (DescribeInstancesStatus env (trace w) ids)] /\
    (done = true ->
     exists set,
       DescribeInstancesStatus env (trace w) ids = inr set /\ set <> [] /\
       Forall (fun x => snd x = aim) set /\
       forall id st n', In (id, st) set -> Load id (m (p w')) = Some n' ->
                        InstanceStatus n' = aim).
Proof.
  unfold statusCondition, bind at 1. rewrite call_logged.
  set (ans := DescribeInstancesStatus env (trace w) ids).
  assert (Hquiet : waited aim ids 1 w (logged w (EvDescribeInstancesStatus ids ans))
                     [EvDescribeInstancesStatus ids ans]).
  { conjs; auto; try apply statusOnly_refl. repeat constructor. }
  destruct ans as [e|[|st sts]] eqn:Hans.
  - eexists _, _. split; [reflexivity|]. split; [exact Hquiet|discriminate].
  - eexists _, _. split; [reflexivity|]. split; [exact Hquiet|discriminate].
  - unfold bind at 1, getP at 1. cbn [p logged].
    pose proof (markStatus_statusOnly aim (st :: sts) (m (p w))) as Honly.
    pose proof (markStatus_done aim (st :: sts) (m (p w))) as Hdone.
    destruct (markStatus aim (st :: sts) (m (p w))) as [done reg].
    cbn [fst snd] in *. unfold bind, setP, ret.
    eexists _, _. split; [reflexivity|]. split.
    + conjs; auto. repeat constructor.
    + intros ->. exists (st :: sts). destruct (Hdone eq_refl) as [Hall Hin].
      conjs; auto. discriminate.
Qed.

Lemma statusBackoff_run env aim ids : forall steps w,
  exists res w' evs,
    ExponentialBackoff steps (statusCondition env aim ids) w = Ok res w' /\
    waited aim ids steps w w' evs /\
    match res with
    | None =>
        exists pre set,
          evs = pre ++ [EvDescribeInstancesStatus ids (inr set)] /\ set <> [] /\
          Forall (fun x => snd x = aim) set /\
          forall id st n', In (id, st) set -> Load id (m (p w')) = Some n' ->
                           InstanceStatus n' = aim
    | Some e => e = ErrWaitTimeout w /\ length evs = steps
    end.
Proof.
  induction steps as [|steps IH]; intros w.
  - exists (Some (ErrWaitTimeout w)), w, []. split; [reflexivity|]. split.
    + conjs; auto; try apply statusOnly_refl. now rewrite app_nil_r.
    + auto.
  - cbn [ExponentialBackoff]. unfold bind at 1.
    destruct (statusCondition_run env aim ids w) as (done & w1 & Hrun & Hw & Hdone).
    rewrite Hrun. cbv beta iota.
    set (ev := EvDescribeInstancesStatus ids _) in *.
    destruct done.
    + exists None, w1, [ev]. split; [reflexivity|]. split.
      * destruct Hw as (Ht & Hf & Hl & Hrest). conjs; auto; try apply Hrest.
        simpl. lia.
      * destruct (Hdone eq_refl) as (set & Hans & Hne & Hall & Hin).
        exists [], set. unfold ev. rewrite Hans. auto.
    + destruct (IH w1) as (res & w' & evs & Hrun' & Hw' & Hres).
      exists res, w', (ev :: evs). split; [exact Hrun'|].
      destruct Hw as (Ht & Hf & Hl & Ho & Hm & Hop & Hs & He).
      destruct Hw' as (Ht' & Hf' & Hl' & Ho' & Hm' & Hop' & Hs' & He').
      split.
      * conjs; try congruence.
        -- rewrite Ht', Ht. now rewrite <- app_assoc.
        -- constructor; [reflexivity|exact Hf'].
        -- simpl. lia.
        -- eapply statusOnly_trans; eauto.
      * destruct res as [e|].
        -- destruct Hres as [-> <-]. split; [congruence|reflexivity].
        -- destruct Hres as (pre & set & -> & Hrest). exists (ev :: pre), set. auto.
Qed.

Lemma getInstanceStatus_run env aim w :
  exists res w' evs,
    getInstanceStatus env aim w = Ok res w' /\
    trace w' = trace w ++ evs /\
    Forall (isStatusPoll (map fst (m (p w)))) evs /\
    (length evs <= BackoffSteps env)%nat /\
    statusOnly aim (m (p w)) (m (p w')) /\
    meta (p w') = meta (p w) /\ opts (p w') = opts (p w) /\
    status (p w') = status (p w) /\
    match res with
    | None =>
        m (p w) = [] /\ evs = [] \/
        exists pre set,
          evs = pre ++ [EvDescribeInstancesStatus (map fst (m (p w))) (inr set)] /\
          set <> [] /\ Forall (fun x => snd x = aim) set /\
          forall id st n', In (id, st) set -> Load id (m (p w')) = Some n' ->
                           InstanceStatus n' = aim
    | Some e =>
        length evs = BackoffSteps env /\
        e = Errorf "[%s] calling getInstanceStatus error. region: %s, zone: %s, instanceName: %s, message: not `%s` status"
              [VStr ProviderName; VStr (Options.Region (opts (p w)));
               VStr (Options.Zone (opts (p w))); VStrs (map fst (m (p w))); VStr aim]
    end.
Proof.
  unfold getInstanceStatus, bind at 1, getP at 1.
  destruct (map fst (m (p w))) as [|id ids] eqn:Hids.
  - exists None, w, []. split; [reflexivity|].
    rewrite app_nil_r. conjs; auto; try apply statusOnly_refl; try (simpl; lia).
    left. split; [|reflexivity]. destruct (m (p w)); [reflexivity|discriminate].
  - unfold bind at 1, setErrWaitTimeout at 1.
    match goal with
    | |- context [ExponentialBackoff _ _ ?w0] =>
        destruct (statusBackoff_run env aim (id :: ids) (BackoffSteps env) w0)
          as (res & w' & evs & Hrun & Hw & Hres)
    end.
    unfold statusCondition in Hrun. exists res, w', evs.
    split; [exact Hrun|].
    destruct Hw as (Ht & Hf & Hl & Ho & Hm & Hop & Hs & He). cbn [p trace] in *.
    conjs; auto.
    destruct res as [e|]; [|right; exact Hres].
    destruct Hres as [-> Hlen]. split; [exact Hlen|reflexivity].
Qed.

(** X2.  Waiting for a status changes nothing of the provider but the
    status field of registry nodes: the registry keeps its keys in their
    order, every node is as before or as before with the aimed status, and
    metadata, options and the status lists are untouched.  Every call made
    is a status query naming all registry keys, and there are no more of
    them than the backoff allows. *)
Theorem getInstanceStatus_touches_status_only env aimStatus w :
  let w' := worldOf (getInstanceStatus env aimStatus w) in
  statusOnly aimStatus (m (p w)) (m (p w')) /\
  map fst (m (p w')) = map fst (m (p w)) /\
  meta (p w') = meta (p w) /\ opts (p w') = opts (p w) /\
  status (p w') = status (p w) /\
  exists evs,
    trace w' = trace w ++ evs /\
    Forall (isStatusPoll (map fst (m (p w)))) evs /\
    (length evs <= BackoffSteps env)%nat.
Proof.
  destruct (getInstanceStatus_run env aimStatus w)
    as (res & w' & evs & Hrun & Ht & Hf & Hl & Ho & Hm & Hop & Hs & _).
  rewrite Hrun. cbn [worldOf].
  conjs; auto; [now apply (statusOnly_keys aimStatus)|].
  exists evs. auto.
Qed.

(** X3.  The wait always returns.  It returns nil either at once, the
    registry being empty, or after a query whose answer was not empty and
    listed the aimed status only; the listed instances the registry knows
    then carry that status.  Instances the answer leaves out are not looked
    at.  Otherwise every allowed query has been made and the error returned
    names the region, the zone, the registry keys and the aimed status. *)
Theorem getInstanceStatus_outcome env aimStatus w :
  exists res w' evs,
    getInstanceStatus env aimStatus w = Ok res w' /\
    trace w' = trace w ++ evs /\
    match res with
    | None =>
        m (p w) = [] /\ evs = [] \/
        exists pre set,
          evs = pre ++ [EvDescribeInstancesStatus (map fst (m (p w))) (inr set)] /\
          set <> [] /\ Forall (fun x => snd x = aimStatus) set /\
          forall id st n', In (id, st) set -> Load id (m (p w')) = Some n' ->
                           InstanceStatus n' = aimStatus
    | Some e =>
        length evs = BackoffSteps env /\
        e = Errorf "[%s] calling getInstanceStatus error. region: %s, zone: %s, instanceName: %s, message: not `%s` status"
              [VStr ProviderName; VStr (Options.Region (opts (p w)));
               VStr (Options.Zone (opts (p w))); VStrs (map fst (m (p w)));
               VStr aimStatus]
    end.
Proof.
  destruct (getInstanceStatus_run env aimStatus w)
    as (res & w' & evs & Hrun & Ht & _ & _ & _ & _ & _ & _ & Hres).
  exists res, w', evs. auto.
Qed.

(** Two launched nodes and a cloud that only ever reports on the first:
    the wait succeeds while the second is still pending. *)
Definition partialReport : Env :=
  {| Running := "RUNNING"; Success := "SUCCESS"; Failed := "FAILED";
     StatusRunning := "RUNNING"; StatusPending := "PENDING";
     ServiceTypeEIP := "cvm"; ResourcePrefixEIP := "eip";
     TagClusterPrefix := "autok3s-";
     MasterInstanceName := fun name => name; WorkerInstanceName := fun name => name;
     BackoffSteps := 5;
     IsExistedNodes := fun _ _ => (O, false);
     DescribeInstances := fun _ _ _ _ => Scripted.refused;
     DescribeInstancesStatus := fun _ _ => inr [("ins-1", "RUNNING")]%string;
     RunInstances := fun _ _ => Scripted.refused;
     TerminateInstances := fun _ _ => None;
     AllocateAddresses := fun _ _ _ _ => Scripted.refused;
     ReleaseAddresses := fun _ _ => Scripted.refused;
     DescribeAddresses := fun _ _ _ => Scripted.refused;
     AssociateAddress := fun _ _ _ => Scripted.refused;
     DisassociateAddress := fun _ _ => Scripted.refused;
     DescribeTaskResult := fun _ _ => Scripted.refused;
     DescribeResourcesByTags := fun _ _ => Scripted.refused;
     DescribeVpcs := fun _ _ => Scripted.refused;
     DescribeSubnets := fun _ _ _ => Scripted.refused;
     CreateVpc := fun _ _ _ _ => Scripted.refused;
     CreateSubnet := fun _ _ _ _ _ _ => Scripted.refused;
     DescribeSecurityGroupPolicies := fun _ _ => Scripted.refused;
     CreateSecurityGroupPolicies := fun _ _ _ _ => None;
     NewClient := fun _ _ => None;
     unicode := Scripted.asciiOnly;
     viperGetString := fun _ _ => "seed";
     AskForConfirmation := fun _ => true;
     SSHUploadKey := fun _ _ _ => None;
     Local := fun _ _ _ => None |}.

Example wait_succeeds_on_partial_report :
  let w := Scripted.world
             (withM (storeLaunched partialReport true ["ins-1"; "ins-2"]%string)
                    (Scripted.provider "demo" "2")) in
  let r := getInstanceStatus partialReport "RUNNING" w in
  (exists w', r = Ok None w') /\
  option_map InstanceStatus (Load "ins-1" (m (p (worldOf r)))) = Some "RUNNING"%string /\
  option_map InstanceStatus (Load "ins-2" (m (p (worldOf r)))) = Some "PENDING"%string.
Proof.
  intros w r. split; [exists (worldOf r); vm_compute; reflexivity|].
  split; vm_compute; reflexivity.
Qed.

(** ** Rollback: the terminate budget *)

Definition isLocal (e : Event) : bool :=
  match e with
  | EvLocal _ _ _ => true
  | _ => false
  end.

(** Calls to the cloud that are neither terminate calls nor local work. *)
Definition elsewhere (e : Event) : Prop := isTerminate e = false /\ isLocal e = false.

Ltac splits := repeat match goal with |- _ /\ _ => split end.

Lemma Steps_Ok {A} (R : World -> World -> Prop) (f : M A) w a w' :
  Steps R f -> f w = Ok a w' -> R w w'.
Proof. intros H Hrun. specialize (H w). now rewrite Hrun in H. Qed.

Lemma disassociateAll_elsewhere env : forall eips eipIds taskIds,
  Steps (grows elsewhere) (disassociateAll env eips eipIds taskIds).
Proof.
  induction eips as [|eip rest IH]; intros; simpl.
  - apply (Steps_ret _ (grows_refl elsewhere)).
  - steps_with (grows_refl elsewhere) (grows_trans elsewhere)
      ltac:(first [ apply emit_grows; split; reflexivity ]); apply IH.
Qed.

Lemma describeVpcTaskResult_elsewhere env taskID :
  Steps (grows elsewhere) (describeVpcTaskResult env taskID).
Proof.
  unfold describeVpcTaskResult, taskResultCondition.
  steps_with (grows_refl elsewhere) (grows_trans elsewhere)
    ltac:(first [ apply setErrWaitTimeout_grows
                | apply emit_grows; split; reflexivity ]).
Qed.

Lemma waitTasks_elsewhere env : forall taskIds,
  Steps (grows elsewhere) (waitTasks env taskIds).
Proof.
  induction taskIds as [|t rest IH]; simpl.
  - apply (Steps_ret _ (grows_refl elsewhere)).
  - apply (Steps_bind _ (grows_trans elsewhere));
      [apply describeVpcTaskResult_elsewhere|intro; apply IH].
Qed.

Lemma rollbackAddresses_elsewhere env ids :
  Steps (grows elsewhere) (rollbackAddresses env ids).
Proof.
  unfold rollbackAddresses, describeAddresses, releaseAddresses.
  steps_with (grows_refl elsewhere) (grows_trans elsewhere)
    ltac:(first [ apply disassociateAll_elsewhere
                | apply waitTasks_elsewhere
                | apply describeVpcTaskResult_elsewhere
                | apply emit_grows; split; reflexivity ]).
Qed.

Lemma describeAddresses_returns env addressIds instanceIds w :
  exists res w',
    describeAddresses env addressIds instanceIds w = Ok res w' /\ p w' = p w.
Proof.
  unfold describeAddresses.
  destruct instanceIds; unfold bind at 1; rewrite call_logged;
    match goal with
    | |- context [DescribeAddresses env ?h ?a ?b] =>
        destruct (DescribeAddresses env h a b)
    end; eexists _, _; split; reflexivity.
Qed.

Lemma rollbackAddresses_returns env ids w :
  exists w' evs,
    rollbackAddresses env ids w = Ok tt w' /\
    trace w' = trace w ++ evs /\ p w' = p w /\ Forall elsewhere evs.
Proof.
  assert (Hok : exists w', rollbackAddresses env ids w = Ok tt w' /\ p w' = p w).
  { unfold rollbackAddresses. unfold bind at 1.
    destruct (describeAddresses_returns env [] ids w) as ([eips err] & w1 & Hrun1 & Hp1).
    rewrite Hrun1. cbv beta iota. unfold bind at 1.
    destruct (disassociateAll_returns env
                (match eips with Some l => l | None => [] end) [] [] w1)
      as (eipIds & taskIds & w2 & D & Hrun2 & _ & Hp2 & _).
    rewrite Hrun2. cbv beta iota. unfold bind at 1.
    destruct (waitTasks_returns env taskIds w2) as (w3 & W & Hrun3 & _ & Hp3 & _).
    rewrite Hrun3. cbv beta iota. unfold bind at 1.
    destruct (releaseAddresses_run env eipIds w3) as (taskID & err' & Hrun4).
    rewrite Hrun4. cbv beta iota. unfold bind.
    match goal with
    | |- context [describeVpcTaskResult env taskID ?w4] =>
        destruct (describeVpcTaskResult_returns env taskID w4)
          as (res & w5 & W2 & Hrun5 & _ & Hp5 & _)
    end.
    rewrite Hrun5. exists w5. split; [reflexivity|].
    rewrite Hp5. cbn [p logged]. congruence. }
  destruct Hok as (w' & Hrun & Hp).
  destruct (Steps_Ok _ _ _ _ _ (rollbackAddresses_elsewhere env ids) Hrun) as (evs & Ht & Hf).
  exists w', evs. auto.
Qed.

Definition failedTerminate (ids : list string) (e : Event) : Prop :=
  exists err, e = EvTerminateInstances ids (Some err).

(** The condition [Rollback] retries. *)
Definition terminateCondition (env : Env) (ids : list string) : M (bool * option error) :=
  err <- terminateInstances env ids ;;
  match err with
  | Some _ => ret (false, None)
  | None => ret (true, None)
  end.

Lemma terminateBackoff_run env ids : forall steps w,
  exists res w' evs,
    ExponentialBackoff steps (terminateCondition env ids) w = Ok res w' /\
    trace w' = trace w ++ evs /\ p w' = p w /\ (length evs <= steps)%nat /\
    match res with
    | None => exists pre, evs = pre ++ [EvTerminateInstances ids None] /\
                          Forall (failedTerminate ids) pre /\
                          exists h, TerminateInstances env h ids = None
    | Some e => e = ErrWaitTimeout w /\ length evs = steps /\
                Forall (failedTerminate ids) evs
    end.
Proof.
  induction steps as [|steps IH]; intros w.
  - exists (Some (ErrWaitTimeout w)), w, []. rewrite app_nil_r.
    split; [reflexivity|]. split; [reflexivity|]. split; [reflexivity|].
    split; [reflexivity|]. auto.
  - cbn [ExponentialBackoff]. unfold bind at 1, terminateCondition at 1.
    unfold bind at 1, terminateInstances at 1, bind at 1. rewrite call_logged.
    set (ans := TerminateInstances env (trace w) ids).
    set (ev := EvTerminateInstances ids ans).
    destruct ans as [e|] eqn:Hans; unfold ret at 1; cbv beta iota; unfold ret at 1;
      cbv beta iota.
    + destruct (IH (logged w ev)) as (res & w' & evs & Hrun & Ht & Hp & Hl & Hres).
      exists res, w', (ev :: evs). split; [exact Hrun|].
      split; [rewrite Ht; cbn; now rewrite <- app_assoc|]. split; [exact Hp|].
      split; [simpl; lia|].
      assert (Hev : failedTerminate ids ev) by (exists e; reflexivity).
      destruct res as [e'|].
      * destruct Hres as (-> & <- & Hf). auto.
      * destruct Hres as (pre & -> & Hf & Hh). exists (ev :: pre). auto.
    + exists None, (logged w ev), [ev]. split; [reflexivity|]. split; [reflexivity|].
      split; [reflexivity|]. split; [simpl; lia|]. exists [].
      split; [reflexivity|]. split; [constructor|]. exists (trace w). exact Hans.
Qed.

(** The error [Rollback] installs before it starts terminating. *)
Definition rollbackTimeout (pp : Tencent) : error :=
  Errorf ("[%s] calling rollback error, please remove the cloud provider instances manually. region: %s, " ++
          "instanceName: %s, msg: the maximum number of attempts reached")%string
    [VStr ProviderName; VStr (Options.Region (opts pp)); VStrs (rollbackIds (m pp))].

Lemma local_run env op arg w :
  local env op arg w =
  Ok (Local env (trace w) op arg) (logged w (EvLocal op arg (Local env (trace w) op arg))).
Proof. reflexivity. Qed.

Lemma rollbackEnd_run env name res w :
  exists res' w' evs,
    rollbackEnd env name res w = Ok res' w' /\
    trace w' = trace w ++ evs /\ p w' = p w /\
    Forall (fun e => isLocal e = true) evs /\
    (res <> None -> evs = [] /\ res' = res).
Proof.
  unfold rollbackEnd. destruct res as [e|].
  - exists (Some e), w, []. rewrite app_nil_r. splits; auto.
  - unfold bind at 1. rewrite local_run. cbv beta iota.
    destruct (Local env (trace w) "os.RemoveAll" name) as [e|].
    + eexists _, _, [_]. splits; try reflexivity; [repeat constructor|].
      intros H. now contradiction H.
    + rewrite local_run. eexists _, _, [_; _].
      splits; try reflexivity; [cbn; now rewrite <- app_assoc|repeat constructor|].
      intros H. now contradiction H.
Qed.

Lemma filter_none {A} (f : A -> bool) l :
  Forall (fun x => f x = false) l -> filter f l = [].
Proof. induction 1 as [|x l Hx _ IH]; simpl; [reflexivity|now rewrite Hx]. Qed.

Lemma filter_all {A} (f : A -> bool) l :
  Forall (fun x => f x = true) l -> filter f l = l.
Proof. induction 1 as [|x l Hx _ IH]; simpl; [reflexivity|now rewrite Hx, IH]. Qed.

Lemma failedTerminate_isTerminate ids l :
  Forall (failedTerminate ids) l -> Forall (fun e => isTerminate e = true) l.
Proof. apply Forall_impl. intros e (err & ->). reflexivity. Qed.

Lemma local_not_terminate l :
  Forall (fun e => isLocal e = true) l -> Forall (fun e => isTerminate e = false) l.
Proof. apply Forall_impl. intros e. destruct e; simpl; auto; discriminate. Qed.

Lemma elsewhere_not_terminate l :
  Forall elsewhere l -> Forall (fun e => isTerminate e = false) l.
Proof. apply Forall_impl. intros e He. apply He. Qed.

Lemma elsewhere_not_local l :
  Forall elsewhere l -> Forall (fun e => isLocal e = false) l.
Proof. apply Forall_impl. intros e He. apply He. Qed.

Lemma terminate_not_local ids l :
  Forall (failedTerminate ids) l -> Forall (fun e => isLocal e = false) l.
Proof. apply Forall_impl. intros e (err & ->). reflexivity. Qed.

(** The run of [Rollback] once the log file is open and some node is
    flagged: the address phase, the terminate attempts, the local end. *)
Lemma rollbackBody_run env w ids :
  ids <> [] -> rollbackIds (m (p w)) = ids ->
  exists res w' A T L,
    ((if Options.PublicIPAssignedEIP (opts (p w))
      then rollbackAddresses env ids
      else ret tt) ;;;
     rollbackTail env (p w) ids) w = Ok res w' /\
    trace w' = trace w ++ A ++ T ++ L /\ p w' = p w /\
    Forall elsewhere A /\ (length T <= 5)%nat /\
    Forall (fun e => isLocal e = true) L /\
    ((exists pre, T = pre ++ [EvTerminateInstances ids None] /\
                  Forall (failedTerminate ids) pre /\
                  exists h, TerminateInstances env h ids = None) \/
     (res = Some (rollbackTimeout (p w)) /\ length T = 5%nat /\
      Forall (failedTerminate ids) T /\ L = [])).
Proof.
  intros Hne Hids. unfold bind at 1.
  assert (Hphase : exists w1 A,
             (if Options.PublicIPAssignedEIP (opts (p w))
              then rollbackAddresses env ids else ret tt) w = Ok tt w1 /\
             trace w1 = trace w ++ A /\ p w1 = p w /\ Forall elsewhere A).
  { destruct (Options.PublicIPAssignedEIP (opts (p w))).
    - apply rollbackAddresses_returns.
    - exists w, []. rewrite app_nil_r. splits; auto. }
  destruct Hphase as (w1 & A & Hrun1 & Ht1 & Hp1 & HA). rewrite Hrun1. cbv beta iota.
  unfold rollbackTail. unfold bind at 1. unfold bind at 1, setErrWaitTimeout at 1.
  cbv beta iota.
  match goal with
  | |- context [ExponentialBackoff 5 _ ?w2] =>
      destruct (terminateBackoff_run env ids 5 w2)
        as (res & w3 & T & Hrun3 & Ht3 & Hp3 & Hl3 & Hres)
  end.
  unfold terminateCondition in Hrun3. rewrite Hrun3. cbv beta iota.
  cbn [trace p ErrWaitTimeout] in *.
  destruct (rollbackEnd_run env (Metadata.Name (meta (p w))) res w3)
    as (res' & w' & L & Hrun & Ht & Hp & HL & Hkeep).
  exists res', w', A, T, L. split; [exact Hrun|].
  split; [rewrite Ht, Ht3, Ht1; now rewrite <- !app_assoc|].
  split; [congruence|]. split; [exact HA|]. split; [exact Hl3|]. split; [exact HL|].
  destruct res as [e|].
  - right. destruct Hres as (-> & Hlen & Hf).
    destruct Hkeep as [-> ->]; [discriminate|].
    unfold rollbackTimeout. rewrite Hids. auto.
  - left. exact Hres.
Qed.

(** X4.  Rollback always returns and leaves the provider as it found it.
    It makes at most five terminate calls, each naming exactly the flagged
    registry keys; with nothing flagged it makes no cloud call at all. *)
Theorem Rollback_terminate_budget env w :
  exists res w' evs,
    Rollback env w = Ok res w' /\ trace w' = trace w ++ evs /\ p w' = p w /\
    (length (filter isTerminate evs) <= 5)%nat /\
    Forall (terminatesOnly (rollbackIds (m (p w)))) evs /\
    (rollbackIds (m (p w)) = [] -> Forall (fun e => isLocal e = true) evs).
Proof.
  assert (Hmain : exists res w' evs,
            Rollback env w = Ok res w' /\ trace w' = trace w ++ evs /\ p w' = p w /\
            (length (filter isTerminate evs) <= 5)%nat /\
            (rollbackIds (m (p w)) = [] -> Forall (fun e => isLocal e = true) evs)).
  { rewrite Rollback_phases. unfold bind at 1, getP at 1. cbv beta iota.
    unfold bind at 1. rewrite local_run. cbv beta iota.
    set (ev := EvLocal "common.GetLogFile" _ _).
    destruct (Local env (trace w) "common.GetLogFile" (Metadata.Name (meta (p w)))) as [e|].
    { exists (Some e), (logged w ev), [ev]. splits; auto. simpl. lia. }
    destruct (rollbackIds (m (p w))) as [|id ids] eqn:Hids.
    - destruct (rollbackEnd_run env (Metadata.Name (meta (p w))) None (logged w ev))
        as (res & w' & L & Hrun & Ht & Hp & HL & _).
      exists res, w', (ev :: L).
      split; [exact Hrun|].
      split; [rewrite Ht; cbn; now rewrite <- app_assoc|]. split; [exact Hp|].
      split; [|intros _; constructor; auto].
      rewrite (filter_none isTerminate); [simpl; lia|].
      constructor; [reflexivity|now apply local_not_terminate].
    - destruct (rollbackBody_run env (logged w ev) (id :: ids))
        as (res & w' & A & T & L & Hrun & Ht & Hp & HA & HlT & HL & Hend);
        [discriminate|exact Hids|].
      cbn [p logged] in Hrun. exists res, w', (ev :: A ++ T ++ L).
      split; [exact Hrun|].
      split; [rewrite Ht; cbn; now rewrite <- app_assoc|]. split; [exact Hp|].
      split; [|discriminate].
      cbn [filter isTerminate ev]. rewrite !filter_app.
      rewrite (filter_none isTerminate A) by now apply elsewhere_not_terminate.
      rewrite (filter_none isTerminate L) by now apply local_not_terminate.
      rewrite app_nil_r.
      pose proof (filter_length_le isTerminate T). cbn [app]. lia. }
  destruct Hmain as (res & w' & evs & Hrun & Ht & Hp & Hlen & Hlocal).
  exists res, w', evs. splits; auto.
  destruct (Rollback_terminatesOnly env w) as (evs' & Ht' & Hf).
  rewrite Hrun in Ht'. cbn [worldOf] in Ht'. rewrite Ht in Ht'.
  apply app_inv_head in Ht'. now subst.
Qed.

(** X5.  When the log file opens, some node is flagged and the cloud
    refuses every terminate call, Rollback makes exactly five attempts and
    returns the error that names the region and the flagged instances; the
    cluster store folder is not removed and the log file is not closed. *)
Theorem Rollback_gives_up_after_five env w :
  Local env (trace w) "common.GetLogFile" (Metadata.Name (meta (p w))) = None ->
  rollbackIds (m (p w)) <> [] ->
  (forall h ids, TerminateInstances env h ids <> None) ->
  exists w' evs,
    Rollback env w = Ok (Some (rollbackTimeout (p w))) w' /\
    trace w' = trace w ++ evs /\
    length (filter isTerminate evs) = 5%nat /\
    filter isLocal evs =
      [EvLocal "common.GetLogFile" (Metadata.Name (meta (p w))) None].
Proof.
  intros Hlog Hne Hrefuse.
  rewrite Rollback_phases. unfold bind at 1, getP at 1. cbv beta iota.
  unfold bind at 1. rewrite local_run. cbv beta iota. rewrite Hlog.
  set (ev := EvLocal "common.GetLogFile" _ _).
  destruct (rollbackIds (m (p w))) as [|id ids] eqn:Hids; [now contradiction Hne|].
  destruct (rollbackBody_run env (logged w ev) (id :: ids))
    as (res & w' & A & T & L & Hrun & Ht & Hp & HA & HlT & HL & Hend);
    [discriminate|exact Hids|].
  cbn [p logged] in Hrun. rewrite Hrun.
  destruct Hend as [(pre & _ & _ & h & Hh)|(-> & Hlen & Hf & ->)].
  - now contradiction (Hrefuse h (id :: ids)).
  - exists w', (ev :: A ++ T). split; [reflexivity|].
    split; [rewrite Ht; cbn; rewrite app_nil_r; now rewrite <- app_assoc|].
    split.
    + cbn [filter isTerminate ev]. rewrite filter_app.
      rewrite (filter_none isTerminate A) by now apply elsewhere_not_terminate.
      rewrite (filter_all isTerminate T) by now apply (failedTerminate_isTerminate (id :: ids)).
      exact Hlen.
    + cbn [filter isLocal ev]. rewrite filter_app.
      rewrite (filter_none isLocal A) by now apply elsewhere_not_local.
      rewrite (filter_none isLocal T) by now apply (terminate_not_local (id :: ids)).
      reflexivity.
Qed.

(** A cloud that refuses to terminate anything, and a run that has
    launched one master. *)
Definition stubbornCloud : Env :=
  Scripted.env [ Scripted.OnTerminateInstances (fun _ _ => Some (SDKError "busy")) ].

Definition oneLaunched : World :=
  Scripted.world (withM (storeLaunched stubbornCloud true ["ins-1"%string])
                        (Scripted.provider "demo" "1")).

Lemma Rollback_gives_up_after_five_witness :
  exists w' evs,
    Rollback stubbornCloud oneLaunched = Ok (Some (rollbackTimeout (p oneLaunched))) w' /\
    trace w' = trace oneLaunched ++ evs /\
    length (filter isTerminate evs) = 5%nat /\
    filter isLocal evs = [EvLocal "common.GetLogFile" "demo" None].
Proof.
  apply (Rollback_gives_up_after_five stubbornCloud oneLaunched).
  - reflexivity.
  - vm_compute. discriminate.
  - intros h ids. vm_compute. discriminate.
Defined.

(** ** Delete: what is left in place *)

(** X6.  When discovery finds no instance of the cluster, delete stops
    there: it fails unless forced, and forced or not it makes no further
    call, so the local configuration and state of the cluster are kept. *)
Theorem deleteCluster_absent_cluster fuel env f w ids w1 :
  IsClusterExist fuel env w = Ok (false, ids, None) w1 ->
  deleteCluster fuel env f w =
    Ok (if f then None
        else Some (Errorf "[%s] calling preflight error: cluster name `%s` do not exist"
                     [VStr ProviderName; VStr (Metadata.Name (meta (p w)))])) w1 /\
  exists evs, trace w1 = trace w ++ evs /\ Forall readOnly evs.
Proof.
  intros Hfound. split.
  - rewrite deleteCluster_phases. unfold bind at 1, getP at 1. cbv beta iota.
    unfold bind at 1. rewrite Hfound. cbv beta iota. cbn [negb].
    destruct f; reflexivity.
  - pose proof (IsClusterExist_readOnly fuel env w) as H. rewrite Hfound in H. exact H.
Qed.

(** A cloud without instances. *)
Definition emptyRegion : Env :=
  Scripted.env
    [ Scripted.OnDescribeInstances
        (fun _ _ _ _ => inr {| InstanceSet := []; TotalCount := 0 |}) ].

Definition absentStart : World := Scripted.world (Scripted.provider "demo" "1").

Lemma absentStart_discovery :
  IsClusterExist 1 emptyRegion absentStart =
  Ok (false, [], None) (worldOf (IsClusterExist 1 emptyRegion absentStart)).
Proof. vm_compute. reflexivity. Qed.

Lemma deleteCluster_absent_cluster_witness :
  deleteCluster 1 emptyRegion true absentStart =
    Ok None (worldOf (IsClusterExist 1 emptyRegion absentStart)) /\
  exists evs,
    trace (worldOf (IsClusterExist 1 emptyRegion absentStart)) = trace absentStart ++ evs /\
    Forall readOnly evs.
Proof.
  exact (deleteCluster_absent_cluster 1 emptyRegion true absentStart [] _
           absentStart_discovery).
Defined.

Lemma disassociateTagged_elsewhere env : forall rows eipIds taskIds,
  Steps (grows elsewhere) (disassociateTagged env rows eipIds taskIds).
Proof.
  induction rows as [|row rest IH]; intros; simpl.
  - apply (Steps_ret _ (grows_refl elsewhere)).
  - destruct (isTaggedEIP env row && negb (String.eqb (ResourceId row) "")); [|apply IH].
    unfold disassociateAddress.
    steps_with (grows_refl elsewhere) (grows_trans elsewhere)
      ltac:(first [ apply emit_grows; split; reflexivity ]); apply IH.
Qed.

Lemma deleteAddresses_elsewhere env rows :
  Steps (grows elsewhere) (deleteAddresses env rows).
Proof.
  unfold deleteAddresses, releaseAddresses.
  steps_with (grows_refl elsewhere) (grows_trans elsewhere)
    ltac:(first [ apply disassociateTagged_elsewhere
                | apply waitTasks_elsewhere
                | apply describeVpcTaskResult_elsewhere
                | apply emit_grows; split; reflexivity ]).
Qed.

Lemma readOnly_not_local l :
  Forall readOnly l -> Forall (fun e => isLocal e = false) l.
Proof. apply Forall_impl. intros e. destruct e; simpl; auto; contradiction. Qed.

(** X7.  Force does not cover a failed terminate call.  Once the tag query
    has answered, a refusal of the terminate call ends delete with an error,
    forced or not; the error of the call comes back wrapped twice in the same
    message, and no local file of the cluster is touched. *)
Theorem deleteCluster_terminate_failure fuel env f w w1 w2 id ids rows :
  IsClusterExist fuel env w = Ok (true, id :: ids, None) w1 ->
  describeResourcesByTags env w1 = Ok (rows, None) w2 ->
  (forall h, TerminateInstances env h (id :: ids) <> None) ->
  exists e w' evs,
    deleteCluster fuel env f w =
      Ok (Some (Errorf "[%s] calling deleteInstance error, msg: %v"
                  [VStr ProviderName;
                   VErr (Some (Errorf "[%s] calling deleteInstance error, msg: %v"
                                 [VStr ProviderName; VErr (Some e)]))])) w' /\
    trace w' = trace w ++ evs /\
    In (EvTerminateInstances (id :: ids) (Some e)) evs /\
    Forall (fun ev => isLocal ev = false) evs.
Proof.
  intros Hfound Hrun Hrefuse.
  rewrite deleteCluster_phases. unfold bind at 1, getP at 1. cbv beta iota.
  unfold bind at 1. rewrite Hfound. cbv beta iota. cbn [negb].
  unfold bind at 1. rewrite Hrun. cbv beta iota. unfold bind at 1.
  destruct (deleteAddresses_returns env rows w2) as (w3 & evs & Hrun2 & Ht2 & _ & _).
  rewrite Hrun2. cbv beta iota.
  unfold deleteTail. unfold bind at 1. unfold terminateInstances, bind at 1.
  rewrite call_logged. cbv beta iota.
  destruct (TerminateInstances env (trace w3) (id :: ids)) as [e|] eqn:Hans;
    [|now contradiction (Hrefuse (trace w3))].
  unfold ret at 1. cbv beta iota. unfold ret at 1.
  destruct (IsClusterExist_readOnly fuel env w) as (A & HtA & HA).
  rewrite Hfound in HtA. cbn [worldOf] in HtA.
  destruct (describeResourcesByTags_run env w1) as (rows' & err & ev & Hrun' & _ & Hev).
  rewrite Hrun in Hrun'. injection Hrun' as <- <- ->.
  destruct (proj1 Hev eq_refl) as (rows' & ->).
  destruct (Steps_Ok _ _ _ _ _ (deleteAddresses_elsewhere env rows) Hrun2)
    as (evs' & Ht2' & Hf).
  rewrite Ht2 in Ht2'. apply app_inv_head in Ht2'. subst evs'.
  exists e. eexists.
  exists (A ++ [EvDescribeResourcesByTags
                  [ {| FilterName := "autok3s"; FilterValues := ["true"] |};
                    {| FilterName := "cluster";
                       FilterValues := [(TagClusterPrefix env ++
                                         Metadata.Name (meta (p w1)))%string] |} ]
                  (inr rows')] ++ evs ++ [EvTerminateInstances (id :: ids) (Some e)]).
  split; [reflexivity|]. split.
  - cbn [trace logged]. rewrite Ht2. cbn [trace logged]. rewrite HtA.
    now rewrite <- !app_assoc.
  - split.
    + apply in_or_app. right. apply in_or_app. right. apply in_or_app. right. now left.
    + rewrite !Forall_app. splits.
      * now apply readOnly_not_local.
      * repeat constructor.
      * now apply elsewhere_not_local.
      * repeat constructor.
Qed.

(** One tagged instance, no tagged address, and a cloud that refuses to
    terminate. *)
Definition protectedInstance : Env :=
  Scripted.env
    [ Scripted.OnDescribeInstances
        (fun _ _ _ _ => inr {| InstanceSet := [instanceNamed "ins-1"]; TotalCount := 1 |});
      Scripted.OnDescribeResourcesByTags (fun _ _ => inr []);
      Scripted.OnTerminateInstances (fun _ _ => Some (SDKError "protected")) ].

Definition protectedFound : World :=
  worldOf (IsClusterExist 1 protectedInstance absentStart).

Lemma protectedInstance_discovery :
  IsClusterExist 1 protectedInstance absentStart =
  Ok (true, ["ins-1"%string], None) protectedFound.
Proof. vm_compute. reflexivity. Qed.

Lemma protectedInstance_tagQuery :
  describeResourcesByTags protectedInstance protectedFound =
  Ok ([], None) (worldOf (describeResourcesByTags protectedInstance protectedFound)).
Proof. vm_compute. reflexivity. Qed.

Lemma deleteCluster_terminate_failure_witness :
  exists e w' evs,
    deleteCluster 1 protectedInstance true absentStart =
      Ok (Some (Errorf "[%s] calling deleteInstance error, msg: %v"
                  [VStr ProviderName;
                   VErr (Some (Errorf "[%s] calling deleteInstance error, msg: %v"
                                 [VStr ProviderName; VErr (Some e)]))])) w' /\
    trace w' = trace absentStart ++ evs /\
    In (EvTerminateInstances ["ins-1"%string] (Some e)) evs /\
    Forall (fun ev => isLocal ev = false) evs.
Proof.
  apply (deleteCluster_terminate_failure 1 protectedInstance true absentStart
           protectedFound _ "ins-1"%string [] []
           protectedInstance_discovery protectedInstance_tagQuery).
  intros h. vm_compute. discriminate.
Defined.

(** X8.  A delete that returns has done one of three things.  Unforced and
    declined at the prompt, it has done nothing.  Unable to open the log
    file, it has returned that error after that one call.  Otherwise,
    whatever became of the client construction and of the deletion proper,
    its last four calls close the log file and remove the log file and the
    two state files. *)
Theorem DeleteK3sCluster_deferred_cleanup fuel env f w res w' :
  DeleteK3sCluster fuel env f w = Ok res w' ->
  let name := Metadata.Name (meta (p w)) in
  (f = false /\ AskForConfirmation env (trace w) = false /\ res = None /\ w' = w) \/
  (exists e, res = Some e /\
             trace w' = trace w ++ [EvLocal "common.GetLogFile" name (Some e)]) \/
  (exists pre r1 r2 r3 r4,
      trace w' = trace w ++ EvLocal "common.GetLogFile" name None :: pre ++
                 [ EvLocal "logFile.Close" name r1;
                   EvLocal "os.Remove" name r2;
                   EvLocal "os.Remove" (name ++ "_Running") r3;
                   EvLocal "os.Remove" (name ++ "_Failed") r4 ]).
Proof.
  intros Hrun name. unfold DeleteK3sCluster in Hrun.
  unfold bind at 1, getP at 1 in Hrun. cbv beta iota zeta in Hrun.
  unfold bind at 1 in Hrun.
  assert (Hconfirm :
            (if negb f then h <- getTrace;; ret (AskForConfirmation env h) else ret true) w =
            Ok (if negb f then AskForConfirmation env (trace w) else true) w)
    by (destruct f; reflexivity).
  rewrite Hconfirm in Hrun. cbv beta iota in Hrun.
  destruct (if negb f then AskForConfirmation env (trace w) else true) eqn:Hyes.
  2:{ left. destruct f; [discriminate Hyes|]. cbn [negb] in Hyes.
      injection Hrun as <- <-. auto. }
  right. unfold bind at 1 in Hrun. rewrite local_run in Hrun. cbv beta iota in Hrun.
  fold name in Hrun.
  destruct (Local env (trace w) "common.GetLogFile" name) as [e|].
  { left. injection Hrun as <- <-. exists e. auto. }
  right. unfold bind at 1 in Hrun.
  set (w1 := logged w (EvLocal "common.GetLogFile" name None)) in *.
  assert (Hinner : exists pre,
            trace (worldOf ((err <- generateClientSDK env;;
                             match err with
                             | Some e => ret (Some e)
                             | None => deleteCluster fuel env f
                             end) w1)) = trace w1 ++ pre).
  { unfold bind at 1.
    destruct (generateClientSDK_readOnly env w1) as (A & HtA & _).
    destruct (generateClientSDK env w1) as [[e|] w2|why w2]; cbn [worldOf] in *;
      try (exists A; exact HtA).
    destruct (deleteCluster_release_order fuel env f w2) as (B & HtB & _).
    exists (A ++ B). rewrite HtB, HtA. now rewrite <- app_assoc. }
  destruct Hinner as (pre & Hpre).
  destruct ((err <- generateClientSDK env;;
             match err with
             | Some e => ret (Some e)
             | None => deleteCluster fuel env f
             end) w1) as [res1 w2|why w2]; [|discriminate Hrun].
  cbn [worldOf] in Hpre. unfold bind in Hrun. rewrite !local_run in Hrun.
  cbv beta iota in Hrun. unfold ret in Hrun. injection Hrun as <- <-.
  exists pre. eexists _, _, _, _. cbn [trace logged]. rewrite Hpre.
  unfold w1. cbn [trace logged]. rewrite <- !app_assoc. reflexivity.
Qed.

Lemma DeleteK3sCluster_deferred_cleanup_witness :
  let w' := worldOf (DeleteK3sCluster 1 protectedInstance true absentStart) in
  (true = false /\ AskForConfirmation protectedInstance (trace absentStart) = false /\
   Some (Errorf "[%s] calling deleteInstance error, msg: %v"
           [VStr ProviderName;
            VErr (Some (Errorf "[%s] calling deleteInstance error, msg: %v"
                          [VStr ProviderName; VErr (Some (SDKError "protected"))]))]) = None /\
   w' = absentStart) \/
  (exists e,
      Some (Errorf "[%s] calling deleteInstance error, msg: %v"
              [VStr ProviderName;
               VErr (Some (Errorf "[%s] calling deleteInstance error, msg: %v"
                             [VStr ProviderName; VErr (Some (SDKError "protected"))]))]) =
      Some e /\
      trace w' = trace absentStart ++ [EvLocal "common.GetLogFile" "demo" (Some e)]) \/
  (exists pre r1 r2 r3 r4,
      trace w' = trace absentStart ++ EvLocal "common.GetLogFile" "demo" None :: pre ++
                 [ EvLocal "logFile.Close" "demo" r1;
                   EvLocal "os.Remove" "demo" r2;
                   EvLocal "os.Remove" "demo_Running" r3;
                   EvLocal "os.Remove" "demo_Failed" r4 ]).
Proof.
  intros w'.
  apply (DeleteK3sCluster_deferred_cleanup 1 protectedInstance true absentStart _ w').
  vm_compute. reflexivity.
Defined.

(** ** What is created is found again *)



(** No tag the user adds reads master = true to [strings.EqualFold]. *)
Definition noRoleTag (env : Env) (pp : Tencent) : Prop :=
  forall kv, In kv (Metadata.Tags (meta pp)) ->
    Go.EqualFold (unicode env) (fst kv) "master" &&
    Go.EqualFold (unicode env) (snd kv) "true" = false.





(** Without that proviso the role is lost: a worker launched with the user
    tag Master = TRUE is a master to discovery. *)
Example user_tag_overrides_role :
  let pp := Scripted.provider "demo" "1" in
  let tagged :=
    {| meta := {| Metadata.Name := "demo"; Metadata.Master := "1";
                  Metadata.Worker := "1"; Metadata.UI := false;
                  Metadata.Cluster := false; Metadata.DataStore := "";
                  Metadata.Network := ""; Metadata.MasterExtraArgs := "";
                  Metadata.CloudControllerManager := false;
                  Metadata.Tags := [("Master", "TRUE")]%string |};
       opts := opts pp; status := status pp;
       c := false; v := false; t := false; r := false; m := [] |} in
  isMasterTagged twoPages (ReqTags (runInstancesRequest twoPages tagged 1 false "")) = true.
Proof. vm_compute. reflexivity. Qed.

(** Nor does the spelling have to be ASCII.  With tables that fold the long
    s onto s, a worker launched with the user tag below is a master to
    discovery as well. *)
Definition longSMaster : string :=
  "ma" ++ String (ascii_of_nat 197) (String (ascii_of_nat 191) "ter").

Definition longSTables : Go.Tables :=
  {| Go.upperRunes := fun s => s;
     Go.equalFoldRunes :=
       fun s t => String.eqb s (String (ascii_of_nat 197) (String (ascii_of_nat 191) "ter"))
                  && String.eqb t "ster" |}.

Example long_s_tag_overrides_role :
  let env := Scripted.env [ Scripted.OnUnicode longSTables ] in
  let pp := Scripted.provider "demo" "1" in
  let tagged :=
    {| meta := {| Metadata.Name := "demo"; Metadata.Master := "1";
                  Metadata.Worker := "1"; Metadata.UI := false;
                  Metadata.Cluster := false; Metadata.DataStore := "";
                  Metadata.Network := ""; Metadata.MasterExtraArgs := "";
                  Metadata.CloudControllerManager := false;
                  Metadata.Tags := [(longSMaster, "true")]%string |};
       opts := opts pp; status := status pp;
       c := false; v := false; t := false; r := false; m := [] |} in
  isMasterTagged env (ReqTags (runInstancesRequest env tagged 1 false "")) = true /\
  ~ noRoleTag env tagged.
Proof.
  intros env pp tagged. split; [vm_compute; reflexivity|].
  intros H. specialize (H (longSMaster, "true"%string) (or_introl eq_refl)).
  vm_compute in H. discriminate H.
Qed.

(** ** Assembling the status: what becomes of the registry *)

(** Every node of [w] is still in the registry of [w'], under its key, with
    its role, its rollback flag and its identifier; a node that was marked
    current still is. *)
Definition advances (w w' : World) : Prop :=
  forall k n, Load k (m (p w)) = Some n ->
    exists n', Load k (m (p w')) = Some n' /\
               Master n' = Master n /\ RollBack n' = RollBack n /\
               InstanceID n' = InstanceID n /\
               (Current n = true -> Current n' = true).

Lemma advances_refl w : advances w w.
Proof. intros k n H. exists n. auto. Qed.

Lemma advances_trans w1 w2 w3 : advances w1 w2 -> advances w2 w3 -> advances w1 w3.
Proof.
  intros H12 H23 k n H.
  destruct (H12 k n H) as (n2 & H2 & Hm & Hr & Hi & Hc).
  destruct (H23 k n2 H2) as (n3 & H3 & Hm' & Hr' & Hi' & Hc').
  exists n3. repeat split; try congruence. auto.
Qed.

Lemma calm_advances w w' : calm w w' -> advances w w'.
Proof. intros [Hm _] k n H. rewrite Hm. exists n. auto. Qed.

Lemma advances_touch w k n n' :
  Load k (m (p w)) = Some n ->
  Master n' = Master n -> RollBack n' = RollBack n -> InstanceID n' = InstanceID n ->
  Current n' = true ->
  advances w (stored k n' w).
Proof.
  intros Hload Hm Hr Hi Hc k' n0 H. simpl.
  destruct (String.eqb_spec k k') as [<-|Hne].
  - rewrite Load_Store_same. exists n'. rewrite Hload in H. injection H as <-. auto.
  - rewrite Load_Store_other by congruence. exists n0. auto.
Qed.

Lemma advances_new w k n' :
  Load k (m (p w)) = None -> advances w (stored k n' w).
Proof.
  intros Hnone k' n0 H. simpl.
  destruct (String.eqb_spec k k') as [<-|Hne]; [congruence|].
  rewrite Load_Store_other by congruence. exists n0. auto.
Qed.

Lemma advances_logged w e : advances w (logged w e).
Proof. intros k n H. exists n. auto. Qed.

(** One instance of the loop of [assembleInstanceStatus], the addresses of
    the instance being known. *)
Definition assembleOne (env : Env) (ssh : SSH) (upload : bool) (publicKey : string)
  (status : Instance) (eip : list string) (rest : M (option error)) : M (option error) :=
  pp <- getP ;;
  match Load (InstanceId status) (m pp) with
  | Some n =>
      let n' := touched status eip ssh n in
      if upload then
        err <- uploadKeyPair env n' publicKey ;;
        match err with
        | Some e => ret (Some e)
        | None =>
            setP (withM (Store (InstanceId status)
                           (withSSH (clearPassword ssh) n'))) ;;;
            rest
        end
      else
        setP (withM (Store (InstanceId status) n')) ;;;
        rest
  | None =>
      setP (withM (Store (InstanceId status)
                     (discoveredNode env status eip))) ;;;
      rest
  end.

Lemma assembleEach_step env ssh upload publicKey status rest w :
  assembleEach env ssh upload publicKey (status :: rest) w =
  (if Options.PublicIPAssignedEIP (opts (p w)) then
     match describeAddresses env [] [InstanceId status] w with
     | Ok (_, Some e) w1 => Ok (Some e) w1
     | Ok (eipInfos, None) w1 =>
         assembleOne env ssh upload publicKey status (addressIdsOf eipInfos)
           (assembleEach env ssh upload publicKey rest) w1
     | Stuck why w1 => Stuck why w1
     end
   else assembleOne env ssh upload publicKey status []
          (assembleEach env ssh upload publicKey rest) w).
Proof.
  cbn [assembleEach]. unfold bind at 1, getP at 1. cbv beta iota.
  destruct (Options.PublicIPAssignedEIP (opts (p w))).
  - unfold bind at 1. unfold bind at 1.
    destruct (describeAddresses env [] [InstanceId status] w) as [[eipInfos [e|]] w1|why w1];
      reflexivity.
  - reflexivity.
Qed.

Lemma assembleOne_head env ssh upload publicKey status eip rest w :
  exists w1,
    advances w w1 /\ opts (p w1) = opts (p w) /\
    ((assembleOne env ssh upload publicKey status eip rest w = rest w1 /\
      exists n', Load (InstanceId status) (m (p w1)) = Some n' /\
                 (Load (InstanceId status) (m (p w)) <> None -> Current n' = true)) \/
     exists e, assembleOne env ssh upload publicKey status eip rest w = Ok (Some e) w1).
Proof.
  destruct (Load (InstanceId status) (m (p w))) as [n|] eqn:Hload.
  - destruct upload.
    + pose (ev := EvUploadKeyPair (touched status eip ssh n) publicKey
                    (SSHUploadKey env (trace w) (touched status eip ssh n) publicKey)).
      assert (Hrun : assembleOne env ssh true publicKey status eip rest w =
                     match SSHUploadKey env (trace w) (touched status eip ssh n) publicKey with
                     | Some e => Ok (Some e) (logged w ev)
                     | None =>
                         rest (stored (InstanceId status)
                                 (withSSH (clearPassword ssh) (touched status eip ssh n))
                                 (logged w ev))
                     end).
      { unfold assembleOne, bind at 1, getP at 1. cbv beta iota. rewrite Hload.
        cbv zeta. unfold bind at 1, uploadKeyPair. rewrite call_logged. cbv beta iota.
        unfold ev.
        destruct (SSHUploadKey env (trace w) (touched status eip ssh n) publicKey);
          reflexivity. }
      rewrite Hrun. clearbody ev.
      destruct (SSHUploadKey env (trace w) (touched status eip ssh n) publicKey) as [e|].
      * exists (logged w ev). split; [apply advances_logged|]. split; [reflexivity|].
        right. exists e. reflexivity.
      * exists (stored (InstanceId status)
                  (withSSH (clearPassword ssh) (touched status eip ssh n)) (logged w ev)).
        split; [apply (advances_trans _ (logged w ev)); [apply advances_logged|];
                now apply (advances_touch (logged w ev) _ n)|].
        split; [reflexivity|]. left. split; [reflexivity|].
        eexists. split; [apply Load_Store_same|reflexivity].
    + assert (Hrun : assembleOne env ssh false publicKey status eip rest w =
                     rest (stored (InstanceId status) (touched status eip ssh n) w)).
      { unfold assembleOne, bind at 1, getP at 1. cbv beta iota. now rewrite Hload. }
      rewrite Hrun.
      exists (stored (InstanceId status) (touched status eip ssh n) w).
      split; [now apply (advances_touch w _ n)|].
      split; [reflexivity|]. left. split; [reflexivity|].
      eexists. split; [apply Load_Store_same|reflexivity].
  - assert (Hrun : assembleOne env ssh upload publicKey status eip rest w =
                   rest (stored (InstanceId status) (discoveredNode env status eip) w)).
    { unfold assembleOne, bind at 1, getP at 1. cbv beta iota. now rewrite Hload. }
    rewrite Hrun.
    exists (stored (InstanceId status) (discoveredNode env status eip) w).
    split; [now apply advances_new|]. split; [reflexivity|]. left. split; [reflexivity|].
    eexists. split; [apply Load_Store_same|]. intros H. now contradiction H.
Qed.

Lemma assembleEach_head env ssh upload publicKey status rest w :
  exists w1,
    advances w w1 /\ opts (p w1) = opts (p w) /\
    ((assembleEach env ssh upload publicKey (status :: rest) w =
      assembleEach env ssh upload publicKey rest w1 /\
      exists n', Load (InstanceId status) (m (p w1)) = Some n' /\
                 (Load (InstanceId status) (m (p w)) <> None -> Current n' = true)) \/
     exists e, assembleEach env ssh upload publicKey (status :: rest) w = Ok (Some e) w1).
Proof.
  rewrite assembleEach_step.
  destruct (Options.PublicIPAssignedEIP (opts (p w))).
  - pose proof (describeAddresses_calm env [] [InstanceId status] w) as Hcalm.
    destruct (describeAddresses_returns env [] [InstanceId status] w)
      as ([eipInfos err] & w0 & Hrun & Hp).
    rewrite Hrun in *. cbn [worldOf] in Hcalm.
    destruct err as [e|].
    + exists w0. split; [now apply calm_advances|]. split; [congruence|]. right. eauto.
    + destruct (assembleOne_head env ssh upload publicKey status (addressIdsOf eipInfos)
                  (assembleEach env ssh upload publicKey rest) w0)
        as (w1 & Hadv & Hopts & Hcase).
      exists w1. split; [eapply advances_trans; [apply calm_advances|]; eauto|].
      split; [congruence|]. rewrite Hp in Hcase. exact Hcase.
  - apply assembleOne_head.
Qed.

Lemma assembleEach_advances env ssh upload publicKey : forall instanceList,
  Steps advances (assembleEach env ssh upload publicKey instanceList).
Proof.
  induction instanceList as [|status rest IH]; intros w; [apply advances_refl|].
  destruct (assembleEach_head env ssh upload publicKey status rest w)
    as (w1 & Hadv & _ & [[-> _]|(e & ->)]).
  - eapply advances_trans; [exact Hadv|apply IH].
  - exact Hadv.
Qed.

Lemma assembleEach_covers env ssh upload publicKey : forall instanceList w w',
  assembleEach env ssh upload publicKey instanceList w = Ok None w' ->
  forall i, In i instanceList ->
    exists n', Load (InstanceId i) (m (p w')) = Some n' /\
               (Load (InstanceId i) (m (p w)) <> None -> Current n' = true).
Proof.
  induction instanceList as [|status rest IH]; intros w w' Hrun i Hin; [destruct Hin|].
  destruct (assembleEach_head env ssh upload publicKey status rest w)
    as (w1 & Hadv & _ & [[Heq (n1 & Hload1 & Hcur1)]|(e & Heq)]);
    rewrite Heq in Hrun; [|discriminate Hrun].
  pose proof (assembleEach_advances env ssh upload publicKey rest w1) as Hrest.
  rewrite Hrun in Hrest. cbn [worldOf] in Hrest.
  destruct Hin as [<-|Hin].
  - destruct (Hrest _ _ Hload1) as (n' & Hload' & _ & _ & _ & Hcur).
    exists n'. split; [exact Hload'|]. auto.
  - destruct (IH w1 w' Hrun i Hin) as (n' & Hload' & Hcur).
    exists n'. split; [exact Hload'|]. intros Hknown. apply Hcur.
    destruct (Load (InstanceId i) (m (p w))) as [n|] eqn:Hload; [|now contradiction Hknown].
    destruct (Hadv _ _ Hload) as (n1' & -> & _). discriminate.
Qed.

(** X10.  Assembling the status never drops a registry node and never
    changes the role, the rollback flag or the identifier of one; a node
    marked current stays so.  This holds whether the assembly succeeds,
    fails on the way or is cut short. *)
Theorem assembleInstanceStatus_keeps_nodes fuel env ssh upload publicKey w :
  advances w (worldOf (assembleInstanceStatus fuel env ssh upload publicKey w)).
Proof.
  revert w.
  change (Steps advances (assembleInstanceStatus fuel env ssh upload publicKey)).
  unfold assembleInstanceStatus.
  apply (Steps_bind _ advances_trans); [apply (Steps_getP _ advances_refl)|intros pp].
  apply (Steps_bind _ advances_trans).
  { intros w. apply calm_advances. apply describeInstances_calm. }
  intros [err|instanceList]; [apply (Steps_ret _ advances_refl)|].
  apply (Steps_bind _ advances_trans); [apply assembleEach_advances|].
  intros [e|]; [apply (Steps_ret _ advances_refl)|].
  apply (Steps_bind _ advances_trans).
  { intros w. apply calm_advances. apply syncNodeStatusWithInstance_calm. }
  intros _. apply (Steps_bind _ advances_trans); [apply (Steps_getP _ advances_refl)|].
  intros pp'. apply (Steps_ret _ advances_refl).
Qed.

(** X11.  When the assembly succeeds, every instance discovery listed is
    in the registry under its identifier, and the ones the registry knew
    before are marked current; the cluster returned is the provider's
    metadata, options and status lists as they stand at the end. *)
Theorem assembleInstanceStatus_covers_described
  fuel env ssh upload publicKey w instanceList w1 cluster w' :
  describeInstances fuel env w = Ok (inr instanceList) w1 ->
  assembleInstanceStatus fuel env ssh upload publicKey w = Ok (inr cluster) w' ->
  cluster = {| ClusterMetadata := meta (p w'); ClusterOptions := opts (p w');
               ClusterStatus := status (p w') |} /\
  forall i, In i instanceList ->
    exists n', Load (InstanceId i) (m (p w')) = Some n' /\
               (Load (InstanceId i) (m (p w)) <> None -> Current n' = true).
Proof.
  intros Hlist Hrun. unfold assembleInstanceStatus in Hrun.
  unfold bind at 1, getP at 1 in Hrun. cbv beta iota in Hrun.
  unfold bind at 1 in Hrun. rewrite Hlist in Hrun. cbv beta iota in Hrun.
  unfold bind at 1 in Hrun.
  destruct (assembleEach env ssh upload publicKey instanceList w1)
    as [[e|] w2|why w2] eqn:Heach; try discriminate Hrun.
  unfold bind, syncNodeStatusWithInstance, getP, setP, ret in Hrun.
  cbv beta iota in Hrun. injection Hrun as <- <-. split; [reflexivity|].
  intros i Hin.
  destruct (assembleEach_covers env ssh upload publicKey instanceList w1 w2 Heach i Hin)
    as (n' & Hload & Hcur).
  assert (Hm : m (p w1) = m (p w)).
  { pose proof (describeInstances_calm fuel env w) as [H _]. now rewrite Hlist in H. }
  exists n'. cbn [p m withStatus]. split; [exact Hload|]. now rewrite <- Hm.
Qed.

(** A run that launched ins-1 as a master, and a discovery that lists it. *)
Definition assembledStart : World :=
  Scripted.world (withM (storeLaunched protectedInstance true ["ins-1"%string])
                        (Scripted.provider "demo" "1")).

Definition assembledEnd : World :=
  worldOf (assembleInstanceStatus 1 protectedInstance emptySSH false "" assembledStart).

Lemma assembledStart_list :
  describeInstances 1 protectedInstance assembledStart =
  Ok (inr [instanceNamed "ins-1"])
     (worldOf (describeInstances 1 protectedInstance assembledStart)).
Proof. vm_compute. reflexivity. Qed.

Lemma assembledStart_run :
  assembleInstanceStatus 1 protectedInstance emptySSH false "" assembledStart =
  Ok (inr {| ClusterMetadata := meta (p assembledEnd);
             ClusterOptions := opts (p assembledEnd);
             ClusterStatus := status (p assembledEnd) |}) assembledEnd.
Proof. vm_compute. reflexivity. Qed.

Lemma assembleInstanceStatus_covers_described_witness :
  {| ClusterMetadata := meta (p assembledEnd); ClusterOptions := opts (p assembledEnd);
     ClusterStatus := status (p assembledEnd) |} =
  {| ClusterMetadata := meta (p assembledEnd); ClusterOptions := opts (p assembledEnd);
     ClusterStatus := status (p assembledEnd) |} /\
  forall i, In i [instanceNamed "ins-1"] ->
    exists n', Load (InstanceId i) (m (p assembledEnd)) = Some n' /\
               (Load (InstanceId i) (m (p assembledStart)) <> None -> Current n' = true).
Proof.
  exact (assembleInstanceStatus_covers_described 1 protectedInstance emptySSH false ""
           assembledStart [instanceNamed "ins-1"] _ _ assembledEnd
           assembledStart_list assembledStart_run).
Defined.

(** ** Syncing the cluster: what becomes of the registry *)

(** The registry after the loop of [syncClusterInstance], no address being
    looked up. *)
Definition syncedRegistry (env : Env) (ssh : SSH) (instanceList : list Instance)
  (reg : list (string * Node)) : list (string * Node) :=
  fold_left (fun acc i => Store (InstanceId i) (syncedNode env i [] ssh) acc) instanceList reg.

Lemma syncEach_plain env ssh : forall instanceList w,
  Options.PublicIPAssignedEIP (opts (p w)) = false ->
  exists w',
    syncEach env ssh instanceList w = Ok tt w' /\
    trace w' = trace w /\ opts (p w') = opts (p w) /\ meta (p w') = meta (p w) /\
    status (p w') = status (p w) /\
    m (p w') = syncedRegistry env ssh instanceList (m (p w)).
Proof.
  induction instanceList as [|i rest IH]; intros w Hplain.
  - exists w. repeat split; reflexivity.
  - cbn [syncEach]. unfold bind at 1, getP at 1. cbv beta iota. rewrite Hplain.
    unfold bind at 1, ret at 1. cbv beta iota. unfold bind at 1, setP at 1. cbv beta iota.
    match goal with
    | |- context [syncEach env ssh rest ?w1] =>
        destruct (IH w1 Hplain) as (w' & Hrun & Ht & Ho & Hm & Hs & Hreg)
    end.
    exists w'. split; [exact Hrun|]. repeat split; auto.
Qed.

Lemma syncedRegistry_cons env ssh i rest reg :
  syncedRegistry env ssh (i :: rest) reg =
  syncedRegistry env ssh rest (Store (InstanceId i) (syncedNode env i [] ssh) reg).
Proof. reflexivity. Qed.

Lemma syncedRegistry_other env ssh k : forall instanceList reg,
  ~ In k (map InstanceId instanceList) ->
  Load k (syncedRegistry env ssh instanceList reg) = Load k reg.
Proof.
  induction instanceList as [|i rest IH]; intros reg Hnot; [reflexivity|].
  rewrite syncedRegistry_cons.
  rewrite IH by (intros H; apply Hnot; now right).
  apply Load_Store_other. intros ->. apply Hnot. now left.
Qed.

Lemma syncedRegistry_listed env ssh : forall instanceList reg i,
  In i instanceList ->
  exists j, In j instanceList /\ InstanceId j = InstanceId i /\
            Load (InstanceId i) (syncedRegistry env ssh instanceList reg) =
              Some (syncedNode env j [] ssh).
Proof.
  induction instanceList as [|i0 rest IH]; intros reg i Hin; [destruct Hin|].
  rewrite syncedRegistry_cons.
  destruct (in_dec string_dec (InstanceId i) (map InstanceId rest)) as [Hlater|Hnot].
  - apply in_map_iff in Hlater as (i' & Hid & Hin').
    destruct (IH (Store (InstanceId i0) (syncedNode env i0 [] ssh) reg) i' Hin')
      as (j & Hj & Hjid & Hload).
    exists j. split; [now right|]. split; [congruence|]. now rewrite <- Hid.
  - destruct Hin as [->|Hin]; [|contradiction Hnot; now apply in_map].
    exists i. split; [now left|]. split; [reflexivity|].
    rewrite syncedRegistry_other by exact Hnot. apply Load_Store_same.
Qed.

Lemma describeInstances_same_provider fuel env w res w1 :
  describeInstances fuel env w = Ok res w1 -> p w1 = p w /\ m (p w1) = m (p w).
Proof.
  intros Hrun. unfold describeInstances, bind, getP in Hrun.
  apply describeInstancesFrom_pages in Hrun as (evs & _ & Hp & _). now rewrite Hp.
Qed.

(** X12.  Syncing the cluster replaces, it does not merge.  With no
    floating addresses in play, every listed instance ends up in the registry
    as a node made from the listing alone: role from its tags, status from
    the cloud, not current and not eligible for rollback, whatever the
    registry held for it before.  Nodes of instances not listed are left as
    they were, and the list itself is returned. *)
Theorem syncClusterInstance_replaces_listed fuel env ssh w instanceList w1 res w' :
  Options.PublicIPAssignedEIP (opts (p w)) = false ->
  describeInstances fuel env w = Ok (inr instanceList) w1 ->
  syncClusterInstance fuel env ssh w = Ok res w' ->
  res = inr instanceList /\
  (forall i, In i instanceList ->
     exists j, In j instanceList /\ InstanceId j = InstanceId i /\
               Load (InstanceId i) (m (p w')) = Some (syncedNode env j [] ssh)) /\
  (forall k, ~ In k (map InstanceId instanceList) ->
     Load k (m (p w')) = Load k (m (p w))).
Proof.
  intros Hplain Hlist Hrun. unfold syncClusterInstance in Hrun.
  unfold bind at 1, getP at 1 in Hrun. cbv beta iota in Hrun.
  unfold bind at 1 in Hrun. rewrite Hlist in Hrun. cbv beta iota in Hrun.
  unfold bind at 1 in Hrun.
  destruct (describeInstances_same_provider fuel env w _ _ Hlist) as [Hp1 Hm1].
  destruct (syncEach_plain env ssh instanceList w1) as (w2 & Hrun2 & _ & _ & _ & _ & Hreg);
    [now rewrite Hp1|].
  rewrite Hrun2 in Hrun. cbv beta iota in Hrun.
  unfold bind, syncNodeStatusWithInstance, getP, setP, ret in Hrun.
  cbv beta iota in Hrun. injection Hrun as <- <-. split; [reflexivity|].
  cbn [p m withStatus]. rewrite Hreg, Hp1. split.
  - intros i Hin. now apply syncedRegistry_listed.
  - intros k Hnot. now apply syncedRegistry_other.
Qed.

Definition syncedEnd : World :=
  worldOf (syncClusterInstance 1 protectedInstance emptySSH assembledStart).

Lemma assembledStart_sync :
  syncClusterInstance 1 protectedInstance emptySSH assembledStart =
  Ok (inr [instanceNamed "ins-1"]) syncedEnd.
Proof. vm_compute. reflexivity. Qed.

Lemma syncClusterInstance_replaces_listed_witness :
  @inr error _ [instanceNamed "ins-1"] = inr [instanceNamed "ins-1"] /\
  (forall i, In i [instanceNamed "ins-1"] ->
     exists j, In j [instanceNamed "ins-1"] /\ InstanceId j = InstanceId i /\
               Load (InstanceId i) (m (p syncedEnd)) =
                 Some (syncedNode protectedInstance j [] emptySSH)) /\
  (forall k, ~ In k (map InstanceId [instanceNamed "ins-1"]) ->
     Load k (m (p syncedEnd)) = Load k (m (p assembledStart))).
Proof.
  exact (syncClusterInstance_replaces_listed 1 protectedInstance emptySSH
           assembledStart [instanceNamed "ins-1"] _ _ syncedEnd
           eq_refl assembledStart_list assembledStart_sync).
Defined.

(** The master launched by this run is flagged for rollback before the
    sync and a worker without flag after it. *)
Example sync_forgets_the_launch :
  option_map (fun n => (Master n, RollBack n)) (Load "ins-1" (m (p assembledStart))) =
    Some (true, true) /\
  option_map (fun n => (Master n, RollBack n)) (Load "ins-1" (m (p syncedEnd))) =
    Some (false, false).
Proof. split; vm_compute; reflexivity. Qed.

(** ** The status lists *)

Lemma map_setNth {A B} (f : A -> B) : forall (l : list A) i x y,
  nth_error l i = Some y -> f x = f y -> map f (setNth i x l) = map f l.
Proof.
  induction l as [|hd tl IH]; intros i x y Hnth Hf; [now destruct i|].
  destruct i; simpl in *.
  - injection Hnth as ->. now rewrite Hf.
  - f_equal. eapply IH; eauto.
Qed.

(** The identifiers of [nodes'] are those of [nodes] followed by at most
    one more, the identifier of [n]. *)
Definition extendedBy (n : Node) (nodes nodes' : list Node) : Prop :=
  map InstanceID nodes' = map InstanceID nodes \/
  map InstanceID nodes' = map InstanceID nodes ++ [InstanceID n].

Lemma syncNode_lists env ssh n st :
  let st' := syncNode env ssh n st in
  if Master n
  then extendedBy n (Status.MasterNodes st) (Status.MasterNodes st') /\
       Status.WorkerNodes st' = Status.WorkerNodes st
  else extendedBy n (Status.WorkerNodes st) (Status.WorkerNodes st') /\
       Status.MasterNodes st' = Status.MasterNodes st.
Proof.
  assert (Hext : forall nodes,
            extendedBy n nodes
              (let '(index, b) := IsExistedNodes env nodes (InstanceID n) in
               if negb b then nodes ++ [n]
               else match nth_error nodes index with
                    | None => nodes
                    | Some node =>
                        let node := match ssh with
                                    | Some s => if needsSSH (NodeSSH node)
                                                then withSSH s node else node
                                    | None => node
                                    end in
                        setNth index (withInstanceStatus (InstanceStatus n) node) nodes
                    end)).
  { intros nodes. destruct (IsExistedNodes env nodes (InstanceID n)) as [index b].
    destruct b; cbn [negb].
    - left. destruct (nth_error nodes index) as [node|] eqn:Hnth; [|reflexivity].
      cbv zeta. apply (map_setNth InstanceID nodes index _ node Hnth).
      destruct ssh as [s|]; [destruct (needsSSH (NodeSSH node))|]; reflexivity.
    - right. now rewrite map_app. }
  unfold syncNode. cbv zeta.
  destruct (Master n).
  - specialize (Hext (Status.MasterNodes st)).
    destruct (IsExistedNodes env (Status.MasterNodes st) (InstanceID n)) as [index b].
    split; [exact Hext|reflexivity].
  - specialize (Hext (Status.WorkerNodes st)).
    destruct (IsExistedNodes env (Status.WorkerNodes st) (InstanceID n)) as [index b].
    split; [exact Hext|reflexivity].
Qed.

(** The status lists of [st'] begin with the nodes of [st], identifier by
    identifier, and go on with registry nodes of the matching role. *)
Definition grownFrom (entries : list (string * Node)) (st st' : Status.t) : Prop :=
  exists masters workers,
    map InstanceID (Status.MasterNodes st') =
      map InstanceID (Status.MasterNodes st) ++ masters /\
    map InstanceID (Status.WorkerNodes st') =
      map InstanceID (Status.WorkerNodes st) ++ workers /\
    Forall (fun id => exists kv, In kv entries /\ InstanceID (snd kv) = id /\
                                 Master (snd kv) = true) masters /\
    Forall (fun id => exists kv, In kv entries /\ InstanceID (snd kv) = id /\
                                 Master (snd kv) = false) workers.

Lemma syncNodes_grown env ssh reg : forall entries st,
  incl entries reg ->
  grownFrom reg st (fold_left (fun acc kv => syncNode env ssh (snd kv) acc) entries st).
Proof.
  induction entries as [|kv rest IH]; intros st Hincl.
  - exists [], []. rewrite !app_nil_r. repeat split; auto.
  - cbn [fold_left].
    destruct (IH (syncNode env ssh (snd kv) st)) as (ms & ws & Hm & Hw & Hfm & Hfw);
      [intros x Hx; apply Hincl; now right|].
    pose proof (syncNode_lists env ssh (snd kv) st) as Hstep. cbv zeta in Hstep.
    assert (Hkv : In kv reg) by (apply Hincl; now left).
    destruct (Master (snd kv)) eqn:Hrole; destruct Hstep as [[Hsame|Hmore] Hother].
    + exists ms, ws. rewrite Hm, Hw, Hsame, Hother. auto.
    + exists (InstanceID (snd kv) :: ms), ws. rewrite Hm, Hw, Hmore, Hother.
      rewrite <- app_assoc. repeat split; auto. constructor; [|exact Hfm].
      exists kv. auto.
    + exists ms, ws. rewrite Hm, Hw, Hsame, Hother. auto.
    + exists ms, (InstanceID (snd kv) :: ws). rewrite Hm, Hw, Hmore, Hother.
      rewrite <- app_assoc. repeat split; auto. constructor; [|exact Hfw].
      exists kv. auto.
Qed.

(** X13.  Syncing the status lists with the registry makes no call and
    touches nothing but the two lists.  Neither list loses a node or changes
    the identifier at any position: each is extended at its end only, with
    identifiers of registry nodes of that role.  A node the registry no
    longer holds therefore stays in its list. *)
Theorem syncNodeStatusWithInstance_extends_lists env ssh w :
  exists w',
    syncNodeStatusWithInstance env ssh w = Ok tt w' /\
    trace w' = trace w /\ m (p w') = m (p w) /\
    meta (p w') = meta (p w) /\ opts (p w') = opts (p w) /\
    grownFrom (m (p w)) (status (p w)) (status (p w')).
Proof.
  eexists. split; [reflexivity|]. cbn [trace p m meta opts status withStatus].
  repeat split. apply syncNodes_grown. apply incl_refl.
Qed.

(** ** The task waiter as a whole *)

(** An answer that leaves the task open: an SDK error, or Running. *)
Definition inconclusive (env : Env) (taskID : Z) (e : Event) : Prop :=
  exists r, e = EvDescribeTaskResult taskID r /\
            match r with
            | inl _ => True
            | inr s => Go.ToUpper (unicode env) s = Running env
            end.

Definition taskTimeout (pp : Tencent) (taskID : Z) : error :=
  Errorf "[%s] calling describeVpcTaskResult error. region: %s, zone: %s, taskId: %d"
    [VStr ProviderName; VStr (Options.Region (opts pp));
     VStr (Options.Zone (opts pp)); VInt taskID].

Definition taskFailed (taskID : Z) : error :=
  Errorf "[%s] task failed %d" [VStr ProviderName; VInt taskID].

(** How a wait of at most [steps] polls can end. *)
Definition waitEnded (env : Env) (taskID : Z) (steps : nat) (timeout : error)
  (res : option error) (evs : list Event) : Prop :=
  match res with
  | None =>
      exists pre s,
        evs = pre ++ [EvDescribeTaskResult taskID (inr s)] /\
        Forall (inconclusive env taskID) pre /\
        Go.ToUpper (unicode env) s <> Running env /\
        (Go.ToUpper (unicode env) s = Success env \/
         Go.ToUpper (unicode env) s <> Failed env)
  | Some e =>
      (e = timeout /\ length evs = steps /\ Forall (inconclusive env taskID) evs) \/
      (e = taskFailed taskID /\
       exists pre s,
         evs = pre ++ [EvDescribeTaskResult taskID (inr s)] /\
         Forall (inconclusive env taskID) pre /\
         Go.ToUpper (unicode env) s <> Running env /\
         Go.ToUpper (unicode env) s <> Success env /\
         Go.ToUpper (unicode env) s = Failed env)
  end.

Lemma waitEnded_later env taskID steps timeout res ev evs :
  inconclusive env taskID ev ->
  waitEnded env taskID steps timeout res evs ->
  waitEnded env taskID (S steps) timeout res (ev :: evs).
Proof.
  intros Hev. destruct res as [e|]; simpl.
  - intros [(-> & <- & Hf)|(-> & pre & s & -> & Hf & Hrest)].
    + left. auto.
    + right. split; [reflexivity|]. exists (ev :: pre), s. auto.
  - intros (pre & s & -> & Hf & Hrest). exists (ev :: pre), s. auto.
Qed.

Lemma taskBackoff_outcome env taskID : forall steps w,
  exists res w' evs,
    ExponentialBackoff steps (taskResultCondition env taskID) w = Ok res w' /\
    trace w' = trace w ++ evs /\ p w' = p w /\ (length evs <= steps)%nat /\
    waitEnded env taskID steps (ErrWaitTimeout w) res evs.
Proof.
  induction steps as [|steps IH]; intros w.
  - exists (Some (ErrWaitTimeout w)), w, []. rewrite app_nil_r.
    split; [reflexivity|]. split; [reflexivity|]. split; [reflexivity|].
    split; [reflexivity|]. left. auto.
  - rewrite ExponentialBackoff_step, taskResultCondition_answer.
    set (ans := DescribeTaskResult env (trace w) taskID).
    assert (Hmore : inconclusive env taskID (EvDescribeTaskResult taskID ans) ->
              exists res w' evs,
                ExponentialBackoff steps (taskResultCondition env taskID)
                  (polled env taskID w) = Ok res w' /\
                trace w' = trace w ++ evs /\ p w' = p w /\ (length evs <= S steps)%nat /\
                waitEnded env taskID (S steps) (ErrWaitTimeout w) res evs).
    { intros Hev.
      destruct (IH (polled env taskID w)) as (res & w' & evs & Hrun & Ht & Hp & Hl & Hend).
      exists res, w', (EvDescribeTaskResult taskID ans :: evs).
      split; [exact Hrun|]. split; [rewrite Ht; cbn; now rewrite <- app_assoc|].
      split; [exact Hp|]. split; [simpl; lia|].
      now apply waitEnded_later. }
    assert (Hlast : forall res s, ans = inr s ->
              (res = None ->
               Go.ToUpper (unicode env) s <> Running env /\
               (Go.ToUpper (unicode env) s = Success env \/
                Go.ToUpper (unicode env) s <> Failed env)) ->
              (forall e, res = Some e ->
               e = taskFailed taskID /\ Go.ToUpper (unicode env) s <> Running env /\
               Go.ToUpper (unicode env) s <> Success env /\
               Go.ToUpper (unicode env) s = Failed env) ->
              exists res' w' evs,
                Ok res (polled env taskID w) = Ok res' w' /\
                trace w' = trace w ++ evs /\ p w' = p w /\ (length evs <= S steps)%nat /\
                waitEnded env taskID (S steps) (ErrWaitTimeout w) res' evs).
    { intros res s Hs Hnone Hsome.
      exists res, (polled env taskID w), [EvDescribeTaskResult taskID (inr s)].
      split; [reflexivity|]. split; [cbn; fold ans; now rewrite Hs|].
      split; [reflexivity|]. split; [simpl; lia|].
      destruct res as [e|]; simpl.
      - right. destruct (Hsome e eq_refl) as (-> & Hrest).
        split; [reflexivity|]. exists [], s. auto.
      - exists [], s. destruct (Hnone eq_refl). auto. }
    destruct ans as [e|s] eqn:Hans.
    + apply Hmore. exists (inl e). auto.
    + destruct (String.eqb_spec (Go.ToUpper (unicode env) s) (Running env)) as [Hr|Hr].
      * apply Hmore. exists (inr s). auto.
      * destruct (String.eqb_spec (Go.ToUpper (unicode env) s) (Success env)) as [Hs|Hs].
        -- apply (Hlast None s eq_refl); [auto|discriminate].
        -- destruct (String.eqb_spec (Go.ToUpper (unicode env) s) (Failed env)) as [Hf|Hf].
           ++ apply (Hlast (Some (taskFailed taskID)) s eq_refl); [discriminate|].
              intros e' E. injection E as <-. auto.
           ++ apply (Hlast None s eq_refl); [auto|discriminate].
Qed.

(** X14.  The wait for a task always returns, after at most as many
    polls as the backoff allows, and leaves the provider alone.  An SDK
    error counts like the answer Running: it uses up one poll.  The wait
    returns nil at the first answer that is neither Running nor Failed, the
    task-failed error at the first answer Failed, and otherwise, every poll
    spent, the error naming region, zone and task. *)
Theorem describeVpcTaskResult_outcome env taskID w :
  exists res w' evs,
    describeVpcTaskResult env taskID w = Ok res w' /\
    trace w' = trace w ++ evs /\ p w' = p w /\
    (length evs <= BackoffSteps env)%nat /\
    waitEnded env taskID (BackoffSteps env) (taskTimeout (p w) taskID) res evs.
Proof.
  unfold describeVpcTaskResult, bind, getP, setErrWaitTimeout.
  destruct (taskBackoff_outcome env taskID (BackoffSteps env) (armed taskID w))
    as (res & w' & evs & Hrun & Ht & Hp & Hl & Hend).
  exists res, w', evs. auto.
Qed.

(** ** Building the clients *)

Lemma generateClientSDK_run env w :
  exists res w' evs,
    generateClientSDK env w = Ok res w' /\ trace w' = trace w ++ evs /\
    meta (p w') = meta (p w) /\ m (p w') = m (p w) /\ status (p w') = status (p w) /\
    opts (p w') =
      Options.setCredential
        (if String.eqb (Options.SecretID (opts (p w))) ""
         then viperGetString env ProviderName secretID
         else Options.SecretID (opts (p w)))
        (if String.eqb (Options.SecretKey (opts (p w))) ""
         then viperGetString env ProviderName secretKey
         else Options.SecretKey (opts (p w)))
        (opts (p w)) /\
    let clients := (c (p w'), v (p w'), t (p w'), r (p w')) in
    ((exists e, res = Some e /\ evs = [EvNewClient "cvm" (Some e)] /\
                clients = (c (p w), v (p w), t (p w), r (p w))) \/
     (exists e, res = Some e /\
                evs = [EvNewClient "cvm" None; EvNewClient "vpc" (Some e)] /\
                clients = (true, v (p w), t (p w), r (p w))) \/
     (exists e, res = Some e /\
                evs = [EvNewClient "cvm" None; EvNewClient "vpc" None;
                       EvNewClient "tag" (Some e)] /\
                clients = (true, true, t (p w), r (p w))) \/
     (exists e, res = Some e /\
                evs = [EvNewClient "cvm" None; EvNewClient "vpc" None;
                       EvNewClient "tag" None; EvNewClient "tke" (Some e)] /\
                clients = (true, true, true, r (p w))) \/
     (res = None /\
      evs = [EvNewClient "cvm" None; EvNewClient "vpc" None;
             EvNewClient "tag" None; EvNewClient "tke" None] /\
      clients = (true, true, true, true))).
Proof.
  unfold generateClientSDK.
  unfold bind at 1, getP at 1. cbv beta iota zeta.
  unfold bind at 1, setP at 1. cbv beta iota.
  unfold bind at 1. rewrite call_logged. cbv beta iota.
  match goal with |- context [NewClient env ?h "cvm"] =>
    destruct (NewClient env h "cvm") as [e1|] end.
  { eexists _, _, [_]. split; [reflexivity|]. split; [reflexivity|].
    repeat (split; [reflexivity|]). left. eauto. }
  unfold bind at 1, setP at 1. cbv beta iota.
  unfold bind at 1. rewrite call_logged. cbv beta iota.
  match goal with |- context [NewClient env ?h "vpc"] =>
    destruct (NewClient env h "vpc") as [e2|] end.
  { eexists _, _, [_; _]. split; [reflexivity|].
    split; [cbn; now rewrite <- app_assoc|].
    repeat (split; [reflexivity|]). right. left. eauto. }
  unfold bind at 1, setP at 1. cbv beta iota.
  unfold bind at 1. rewrite call_logged. cbv beta iota.
  match goal with |- context [NewClient env ?h "tag"] =>
    destruct (NewClient env h "tag") as [e3|] end.
  { eexists _, _, [_; _; _]. split; [reflexivity|].
    split; [cbn; now rewrite <- !app_assoc|].
    repeat (split; [reflexivity|]). right. right. left. eauto. }
  unfold bind at 1, setP at 1. cbv beta iota.
  unfold bind at 1. rewrite call_logged. cbv beta iota.
  match goal with |- context [NewClient env ?h "tke"] =>
    destruct (NewClient env h "tke") as [e4|] end.
  { eexists _, _, [_; _; _; _]. split; [reflexivity|].
    split; [cbn; now rewrite <- !app_assoc|].
    repeat (split; [reflexivity|]). right. right. right. left. eauto. }
  eexists _, _, [_; _; _; _]. split; [reflexivity|].
  split; [cbn; now rewrite <- !app_assoc|].
  repeat (split; [reflexivity|]). right. right. right. right. auto.
Qed.

(** X15.  Client construction asks for the four clients in the order
    cvm, vpc, tag, tke and stops at the first refusal, which it returns; the
    clients built before the refusal stay set.  Credentials left empty are
    taken from the configuration store beforehand, refusal or not.  Nothing
    else of the provider changes. *)
Theorem generateClientSDK_outcome env w :
  exists res w' evs,
    generateClientSDK env w = Ok res w' /\ trace w' = trace w ++ evs /\
    meta (p w') = meta (p w) /\ m (p w') = m (p w) /\ status (p w') = status (p w) /\
    opts (p w') =
      Options.setCredential
        (if String.eqb (Options.SecretID (opts (p w))) ""
         then viperGetString env ProviderName secretID
         else Options.SecretID (opts (p w)))
        (if String.eqb (Options.SecretKey (opts (p w))) ""
         then viperGetString env ProviderName secretKey
         else Options.SecretKey (opts (p w)))
        (opts (p w)) /\
    let clients := (c (p w'), v (p w'), t (p w'), r (p w')) in
    ((exists e, res = Some e /\ evs = [EvNewClient "cvm" (Some e)] /\
                clients = (c (p w), v (p w), t (p w), r (p w))) \/
     (exists e, res = Some e /\
                evs = [EvNewClient "cvm" None; EvNewClient "vpc" (Some e)] /\
                clients = (true, v (p w), t (p w), r (p w))) \/
     (exists e, res = Some e /\
                evs = [EvNewClient "cvm" None; EvNewClient "vpc" None;
                       EvNewClient "tag" (Some e)] /\
                clients = (true, true, t (p w), r (p w))) \/
     (exists e, res = Some e /\
                evs = [EvNewClient "cvm" None; EvNewClient "vpc" None;
                       EvNewClient "tag" None; EvNewClient "tke" (Some e)] /\
                clients = (true, true, true, r (p w))) \/
     (res = None /\
      evs = [EvNewClient "cvm" None; EvNewClient "vpc" None;
             EvNewClient "tag" None; EvNewClient "tke" None] /\
      clients = (true, true, true, true))).
Proof. apply generateClientSDK_run. Qed.

(** ** A subnet the cloud no longer lists *)

(** X16.  When a subnet is configured and the cloud answers the lookup of
    it with a subnet set that is allocated but empty, reconciling the
    security group rules stops in an index-out-of-range panic: the rules of
    the group have been read by then, and no rule is created. *)
Theorem configDefaultSecurityPermission_empty_subnet_set env w rules :
  Options.SubnetID (opts (p w)) <> ""%string ->
  DescribeSecurityGroupPolicies env (trace w) (Options.SecurityGroupIds (opts (p w))) =
    inr rules ->
  (forall h, DescribeSubnets env h [Options.SubnetID (opts (p w))] [] = inr (Some [])) ->
  exists w',
    configDefaultSecurityPermission env w = Stuck PanicIndex w' /\
    trace w' = trace w ++
      [ EvDescribeSecurityGroupPolicies (Options.SecurityGroupIds (opts (p w))) (inr rules);
        EvDescribeSubnets [Options.SubnetID (opts (p w))] [] (inr (Some [])) ].
Proof.
  intros Hsubnet Hrules Hempty.
  unfold configDefaultSecurityPermission, bind at 1, getP at 1. cbv beta iota zeta.
  unfold bind at 1. rewrite call_logged, Hrules. cbv beta iota.
  destruct (String.eqb_spec (Options.SubnetID (opts (p w))) "") as [E|_];
    [now contradiction Hsubnet|].
  cbn [negb]. unfold bind at 1, getSubnetCidr, bind at 1, getP at 1. cbv beta iota zeta.
  unfold bind at 1. rewrite call_logged. cbn [p logged]. rewrite Hempty. cbv beta iota.
  unfold panic. eexists. split; [reflexivity|].
  cbn [trace logged]. now rewrite <- app_assoc.
Qed.

(** A provider set on subnet-9, which the cloud has forgotten. *)
Definition forgottenSubnet : Env :=
  Scripted.env
    [ Scripted.OnDescribeSecurityGroupPolicies (fun _ _ => inr None);
      Scripted.OnDescribeSubnets (fun _ _ _ => inr (Some [])) ].

Definition onForgottenSubnet : World :=
  Scripted.world (Scripted.configured "" "subnet-9" "sg-1" false
                    (Scripted.provider "demo" "1")).

Lemma configDefaultSecurityPermission_empty_subnet_set_witness :
  exists w',
    configDefaultSecurityPermission forgottenSubnet onForgottenSubnet =
      Stuck PanicIndex w' /\
    trace w' = trace onForgottenSubnet ++
      [ EvDescribeSecurityGroupPolicies "sg-1" (inr None);
        EvDescribeSubnets ["subnet-9"%string] [] (inr (Some [])) ].
Proof.
  apply (configDefaultSecurityPermission_empty_subnet_set forgottenSubnet
           onForgottenSubnet None).
  - discriminate.
  - reflexivity.
  - intros h. reflexivity.
Defined.

(** ** Join preflight *)

Definition nothingToJoin (pp : Tencent) : bool :=
  String.eqb (Metadata.Master (meta pp)) "0" && String.eqb (Metadata.Worker (meta pp)) "0".

Lemma isDiscovered_existsb ids instanceID :
  isDiscovered ids instanceID = existsb (fun e => String.eqb e instanceID) ids.
Proof.
  induction ids as [|e rest IH]; simpl; [reflexivity|].
  destruct (String.eqb e instanceID); auto.
Qed.

Lemma validWorkers_filter ids nodes :
  validWorkers ids nodes =
  filter (fun n => existsb (fun e => String.eqb e (InstanceID n)) ids) nodes.
Proof.
  induction nodes as [|n rest IH]; simpl; [reflexivity|].
  rewrite isDiscovered_existsb, IH. reflexivity.
Qed.

(** X17.  The join preflight returns an error exactly when both counts
    read 0, or the datastore endpoint is given twice, or discovery fails, or
    discovery finds no instance of the cluster; when discovery does not
    return, neither does the check.  When it accepts, it has pruned the
    worker list of the state: the workers kept are those whose identifier
    discovery listed, in their order.  The master list, the registry,
    the metadata and the options other than credentials are as before. *)
Theorem joinCheck_prunes_workers fuel env w :
  if nothingToJoin (p w) || datastoreTwice (p w)
  then exists e, joinCheck fuel env w = Ok (Some e) w
  else match IsClusterExist fuel env w with
       | Stuck why w' => joinCheck fuel env w = Stuck why w'
       | Ok (_, _, Some e) w' => joinCheck fuel env w = Ok (Some e) w'
       | Ok (false, _, None) w' => exists e, joinCheck fuel env w = Ok (Some e) w'
       | Ok (true, ids, None) w' =>
           exists w'',
             joinCheck fuel env w = Ok None w'' /\
             trace w'' = trace w' /\ keeps w w' /\
             meta (p w'') = meta (p w) /\ m (p w'') = m (p w) /\
             opts (p w'') = opts (p w') /\
             Status.MasterNodes (status (p w'')) = Status.MasterNodes (status (p w)) /\
             Status.WorkerNodes (status (p w'')) =
               filter (fun n => existsb (fun e => String.eqb e (InstanceID n)) ids)
                      (Status.WorkerNodes (status (p w)))
       end.
Proof.
  assert (Hrun : joinCheck fuel env w =
    if nothingToJoin (p w)
    then Ok (Some (Errorf "[%s] calling preflight error: `--master` or `--worker` number must >= 1"
                     [VStr ProviderName])) w
    else if datastoreTwice (p w)
    then Ok (Some (Errorf "[%s] calling preflight error: `--masterExtraArgs='--datastore-endpoint'` is duplicated with `--datastore`"
                     [VStr ProviderName])) w
    else match IsClusterExist fuel env w with
         | Stuck why w' => Stuck why w'
         | Ok (_, _, Some e) w' => Ok (Some e) w'
         | Ok (false, _, None) w' =>
             Ok (Some (Errorf "[%s] calling preflight error: cluster name `%s` do not exist"
                         [VStr ProviderName; VStr (Metadata.Name (meta (p w')))])) w'
         | Ok (true, ids, None) w' =>
             Ok None
                {| p := withStatus (fun st =>
                          {| Status.MasterNodes := Status.MasterNodes st;
                             Status.WorkerNodes := validWorkers ids (Status.WorkerNodes st) |})
                          (p w');
                   trace := trace w'; ErrWaitTimeout := ErrWaitTimeout w' |}
         end).
  { unfold joinCheck, nothingToJoin, datastoreTwice, bind at 1, getP at 1.
    cbv beta iota zeta.
    destruct (String.eqb (Metadata.Master (meta (p w))) "0" &&
              String.eqb (Metadata.Worker (meta (p w))) "0"); [reflexivity|].
    destruct (Go.Contains (Metadata.MasterExtraArgs (meta (p w))) "--datastore-endpoint" &&
              negb (String.eqb (Metadata.DataStore (meta (p w))) "")); [reflexivity|].
    unfold bind at 1.
    destruct (IsClusterExist fuel env w) as [[[found ids] [e|]] w'|why w']; try reflexivity.
    all: destruct found; reflexivity. }
  rewrite Hrun.
  destruct (nothingToJoin (p w)); cbn [orb]; [eauto|].
  destruct (datastoreTwice (p w)); [eauto|].
  pose proof (IsClusterExist_keeps fuel env w) as Hk.
  destruct (IsClusterExist fuel env w) as [[[found ids] [e|]] w'|why w']; try reflexivity;
    destruct found; try reflexivity; [|eauto].
  cbn [worldOf] in Hk. destruct Hk as (Hmeta & Hm & Hst & Hopts).
  eexists. split; [reflexivity|]. cbn [p trace meta m opts status withStatus].
  split; [reflexivity|]. split; [repeat split; assumption|].
  split; [exact Hmeta|]. split; [exact Hm|]. split; [reflexivity|].
  cbn [Status.MasterNodes Status.WorkerNodes]. rewrite Hst.
  split; [reflexivity|apply validWorkers_filter].
Qed.

(** The check compares the counts with the text 0, so counts left empty
    pass it. *)
Example joinCheck_accepts_empty_counts :
  let pp := Scripted.provider "demo" "" in
  nothingToJoin
    {| meta := {| Metadata.Name := "demo"; Metadata.Master := ""; Metadata.Worker := "";
                  Metadata.UI := false; Metadata.Cluster := false;
                  Metadata.DataStore := ""; Metadata.Network := "";
                  Metadata.MasterExtraArgs := "";
                  Metadata.CloudControllerManager := false; Metadata.Tags := [] |};
       opts := opts pp; status := status pp;
       c := false; v := false; t := false; r := false; m := [] |} = false.
Proof. reflexivity. Qed.

(** ** Cluster information *)

Lemma wrap64_small z :
  - 2 ^ 63 <= z < 2 ^ 63 -> Go.wrap64 z = z.
Proof.
  intros H. unfold Go.wrap64, Go.cutoff.
  rewrite Z.mod_small; lia.
Qed.

Definition mastersOf (instanceList : list Instance) : list Instance :=
  filter (fun i => isMasterExact (InstanceTags i)) instanceList.

Definition workersOf (instanceList : list Instance) : list Instance :=
  filter (fun i => negb (isMasterExact (InstanceTags i))) instanceList.

Lemma countRoles_counts : forall instanceList a b,
  0 <= a -> 0 <= b -> a + b + Z.of_nat (length instanceList) < 2 ^ 63 ->
  countRoles instanceList a b =
  (a + Z.of_nat (length (mastersOf instanceList)),
   b + Z.of_nat (length (workersOf instanceList))).
Proof.
  induction instanceList as [|i rest IH]; intros a b Ha Hb Hlen.
  - simpl. now rewrite !Z.add_0_r.
  - cbn [countRoles mastersOf workersOf filter].
    cbn [length] in Hlen. rewrite Nat2Z.inj_succ in Hlen.
    destruct (isMasterExact (InstanceTags i)); cbn [negb].
    + rewrite wrap64_small by lia. fold (mastersOf rest). fold (workersOf rest).
      rewrite IH by lia. cbn [length]. rewrite Nat2Z.inj_succ. f_equal. lia.
    + rewrite wrap64_small by lia. fold (mastersOf rest). fold (workersOf rest).
      rewrite IH by lia. cbn [length]. rewrite Nat2Z.inj_succ. f_equal. lia.
Qed.

Lemma roles_partition instanceList :
  (length (mastersOf instanceList) + length (workersOf instanceList) =
   length instanceList)%nat.
Proof.
  unfold mastersOf, workersOf. induction instanceList as [|i rest IH]; simpl; [reflexivity|].
  destruct (isMasterExact (InstanceTags i)); simpl; lia.
Qed.

(** The test of [GetCluster] is the stricter one: what it counts as a
    master, discovery stores as a master. *)
Lemma isMasterExact_isMasterTagged env tags :
  isMasterExact tags = true -> isMasterTagged env tags = true.
Proof.
  unfold isMasterExact, isMasterTagged. rewrite !existsb_exists.
  intros (tg & Hin & Htest). exists tg. split; [exact Hin|].
  apply andb_true_iff in Htest as [Hk Hv].
  apply String.eqb_eq in Hk, Hv. rewrite Hk, Hv. reflexivity.
Qed.

(** A client that could not be built, or a page that was not answered. *)
Definition isFailedCall (e : Event) : bool :=
  match e with
  | EvNewClient _ (Some _) => true
  | EvDescribeInstances _ _ _ (inl _) => true
  | _ => false
  end.

Lemma pagesOf_clients evs :
  Forall (fun e => exists s r, e = EvNewClient s r) evs -> pagesOf evs = [].
Proof.
  induction 1 as [|e l (s & r & ->) _ IH]; [reflexivity|]. exact IH.
Qed.

(** The clients are built only when the first of them is missing. *)
Lemma clients_ready env w :
  exists res w' evs,
    (if c (p w) then ret None else generateClientSDK env) w = Ok res w' /\
    trace w' = trace w ++ evs /\ meta (p w') = meta (p w) /\
    Forall (fun e => exists s r, e = EvNewClient s r) evs /\
    existsb isFailedCall evs = match res with Some _ => true | None => false end.
Proof.
  destruct (c (p w)).
  - exists None, w, []. rewrite app_nil_r. repeat split; auto.
  - destruct (generateClientSDK_run env w)
      as (res & w' & evs & Hrun & Ht & Hmeta & _ & _ & _ & Hcases).
    exists res, w', evs. split; [exact Hrun|]. split; [exact Ht|]. split; [exact Hmeta|].
    cbv zeta in Hcases.
    destruct Hcases as [(e & -> & -> & _)|[(e & -> & -> & _)|[(e & -> & -> & _)|
                       [(e & -> & -> & _)|(-> & -> & _)]]]];
      (split; [repeat constructor; eauto|reflexivity]).
Qed.

Lemma describeInstancesFrom_answered env filters :
  forall fuel offset index acc w res w',
    describeInstancesFrom fuel env filters offset index acc w = Ok res w' ->
    exists evs,
      trace w' = trace w ++ evs /\
      existsb isFailedCall evs = match res with inl _ => true | inr _ => false end.
Proof.
  induction fuel as [|fuel IH]; intros offset index acc w res w' Hrun;
    [discriminate Hrun|].
  cbn [describeInstancesFrom] in Hrun. cbv zeta in Hrun.
  unfold bind at 1 in Hrun. rewrite call_logged in Hrun.
  set (ans := DescribeInstances env (trace w) filters 20 offset) in *.
  destruct ans as [e|resp] eqn:Hans.
  - injection Hrun as <- <-. eexists [_]. split; reflexivity.
  - destruct (InstanceSet resp) as [|ins rest] eqn:Hset.
    + injection Hrun as <- <-. eexists [_]. split; reflexivity.
    + destruct (Go.wrap64 (Go.wrap64 (20 * index) + 20) >=? TotalCount resp).
      * injection Hrun as <- <-. eexists [_]. split; reflexivity.
      * apply IH in Hrun as (evs & Ht & Hres).
        eexists (_ :: evs). split; [rewrite Ht; cbn; now rewrite <- app_assoc|].
        exact Hres.
Qed.

Lemma describeInstances_events fuel env w res w1 :
  describeInstances fuel env w = Ok res w1 ->
  exists evs,
    trace w1 = trace w ++ evs /\
    existsb isFailedCall evs = match res with inl _ => true | inr _ => false end /\
    match res with
    | inr l => l = pagesOf evs
    | inl _ => True
    end.
Proof.
  intros Hrun. unfold describeInstances, bind, getP in Hrun.
  destruct (describeInstancesFrom_answered _ _ _ _ _ _ _ _ _ Hrun) as (evs' & Ht' & Hfail).
  apply describeInstancesFrom_pages in Hrun as (evs & Ht & _ & _ & _ & Hres).
  rewrite Ht in Ht'. apply app_inv_head in Ht'. subst evs'.
  exists evs. split; [exact Ht|]. split; [exact Hfail|]. now destruct res.
Qed.

(** X18.  What [GetCluster] reports.  Name, region, zone and provider are
    the provider's own.  Without a usable kubeconfig, status and version are
    unknown, both counts are left empty and the cloud is not asked.  With
    one, the status is the cluster's and the version is looked up only when
    the cluster runs.  The counts are both 0 whenever a client could not be
    built or a page of discovery was not answered, whatever the pages before
    it held; otherwise they are the number of listed instances tagged
    exactly master = true and the number of all the others. *)
Theorem GetCluster_reports fuel env kube kubecfg w info w' :
  GetCluster fuel env kube kubecfg w = Ok info w' ->
  InfoName info = Metadata.Name (meta (p w)) /\
  InfoRegion info = Options.Region (opts (p w)) /\
  InfoZone info = Options.Zone (opts (p w)) /\
  InfoProvider info = ProviderName /\
  match GetClusterConfig kube (trace w) (Metadata.Name (meta (p w))) kubecfg with
  | Some _ =>
      w' = w /\
      InfoStatus info = ClusterStatusUnknown kube /\
      InfoVersion info = ClusterStatusUnknown kube /\
      InfoMaster info = ""%string /\ InfoWorker info = ""%string
  | None =>
      InfoStatus info = GetClusterStatus kube (trace w) /\
      InfoVersion info =
        (if String.eqb (GetClusterStatus kube (trace w)) (ClusterStatusRunning kube)
         then GetClusterVersion kube (trace w)
         else ClusterStatusUnknown kube) /\
      exists evs,
        trace w' = trace w ++ evs /\
        if existsb isFailedCall evs
        then InfoMaster info = "0"%string /\ InfoWorker info = "0"%string
        else Z.of_nat (length (pagesOf evs)) < 2 ^ 63 ->
             InfoMaster info = Go.Itoa (Z.of_nat (length (mastersOf (pagesOf evs)))) /\
             InfoWorker info = Go.Itoa (Z.of_nat (length (workersOf (pagesOf evs))))
  end.
Proof.
  intros Hrun. unfold GetCluster in Hrun.
  unfold bind at 1, getP at 1 in Hrun. cbv beta iota zeta in Hrun.
  unfold bind at 1, getTrace at 1 in Hrun. cbv beta iota in Hrun.
  destruct (GetClusterConfig kube (trace w) (Metadata.Name (meta (p w))) kubecfg) as [e|].
  { injection Hrun as <- <-. repeat split. }
  unfold bind at 1 in Hrun.
  destruct (clients_ready env w) as (res & w1 & A & Hrun1 & Ht1 & Hmeta1 & HA & Hfail).
  rewrite Hrun1 in Hrun. cbv beta iota in Hrun.
  destruct res as [e|].
  { injection Hrun as <- <-. cbn. repeat split. exists A. split; [exact Ht1|].
    rewrite Hfail. split; reflexivity. }
  unfold bind at 1 in Hrun.
  destruct (describeInstances fuel env w1) as [[e|instanceList] w2|why w2] eqn:Hlist;
    [| |discriminate Hrun].
  - injection Hrun as <- <-. cbn. repeat split.
    apply describeInstances_events in Hlist as (B & Ht2 & HB & _).
    exists (A ++ B). split; [rewrite Ht2, Ht1; now rewrite <- app_assoc|].
    rewrite existsb_app, HB, orb_true_r. split; reflexivity.
  - apply describeInstances_events in Hlist as (B & Ht2 & HfailB & HB).
    assert (Hpages : pagesOf (A ++ B) = instanceList)
      by (rewrite pagesOf_app, (pagesOf_clients A HA); now rewrite HB).
    pose proof (countRoles_counts instanceList 0 0) as Hcount.
    destruct (countRoles instanceList 0 0) as [masterCount workerCount].
    injection Hrun as <- <-. cbn. repeat split.
    exists (A ++ B). split; [rewrite Ht2, Ht1; now rewrite <- app_assoc|].
    rewrite existsb_app, Hfail, HfailB. cbn [orb]. rewrite Hpages. intros Hbound.
    specialize (Hcount ltac:(lia) ltac:(lia) ltac:(lia)).
    injection Hcount as -> ->. split; reflexivity.
Qed.

(** A cluster whose kubeconfig works and reports itself as running. *)
Definition reachableKube : Kube :=
  {| GetClusterConfig := fun _ _ _ => None;
     GetClusterStatus := fun _ => "Running";
     GetClusterVersion := fun _ => "v1.19.5+k3s2";
     ClusterStatusUnknown := "unknown";
     ClusterStatusRunning := "Running" |}.

(** Three instances: one tagged master = true, one tagged Master = TRUE,
    one without role tag. *)
Definition mixedTags : Env :=
  Scripted.env
    [ Scripted.OnDescribeInstances
        (fun _ _ _ _ =>
           inr {| InstanceSet :=
                    [ {| InstanceId := "ins-1"; InstanceState := "RUNNING";
                         InstanceTags := [ {| TagKey := "master"; TagValue := "true" |} ];
                         PrivateIpAddresses := []; PublicIpAddresses := [] |};
                      {| InstanceId := "ins-2"; InstanceState := "RUNNING";
                         InstanceTags := [ {| TagKey := "Master"; TagValue := "TRUE" |} ];
                         PrivateIpAddresses := []; PublicIpAddresses := [] |};
                      instanceNamed "ins-3" ];
                  TotalCount := 3 |}) ].

Definition reportedInfo : ClusterInfo :=
  {| InfoName := "demo"; InfoRegion := defaultRegion; InfoZone := defaultZone;
     InfoProvider := ProviderName; InfoStatus := "Running";
     InfoVersion := "v1.19.5+k3s2"; InfoMaster := "1"; InfoWorker := "2" |}.

Definition reportedEnd : World :=
  worldOf (GetCluster 1 mixedTags reachableKube "" absentStart).

Lemma GetCluster_mixedTags :
  GetCluster 1 mixedTags reachableKube "" absentStart = Ok reportedInfo reportedEnd.
Proof. vm_compute. reflexivity. Qed.

Lemma GetCluster_reports_witness :
  InfoName reportedInfo = Metadata.Name (meta (p absentStart)) /\
  InfoRegion reportedInfo = Options.Region (opts (p absentStart)) /\
  InfoZone reportedInfo = Options.Zone (opts (p absentStart)) /\
  InfoProvider reportedInfo = ProviderName /\
  InfoStatus reportedInfo = "Running"%string /\
  InfoVersion reportedInfo = "v1.19.5+k3s2"%string /\
  exists evs,
    trace reportedEnd = trace absentStart ++ evs /\
    if existsb isFailedCall evs
    then InfoMaster reportedInfo = "0"%string /\ InfoWorker reportedInfo = "0"%string
    else Z.of_nat (length (pagesOf evs)) < 2 ^ 63 ->
         InfoMaster reportedInfo = Go.Itoa (Z.of_nat (length (mastersOf (pagesOf evs)))) /\
         InfoWorker reportedInfo = Go.Itoa (Z.of_nat (length (workersOf (pagesOf evs)))).
Proof.
  exact (GetCluster_reports 1 mixedTags reachableKube "" absentStart
           reportedInfo reportedEnd GetCluster_mixedTags).
Defined.

(** A cloud that answers the first page with one master, announces more,
    and fails on the second page: the report shows no master at all. *)
Definition brokenSecondPage : Env :=
  Scripted.env
    [ Scripted.OnDescribeInstances
        (fun _ _ _ offset =>
           match offset with
           | None =>
               inr {| InstanceSet :=
                        [ {| InstanceId := "ins-1"; InstanceState := "RUNNING";
                             InstanceTags := [ {| TagKey := "master"; TagValue := "true" |} ];
                             PrivateIpAddresses := []; PublicIpAddresses := [] |} ];
                      TotalCount := 25 |}
           | Some _ => inl (SDKError "RequestLimitExceeded")
           end) ].

Example GetCluster_partial_listing :
  exists info w',
    GetCluster 2 brokenSecondPage reachableKube "" absentStart = Ok info w' /\
    InfoMaster info = "0"%string /\ InfoWorker info = "0"%string /\
    length (pagesOf (trace w')) = 1%nat.
Proof. eexists _, _. vm_compute. repeat split. Qed.

(** The instance tagged Master = TRUE is a worker to [GetCluster] and a
    master to discovery. *)
Example role_tests_differ :
  let tags := [ {| TagKey := "Master"; TagValue := "TRUE" |} ] in
  isMasterExact tags = false /\ isMasterTagged mixedTags tags = true.
Proof. split; reflexivity. Qed.

(** ** Generating the instances *)

Definition isRun (e : Event) : bool :=
  match e with
  | EvRunInstances _ _ => true
  | _ => false
  end.

(** The calls that look things up or bring things into being. *)
Definition creating (e : Event) : Prop :=
  match e with
  | EvTerminateInstances _ _ | EvReleaseAddresses _ _ | EvDisassociateAddress _ _
  | EvDescribeResourcesByTags _ _ | EvLocal _ _ _ => False
  | _ => True
  end.

(** The same without the launches. *)
Definition preparing (e : Event) : Prop := creating e /\ isRun e = false.

(** Runs that make preparing calls only and keep [f] of the provider. *)
Definition stays {X} (f : Tencent -> X) (w w' : World) : Prop :=
  f (p w') = f (p w) /\ grows preparing w w'.

Lemma stays_refl {X} (f : Tencent -> X) w : stays f w w.
Proof. split; [reflexivity|apply grows_refl]. Qed.

Lemma stays_trans {X} (f : Tencent -> X) w1 w2 w3 :
  stays f w1 w2 -> stays f w2 w3 -> stays f w1 w3.
Proof.
  intros [H1 G1] [H2 G2]. split; [congruence|eapply grows_trans; eassumption].
Qed.

Definition settings (pp : Tencent) : Metadata.t * Options.t := (meta pp, opts pp).

Ltac staying :=
  match goal with
  | |- Steps (stays ?f) _ =>
      steps_with (stays_refl f) (stays_trans f)
        ltac:(idtac;
              match goal with
              | |- Steps (stays _) (emit _) =>
                  intro; split; [reflexivity|apply emit_grows; split; reflexivity]
              | |- Steps (stays _) (setErrWaitTimeout _) =>
                  intro; split; [reflexivity|apply setErrWaitTimeout_grows]
              | |- Steps (stays _) (setP _) =>
                  intro; split; [reflexivity|apply setP_grows]
              end)
  end.

Lemma generateClientSDK_stays env : Steps (stays meta) (generateClientSDK env).
Proof. unfold generateClientSDK. staying. Qed.

Lemma configNetwork_stays env : Steps (stays meta) (configNetwork env).
Proof. unfold configNetwork, generateDefaultVPC, generateDefaultSubnet. staying. Qed.

Lemma configDefaultSecurityPermission_stays env :
  Steps (stays meta) (configDefaultSecurityPermission env).
Proof. unfold configDefaultSecurityPermission, getSubnetCidr. staying. Qed.

Lemma configSecurityGroup_stays env calls :
  Steps (stays meta) (configSecurityGroup env calls).
Proof.
  unfold configSecurityGroup, generateDefaultSecurityGroup. staying.
  all: apply configDefaultSecurityPermission_stays.
Qed.

Lemma describeVpcTaskResult_stays env taskID :
  Steps (stays settings) (describeVpcTaskResult env taskID).
Proof. unfold describeVpcTaskResult, taskResultCondition. staying. Qed.

Lemma waitEach_stays env : forall taskIds, Steps (stays settings) (waitEach env taskIds).
Proof.
  induction taskIds as [|t rest IH]; simpl; [staying|].
  apply (Steps_bind _ (stays_trans settings)); [apply describeVpcTaskResult_stays|].
  intros [e|]; [staying|exact IH].
Qed.

Lemma getInstanceStatus_stays env aim : Steps (stays settings) (getInstanceStatus env aim).
Proof. unfold getInstanceStatus. staying. Qed.

Lemma associateNodes_stays env master : forall entries addrs ids,
  Steps (stays settings) (associateNodes env master entries addrs ids).
Proof.
  induction entries as [|[k n] rest IH]; intros; simpl; [staying|].
  destruct (Bool.eqb (Master n) master && isNil (PublicIPAddress n)); [|apply IH].
  destruct addrs as [|a tail]; [staying|].
  unfold associateAddress. staying; apply IH.
Qed.

Lemma allocateEIPForInstance_stays env num master :
  Steps (stays settings) (allocateEIPForInstance env num master).
Proof.
  unfold allocateEIPForInstance, allocateAddresses, describeAddresses.
  staying;
    first [ apply describeVpcTaskResult_stays | apply associateNodes_stays ].
Qed.

Lemma describeInstancesFrom_stays env filters : forall fuel offset index acc,
  Steps (stays settings) (describeInstancesFrom fuel env filters offset index acc).
Proof. induction fuel as [|fuel IH]; intros; simpl; staying. apply IH. Qed.

Lemma assembleEach_stays env ssh upload publicKey : forall instanceList,
  Steps (stays settings) (assembleEach env ssh upload publicKey instanceList).
Proof.
  induction instanceList as [|status rest IH]; simpl; [staying|].
  unfold describeAddresses, uploadKeyPair. staying; apply IH.
Qed.

Lemma assembleInstanceStatus_stays fuel env ssh upload publicKey :
  Steps (stays settings) (assembleInstanceStatus fuel env ssh upload publicKey).
Proof.
  unfold assembleInstanceStatus, describeInstances, syncNodeStatusWithInstance.
  staying; first [ apply describeInstancesFrom_stays | apply assembleEach_stays ].
Qed.

Lemma runInstancesRequest_settings env pp pp' num master password :
  settings pp' = settings pp ->
  runInstancesRequest env pp' num master password =
  runInstancesRequest env pp num master password.
Proof.
  unfold settings. intros H. injection H as Hm Ho.
  unfold runInstancesRequest. now rewrite Hm, Ho.
Qed.

(** The answer to a launch is accepted when it carries as many identifiers
    as were asked for. *)
Definition accepted (num : Z) (res : result (list string)) : Prop :=
  exists ids, res = inr ids /\ Z.of_nat (length ids) = num.

Lemma runInstances_run env num master password w :
  let req := runInstancesRequest env (p w) num master password in
  let ans := RunInstances env (trace w) req in
  exists res w',
    runInstances env num master password w = Ok res w' /\
    trace w' = trace w ++ [EvRunInstances req ans] /\
    settings (p w') = settings (p w) /\
    (res = None <-> accepted num ans).
Proof.
  intros req ans. unfold runInstances, bind at 1, getP at 1. cbv beta iota zeta.
  unfold bind at 1. rewrite call_logged. cbv beta iota. fold req. fold ans.
  destruct ans as [e|ids] eqn:Hans.
  - eexists _, _. split; [reflexivity|]. split; [reflexivity|]. split; [reflexivity|].
    split; [discriminate|]. intros (ids & H & _). discriminate.
  - destruct (Z.eqb_spec (Z.of_nat (length ids)) num) as [Hn|Hn]; cbn [negb].
    + eexists _, _. split; [reflexivity|]. split; [reflexivity|]. split; [reflexivity|].
      split; [|reflexivity]. intros _. exists ids. auto.
    + eexists _, _. split; [reflexivity|]. split; [reflexivity|]. split; [reflexivity|].
      split; [discriminate|]. intros (ids' & H & Hlen). injection H as <-. contradiction.
Qed.

(** The launches of one run: the master batch, if any is asked for, then
    the worker batch, if any is asked for and the master batch, if there was
    one, was accepted. *)
Definition launchShape (env : Env) (pp : Tencent) (password : string)
  (masterNum workerNum : Z) (runs : list Event) : Prop :=
  let mreq := runInstancesRequest env pp masterNum true password in
  let wreq := runInstancesRequest env pp workerNum false password in
  exists masters workers,
    runs = masters ++ workers /\
    (if masterNum >? 0
     then exists r, masters = [EvRunInstances mreq r]
     else masters = []) /\
    (workers = [] \/ exists r, workers = [EvRunInstances wreq r]) /\
    (workers <> [] ->
     workerNum > 0 /\
     Forall (fun e => exists r, e = EvRunInstances mreq r /\ accepted masterNum r) masters) /\
    (workers = [] -> workerNum > 0 ->
     exists r, masters = [EvRunInstances mreq r] /\ ~ accepted masterNum r).

Lemma filter_preparing evs : Forall preparing evs -> filter isRun evs = [].
Proof.
  intros H. apply filter_none. eapply Forall_impl; [|exact H]. intros e He. apply He.
Qed.

Lemma preparing_creating evs : Forall preparing evs -> Forall creating evs.
Proof. apply Forall_impl. intros e He. apply He. Qed.

(** Everything [launchAndAssemble] does after the two launches. *)
Definition afterLaunches (fuel : nat) (env : Env) (ssh : SSH)
  (needUploadKeyPair : bool) (pk : string) (masterNum workerNum : Z)
  : M (result Generated) :=
  err <- getInstanceStatus env (StatusRunning env) ;;
  match err with
  | Some e => ret (inl e)
  | None =>
  pp <- getP ;;
  '(masterTasks, err) <- (if (masterNum >? 0) && Options.PublicIPAssignedEIP (opts pp)
                          then allocateEIPForInstance env masterNum true
                          else ret ([], None)) ;;
  match err with
  | Some e => ret (inl e)
  | None =>
  pp <- getP ;;
  '(workerTasks, err) <- (if (workerNum >? 0) && Options.PublicIPAssignedEIP (opts pp)
                          then allocateEIPForInstance env workerNum false
                          else ret ([], None)) ;;
  match err with
  | Some e => ret (inl e)
  | None =>
  pp <- getP ;;
  err <- (if Options.PublicIPAssignedEIP (opts pp)
          then waitEach env (masterTasks ++ workerTasks)
          else ret None) ;;
  match err with
  | Some e => ret (inl e)
  | None =>
  res <- assembleInstanceStatus fuel env ssh needUploadKeyPair pk ;;
  match res with
  | inl e => ret (inl e)
  | inr c =>
      let md := ClusterMetadata c in
      let md := if Metadata.CloudControllerManager md
                then withMasterExtraArgs
                       (Metadata.MasterExtraArgs md ++
                        " --disable-cloud-controller --no-deploy servicelb,traefik") md
                else md in
      ret (inr {| GeneratedCluster :=
                    {| ClusterMetadata := md; ClusterOptions := ClusterOptions c;
                       ClusterStatus := ClusterStatus c |};
                  Mirror := k3sMirror; DockerMirror := dockerMirror |})
  end end end end end.

Lemma afterLaunches_stays fuel env ssh need pk masterNum workerNum :
  Steps (stays settings) (afterLaunches fuel env ssh need pk masterNum workerNum).
Proof.
  unfold afterLaunches.
  staying;
    first [ apply associateNodes_stays | apply waitEach_stays
          | apply describeInstancesFrom_stays | apply assembleEach_stays ].
Qed.

Lemma launchAndAssemble_launches fuel env ssh need pk masterNum workerNum w :
  exists w' evs,
    worldOf (launchAndAssemble fuel env ssh need pk masterNum workerNum w) = w' /\
    trace w' = trace w ++ evs /\ settings (p w') = settings (p w) /\
    Forall creating evs /\
    launchShape env (p w) (Password ssh) masterNum workerNum (filter isRun evs).
Proof.
  set (mreq := runInstancesRequest env (p w) masterNum true (Password ssh)).
  set (wreq := runInstancesRequest env (p w) workerNum false (Password ssh)).
  (* the master batch *)
  assert (Hmaster : exists res w1 masters,
            (if masterNum >? 0 then runInstances env masterNum true (Password ssh)
             else ret None) w = Ok res w1 /\
            trace w1 = trace w ++ masters /\ settings (p w1) = settings (p w) /\
            (if masterNum >? 0 then exists r, masters = [EvRunInstances mreq r]
             else masters = []) /\
            (res = None ->
             Forall (fun e => exists r, e = EvRunInstances mreq r /\ accepted masterNum r)
                    masters) /\
            (res <> None ->
             exists r, masters = [EvRunInstances mreq r] /\ ~ accepted masterNum r)).
  { destruct (masterNum >? 0).
    - destruct (runInstances_run env masterNum true (Password ssh) w)
        as (res & w1 & Hrun & Ht & Hs & Hacc).
      exists res, w1, [EvRunInstances mreq (RunInstances env (trace w) mreq)].
      split; [exact Hrun|]. split; [exact Ht|]. split; [exact Hs|].
      split; [eauto|]. split.
      + intros Hnone. constructor; [|constructor]. eexists. split; [reflexivity|].
        now apply Hacc.
      + intros Hsome. eexists. split; [reflexivity|]. intros Ha. apply Hsome.
        now apply Hacc.
    - exists None, w, []. rewrite app_nil_r. repeat split; auto.
      intros H. now contradiction H. }
  destruct Hmaster as (res1 & w1 & masters & Hrun1 & Ht1 & Hs1 & Hm & Hok1 & Hbad1).
  assert (Hfilter : filter isRun masters = masters /\ Forall creating masters).
  { destruct (masterNum >? 0); [destruct Hm as (r & ->)|subst];
      split; try reflexivity; repeat constructor. }
  destruct Hfilter as [Hfilter Hcm].
  unfold launchAndAssemble. unfold bind at 1. rewrite Hrun1. cbv beta iota.
  destruct res1 as [e|].
  { (* the master batch was refused *)
    cbn [worldOf ret]. exists w1, masters. split; [reflexivity|].
    split; [exact Ht1|]. split; [exact Hs1|]. split; [exact Hcm|].
    rewrite Hfilter. exists masters, []. rewrite app_nil_r.
    split; [reflexivity|]. split; [exact Hm|]. split; [now left|].
    split; [intros H; now contradiction H|]. intros _ _. apply Hbad1. discriminate. }
  (* the worker batch *)
  unfold bind at 1.
  assert (Hworker : exists res w2 workers,
            (if workerNum >? 0 then runInstances env workerNum false (Password ssh)
             else ret None) w1 = Ok res w2 /\
            trace w2 = trace w1 ++ workers /\ settings (p w2) = settings (p w1) /\
            (if workerNum >? 0 then exists r, workers = [EvRunInstances wreq r]
             else workers = [])).
  { destruct (workerNum >? 0).
    - destruct (runInstances_run env workerNum false (Password ssh) w1)
        as (res & w2 & Hrun & Ht & Hs & _).
      rewrite (runInstancesRequest_settings env (p w) (p w1)) in Ht by exact Hs1.
      fold wreq in Ht. eexists res, w2, [_]. split; [exact Hrun|]. split; [exact Ht|].
      split; [exact Hs|]. eauto.
    - exists None, w1, []. rewrite app_nil_r. repeat split; auto. }
  destruct Hworker as (res2 & w2 & workers & Hrun2 & Ht2 & Hs2 & Hw).
  rewrite Hrun2. cbv beta iota.
  assert (Hshape : launchShape env (p w) (Password ssh) masterNum workerNum
                     (masters ++ workers)).
  { exists masters, workers. fold mreq. fold wreq.
    split; [reflexivity|]. split; [exact Hm|].
    destruct (Z.gtb_spec workerNum 0) as [Hpos|Hnot].
    - destruct Hw as (r & ->). split; [right; eauto|]. split.
      + intros _. split; [lia|]. now apply Hok1.
      + discriminate.
    - subst workers. split; [now left|]. split.
      + intros H. now contradiction H.
      + intros _ Hpos. lia. }
  assert (Hfilter2 : filter isRun (masters ++ workers) = masters ++ workers /\
                     Forall creating (masters ++ workers)).
  { rewrite filter_app, Hfilter, Forall_app.
    destruct (workerNum >? 0); [destruct Hw as (r & ->)|subst];
      split; try reflexivity; split; try exact Hcm; repeat constructor. }
  destruct Hfilter2 as [Hfilter2 Hcreating].
  destruct res2 as [e|].
  { cbn [worldOf ret]. exists w2, (masters ++ workers). split; [reflexivity|].
    split; [rewrite Ht2, Ht1; now rewrite <- app_assoc|].
    split; [congruence|]. split; [exact Hcreating|]. now rewrite Hfilter2. }
  (* the rest *)
  destruct (afterLaunches_stays fuel env ssh need pk masterNum workerNum w2)
    as (Hs3 & tail & Ht3 & Htail).
  exists (worldOf (afterLaunches fuel env ssh need pk masterNum workerNum w2)),
         ((masters ++ workers) ++ tail). split; [reflexivity|].
  split; [rewrite Ht3, Ht2, Ht1; now rewrite <- !app_assoc|].
  split; [congruence|].
  split; [apply Forall_app; split; [exact Hcreating|now apply preparing_creating]|].
  rewrite filter_app, Hfilter2, (filter_preparing tail Htail), app_nil_r. exact Hshape.
Qed.

Lemma launchShape_settings env pp pp' password masterNum workerNum runs :
  settings pp' = settings pp ->
  launchShape env pp password masterNum workerNum runs ->
  launchShape env pp' password masterNum workerNum runs.
Proof.
  intros Hs. unfold launchShape.
  now rewrite !(runInstancesRequest_settings env pp pp') by exact Hs.
Qed.

Lemma readOnly_preparing e : readOnly e -> preparing e.
Proof. destruct e; cbn; intros H; try contradiction; split; first [exact I|reflexivity]. Qed.

(** The checks handed to [generateInstance] by its callers:
    [CreateK3sCluster] passes one that returns nil, [JoinK3sNode] passes
    [joinCheck].  Both make preparing calls only. *)
Lemma noCheck_preparing : Steps (grows preparing) (ret (None : option error)).
Proof. apply Steps_ret, grows_refl. Qed.

Lemma joinCheck_preparing fuel env : Steps (grows preparing) (joinCheck fuel env).
Proof.
  intro w. apply (grows_weaken readOnly); [exact readOnly_preparing|].
  assert (H : Steps (grows readOnly) (joinCheck fuel env))
    by (emits; apply describeInstancesFrom_readOnly).
  apply H.
Qed.

(** X19.  Generating instances, with a preflight check that only looks
    things up, never terminates an instance, releases or detaches an address
    or queries resources by tag, and makes none of the provider's own
    operations on log and state files.  (The key pair helper of
    [pkg/providers/utils], called once on the way, is not part of the trace
    and not covered.)  Its launch requests are at most two, the master batch
    before the worker batch, built from the provider's final metadata and
    options, the counts being what [strconv.Atoi] makes of the two count
    settings; the worker batch is sent only if the master batch, when one
    was due, came back with the number of instances asked for; both carry
    the password that a successful run hands back in the SSH settings. *)
Theorem generateInstance_launches fuel env fn ssh calls w :
  Steps (grows preparing) fn ->
  exists w' evs,
    worldOf (generateInstance fuel env fn ssh calls w) = w' /\
    trace w' = trace w ++ evs /\ Forall creating evs /\
    (filter isRun evs = [] \/
     exists password,
       launchShape (cloud env) (p w') password
         (fst (Go.Atoi (Metadata.Master (meta (p w')))))
         (fst (Go.Atoi (Metadata.Worker (meta (p w'))))) (filter isRun evs) /\
       forall res ssh' calls' w'',
         generateInstance fuel env fn ssh calls w = Ok (res, ssh', calls') w'' ->
         Password ssh' = password).
Proof.
  intros Hfn.
  remember (generateInstance fuel env fn ssh calls w) as run eqn:Hrun.
  assert (Hstop : forall w0 evs,
            worldOf run = w0 -> trace w0 = trace w ++ evs -> Forall preparing evs ->
            exists w' evs,
              worldOf run = w' /\ trace w' = trace w ++ evs /\ Forall creating evs /\
              (filter isRun evs = [] \/
               exists password,
                 launchShape (cloud env) (p w') password
                   (fst (Go.Atoi (Metadata.Master (meta (p w')))))
                   (fst (Go.Atoi (Metadata.Worker (meta (p w'))))) (filter isRun evs) /\
                 forall res ssh' calls' w'',
                   run = Ok (res, ssh', calls') w'' -> Password ssh' = password)).
  { intros w0 evs Hw Ht Hf. exists w0, evs. split; [exact Hw|]. split; [exact Ht|].
    split; [now apply preparing_creating|]. left. now apply filter_preparing. }
  unfold generateInstance in Hrun. unfold bind at 1 in Hrun.
  (* the clients *)
  destruct (generateClientSDK_stays (cloud env) w) as (_ & A & HtA & HA).
  destruct (generateClientSDK (cloud env) w) as [[e|] w0|why w0]; cbn [worldOf] in HtA;
    try (subst run; now apply (Hstop w0 A)).
  cbv beta iota in Hrun. unfold bind at 1 in Hrun.
  (* the check *)
  destruct (Hfn w0) as (B & HtB & HB).
  destruct (fn w0) as [[e|] w1|why w1]; cbn [worldOf] in HtB;
    try (subst run; apply (Hstop w1 (A ++ B));
         [reflexivity|rewrite HtB, HtA; now rewrite <- app_assoc|now apply Forall_app]).
  cbv beta iota in Hrun. unfold bind at 1, getP at 1 in Hrun. cbv beta iota in Hrun.
  unfold bind at 1, getTrace at 1 in Hrun. cbv beta iota in Hrun.
  (* the key pair *)
  destruct (CreateKeyPair env (trace w1) ssh ProviderName (Metadata.Name (meta (p w1)))
              (Options.KeyIds (opts (p w1)))) as [e|[pk ssh1]];
    [subst run; apply (Hstop w1 (A ++ B));
     [reflexivity|rewrite HtB, HtA; now rewrite <- app_assoc|now apply Forall_app]|].
  cbv zeta in Hrun. unfold bind at 1 in Hrun.
  (* the network *)
  assert (Hnet : stays meta w1
            (worldOf ((if String.eqb (Options.VpcID (opts (p w1))) ""
                       then configNetwork (cloud env) else ret None) w1))).
  { destruct (String.eqb (Options.VpcID (opts (p w1))) "");
      [apply configNetwork_stays|apply stays_refl]. }
  destruct ((if String.eqb (Options.VpcID (opts (p w1))) ""
             then configNetwork (cloud env) else ret None) w1) as [[e|] w2|why w2];
    cbn [worldOf] in Hnet; destruct Hnet as (Hm2 & C & HtC & HC);
    try (subst run; apply (Hstop w2 (A ++ B ++ C));
         [reflexivity|rewrite HtC, HtB, HtA; now rewrite <- !app_assoc
         |repeat (apply Forall_app; split); assumption]).
  cbv beta iota in Hrun. unfold bind at 1, getP at 1 in Hrun. cbv beta iota in Hrun.
  unfold bind at 1 in Hrun.
  (* the security group *)
  assert (Hgroup : stays meta w2
            (worldOf ((if String.eqb (Options.SecurityGroupIds (opts (p w2))) ""
                       then configSecurityGroup env calls else ret (None, calls)) w2))).
  { destruct (String.eqb (Options.SecurityGroupIds (opts (p w2))) "");
      [apply configSecurityGroup_stays|apply stays_refl]. }
  destruct ((if String.eqb (Options.SecurityGroupIds (opts (p w2))) ""
             then configSecurityGroup env calls else ret (None, calls)) w2)
    as [[[e|] calls1] w3|why w3];
    cbn [worldOf] in Hgroup; destruct Hgroup as (Hm3 & D & HtD & HD);
    try (subst run; apply (Hstop w3 (A ++ B ++ C ++ D));
         [reflexivity|rewrite HtD, HtC, HtB, HtA; now rewrite <- !app_assoc
         |repeat (apply Forall_app; split); assumption]).
  cbv beta iota in Hrun. unfold bind at 1, getP at 1 in Hrun. cbv beta iota in Hrun.
  unfold bind at 1, getTrace at 1 in Hrun. cbv beta iota zeta in Hrun.
  unfold bind at 1 in Hrun.
  (* the launches *)
  match type of Hrun with
  | context [launchAndAssemble fuel (cloud env) ?s ?need pk ?mN ?wN w3] =>
      destruct (launchAndAssemble_launches fuel (cloud env) s need pk mN wN w3)
        as (w' & E & Hw' & HtE & Hs' & HE & Hshape);
      set (ssh2 := s) in *
  end.
  assert (Hmeta : meta (p w') = meta (p w1)).
  { unfold settings in Hs'. injection Hs' as Hm' _. congruence. }
  exists w', ((A ++ B ++ C ++ D) ++ E).
  assert (Hsetup : Forall preparing (A ++ B ++ C ++ D))
    by (repeat (apply Forall_app; split); assumption).
  split.
  { subst run.
    match goal with
    | |- worldOf match ?x with _ => _ end = _ => destruct x as [res0 w4|why w4]
    end; exact Hw'. }
  split; [rewrite HtE, HtD, HtC, HtB, HtA; now rewrite <- !app_assoc|].
  split; [apply Forall_app; split; [now apply preparing_creating|exact HE]|].
  right. exists (Password ssh2). split.
  - rewrite filter_app, (filter_preparing _ Hsetup). cbn [app]. rewrite Hmeta.
    apply (launchShape_settings (cloud env) (p w3)); [exact Hs'|exact Hshape].
  - intros res ssh' calls' w'' Hok. rewrite Hok in Hrun.
    match type of Hrun with
    | _ = match ?x with _ => _ end => destruct x as [res0 w4|why w4]
    end; [|discriminate Hrun].
    unfold ret in Hrun. now injection Hrun as _ -> _ _.
Qed.

(** ** The security group *)

Lemma configDefaultSecurityPermission_first env w :
  exists r rest,
    trace (worldOf (configDefaultSecurityPermission env w)) =
      trace w ++ EvDescribeSecurityGroupPolicies
                   (Options.SecurityGroupIds (opts (p w))) r :: rest /\
    p (worldOf (configDefaultSecurityPermission env w)) = p w.
Proof.
  assert (H : exists w',
            worldOf (configDefaultSecurityPermission env w) = w' /\
            exists r rest,
              trace w' = trace w ++ EvDescribeSecurityGroupPolicies
                                      (Options.SecurityGroupIds (opts (p w))) r :: rest /\
              p w' = p w).
  { unfold configDefaultSecurityPermission, bind at 1, getP at 1. cbv beta iota zeta.
    unfold bind at 1. rewrite call_logged. cbv beta iota.
    set (ans := DescribeSecurityGroupPolicies env (trace w) _).
    set (ev := EvDescribeSecurityGroupPolicies _ ans).
    match goal with
    | |- exists w', worldOf (?k (logged w ev)) = w' /\ _ =>
        assert (Hk : Steps prelude k)
          by (unfold getSubnetCidr; preluding);
        destruct (Hk (logged w ev)) as (Hp & evs & Ht & _);
        exists (worldOf (k (logged w ev)))
    end.
    split; [reflexivity|]. exists ans, evs. split; [|exact Hp].
    rewrite Ht. cbn. now rewrite <- app_assoc. }
  destruct H as (w' & -> & r & rest & Ht & Hp). eauto.
Qed.

Definition created (before : History) (res : result string) : GroupCall :=
  EvCreateSecurityGroup before defaultSecurityGroupName "generated by autok3s"
    ownershipTags res.

(** The group a lookup settles on: the first one listed, unless its
    identifier is empty. *)
Definition groupFound (found : result (list string)) : option string :=
  match found with
  | inr (groupId :: _) => if String.eqb groupId "" then None else Some groupId
  | _ => None
  end.

(** X20.  Configuring the security group looks the default group up once,
    by ownership tag and name.  A failed lookup is returned as it is.  When
    the answer lists a group, the first one listed is adopted, and unless
    its identifier is empty no group is created; otherwise one create call
    is made, and its failure is returned wrapped, without any rule having
    been read or written.  In the two
    remaining cases the rules are reconciled, and the group whose rules are
    read first is the one adopted or created, which the provider's options
    then name. *)
Theorem configSecurityGroup_adopts_or_creates env calls w err calls' w' :
  configSecurityGroup env calls w = Ok (err, calls') w' ->
  let found := DescribeSecurityGroups env (trace w) calls groupFilters in
  let look := EvDescribeSecurityGroups (trace w) groupFilters found in
  exists evs,
    trace w' = trace w ++ evs /\
    match found, groupFound found with
    | inl e, _ => err = Some e /\ calls' = calls ++ [look] /\ evs = [] /\ p w' = p w
    | inr _, Some groupId =>
        calls' = calls ++ [look] /\
        Options.SecurityGroupIds (opts (p w')) = groupId /\
        exists r rest, evs = EvDescribeSecurityGroupPolicies groupId r :: rest
    | inr _, None =>
        let made := CreateSecurityGroup env (trace w) (calls ++ [look])
                      defaultSecurityGroupName "generated by autok3s" ownershipTags in
        calls' = calls ++ [look; created (trace w) made] /\
        match made with
        | inl e =>
            err = Some (Errorf "[%s] fail to create default security group %s: %v"
                          [VStr ProviderName; VStr defaultSecurityGroupName;
                           VErr (Some e)]) /\
            evs = []
        | inr groupId =>
            Options.SecurityGroupIds (opts (p w')) = groupId /\
            exists r rest, evs = EvDescribeSecurityGroupPolicies groupId r :: rest
        end
    end.
Proof.
  intros Hrun found look.
  pose (reconcile := fun calls0 : list GroupCall =>
          err <- configDefaultSecurityPermission (cloud env);; ret (err, calls0)).
  pose (adopted := fun groupId w0 =>
          {| p := withOpts (setSecurityGroupIds groupId) (p w0); trace := trace w0;
             ErrWaitTimeout := ErrWaitTimeout w0 |}).
  pose (made := CreateSecurityGroup env (trace w) (calls ++ [look])
                  defaultSecurityGroupName "generated by autok3s" ownershipTags).
  assert (Heq : configSecurityGroup env calls w =
            match found with
            | inl e => Ok (Some e, calls ++ [look]) w
            | inr set =>
                let w1 := match set with
                          | groupId :: _ => adopted groupId w
                          | [] => w
                          end in
                match groupFound found with
                | Some _ => reconcile (calls ++ [look]) w1
                | None =>
                    match made with
                    | inl e =>
                        Ok (Some (Errorf "[%s] fail to create default security group %s: %v"
                                    [VStr ProviderName; VStr defaultSecurityGroupName;
                                     VErr (Some e)]),
                            (calls ++ [look]) ++ [created (trace w) made]) w1
                    | inr groupId =>
                        reconcile ((calls ++ [look]) ++ [created (trace w) made])
                          (adopted groupId w1)
                    end
                end
            end).
  { unfold configSecurityGroup, generateDefaultSecurityGroup, reconcile, created.
    unfold bind, getTrace, setP, ret. cbv beta iota zeta.
    unfold made, look, found, groupFound.
    destruct (DescribeSecurityGroups env (trace w) calls groupFilters)
      as [e|[|groupId rest0]]; [reflexivity| |].
    - cbn [String.eqb]. destruct (CreateSecurityGroup _ _ _ _ _ _); reflexivity.
    - destruct (String.eqb groupId "");
        [destruct (CreateSecurityGroup _ _ _ _ _ _)|]; reflexivity. }
  rewrite Heq in Hrun. clear Heq.
  assert (Hrules : forall w0 calls0,
            reconcile calls0 w0 = Ok (err, calls') w' ->
            calls' = calls0 /\
            Options.SecurityGroupIds (opts (p w')) = Options.SecurityGroupIds (opts (p w0)) /\
            exists r rest,
              trace w' = trace w0 ++
                EvDescribeSecurityGroupPolicies
                  (Options.SecurityGroupIds (opts (p w0))) r :: rest).
  { intros w0 calls0 H. unfold reconcile, bind at 1 in H.
    destruct (configDefaultSecurityPermission_first (cloud env) w0)
      as (r & rest & Ht & Hp).
    destruct (configDefaultSecurityPermission (cloud env) w0) as [err0 w1|why w1];
      [|discriminate H].
    unfold ret in H. injection H as <- <- <-. cbn [worldOf] in *.
    split; [reflexivity|]. split; [now rewrite Hp|]. eauto. }
  clearbody reconcile.
  destruct found as [e|set] eqn:Hfound.
  - injection Hrun as <- <- <-. exists []. rewrite app_nil_r. auto.
  - cbv zeta in Hrun.
    assert (Hcases : forall w1, trace w1 = trace w ->
              match groupFound (inr set) with
              | Some _ => reconcile (calls ++ [look]) w1
              | None =>
                  match made with
                  | inl e =>
                      Ok (Some (Errorf "[%s] fail to create default security group %s: %v"
                                  [VStr ProviderName; VStr defaultSecurityGroupName;
                                   VErr (Some e)]),
                          (calls ++ [look]) ++ [created (trace w) made]) w1
                  | inr groupId =>
                      reconcile ((calls ++ [look]) ++ [created (trace w) made])
                        (adopted groupId w1)
                  end
              end = Ok (err, calls') w' ->
              (forall groupId, groupFound (inr set) = Some groupId ->
                 Options.SecurityGroupIds (opts (p w1)) = groupId) ->
              exists evs,
                trace w' = trace w ++ evs /\
                match groupFound (inr set) with
                | Some groupId =>
                    calls' = calls ++ [look] /\
                    Options.SecurityGroupIds (opts (p w')) = groupId /\
                    exists r rest, evs = EvDescribeSecurityGroupPolicies groupId r :: rest
                | None =>
                    calls' = calls ++ [look; created (trace w) made] /\
                    match made with
                    | inl e =>
                        err = Some (Errorf "[%s] fail to create default security group %s: %v"
                                      [VStr ProviderName; VStr defaultSecurityGroupName;
                                       VErr (Some e)]) /\
                        evs = []
                    | inr groupId =>
                        Options.SecurityGroupIds (opts (p w')) = groupId /\
                        exists r rest, evs = EvDescribeSecurityGroupPolicies groupId r :: rest
                    end
                end).
    { intros w1 Ht1 H Hid. destruct (groupFound (inr set)) as [groupId|].
      - apply Hrules in H as (-> & Hid' & r & rest & Ht).
        rewrite (Hid groupId eq_refl) in *. rewrite Ht1 in Ht.
        eexists. split; [exact Ht|]. split; [reflexivity|]. split; [exact Hid'|]. eauto.
      - destruct made as [e|groupId].
        + injection H as <- <- <-. exists []. rewrite app_nil_r.
          split; [now symmetry|]. split; [now rewrite <- app_assoc|]. auto.
        + apply Hrules in H as (-> & Hid' & r & rest & Ht).
          unfold adopted in Hid', Ht. cbn [p trace opts withOpts setSecurityGroupIds
            Options.SecurityGroupIds] in Hid', Ht. rewrite Ht1 in Ht.
          eexists. split; [exact Ht|]. split; [now rewrite <- app_assoc|].
          split; [exact Hid'|]. eauto. }
    destruct (Hcases (match set with groupId :: _ => adopted groupId w | [] => w end)
                ltac:(destruct set; reflexivity) Hrun) as (evs & Ht & Hres).
    { intros groupId Hg. destruct set as [|g rest0]; [discriminate Hg|].
      cbn [groupFound] in Hg. destruct (String.eqb g ""); [discriminate Hg|].
      now injection Hg as <-. }
    exists evs. split; [exact Ht|]. exact Hres.
Qed.

(** An account that has a network and a subnet under the default names, but
    no security group and no instance yet. *)
Definition freshAccount : Creator :=
  {| cloud := Scripted.env
       [ Scripted.OnDescribeInstances
           (fun _ _ _ _ => inr {| InstanceSet := []; TotalCount := 0 |});
         Scripted.OnDescribeVpcs (fun _ _ => inr [ {| VpcId := "vpc-1" |} ]);
         Scripted.OnDescribeSubnets
           (fun _ _ _ => inr (Some [ {| SubnetId := "subnet-1"; SubnetVpcId := "vpc-1";
                                        SubnetCidrBlock := subnetCidrBlock |} ]));
         Scripted.OnDescribeSecurityGroupPolicies (fun _ _ => inr None);
         Scripted.OnRunInstances (fun _ _ => inr ["ins-1"%string]) ];
     DescribeSecurityGroups := fun _ _ _ => inr [];
     CreateSecurityGroup := fun _ _ _ _ _ => inr "sg-new"%string;
     CreateKeyPair := fun _ ssh _ _ _ => inr ("public key"%string, ssh);
     RandomPassword := fun _ => "secret"%string |}.

Definition freshGroupCalls : list GroupCall :=
  [ EvDescribeSecurityGroups [] groupFilters (inr []);
    created [] (inr "sg-new"%string) ].

Definition freshGroupEnd : World :=
  worldOf (configSecurityGroup freshAccount [] absentStart).

Lemma configSecurityGroup_freshAccount :
  configSecurityGroup freshAccount [] absentStart = Ok (None, freshGroupCalls) freshGroupEnd.
Proof. vm_compute. reflexivity. Qed.

Lemma configSecurityGroup_adopts_or_creates_witness :
  exists evs,
    trace freshGroupEnd = trace absentStart ++ evs /\
    freshGroupCalls = [] ++ [ EvDescribeSecurityGroups [] groupFilters (inr []);
                              created [] (inr "sg-new"%string) ] /\
    Options.SecurityGroupIds (opts (p freshGroupEnd)) = "sg-new"%string /\
    exists r rest, evs = EvDescribeSecurityGroupPolicies "sg-new" r :: rest.
Proof.
  exact (configSecurityGroup_adopts_or_creates freshAccount [] absentStart None
           freshGroupCalls freshGroupEnd configSecurityGroup_freshAccount).
Defined.

(** ** A first launch *)

Definition rootLogin : SSH :=
  {| User := "root"; Port := "22"; Password := ""; SSHKeyPath := "" |}.

Lemma generateInstance_launches_witness :
  exists w' evs,
    worldOf (generateInstance 1 freshAccount (ret None) rootLogin [] absentStart) = w' /\
    trace w' = trace absentStart ++ evs /\ Forall creating evs /\
    (filter isRun evs = [] \/
     exists password,
       launchShape (cloud freshAccount) (p w') password
         (fst (Go.Atoi (Metadata.Master (meta (p w')))))
         (fst (Go.Atoi (Metadata.Worker (meta (p w'))))) (filter isRun evs) /\
       forall res ssh' calls' w'',
         generateInstance 1 freshAccount (ret None) rootLogin [] absentStart =
           Ok (res, ssh', calls') w'' ->
         Password ssh' = password).
Proof.
  exact (generateInstance_launches 1 freshAccount (ret None) rootLogin [] absentStart
           noCheck_preparing).
Defined.

(** On that account one launch is requested, of the master, with the
    generated password and the security group just created. *)
Example first_launch_uses_generated_password :
  map (fun e => match e with
                | EvRunInstances req _ =>
                    (InstanceName req, LoginPassword req, ReqSecurityGroupIds req)
                | _ => (""%string, None, [])
                end)
      (filter isRun
         (trace (worldOf (generateInstance 1 freshAccount (ret None)
                            rootLogin [] absentStart)))) =
  [ ("autok3s.demo.master"%string, Some "secret"%string, ["sg-new"%string]) ].
Proof. vm_compute. reflexivity. Qed.

(** The counts are read with [strconv.Atoi] and the error is dropped.  A
    worker count that runs out of range before its last byte is read is the
    largest number, not 0: a worker batch of that size is asked for. *)
Definition overflowingWorkers : Tencent :=
  let pp := Scripted.provider "demo" "0" in
  {| meta := {| Metadata.Name := "demo"; Metadata.Master := "0";
                Metadata.Worker := "99999999999999999999x"; Metadata.UI := false;
                Metadata.Cluster := false; Metadata.DataStore := "";
                Metadata.Network := ""; Metadata.MasterExtraArgs := "";
                Metadata.CloudControllerManager := false;
                Metadata.Tags := [] |};
     opts := opts pp; status := status pp;
     c := false; v := false; t := false; r := false; m := [] |}.

Example overflowing_count_launches_workers :
  map (fun e => match e with
                | EvRunInstances req _ => (InstanceName req, InstanceCount req)
                | _ => (""%string, 0)
                end)
      (filter isRun
         (trace (worldOf (generateInstance 1 freshAccount (ret None) rootLogin []
                            (Scripted.world overflowingWorkers))))) =
  [ ("autok3s.demo.worker"%string, 2 ^ 63 - 1) ].
Proof. vm_compute. reflexivity. Qed.
